(* ===== verification/_CoqProject ===== *)
-Q . S2P
Prelude.v
GoStrings.v
GoPath.v
GoEncoding.v
GoQuote.v
Effects.v
OS.v
Cmdline.v
Only.v
Steps.v
FileWorld.v
System.v
BootInit.v
Bootstrap.v
BootstrapSpec.v
BootstrapWhole.v
DiskMode.v
DiskSpec.v
LiveModes.v
LiveSpec.v
Finalize.v
FinalizeSpec.v
FinalizeWhole.v
PartNames.v
ModeDetect.v
ModeDetectSpec.v
TestMode.v
TestModeSpec.v
Config.v
ConfigSpec.v
ConfigMerge.v
MountPkg.v
MountSpec.v
Shadow.v
ShadowSpec.v
LoopDev.v
LoopSyscall.v
DiskUtil.v
WriteFiles.v
Ssh.v
WriteFilesSpec.v
CC.v
CCSpec.v
Component.v
DevPopulate.v
EnterChroot.v
EnterChrootSpec.v
Upgrade.v
GoMatch.v
Modalias.v
Rc.v
RcSpec.v
Virt.v
Command.v
FlagSource.v
Osimpl.v
Walk.v
TransferRoot.v
TransferRootSpec.v
Questions.v
QuestionsSpec.v
CliConfig.v
Installer.v
InstallerSpec.v
BootCalls.v
App.v
Main.v
MainSpec.v
AppSpec.v
InitrdSpec.v
