(* ===== verification/Prelude.v ===== *)
(** * The verification of k3os-bin

    k3os-bin is the single binary of the k3OS distribution (Go, under src/): as /init it boots the
    machine, and as "k3os" and "rc" it applies the cloud configuration, installs, upgrades and sets
    the machine up.  This library models the parts that decide what happens to a machine and proves
    what makes them correct.

    ** The program and its parts

    [main.go] dispatches on the name the process was started with.  As the init of the initramfs it
    moves the root file system to a tmpfs of its own ([internal/transferroot]), finds the image with
    the real root in its own binary and enters it ([internal/enterchroot]); as the init of that root
    it wires up and runs the boot.  The boot goes through [internal/boot]: the orchestrator
    ([init.go]) runs the bootstrapper, the detection of the boot mode ([internal/mode]), the handler
    of that mode ([boot/modes]: disk, live, install, local, shell), the finalizer ([boot/finalize])
    and then executes /sbin/init; any failure ends in a rescue shell.  The bootstrapper runs rc
    ([internal/cli/rc], with [devpopulate], [modalias], [namespace]); the disk handler can also
    factory-reset the machine (takeover) and grow the partition that holds the state
    ([internal/diskutil]).  Both it and the finalizer read the configuration ([internal/config], with
    [flagsource]) and apply it ([internal/cc], with [hostname], [writefile], [ssh], [shadow],
    [command]).  On the command line the binary applies the configuration ([internal/cli/config]),
    asks for one and installs ([internal/cliinstall], with [questions]), and upgrades
    ([internal/cli/upgrade], with [system/component.go]).  Below are mounting and the tracking of
    mounts ([internal/mount], [internal/namespace]) and loop devices ([internal/loopdev]).  All of
    them reach the operating system through the interfaces of [internal/iface/iface.go], implemented
    by [iface/osimpl].

    ** How it is modelled

    A Go function that touches the outside is a program ([Effects.prog]): a tree of calls, each with
    the continuation for every answer.  The calls ([OS.call]) are the methods of the interfaces, and,
    for the packages under them, the system and library calls.  A Go [(T, error)] is a [result].
    Errors keep their format, arguments and wrapped error, so which message is returned is part of
    the model; [errors.Is] and [os.IsNotExist] are functions on them.  Control flow is written as in
    the source: [let!] returns at the first error, [let*] goes on, [for_each] is a loop left at the
    first error, [for_fold] a loop that carries variables, a deferred call comes after the rest.

    Three ways of running a program serve three kinds of theorem.  [exec] relates it to every
    behaviour, also one cut off at any point, the answers constrained only by a rely ([any_resp]: not
    at all); [wp] is the program logic for it, with a promise about each call made from the history
    before it ([guar]) and a postcondition; [run] executes it against a concrete machine, such as the
    file system of [FileWorld].  [peq] is equality of programs, [interp] replaces calls by programs,
    and [only] says that all calls of a program satisfy a predicate, shown by going through its text.

    Go's strings are byte strings; [GoStrings], [GoPath], [GoEncoding] and [GoQuote] define what the
    program uses of the standard library on them (UTF-8, strings, path, strconv, bufio, base64), with
    the lemmas the components share.  Unicode's tables beyond ASCII are a parameter
    ([UnicodeTables]), so theorems hold for every version of them.  Integers are [Z], with the wrap-around
    of uint64 and uint32 written out where they are computed with.  A [range] over a map asks the
    world for the order ([range_order]), so theorems hold for every order.

    ** Files

    - [Prelude], [GoStrings], [GoPath], [GoEncoding], [GoQuote], [GoMatch], [Effects], [OS], [Only],
      [Steps], [FileWorld], [Walk]: the base described above; [GoMatch] is path.Match, [Walk] filepath.Walk,
      [Steps] the rules for a phase that is a list of named steps.
    - [System]: [internal/system/system.go], the paths.
    - [BootInit]: [boot/init.go].  [Init_Run] over any signature of calls; its specification is the
      automaton [boot_step].  C1 to C3: every behaviour is a path of the automaton, the orchestrator
      with concrete phases refines the abstract one, and /sbin/init is executed only when every phase
      succeeded.
    - [Main], [MainSpec], [BootCalls]: [main.go], which puts the phases together.  C4: the concrete
      boot hands the machine over to the next init only after runs of its phases that all succeeded;
      C5: over the production adapters it keeps that promise on the machine.  [BootCalls] has the
      lemma of each component this rests on.
    - [App], [AppSpec]: [internal/cli/app] with the commands' declarations: C6, under a handler's name
      the process is that handler, else a command acts only after its check.
    - [InitrdSpec]: C7, the two stages of the init, with the promises of the parts they run.
    - [Bootstrap], [BootstrapSpec], [BootstrapWhole]: [boot/bootstrap]: C8, what its steps may do and
      what they leave behind; the account files gain exactly their lines.
    - [DiskMode], [DiskSpec]: [boot/modes/disk.go]: C9, partitions are grown only unmounted and the
      pivot is made only into a mounted target; C10, a factory reset deletes only what it may.
    - [LiveModes], [LiveSpec]: [live.go], [local.go], [shell.go], [handler.go]: C11, what each mode
      does, and that its handler ends.
    - [Finalize], [FinalizeSpec], [FinalizeWhole]: [boot/finalize]: C12, what its steps may do and
      what they leave behind.  [PartNames]: the two ways of splitting partition names, C40.
    - [ModeDetect], [ModeDetectSpec]: [internal/mode]: C27, C37, C38, the mode recorded is valid, the
      polling ends, and what one look finds.
    - [TestMode], [TestModeSpec]: [boot/testmode]: C39, what the report says.
    - [Config], [ConfigSpec], [ConfigMerge]: [internal/config]: words of the command line and keys;
      C24, which source a setting of the configuration comes from.
    - [MountPkg], [MountSpec]: [internal/mount] and [internal/namespace]: a target is mounted once,
      unmounting goes in reverse; C34, what is mounted is tracked.
    - [Shadow], [ShadowSpec]: [internal/shadow]: C14, /etc/shadow is replaced atomically; C15, by a
      text that differs in one field.
    - [LoopDev], [LoopSyscall]: [internal/loopdev]: C16, however goroutines race a device is closed
      once; C17, no descriptor is leaked; C18, the bytes the kernel is handed.
    - [DiskUtil]: [internal/diskutil]: C26, an MBR partition stays on the disk.
    - [WriteFiles], [Ssh], [WriteFilesSpec]: [internal/writefile], [internal/util/decode.go],
      [internal/ssh]: C20, files appear whole.
    - [CC], [CCSpec]: [internal/cc] and [internal/hostname]: C19, the environment survives
      /etc/environment; C23, what is run to install k3s; C25, a phase runs all its appliers.
    - [Component]: [internal/system/component.go]: C22, the "current" version is switched last.
    - [Upgrade]: [internal/cli/upgrade]: C31, all of it happens under the lock.
    - [DevPopulate]: [internal/devpopulate]: C28, where nodes and links are made.
    - [Modalias], [Rc], [RcSpec]: [internal/modalias], [internal/kernel], [internal/cli/rc]: C33, what
      rc does whatever fails.
    - [TransferRoot], [TransferRootSpec]: [internal/transferroot]: C21, relocating the root loses no
      file.
    - [EnterChroot], [EnterChrootSpec]: [internal/enterchroot]: C29, C30, the order in which the new
      root is made and entered; C35, the search for the image ends with its offset.
    - [Questions], [QuestionsSpec], [Installer], [InstallerSpec]: [internal/questions],
      [internal/util/prompt.go], [internal/cliinstall]: C13, nothing is formatted without consent; C32,
      the dialogue ends and keeps what is configured.
    - [CliConfig]: [internal/cli/config] and [config.Write]; [FlagSource]: [internal/flagsource], a file
      of quoted arguments reads back;
      [Cmdline]: [internal/cmdline], both parsers behind [iface.CmdlineParser]; [Virt]:
      [internal/virt]; [Command]: [internal/command].
    - [Osimpl]: [iface/osimpl]: which file a sysctl writes; C36, a link that [DevPopulate] makes
      is found by its label.  Its module [Unsupported] is what other platforms get, in this package
      and in [internal/mount] and [internal/virt].

    ** Fuel and bounds

    Loops over lists are structural.  The loops without a bound in the source take fuel and stop with
    [OutOfFuel] without it: unmounting /.base (as much fuel as mounts is enough), polling for the mode
    (C37: timeout over pause is enough), the recursion into nested maps of [Config] (its depth is
    enough), the search for the image (C35: more than the binary's length), and the questions (C32:
    more than there are lines and keys to read).  A walk of the file system goes as deep as a path can
    be long, [PATH_MAX] (C21).  The waits for devices have the source's own bounds.

    ** Parameters

    Code outside src/ is a parameter of the definitions that use it: the YAML codec, mergo,
    mapstructure, gzip, url, shacrypt and JSON (gathered in [CliConfig.ThirdParty] for the programs
    that use them all), [unix.Mkdev] ([MountPkg], [DevPopulate], [Rc]), error texts and the marshalling
    of the report ([TestMode]), the splitting into words ([FlagSource]); table libraries, modprobe,
    blkid, the copying library, the kernel and the HTTP client are calls.  What is relied on is a class
    with its laws: [Mergo], the documented merging of maps ([ConfigMerge], with an instance that
    satisfies it); [CliLibrary], the order in which urfave/cli runs what it parsed ([App]); [Reexec],
    which handler runs ([Main]); [CmdLineMethods] has u-root's lookups ([Cmdline]) and no law.
    Logging is left out.

    ** Not modelled

    Logging, the [String] methods that only feed it, and the constructors that only fill a struct.  The
    methods of a loop device that [Attach] returned stay calls in the boot over the production adapters
    ([LoopDev] and [LoopSyscall] have their code).  The end-to-end and integration tests are no part
    of the program. *)

From stdpp Require Export base list strings gmap.
From Stdlib Require Export ZArith Lia Ascii.

Declare Scope go_scope.
Delimit Scope go_scope with go.

(** ** Error values *)

(** The operating system's error numbers the code distinguishes: [os.IsNotExist] and [os.IsExist]
    look for the first two. *)
Inductive errno := ENOENT | EEXIST | EOTHER (n : Z).

(** A non-nil Go [error].  [ErrSys] is a [*PathError], [*LinkError] or bare [Errno] of the operating
    system; [ErrText] an error of another origin, known by its text; [ErrFmt f args w] what
    [fmt.Errorf f args] builds, [w] the error under its [%w] verb; [ErrJoin] the value of
    [errors.Join]; [ErrExecCalled] the sentinel of package [modes]; [ErrSilentSkip] the sentinel of
    package [namespace]. *)
#[warnings="-register-all"]
Inductive error :=
| ErrSys (op path : string) (no : errno)
| ErrText (msg : string)
| ErrFmt (format : string) (args : list string) (wrapped : option error)
| ErrJoin (errs : list error)
| ErrExecCalled (path : string) (args env : list string)
| ErrSilentSkip.

(** Go's [(T, error)] returns, where the code uses the value only when the error is nil. *)
Inductive result (A : Type) :=
| Ok (a : A)
| Err (e : error).
Arguments Ok {A} a.
Arguments Err {A} e.

Definition is_ok {A} (r : result A) : bool :=
  match r with Ok _ => true | Err _ => false end.

(** [os.IsNotExist] does not look under a wrapped error; [errors.Is(err, os.ErrNotExist)] does. *)
Definition os_IsNotExist (e : error) : bool :=
  match e with ErrSys _ _ ENOENT => true | _ => false end.

Definition os_IsExist (e : error) : bool :=
  match e with ErrSys _ _ EEXIST => true | _ => false end.

Fixpoint errors_Is_NotExist (e : error) : bool :=
  match e with
  | ErrSys _ _ ENOENT => true
  | ErrFmt _ _ (Some w) => errors_Is_NotExist w
  | ErrJoin es => existsb errors_Is_NotExist es
  | _ => false
  end.

Fixpoint errors_Is_SilentSkip (e : error) : bool :=
  match e with
  | ErrSilentSkip => true
  | ErrFmt _ _ (Some w) => errors_Is_SilentSkip w
  | ErrJoin es => existsb errors_Is_SilentSkip es
  | _ => false
  end.

(** [fmt.Errorf] with a [%w] verb, and without one. *)
Definition Errorf_w (format : string) (args : list string) (e : error) : error :=
  ErrFmt format args (Some e).
Definition Errorf (format : string) (args : list string) : error :=
  ErrFmt format args None.

(** An octal literal of the source: [oct 755] is [0o755]. *)
Definition oct (n : Z) : Z :=
  (n / 1000) mod 10 * 512 + (n / 100) mod 10 * 64 + (n / 10) mod 10 * 8 + n mod 10.

(** Conversion to, and arithmetic in, [uint64] and [uint32]. *)
Definition u64 (z : Z) : Z := (z mod 2 ^ 64)%Z.
Definition u32 (z : Z) : Z := (z mod 2 ^ 32)%Z.

Lemma u64_small z : (0 <= z < 2 ^ 64)%Z -> u64 z = z.
Proof. apply Z.mod_small. Qed.

(** ** Results *)

Section Results.
Context {A B : Type}.

Definition result_bind (r : result A) (f : A -> result B) : result B :=
  match r with Ok a => f a | Err e => Err e end.

Definition result_map (f : A -> B) (r : result A) : result B :=
  match r with Ok a => Ok (f a) | Err e => Err e end.
End Results.

Notation "'let?' x ':=' r 'in' k" := (result_bind r (fun x => k))
  (at level 10, x name, r at level 100, k at level 200) : go_scope.
Notation "'let?' ' p ':=' r 'in' k" := (result_bind r (fun p => k))
  (at level 10, p pattern, r at level 100, k at level 200) : go_scope.

(** ** Automation *)

Create HintDb go discriminated.
Create Rewrite HintDb go.

(** Case analysis on the scrutinee of a match or conditional in the goal or in a hypothesis. *)
Ltac case_step :=
  match goal with
  | H : context [match ?x with _ => _ end] |- _ => destruct x eqn:?
  | |- context [match ?x with _ => _ end] => destruct x eqn:?
  end.

Ltac crush := repeat (simplify_eq/=; try case_step); try done; eauto with go.

(** ** Lists *)

Lemma last_head_rev {A} (l : list A) : last l = head (rev l).
Proof. rewrite <- head_reverse. unfold reverse. by rewrite <- rev_alt. Qed.
