(* ===== verification/GoStrings.v ===== *)
(** * GoStrings: the functions of Go's [strings], [unicode], [unicode/utf8] and [bufio] the program
    calls, on byte strings.  A Go [string] and a [[]byte] are both a Rocq [string]: one [ascii] per
    byte.  Functions that look at runes decode UTF-8 the way Go does: an invalid byte is one rune
    U+FFFD of width 1. *)

From S2P Require Import Prelude.
Open Scope string_scope.
Open Scope list_scope.

(** ** Bytes *)

Definition byte_of (a : ascii) : Z := Z.of_nat (nat_of_ascii a).
Definition of_byte (z : Z) : ascii := ascii_of_nat (Z.to_nat z).

Definition nl : string := String "010" EmptyString.
Definition dq : string := String "034" EmptyString.

Fixpoint chars (s : string) : list ascii :=
  match s with EmptyString => [] | String c s' => c :: chars s' end.

Fixpoint of_chars (l : list ascii) : string :=
  match l with [] => EmptyString | c :: l' => String c (of_chars l') end.

Definition concat_str (l : list string) : string := foldr String.append EmptyString l.

(** [len(s)], and [s[:n]], [s[n:]] within bounds. *)
Definition str_take (n : nat) (s : string) : string := of_chars (take n (chars s)).
Definition str_drop (n : nat) (s : string) : string := of_chars (drop n (chars s)).

Definition is_digit (c : ascii) : bool :=
  (48 <=? byte_of c)%Z && (byte_of c <=? 57)%Z.

(** ** UTF-8 *)

Definition is_cont (c : ascii) : bool :=
  (128 <=? byte_of c)%Z && (byte_of c <=? 191)%Z.
Definition in_range (lo hi : Z) (c : ascii) : bool :=
  (lo <=? byte_of c)%Z && (byte_of c <=? hi)%Z.
Definition low6 (c : ascii) : Z := Z.land (byte_of c) 63.

Definition rune_error : Z := 65533.

(** The runes of [s], each with the bytes it was decoded from ([utf8.DecodeRuneInString] repeated). *)
Fixpoint runes (s : string) : list (Z * string) :=
  match s with
  | EmptyString => []
  | String a r0 =>
      let b := byte_of a in
      let bad := (rune_error, String a EmptyString) in
      if (b <? 128)%Z then (b, String a EmptyString) :: runes r0
      else if in_range 194 223 a then
        match r0 with
        | String a1 r1 =>
            if is_cont a1
            then ((Z.land b 31) * 64 + low6 a1, String a (String a1 EmptyString))%Z :: runes r1
            else bad :: runes r0
        | EmptyString => bad :: runes r0
        end
      else if in_range 224 239 a then
        let lo := if (b =? 224)%Z then 160%Z else 128%Z in
        let hi := if (b =? 237)%Z then 159%Z else 191%Z in
        match r0 with
        | String a1 (String a2 r2) =>
            if in_range lo hi a1 && is_cont a2
            then ((Z.land b 15) * 4096 + low6 a1 * 64 + low6 a2,
                  String a (String a1 (String a2 EmptyString)))%Z :: runes r2
            else bad :: runes r0
        | _ => bad :: runes r0
        end
      else if in_range 240 244 a then
        let lo := if (b =? 240)%Z then 144%Z else 128%Z in
        let hi := if (b =? 244)%Z then 143%Z else 191%Z in
        match r0 with
        | String a1 (String a2 (String a3 r3)) =>
            if in_range lo hi a1 && is_cont a2 && is_cont a3
            then ((Z.land b 7) * 262144 + low6 a1 * 4096 + low6 a2 * 64 + low6 a3,
                  String a (String a1 (String a2 (String a3 EmptyString))))%Z :: runes r3
            else bad :: runes r0
        | _ => bad :: runes r0
        end
      else bad :: runes r0
  end.

(** [utf8.AppendRune]: surrogates and values past U+10FFFF are written as U+FFFD. *)
Definition encode_rune (r : Z) : string :=
  let c z := of_byte z in
  if (r <? 0)%Z then String (c 239%Z) (String (c 191%Z) (String (c 189%Z) EmptyString))
  else if (r <? 128)%Z then String (c r) EmptyString
  else if (r <? 2048)%Z then
    String (c (192 + Z.shiftr r 6)%Z) (String (c (128 + Z.land r 63)%Z) EmptyString)
  else if ((55296 <=? r) && (r <=? 57343) || (1114111 <? r))%Z then
    String (c 239%Z) (String (c 191%Z) (String (c 189%Z) EmptyString))
  else if (r <? 65536)%Z then
    String (c (224 + Z.shiftr r 12)%Z)
      (String (c (128 + Z.land (Z.shiftr r 6) 63)%Z)
         (String (c (128 + Z.land r 63)%Z) EmptyString))
  else
    String (c (240 + Z.shiftr r 18)%Z)
      (String (c (128 + Z.land (Z.shiftr r 12) 63)%Z)
         (String (c (128 + Z.land (Z.shiftr r 6) 63)%Z)
            (String (c (128 + Z.land r 63)%Z) EmptyString))).

(** ** Character classes *)

Definition in_ranges (tbl : list (Z * Z)) (r : Z) : bool :=
  existsb (fun p => (fst p <=? r)%Z && (r <=? snd p)%Z) tbl.

(** [unicode.IsSpace]: the White_Space property. *)
Definition unicode_IsSpace (r : Z) : bool :=
  in_ranges [(9, 13); (32, 32); (133, 133); (160, 160); (5760, 5760); (8192, 8202);
             (8232, 8233); (8239, 8239); (8287, 8287); (12288, 12288)]%Z r.

(** [unicode.Quotation_Mark]. *)
Definition unicode_Quotation_Mark (r : Z) : bool :=
  in_ranges [(34, 34); (39, 39); (171, 171); (187, 187); (8216, 8223); (8249, 8250);
             (11842, 11842); (12300, 12303); (12317, 12319); (65089, 65092); (65282, 65282);
             (65287, 65287); (65378, 65379)]%Z r.

(** Go's case tables beyond ASCII.  The functions below use the ASCII rows and take the rest of the
    tables as this parameter, so that what is proved of them holds for every version of Unicode. *)
Class UnicodeTables := {
  uni_upper : Z -> bool;
  uni_lower : Z -> bool;
  uni_digit : Z -> bool;
  uni_to_lower : Z -> Z;
  uni_to_upper : Z -> Z;
  uni_print : Z -> bool;
}.

(** Tables with no cased rune beyond ASCII, to run the definitions with. *)
#[export] Instance ascii_tables : UnicodeTables := {|
  uni_upper _ := false; uni_lower _ := false; uni_digit _ := false;
  uni_to_lower r := r; uni_to_upper r := r; uni_print _ := true |}.

Section Unicode.
Context `{UnicodeTables}.

Definition unicode_IsUpper (r : Z) : bool :=
  if (r <? 128)%Z then in_ranges [(65, 90)%Z] r else uni_upper r.
Definition unicode_IsLower (r : Z) : bool :=
  if (r <? 128)%Z then in_ranges [(97, 122)%Z] r else uni_lower r.
Definition unicode_IsDigit (r : Z) : bool :=
  if (r <? 128)%Z then in_ranges [(48, 57)%Z] r else uni_digit r.
Definition unicode_ToLower (r : Z) : Z :=
  if (r <? 128)%Z then (if in_ranges [(65, 90)%Z] r then r + 32 else r)%Z else uni_to_lower r.
Definition unicode_ToUpper (r : Z) : Z :=
  if (r <? 128)%Z then (if in_ranges [(97, 122)%Z] r then r - 32 else r)%Z else uni_to_upper r.
Definition unicode_IsPrint (r : Z) : bool :=
  if (r <? 128)%Z then in_ranges [(32, 126)%Z] r else uni_print r.

(** [strings.ToLower], [strings.ToUpper]: [strings.Map] over the runes. *)
Definition strings_ToLower (s : string) : string :=
  concat_str (map (fun p => encode_rune (unicode_ToLower (fst p))) (runes s)).
Definition strings_ToUpper (s : string) : string :=
  concat_str (map (fun p => encode_rune (unicode_ToUpper (fst p))) (runes s)).
End Unicode.

(** ** package strings *)

Definition strings_HasPrefix (s pre : string) : bool := String.prefix pre s.

Definition strings_TrimPrefix (s pre : string) : string :=
  if strings_HasPrefix s pre then str_drop (String.length pre) s else s.

Fixpoint strings_Contains (s sub : string) : bool :=
  String.prefix sub s ||
  match s with EmptyString => false | String _ s' => strings_Contains s' sub end.

Fixpoint strings_Index_go (i : Z) (s sub : string) : Z :=
  if String.prefix sub s then i
  else match s with
       | EmptyString => (-1)%Z
       | String _ s' => strings_Index_go (i + 1)%Z s' sub
       end.
Definition strings_Index (s sub : string) : Z := strings_Index_go 0 s sub.

(** [strings.Join]. *)
Fixpoint strings_Join (l : list string) (sep : string) : string :=
  match l with
  | [] => ""
  | [x] => x
  | x :: l' => x +:+ sep +:+ strings_Join l' sep
  end.

(** [strings.Split] with a one-byte separator, the only kind the program uses. *)
Fixpoint strings_Split (s : string) (sep : ascii) : list string :=
  match s with
  | EmptyString => [""]
  | String c s' =>
      if Ascii.eqb c sep then "" :: strings_Split s' sep
      else match strings_Split s' sep with
           | [] => [String c EmptyString]
           | w :: ws => String c w :: ws
           end
  end.

(** [strings.SplitN] with a positive count. *)
Fixpoint strings_SplitN (s : string) (sep : ascii) (n : nat) {struct n} : list string :=
  match n with
  | O => []
  | S O => [s]
  | S n' =>
      let fix cut (acc rest : string) : option (string * string) :=
        match rest with
        | EmptyString => None
        | String c r =>
            if Ascii.eqb c sep then Some (acc, r) else cut (acc +:+ String c EmptyString) r
        end
      in match cut "" s with
         | Some (a, b) => a :: strings_SplitN b sep n'
         | None => [s]
         end
  end.

(** [strings.ReplaceAll] with a non-empty [old]: [skip] counts the bytes of a match still to drop. *)
Fixpoint replace_go (old new : string) (skip : nat) (s : string) : string :=
  match s with
  | EmptyString => ""
  | String c s' =>
      match skip with
      | S k => replace_go old new k s'
      | O => if String.prefix old s
             then new +:+ replace_go old new (String.length old - 1) s'
             else String c (replace_go old new 0 s')
      end
  end.
Definition strings_ReplaceAll (s old new : string) : string := replace_go old new 0 s.

(** [strings.FieldsFunc] with a stateful predicate, called once on each rune in order (as package
    [strings] does). [FieldsFunc_go] carries the field being read. *)
Section FieldsFunc.
Context {St : Type} (f : St -> Z -> St * bool).

Fixpoint FieldsFunc_go (st : St) (cur : option string) (rs : list (Z * string)) : list string :=
  match rs with
  | [] => match cur with Some w => [w] | None => [] end
  | (r, b) :: rs' =>
      let '(st', sp) := f st r in
      if sp then
        match cur with
        | Some w => w :: FieldsFunc_go st' None rs'
        | None => FieldsFunc_go st' None rs'
        end
      else FieldsFunc_go st' (Some (default "" cur +:+ b)) rs'
  end.

Definition strings_FieldsFunc (st : St) (s : string) : list string :=
  FieldsFunc_go st None (runes s).
End FieldsFunc.

Definition strings_Fields (s : string) : list string :=
  strings_FieldsFunc (fun (_ : unit) r => (tt, unicode_IsSpace r)) tt s.

(** [strings.TrimSpace]; [strings.Trim] with a one-byte cut set. *)
Fixpoint drop_space (rs : list (Z * string)) : list (Z * string) :=
  match rs with
  | (r, b) :: rs' => if unicode_IsSpace r then drop_space rs' else rs
  | [] => []
  end.
Definition strings_TrimSpace (s : string) : string :=
  concat_str (map snd (rev (drop_space (rev (drop_space (runes s)))))).

Fixpoint trim_left (cut : ascii) (l : list ascii) : list ascii :=
  match l with
  | c :: l' => if Ascii.eqb c cut then trim_left cut l' else l
  | [] => []
  end.
Definition strings_Trim (s : string) (cut : ascii) : string :=
  of_chars (rev (trim_left cut (rev (trim_left cut (chars s))))).

(** ** package bufio: the lines a [Scanner] with its default buffer yields from what its reader
    delivers ([data], then end of file or the error [rerr]), and what [Err] then returns.  A line of
    65536 bytes or more does not fit the buffer and stops the scan with [ErrTooLong]. *)
Definition drop_cr (s : string) : string :=
  match rev (chars s) with
  | c :: l => if Ascii.eqb c "013" then of_chars (rev l) else s
  | [] => s
  end.

Definition too_long (s : string) : bool := (65536 <=? Z.of_nat (String.length s))%Z.

Fixpoint scan_go (ls : list string) (rerr : option error) : list string * option error :=
  match ls with
  | [] => ([], rerr)
  | [last] =>
      if too_long last then ([], Some (ErrText "bufio.Scanner: token too long"))
      else ((if bool_decide (last = "") then [] else [drop_cr last]), rerr)
  | l :: ls' =>
      if too_long l then ([], Some (ErrText "bufio.Scanner: token too long"))
      else let '(r, e) := scan_go ls' rerr in (drop_cr l :: r, e)
  end.
Definition bufio_Scan (data : string) (rerr : option error) : list string * option error :=
  scan_go (strings_Split data "010") rerr.

Arguments strings_Split _%_string _%_char.
Arguments strings_SplitN _%_string _%_char _%_nat.
Arguments strings_Trim _%_string _%_char.

(** A scan without an error is of a text that was read without one. *)
Lemma scan_no_error ls rerr : snd (scan_go ls rerr) = None -> rerr = None.
Proof.
  induction ls as [|l ls IH]; [done|]. cbn [scan_go].
  destruct ls as [|l' ls]; [by destruct (too_long l)|]. destruct (too_long l); [done|].
  by destruct (scan_go (l' :: ls) rerr).
Qed.
