(* ===== verification/GoPath.v ===== *)
(** * GoPath: Go's packages [path] and [path/filepath] (the same functions on Unix), and [strconv]. *)

From S2P Require Import Prelude GoStrings.
Open Scope string_scope.
Open Scope list_scope.

(** ** package path *)

(** One pass of [path.Clean] over the slash-separated elements; [out] is the cleaned prefix, last
    element first. *)
Definition clean_step (rooted : bool) (out : list string) (e : string) : list string :=
  if bool_decide (e = "") || bool_decide (e = ".") then out
  else if bool_decide (e = "..") then
    match out with
    | [] => if rooted then [] else [".."]
    | o :: out' => if bool_decide (o = "..") then ".." :: out else out'
    end
  else e :: out.

Definition clean_elems (rooted : bool) (es : list string) : list string :=
  rev (fold_left (clean_step rooted) es []).

Definition path_rooted (p : string) : bool := strings_HasPrefix p "/".

Definition path_Clean (p : string) : string :=
  let es := clean_elems (path_rooted p) (strings_Split p "/") in
  if path_rooted p then "/" +:+ strings_Join es "/"
  else match es with [] => "." | _ => strings_Join es "/" end.

(** [path.Join]: empty elements are dropped, the rest joined and cleaned. *)
Definition path_Join (l : list string) : string :=
  match filter (fun e => e <> "") l with
  | [] => ""
  | es => path_Clean (strings_Join es "/")
  end.

Definition path_IsAbs (p : string) : bool := path_rooted p.

(** [path.Split]: the position after the last slash. *)
Definition path_Split (p : string) : string * string :=
  match rev (strings_Split p "/") with
  | [] => ("", "")
  | [f] => ("", f)
  | f :: ds => (strings_Join (rev ds) "/" +:+ "/", f)
  end.

Definition path_Dir (p : string) : string := path_Clean (fst (path_Split p)).

(** [path.Base]. *)
Definition path_Base (p : string) : string :=
  if bool_decide (p = "") then "."
  else
    let p' := of_chars (rev (trim_left "/" (rev (chars p)))) in
    if bool_decide (p' = "") then "/" else snd (path_Split p').

(** ** package strconv *)

Definition digit_val (c : ascii) : option Z :=
  if is_digit c then Some (byte_of c - 48)%Z else None.

(** Unsigned digits in [base] (at most ten), most significant first; [None] on any other byte. *)
Fixpoint parse_digits (base acc : Z) (l : list ascii) : option Z :=
  match l with
  | [] => Some acc
  | c :: l' =>
      match digit_val c with
      | Some d => if (d <? base)%Z then parse_digits base (acc * base + d)%Z l' else None
      | None => None
      end
  end.

Definition numError (func s : string) : error := ErrFmt "strconv.%s: parsing %q" [func; s] None.

(** [strconv.ParseUint(s, base, bits)], [base] between 2 and 10. *)
Definition strconv_ParseUint (s : string) (base bits : Z) : result Z :=
  match chars s with
  | [] => Err (numError "ParseUint" s)
  | l => match parse_digits base 0 l with
         | Some n => if (n <? 2 ^ bits)%Z then Ok n else Err (numError "ParseUint" s)
         | None => Err (numError "ParseUint" s)
         end
  end.

(** [strconv.ParseInt(s, base, bits)]; [strconv.Atoi(s)] is its base-10, 64-bit case. *)
Definition strconv_ParseInt (s : string) (base bits : Z) : result Z :=
  let bad := Err (numError "ParseInt" s) in
  let '(neg, l) :=
    match chars s with
    | c :: l => if Ascii.eqb c "+" then (false, l)
                else if Ascii.eqb c "-" then (true, l) else (false, c :: l)
    | [] => (false, [])
    end in
  match l with
  | [] => bad
  | _ =>
      match parse_digits base 0 l with
      | Some n =>
          if neg then (if (n <=? 2 ^ (bits - 1))%Z then Ok (- n)%Z else bad)
          else (if (n <? 2 ^ (bits - 1))%Z then Ok n else bad)
      | None => bad
      end
  end.

Definition strconv_Atoi (s : string) : result Z := strconv_ParseInt s 10 64.

(** Decimal printing ([%d], [strconv.Itoa]). *)
Fixpoint dec_go (fuel : nat) (n : Z) (acc : list ascii) : list ascii :=
  match fuel with
  | O => acc
  | S k =>
      let acc' := of_byte (48 + n mod 10)%Z :: acc in
      if (n <? 10)%Z then acc' else dec_go k (n / 10)%Z acc'
  end.

(** A natural number below [2 ^ k] has at most [k + 1] digits, so the fuel suffices. *)
Definition dec_nat (n : Z) : list ascii := dec_go (S (Z.to_nat (Z.log2 n))) n [].

Definition strconv_Itoa (z : Z) : string :=
  if (z <? 0)%Z then String "-" (of_chars (dec_nat (- z))) else of_chars (dec_nat z).

(** ** Strings as byte lists *)

Lemma chars_of_chars l : chars (of_chars l) = l.
Proof. induction l; simpl; congruence. Qed.

Lemma of_chars_chars s : of_chars (chars s) = s.
Proof. induction s; simpl; congruence. Qed.

Lemma sapp_cons c a b : String c a +:+ b = String c (a +:+ b).
Proof. reflexivity. Qed.

Lemma sapp_one c b : String c "" +:+ b = String c b.
Proof. reflexivity. Qed.

Lemma chars_app a b : chars (a +:+ b) = chars a ++ chars b.
Proof. induction a as [|c a IH]; [done|]. rewrite sapp_cons. simpl. congruence. Qed.

Lemma of_chars_app (a b : list ascii) : of_chars (a ++ b) = of_chars a +:+ of_chars b.
Proof. induction a as [|c a IH]; [done|]. simpl. rewrite sapp_cons. congruence. Qed.

Lemma chars_inj a b : chars a = chars b -> a = b.
Proof. intros H. rewrite <- (of_chars_chars a), <- (of_chars_chars b). congruence. Qed.

Lemma length_chars s : List.length (chars s) = String.length s.
Proof. induction s; simpl; congruence. Qed.

Lemma sapp_assoc a b c : (a +:+ b) +:+ c = a +:+ b +:+ c.
Proof. apply chars_inj. rewrite !chars_app. by rewrite (assoc_L app). Qed.

Lemma sapp_nil_r a : a +:+ "" = a.
Proof. apply chars_inj. rewrite chars_app. apply app_nil_r. Qed.

#[export] Hint Rewrite chars_app chars_of_chars of_chars_chars of_chars_app length_chars
  sapp_assoc sapp_nil_r : go.

(** ** Decimal round trip *)

Lemma byte_of_digit d : (0 <= d < 10)%Z -> digit_val (of_byte (48 + d)) = Some d.
Proof.
  intros Hd.
  assert (d = 0 \/ d = 1 \/ d = 2 \/ d = 3 \/ d = 4 \/ d = 5 \/ d = 6 \/ d = 7 \/ d = 8 \/ d = 9)%Z
    as Hc by lia.
  repeat (destruct Hc as [->|Hc]; [reflexivity|]). by subst d.
Qed.

Lemma parse_digits_app b acc l k :
  parse_digits b acc (l ++ k) =
  match parse_digits b acc l with Some n => parse_digits b n k | None => None end.
Proof.
  revert acc. induction l as [|c l IH]; intros acc; simpl; [done|].
  destruct (digit_val c) as [d|]; [|done]. by destruct (d <? b)%Z.
Qed.

(** The digits written before an accumulator, parsed from any start. *)
Lemma parse_dec_go fuel n acc :
  (0 <= n < 2 ^ Z.of_nat fuel)%Z -> fuel <> O ->
  parse_digits 10 0 (dec_go fuel n acc) = parse_digits 10 n acc.
Proof.
  revert n acc. induction fuel as [|k IH]; intros n acc Hn Hf; [done|].
  simpl dec_go. pose proof (Z.mod_pos_bound n 10 ltac:(lia)) as Hm.
  pose proof (Z.div_mod n 10 ltac:(lia)) as Hdm.
  destruct (Z.ltb_spec n 10).
  - simpl. rewrite byte_of_digit by lia. rewrite (proj2 (Z.ltb_lt _ _)) by lia.
    f_equal. rewrite Z.mod_small by lia. lia.
  - rewrite IH.
    + simpl. rewrite byte_of_digit by lia. rewrite (proj2 (Z.ltb_lt _ _)) by lia. f_equal. lia.
    + rewrite Nat2Z.inj_succ, Z.pow_succ_r in Hn by lia. split; [apply Z.div_pos; lia|].
      apply Z.div_lt_upper_bound; lia.
    + intros ->. simpl in Hn. lia.
Qed.

Lemma parse_dec_nat n : (0 <= n)%Z -> parse_digits 10 0 (dec_nat n) = Some n.
Proof.
  intros Hn. unfold dec_nat. rewrite parse_dec_go; [done| |done].
  rewrite Nat2Z.inj_succ, Z2Nat.id by apply Z.log2_nonneg. split; [lia|].
  destruct (decide (n = 0)%Z) as [->|]; [done|]. apply Z.log2_spec. lia.
Qed.

Lemma dec_go_nonempty fuel n acc : fuel <> O -> dec_go fuel n acc <> [].
Proof.
  revert n acc. induction fuel as [|k IH]; intros n acc; [done|]. simpl. intros _.
  destruct (n <? 10)%Z; [done|]. destruct k; [done|]. by apply IH.
Qed.

(** Every byte written is a decimal digit. *)
Lemma dec_go_digits fuel n acc :
  (0 <= n)%Z -> Forall (fun c => is_digit c = true) acc ->
  Forall (fun c => is_digit c = true) (dec_go fuel n acc).
Proof.
  revert n acc. induction fuel as [|k IH]; intros n acc Hn Ha; simpl; [done|].
  pose proof (Z.mod_pos_bound n 10 ltac:(lia)) as Hm.
  assert (Forall (fun c => is_digit c = true) (of_byte (48 + n mod 10) :: acc)) as Ha'.
  { constructor; [|done]. pose proof (byte_of_digit _ Hm) as Hd. unfold digit_val in Hd.
    by destruct (is_digit _). }
  destruct (n <? 10)%Z; [done|]. apply IH; [apply Z.div_pos; lia|done].
Qed.

Lemma ParseUint_Itoa n bits :
  (0 <= n < 2 ^ bits)%Z -> strconv_ParseUint (strconv_Itoa n) 10 bits = Ok n.
Proof.
  intros Hn. unfold strconv_Itoa. rewrite (proj2 (Z.ltb_ge _ _)) by lia.
  unfold strconv_ParseUint. rewrite chars_of_chars.
  pose proof (dec_go_nonempty (S (Z.to_nat (Z.log2 n))) n [] ltac:(done)) as Hne.
  pose proof (parse_dec_nat n ltac:(lia)) as Hp. unfold dec_nat in *.
  destruct (dec_go _ _ _); [done|]. rewrite Hp. by rewrite (proj2 (Z.ltb_lt _ _)) by lia.
Qed.

(** ** Cleaning paths made of plain names *)

(** A directory entry's name: one path element that is not a dot name. *)
Definition plain_name (n : string) : Prop :=
  n <> "" /\ n <> "." /\ n <> ".." /\ "/"%char ∉ chars n.

#[export] Instance plain_name_dec n : Decision (plain_name n).
Proof. unfold plain_name. apply _. Defined.

(** Literal names are plain by evaluation. *)
Ltac plain_names :=
  match goal with |- ?P => refine (@bool_decide_unpack P _ _); vm_compute; exact I end.

(** The absolute path with these elements. *)
Definition abs_path (es : list string) : string := "/" +:+ strings_Join es "/".

Lemma Split_app sep a b :
  sep ∉ chars a -> strings_Split (a +:+ String sep b) sep = a :: strings_Split b sep.
Proof.
  induction a as [|c a IH]; intros Ha.
  - simpl. by rewrite Ascii.eqb_refl.
  - rewrite sapp_cons. simpl in *. apply not_elem_of_cons in Ha as [Hc Ha].
    destruct (Ascii.eqb_spec c sep); [congruence|]. by rewrite IH.
Qed.

Lemma Split_no_sep sep a : sep ∉ chars a -> strings_Split a sep = [a].
Proof.
  induction a as [|c a IH]; intros Ha; [done|].
  simpl in *. apply not_elem_of_cons in Ha as [Hc Ha].
  destruct (Ascii.eqb_spec c sep); [congruence|]. by rewrite IH.
Qed.

(** [strings.Split] undoes [strings.Join] on elements without the separator. *)
Lemma Split_Join sep es :
  es <> [] -> Forall (fun e => sep ∉ chars e) es ->
  strings_Split (strings_Join es (String sep "")) sep = es.
Proof.
  intros Hne Hes. induction Hes as [|e es He Hes IH]; [done|].
  destruct es as [|e' es].
  - by apply Split_no_sep.
  - cbn [strings_Join] in *. rewrite sapp_one, Split_app by done. f_equal. by apply IH.
Qed.

Lemma Split_nonempty s sep : strings_Split s sep <> [].
Proof.
  destruct s as [|c s]; [done|]. simpl. destruct (Ascii.eqb c sep); [done|].
  by destruct (strings_Split s sep).
Qed.

Lemma Split_parts s sep : Forall (fun e => sep ∉ chars e) (strings_Split s sep).
Proof.
  induction s as [|c s IH]; [repeat constructor; apply not_elem_of_nil|].
  simpl. destruct (Ascii.eqb_spec c sep) as [->|Hc]; [constructor; [apply not_elem_of_nil|done]|].
  destruct (strings_Split s sep) as [|w ws]; (constructor; [|by inversion IH || constructor]).
  - simpl. set_solver.
  - inversion_clear IH. simpl. set_solver.
Qed.

(** ... and [strings.Join] undoes [strings.Split] always. *)
Lemma Join_Split sep s : strings_Join (strings_Split s sep) (String sep "") = s.
Proof.
  induction s as [|c s IH]; [done|]. simpl.
  pose proof (Split_nonempty s sep) as Hne.
  destruct (Ascii.eqb_spec c sep) as [->|];
    destruct (strings_Split s sep) as [|w [|w' ws]]; try done; cbn [strings_Join] in *;
    first [by rewrite IH | by rewrite sapp_one, IH | by rewrite sapp_cons, IH
          | change ("" +:+ ?x) with x; by rewrite sapp_one, IH].
Qed.

Lemma clean_step_plain rooted out e : plain_name e -> clean_step rooted out e = e :: out.
Proof. intros (H1 & H2 & H3 & _). unfold clean_step. by rewrite !bool_decide_false. Qed.

Lemma clean_fold_plain rooted es out :
  Forall plain_name es -> fold_left (clean_step rooted) es out = rev es ++ out.
Proof.
  intros Hes. revert out. induction Hes as [|e es He _ IH]; intros out; [done|].
  simpl. rewrite clean_step_plain, IH by done. by rewrite <- (assoc_L app).
Qed.

Lemma plain_no_slash es : Forall plain_name es -> Forall (fun e => "/"%char ∉ chars e) es.
Proof. intros H. apply (Forall_impl _ _ _ H). by intros x (_ & _ & _ & Hx). Qed.

Lemma path_Clean_abs es : es <> [] -> Forall plain_name es -> path_Clean (abs_path es) = abs_path es.
Proof.
  intros Hne Hes. unfold path_Clean, abs_path.
  replace (path_rooted _) with true by (symmetry; unfold path_rooted, strings_HasPrefix; simpl;
    by destruct (strings_Join es "/")).
  f_equal. f_equal. unfold clean_elems. change ("/" +:+ ?x) with ("" +:+ String "/" x).
  rewrite Split_app by apply not_elem_of_nil. rewrite Split_Join by (done || by apply plain_no_slash).
  simpl. rewrite clean_fold_plain by done. by rewrite app_nil_r, rev_involutive.
Qed.

Lemma Join_app_single es n sep :
  es <> [] -> strings_Join (es ++ [n]) sep = strings_Join es sep +:+ sep +:+ n.
Proof.
  induction es as [|e es IH]; [done|]. intros _. destruct es as [|e' es]; [done|].
  change (strings_Join ((e :: e' :: es) ++ [n]) sep)
    with (e +:+ sep +:+ strings_Join ((e' :: es) ++ [n]) sep).
  rewrite IH by done. simpl. by rewrite !sapp_assoc.
Qed.

(** [filepath.Join(dir, name)] of a directory entry is the entry's path. *)
Lemma path_Join_abs ds n :
  ds <> [] -> Forall plain_name ds -> plain_name n ->
  path_Join [abs_path ds; n] = abs_path (ds ++ [n]).
Proof.
  intros Hne Hds Hn. unfold path_Join.
  rewrite filter_cons_True by (unfold abs_path; done).
  rewrite filter_cons_True by apply Hn. rewrite filter_nil.
  cbn [strings_Join]. rewrite <- (path_Clean_abs (ds ++ [n])).
  - f_equal. unfold abs_path. rewrite Join_app_single by done. by rewrite sapp_assoc.
  - by destruct ds.
  - apply Forall_app_2; [done|]. by constructor; [|constructor].
Qed.

Lemma Join_app ds ns sep :
  ds <> [] -> ns <> [] ->
  strings_Join (ds ++ ns) sep = strings_Join ds sep +:+ sep +:+ strings_Join ns sep.
Proof.
  intros Hds Hns. induction ds as [|d ds IH]; [done|]. destruct ds as [|d' ds].
  - destruct ns as [|n ns]; [done|]. done.
  - cbn [app strings_Join] in *. rewrite IH by done. by rewrite !sapp_assoc.
Qed.

(** Several plain names below an absolute path. *)
Lemma path_Join_below ds ns :
  ds <> [] -> Forall plain_name ds -> Forall plain_name ns ->
  path_Join (abs_path ds :: ns) = abs_path (ds ++ ns).
Proof.
  intros Hne Hds Hns. unfold path_Join. rewrite filter_cons_True by done.
  assert (filter (fun e => e <> "") ns = ns) as ->.
  { clear -Hns. induction Hns as [|n ns Hn _ IH]; [done|]. rewrite filter_cons_True by apply Hn. by rewrite IH. }
  cbn beta iota. rewrite <- (path_Clean_abs (ds ++ ns)).
  - f_equal. destruct ns as [|n ns]; [by rewrite app_nil_r|]. unfold abs_path.
    rewrite Join_app by done. cbn [strings_Join]. by rewrite sapp_assoc.
  - by destruct ds.
  - by apply Forall_app.
Qed.

Lemma sapp_inj_l a b c : a +:+ b = a +:+ c -> b = c.
Proof.
  intros H. apply (f_equal chars) in H. rewrite !chars_app in H. apply app_inv_head in H.
  by apply chars_inj.
Qed.

Lemma Join_inj es es' :
  Forall plain_name es -> Forall plain_name es' -> es <> [] -> es' <> [] ->
  strings_Join es "/" = strings_Join es' "/" -> es = es'.
Proof.
  intros H H' Hn Hn' Heq.
  rewrite <- (Split_Join "/" es), <- (Split_Join "/" es') by (done || by apply plain_no_slash).
  by rewrite Heq.
Qed.

Lemma abs_path_inj es es' :
  Forall plain_name es -> Forall plain_name es' -> es <> [] -> es' <> [] ->
  abs_path es = abs_path es' -> es = es'.
Proof. intros H H' Hn Hn' Heq. apply sapp_inj_l in Heq. by apply Join_inj. Qed.

(** ** Lines *)

Lemma Split_app_any sep a b :
  strings_Split (a +:+ String sep b) sep = strings_Split a sep ++ strings_Split b sep.
Proof.
  induction a as [|c a IH].
  - change ("" +:+ ?x) with x. simpl. by rewrite Ascii.eqb_refl.
  - rewrite sapp_cons. simpl. destruct (Ascii.eqb c sep); [by rewrite IH|]. rewrite IH.
    pose proof (Split_nonempty a sep). by destruct (strings_Split a sep).
Qed.

(** The lines of a file: a final newline ends the last line and starts no other. *)
Definition lines_of (s : string) : list string :=
  match rev (strings_Split s "010") with
  | "" :: r => rev r
  | r => rev r
  end.

Lemma lines_of_nl s : lines_of (s +:+ nl) = strings_Split s "010".
Proof.
  unfold lines_of, nl. rewrite Split_app_any, rev_app_distr. simpl. by rewrite rev_involutive.
Qed.

Lemma lines_of_open s :
  s <> "" -> last (chars s) <> Some "010"%char -> lines_of s = strings_Split s "010".
Proof.
  intros Hs Hl. unfold lines_of. destruct (rev (strings_Split s "010")) as [|w r] eqn:Hr.
  - apply (f_equal (@rev _)) in Hr. by rewrite rev_involutive in Hr.
  - destruct w; [|by rewrite <- Hr, rev_involutive]. exfalso.
    apply (f_equal (@rev _)) in Hr. rewrite rev_involutive in Hr. simpl in Hr.
    pose proof (Join_Split "010" s) as Hj. rewrite Hr in Hj. destruct (rev r) as [|x l] eqn:Hx.
    + by subst s.
    + rewrite Join_app_single in Hj by done. apply Hl. rewrite <- Hj, sapp_nil_r.
      rewrite chars_app. apply last_snoc.
Qed.

(** ** [strings.SplitN], by the first separator *)

Lemma SplitN_app sep a b n :
  sep ∉ chars a ->
  strings_SplitN (a +:+ String sep b) sep (S (S n)) = a :: strings_SplitN b sep (S n).
Proof.
  intros Ha. cbn [strings_SplitN].
  match goal with |- context [?f "" (a +:+ _)] => set (cut := f) end.
  assert (forall acc, cut acc (a +:+ String sep b) = Some (acc +:+ a, b)) as Hcut.
  { induction a as [|c a IH]; intros acc.
    - change ("" +:+ ?x) with x. simpl. by rewrite Ascii.eqb_refl, sapp_nil_r.
    - rewrite sapp_cons. simpl in *. apply not_elem_of_cons in Ha as [Hc Ha].
      destruct (Ascii.eqb_spec c sep); [congruence|]. rewrite IH by done.
      by rewrite sapp_assoc, sapp_one. }
  by rewrite Hcut.
Qed.

Lemma SplitN_no_sep sep s n : sep ∉ chars s -> strings_SplitN s sep (S n) = [s].
Proof.
  intros Hs. destruct n as [|n]; [done|]. cbn [strings_SplitN].
  match goal with |- context [?f "" s] => set (cut := f) end.
  assert (forall acc, cut acc s = None) as Hcut; [|by rewrite Hcut].
  induction s as [|c s IH]; intros acc; [done|]. simpl in *.
  apply not_elem_of_cons in Hs as [Hc Hs]. destruct (Ascii.eqb_spec c sep); [congruence|].
  by apply IH.
Qed.

Lemma first_sep sep s :
  (sep ∉ chars s) \/ exists a b, s = a +:+ String sep b /\ sep ∉ chars a.
Proof.
  induction s as [|c s IH]; [left; apply not_elem_of_nil|].
  destruct (decide (c = sep)) as [->|Hc].
  - right. exists "", s. split; [done|apply not_elem_of_nil].
  - destruct IH as [Hn|(a & b & -> & Ha)].
    + left. simpl. by apply not_elem_of_cons.
    + right. exists (String c a), b. rewrite sapp_cons. split; [done|].
      simpl. by apply not_elem_of_cons.
Qed.
