(* ===== verification/GoEncoding.v ===== *)
(** * GoEncoding: [strconv.Quote], [strconv.Unquote] and [encoding/base64] (the standard encoding). *)

From S2P Require Import Prelude GoStrings GoPath.
Open Scope string_scope.
Open Scope list_scope.

(** ** strconv.Unquote *)

Definition ErrSyntax : error := ErrText "invalid syntax".

Definition hex_val (c : ascii) : option Z :=
  let b := byte_of c in
  if ((48 <=? b) && (b <=? 57))%Z then Some (b - 48)%Z
  else if ((97 <=? b) && (b <=? 102))%Z then Some (b - 87)%Z
  else if ((65 <=? b) && (b <=? 70))%Z then Some (b - 55)%Z
  else None.

(** [n] digits of base 16 or 8 off the front. *)
Fixpoint take_digits (digit : ascii -> option Z) (base : Z) (n : nat) (v : Z) (l : list ascii)
  : option (Z * list ascii) :=
  match n, l with
  | O, _ => Some (v, l)
  | S k, c :: l' => match digit c with
                    | Some d => take_digits digit base k (v * base + d)%Z l'
                    | None => None
                    end
  | S _, [] => None
  end.

Definition oct_val (c : ascii) : option Z :=
  match hex_val c with Some d => if (d <? 8)%Z then Some d else None | None => None end.

(** [utf8.ValidRune], [utf8.ValidString]. *)
Definition ValidRune (r : Z) : bool :=
  ((0 <=? r) && (r <? 55296) || (57343 <? r) && (r <=? 1114111))%Z.
Definition ValidString (s : string) : bool :=
  forallb (fun '(r, b) => negb ((r =? rune_error)%Z && Nat.eqb (String.length b) 1)) (runes s).

(** [strconv.UnquoteChar]: the value, whether it is a rune to encode in UTF-8, and what follows. *)
Definition UnquoteChar (l : list ascii) (quote : ascii) : option (Z * bool * list ascii) :=
  match l with
  | [] => None
  | c :: l1 =>
      if Ascii.eqb c quote then None
      else if (128 <=? byte_of c)%Z then
        match runes (of_chars l) with
        | (r, b) :: _ => Some (r, true, drop (String.length b) l)
        | [] => None
        end
      else if negb (Ascii.eqb c "\") then Some (byte_of c, false, l1)
      else
        match l1 with
        | [] => None
        | e :: l2 =>
            let plain z := Some (z, false, l2) in
            let rune n :=
              match take_digits hex_val 16 n 0 l2 with
              | Some (v, l3) => if ValidRune v then Some (v, true, l3) else None
              | None => None
              end in
            if Ascii.eqb e "a" then plain 7%Z
            else if Ascii.eqb e "b" then plain 8%Z
            else if Ascii.eqb e "f" then plain 12%Z
            else if Ascii.eqb e "n" then plain 10%Z
            else if Ascii.eqb e "r" then plain 13%Z
            else if Ascii.eqb e "t" then plain 9%Z
            else if Ascii.eqb e "v" then plain 11%Z
            else if Ascii.eqb e "x" then
              match take_digits hex_val 16 2 0 l2 with
              | Some (v, l3) => Some (v, false, l3)
              | None => None
              end
            else if Ascii.eqb e "u" then rune 4%nat
            else if Ascii.eqb e "U" then rune 8%nat
            else if match oct_val e with Some _ => true | None => false end then
              match take_digits oct_val 8 3 0 l1 with
              | Some (v, l3) => if (255 <? v)%Z then None else Some (v, false, l3)
              | None => None
              end
            else if Ascii.eqb e "\" then plain (byte_of e)
            else if Ascii.eqb e "'" || Ascii.eqb e "034" then
              if Ascii.eqb e quote then plain (byte_of e) else None
            else None
        end
  end.

(** The characters up to the closing quote; each step consumes a byte, so the length is enough. *)
Fixpoint unquote_loop (fuel : nat) (quote : ascii) (buf : string) (l : list ascii)
  : option (string * list ascii) :=
  match l with
  | [] => Some (buf, l)
  | c :: _ =>
      if Ascii.eqb c quote then Some (buf, l)
      else if Ascii.eqb c "010" then None
      else
        match fuel, UnquoteChar l quote with
        | S k, Some (r, multibyte, l') =>
            let piece := if (r <? 128)%Z || negb multibyte
                         then String (of_byte r) "" else encode_rune r in
            if Ascii.eqb quote "'" then Some (buf +:+ piece, l')
            else unquote_loop k quote (buf +:+ piece) l'
        | _, _ => None
        end
  end.

Fixpoint index_of (c : ascii) (l : list ascii) : option nat :=
  match l with
  | [] => None
  | x :: l' => if Ascii.eqb x c then Some O else option_map S (index_of c l')
  end.

Definition mem_char (c : ascii) (l : list ascii) : bool := existsb (Ascii.eqb c) l.

(** [strconv.Unquote]. *)
Definition strconv_Unquote (s : string) : result string :=
  match chars s with
  | quote :: rest =>
      match index_of quote rest with
      | None => Err ErrSyntax
      | Some n =>
          let content := take n rest in
          let whole := Nat.eqb (List.length rest) (S n) in
          if Ascii.eqb quote "`" then
            if whole then Ok (of_chars (filter (fun c => c <> "013"%char) content))
            else Err ErrSyntax
          else if Ascii.eqb quote "034" || Ascii.eqb quote "'" then
            let plain := negb (mem_char "\" content) && negb (mem_char "010" content) in
            let valid :=
              if Ascii.eqb quote "'" then
                match runes (of_chars content) with
                | [(r, b)] => negb ((r =? rune_error)%Z && Nat.eqb (String.length b) 1)
                | _ => false
                end
              else ValidString (of_chars content) in
            if plain && valid then if whole then Ok (of_chars content) else Err ErrSyntax
            else
              match unquote_loop (List.length rest) quote "" rest with
              | Some (buf, [c]) => if Ascii.eqb c quote then Ok buf else Err ErrSyntax
              | _ => Err ErrSyntax
              end
          else Err ErrSyntax
      end
  | [] => Err ErrSyntax
  end.

(** ** encoding/base64 *)

Definition b64_alphabet : list ascii :=
  chars "ABCDEFGHIJKLMNOPQRSTUVWXYZabcdefghijklmnopqrstuvwxyz0123456789+/".

Definition b64_char (n : Z) : ascii := nth (Z.to_nat n) b64_alphabet "="%char.

Definition b64_val (c : ascii) : option Z := Z.of_nat <$> index_of c b64_alphabet.

(** [StdEncoding.EncodeToString]. *)
Fixpoint b64_encode (l : list ascii) : list ascii :=
  match l with
  | [] => []
  | [a] =>
      let x := (byte_of a * 16)%Z in
      [b64_char (x / 64); b64_char (x mod 64); "="; "="]%char
  | [a; b] =>
      let x := (byte_of a * 1024 + byte_of b * 4)%Z in
      [b64_char (x / 4096); b64_char (x / 64 mod 64); b64_char (x mod 64); "="%char]
  | a :: b :: c :: rest =>
      let x := (byte_of a * 65536 + byte_of b * 256 + byte_of c)%Z in
      b64_char (x / 262144) :: b64_char (x / 4096 mod 64) :: b64_char (x / 64 mod 64)
      :: b64_char (x mod 64) :: b64_encode rest
  end.
Definition base64_EncodeToString (s : string) : string := of_chars (b64_encode (chars s)).

(** [StdEncoding.DecodeString]: newlines and carriage returns are skipped, padding is required,
    trailing bits are not checked (the encoding is not strict). *)
Definition CorruptInput : error := ErrText "illegal base64 data".

Fixpoint b64_decode (l : list ascii) : option (list ascii) :=
  match l with
  | [] => Some []
  | a :: b :: c :: d :: rest =>
      match b64_val a, b64_val b with
      | Some x, Some y =>
          if Ascii.eqb c "=" then
            if Ascii.eqb d "=" && match rest with [] => true | _ => false end
            then Some [of_byte (x * 4 + y / 16)%Z] else None
          else
            match b64_val c with
            | Some z =>
                if Ascii.eqb d "=" then
                  match rest with
                  | [] => Some [of_byte (x * 4 + y / 16)%Z; of_byte (y mod 16 * 16 + z / 4)%Z]
                  | _ => None
                  end
                else
                  match b64_val d, b64_decode rest with
                  | Some w, Some out =>
                      Some (of_byte (x * 4 + y / 16)%Z :: of_byte (y mod 16 * 16 + z / 4)%Z
                            :: of_byte (z mod 4 * 64 + w)%Z :: out)
                  | _, _ => None
                  end
            | None => None
            end
      | _, _ => None
      end
  | _ => None
  end.

Definition base64_DecodeString (s : string) : result string :=
  match b64_decode (filter (fun c => c <> "010"%char /\ c <> "013"%char) (chars s)) with
  | Some l => Ok (of_chars l)
  | None => Err CorruptInput
  end.

(** ** strconv.Quote *)

Definition lowerhex (d : Z) : ascii := of_byte (if (d <? 10)%Z then 48 + d else 87 + d)%Z.

(** The last [n] hexadecimal digits of [v]. *)
Fixpoint hex_digits (n : nat) (v : Z) : list ascii :=
  match n with
  | O => []
  | S k => lowerhex (Z.land (Z.shiftr v (4 * Z.of_nat k)) 15) :: hex_digits k v
  end.

Section Quote.
Context `{UnicodeTables}.

(** [appendEscapedRune], for a double quote. *)
Definition escape_rune (r : Z) : list ascii :=
  if (r =? 34)%Z || (r =? 92)%Z then ["\"%char; of_byte r]
  else if unicode_IsPrint r then chars (encode_rune r)
  else if (r =? 7)%Z then ["\"; "a"]%char
  else if (r =? 8)%Z then ["\"; "b"]%char
  else if (r =? 12)%Z then ["\"; "f"]%char
  else if (r =? 10)%Z then ["\"; "n"]%char
  else if (r =? 13)%Z then ["\"; "r"]%char
  else if (r =? 9)%Z then ["\"; "t"]%char
  else if (r =? 11)%Z then ["\"; "v"]%char
  else if (r <? 32)%Z || (r =? 127)%Z then "\"%char :: "x"%char :: hex_digits 2 r
  else if negb (ValidRune r) then "\"%char :: "u"%char :: hex_digits 4 rune_error
  else if (r <? 65536)%Z then "\"%char :: "u"%char :: hex_digits 4 r
  else "\"%char :: "U"%char :: hex_digits 8 r.

(** A byte that does not decode is written as its number. *)
Definition quote_piece (p : Z * string) : list ascii :=
  if (fst p =? rune_error)%Z && Nat.eqb (String.length (snd p)) 1
  then "\"%char :: "x"%char :: hex_digits 2 (match chars (snd p) with c :: _ => byte_of c | [] => 0%Z end)
  else escape_rune (fst p).

Definition quote_body (s : string) : list ascii := concat (map quote_piece (runes s)).

Definition strconv_Quote (s : string) : string :=
  of_chars ("034"%char :: quote_body s ++ ["034"%char]).
End Quote.

Example unquote_1 : strconv_Unquote (dq +:+ "a\x41\n" +:+ dq) = Ok ("aA" +:+ nl).
Proof. reflexivity. Qed.
Example unquote_2 : is_ok (strconv_Unquote (dq +:+ "a" +:+ dq +:+ "b" +:+ dq)) = false.
Proof. reflexivity. Qed.
Example quote_1 : strconv_Quote ("a\" +:+ dq +:+ nl +:+ String "200" "") = dq +:+ "a\\\" +:+ dq +:+ "\n\xc8" +:+ dq.
Proof. reflexivity. Qed.
Example quote_2 : strconv_Unquote (strconv_Quote ("a\" +:+ dq +:+ nl +:+ String "200" "")) = Ok ("a\" +:+ dq +:+ nl +:+ String "200" "").
Proof. reflexivity. Qed.
Example b64_1 : base64_DecodeString "aGVsbG8=" = Ok "hello".
Proof. reflexivity. Qed.

(** ** UTF-8 round trip *)

Lemma byte_of_byte z : (0 <= z < 256)%Z -> byte_of (of_byte z) = z.
Proof.
  intros Hz. unfold byte_of, of_byte. rewrite nat_ascii_embedding by lia. lia.
Qed.

Lemma land_ones_mod z k n : (0 <= k)%Z -> n = Z.ones k -> Z.land z n = (z mod 2 ^ k)%Z.
Proof. intros Hk ->. by apply Z.land_ones. Qed.

Ltac utf8_arith :=
  rewrite ?Z.shiftr_div_pow2, ?(land_ones_mod _ 6 63), ?(land_ones_mod _ 5 31),
    ?(land_ones_mod _ 4 15), ?(land_ones_mod _ 3 7) by done;
  change (2 ^ 6)%Z with 64%Z; change (2 ^ 12)%Z with 4096%Z; change (2 ^ 18)%Z with 262144%Z;
  change (2 ^ 5)%Z with 32%Z; change (2 ^ 4)%Z with 16%Z; change (2 ^ 3)%Z with 8%Z.

Lemma is_cont_byte x : (0 <= x < 64)%Z -> is_cont (of_byte (128 + x)) = true.
Proof. intros Hx. unfold is_cont. rewrite byte_of_byte by lia. rewrite andb_true_iff; lia. Qed.

Lemma low6_byte x : (0 <= x < 64)%Z -> low6 (of_byte (128 + x)) = x.
Proof.
  intros Hx. unfold low6. rewrite byte_of_byte by lia. utf8_arith.
  rewrite <- Zplus_mod_idemp_l. rewrite Z.mod_small; [done|]. change (128 mod 64)%Z with 0%Z. lia.
Qed.

Lemma in_range_byte lo hi x : (0 <= x < 256)%Z -> in_range lo hi (of_byte x) = ((lo <=? x) && (x <=? hi))%Z.
Proof. intros Hx. unfold in_range. by rewrite byte_of_byte by lia. Qed.

Lemma runes_encode r s :
  ValidRune r = true -> runes (encode_rune r +:+ s) = (r, encode_rune r) :: runes s.
Proof.
  intros Hv. unfold ValidRune in Hv. unfold encode_rune.
  destruct (Z.ltb_spec r 0); [lia|].
  destruct (Z.ltb_spec r 128).
  { rewrite sapp_one. simpl. rewrite byte_of_byte by lia. by rewrite (proj2 (Z.ltb_lt _ _)) by lia. }
  destruct (Z.ltb_spec r 2048).
  { utf8_arith. pose proof (Z.mod_pos_bound r 64 ltac:(lia)). pose proof (Z.div_mod r 64 ltac:(lia)).
    rewrite sapp_cons, sapp_one. cbn [runes]. rewrite byte_of_byte by lia.
    rewrite (proj2 (Z.ltb_ge _ _)) by lia. rewrite in_range_byte by lia.
    replace ((194 <=? _) && _)%Z with true by lia.
    rewrite is_cont_byte, low6_byte by lia. utf8_arith.
    do 2 f_equal. rewrite <- Zplus_mod_idemp_l. change (192 mod 32)%Z with 0%Z.
    rewrite Z.mod_small by lia. lia. }
  replace ((55296 <=? r) && (r <=? 57343) || (1114111 <? r))%Z with false by lia.
  destruct (Z.ltb_spec r 65536).
  { utf8_arith. rewrite !sapp_cons. change ("" +:+ s) with s. cbn [runes].
    assert (r = r / 4096 * 4096 + r / 64 mod 64 * 64 + r mod 64)%Z as Hr.
    { change 4096%Z with (64 * 64)%Z. rewrite <- Z.div_div by lia.
      pose proof (Z.div_mod r 64 ltac:(lia)). pose proof (Z.div_mod (r / 64) 64 ltac:(lia)). lia. }
    pose proof (Z.mod_pos_bound r 64 ltac:(lia)). pose proof (Z.mod_pos_bound (r / 64) 64 ltac:(lia)).
    generalize dependent (r mod 64)%Z. generalize dependent (r / 64 mod 64)%Z.
    generalize dependent (r / 4096)%Z. intros q m Hm l Hr Hl. subst r.
    rewrite !in_range_byte, (byte_of_byte (224 + q)) by lia.
    rewrite (proj2 (Z.ltb_ge _ _)) by lia.
    replace ((194 <=? _) && _)%Z with false by lia.
    replace ((224 <=? _) && _)%Z with true by lia.
    replace (((if (224 + q =? 224)%Z then 160 else 128) <=? 128 + m) && _)%Z with true
      by (destruct (Z.eqb_spec (224 + q) 224), (Z.eqb_spec (224 + q) 237); lia).
    rewrite !is_cont_byte, !low6_byte by lia. utf8_arith. do 2 f_equal.
    rewrite <- Zplus_mod_idemp_l. change (224 mod 16)%Z with 0%Z. rewrite Z.mod_small by lia. lia. }
  utf8_arith. rewrite !sapp_cons. change ("" +:+ s) with s. cbn [runes].
  assert (r = r / 262144 * 262144 + r / 4096 mod 64 * 4096 + r / 64 mod 64 * 64 + r mod 64)%Z as Hr.
  { change 262144%Z with (4096 * 64)%Z. rewrite <- (Z.div_div r 4096 64) by lia.
    change 4096%Z with (64 * 64)%Z. rewrite <- !(Z.div_div r 64 64) by lia.
    pose proof (Z.div_mod r 64 ltac:(lia)). pose proof (Z.div_mod (r / 64) 64 ltac:(lia)).
    pose proof (Z.div_mod (r / 64 / 64) 64 ltac:(lia)). lia. }
  pose proof (Z.mod_pos_bound r 64 ltac:(lia)). pose proof (Z.mod_pos_bound (r / 64) 64 ltac:(lia)).
  pose proof (Z.mod_pos_bound (r / 4096) 64 ltac:(lia)).
  generalize dependent (r mod 64)%Z. generalize dependent (r / 64 mod 64)%Z.
  generalize dependent (r / 4096 mod 64)%Z. generalize dependent (r / 262144)%Z.
  intros q p Hp m Hm l Hr Hl. subst r.
  rewrite !in_range_byte, (byte_of_byte (240 + q)) by lia.
  rewrite (proj2 (Z.ltb_ge _ _)) by lia.
  replace ((194 <=? _) && _)%Z with false by lia.
  replace ((224 <=? _) && _)%Z with false by lia.
  replace ((240 <=? _) && _)%Z with true by lia.
  replace (((if (240 + q =? 240)%Z then 144 else 128) <=? 128 + p) && _)%Z with true
    by (destruct (Z.eqb_spec (240 + q) 240), (Z.eqb_spec (240 + q) 244); lia).
  rewrite !is_cont_byte, !low6_byte by lia. utf8_arith. do 2 f_equal.
  rewrite <- Zplus_mod_idemp_l. change (240 mod 8)%Z with 0%Z. rewrite Z.mod_small by lia. lia.
Qed.

(** What decoding makes of a rune that was encoded. *)
Definition sanitize (r : Z) : Z := if ValidRune r then r else rune_error.

Lemma encode_sanitize r : encode_rune (sanitize r) = encode_rune r.
Proof.
  unfold sanitize. destruct (ValidRune r) eqn:Hv; [done|]. unfold ValidRune in Hv.
  unfold encode_rune at 2. destruct (Z.ltb_spec r 0); [done|].
  destruct (Z.ltb_spec r 128); [lia|]. destruct (Z.ltb_spec r 2048); [lia|].
  by replace ((55296 <=? r) && (r <=? 57343) || (1114111 <? r))%Z with true by lia.
Qed.

Lemma runes_of_runes rs :
  runes (concat_str (map encode_rune rs)) = map (fun r => (sanitize r, encode_rune r)) rs.
Proof.
  induction rs as [|r rs IH]; [done|]. simpl. rewrite <- encode_sanitize.
  rewrite runes_encode; [by rewrite IH|]. unfold sanitize. by destruct (ValidRune r) eqn:?.
Qed.

