(* ===== verification/GoQuote.v ===== *)
(** * GoQuote: [strconv.Unquote] undoes [strconv.Quote] on every string, valid UTF-8 or not; and lines
    that [strings.TrimSpace] and a [bufio.Scanner] leave as they are. *)

From S2P Require Import Prelude GoStrings GoPath GoEncoding.
Open Scope string_scope.
Open Scope list_scope.

Abbreviation DQ := "034"%char.
Abbreviation BS := "\"%char.

(** ** Decoding *)

(** What a rune and its bytes can be: the encoding of a valid rune, or one byte of no encoding. *)
Definition decoded_rune (p : Z * string) : Prop :=
  (snd p = encode_rune (fst p) /\ ValidRune (fst p) = true) \/
  (exists c, snd p = String c "" /\ (128 <= byte_of c)%Z /\ fst p = rune_error).

Lemma byte_range c : (0 <= byte_of c < 256)%Z.
Proof. unfold byte_of. pose proof (nat_ascii_bounded c). lia. Qed.

Lemma of_byte_of c : of_byte (byte_of c) = c.
Proof. unfold of_byte, byte_of. rewrite Nat2Z.id. apply ascii_nat_embedding. Qed.

(** Bytes as numbers: what the tests of the decoder say about them. *)
Ltac bytes :=
  unfold is_cont, in_range, low6 in *;
  repeat match goal with
  | H : (_ && _)%bool = true |- _ => apply andb_true_iff in H as [? H]
  | c : ascii |- _ =>
      lazymatch goal with
      | H : (0 <= byte_of c < 256)%Z |- _ => fail
      | _ => pose proof (byte_range c)
      end
  end.

Lemma mod_of x m q : (0 < m)%Z -> (q * m <= x < (q + 1) * m)%Z -> (x mod m = x - q * m)%Z.
Proof. intros Hm Hx. symmetry. apply (Z.mod_unique_pos _ _ q); lia. Qed.

Lemma div_of x m q : (0 < m)%Z -> (q * m <= x < (q + 1) * m)%Z -> (x / m = q)%Z.
Proof. intros Hm Hx. symmetry. apply (Z.div_unique_pos _ _ _ (x - q * m)); lia. Qed.

Lemma encode_2 a b :
  (194 <= a <= 223)%Z -> (128 <= b <= 191)%Z ->
  let r := (Z.land a 31 * 64 + Z.land b 63)%Z in
  ValidRune r = true /\ encode_rune r = String (of_byte a) (String (of_byte b) "").
Proof.
  intros Ha Hb r. subst r. utf8_arith. rewrite (mod_of a 32 6), (mod_of b 64 2) by lia.
  set (r := ((a - 6 * 32) * 64 + (b - 2 * 64))%Z).
  split; [unfold ValidRune; lia|]. unfold encode_rune.
  destruct (Z.ltb_spec r 0); [lia|]. destruct (Z.ltb_spec r 128); [lia|].
  destruct (Z.ltb_spec r 2048); [|lia]. utf8_arith.
  rewrite (div_of r 64 (a - 192)), (mod_of r 64 (a - 192)) by lia.
  do 2 f_equal; f_equal; lia.
Qed.

Lemma encode_3 a b c :
  (224 <= a <= 239)%Z -> (128 <= b <= 191)%Z -> (128 <= c <= 191)%Z ->
  (a = 224 -> 160 <= b)%Z -> (a = 237 -> b <= 159)%Z ->
  let r := (Z.land a 15 * 4096 + Z.land b 63 * 64 + Z.land c 63)%Z in
  ValidRune r = true /\
  encode_rune r = String (of_byte a) (String (of_byte b) (String (of_byte c) "")).
Proof.
  intros Ha Hb Hc Hlo Hhi r. subst r. utf8_arith.
  rewrite (mod_of a 16 14), (mod_of b 64 2), (mod_of c 64 2) by lia.
  set (r := ((a - 14 * 16) * 4096 + (b - 2 * 64) * 64 + (c - 2 * 64))%Z).
  assert (ValidRune r = true) as Hv by (unfold ValidRune; lia).
  split; [done|]. unfold encode_rune.
  destruct (Z.ltb_spec r 0); [lia|]. destruct (Z.ltb_spec r 128); [lia|].
  destruct (Z.ltb_spec r 2048); [lia|].
  replace ((55296 <=? r) && (r <=? 57343) || (1114111 <? r))%Z with false by (unfold ValidRune in Hv; lia).
  destruct (Z.ltb_spec r 65536); [|lia]. utf8_arith.
  rewrite (div_of r 4096 (a - 224)), (div_of r 64 ((a - 224) * 64 + (b - 128))),
    (mod_of _ 64 (a - 224)), (mod_of r 64 ((a - 224) * 64 + (b - 128))) by lia.
  do 3 f_equal; f_equal; lia.
Qed.

Lemma encode_4 a b c d :
  (240 <= a <= 244)%Z -> (128 <= b <= 191)%Z -> (128 <= c <= 191)%Z -> (128 <= d <= 191)%Z ->
  (a = 240 -> 144 <= b)%Z -> (a = 244 -> b <= 143)%Z ->
  let r := (Z.land a 7 * 262144 + Z.land b 63 * 4096 + Z.land c 63 * 64 + Z.land d 63)%Z in
  ValidRune r = true /\
  encode_rune r = String (of_byte a) (String (of_byte b) (String (of_byte c) (String (of_byte d) ""))).
Proof.
  intros Ha Hb Hc Hd Hlo Hhi r. subst r. utf8_arith.
  rewrite (mod_of a 8 30), (mod_of b 64 2), (mod_of c 64 2), (mod_of d 64 2) by lia.
  set (r := ((a - 30 * 8) * 262144 + (b - 2 * 64) * 4096 + (c - 2 * 64) * 64 + (d - 2 * 64))%Z).
  assert (ValidRune r = true) as Hv by (unfold ValidRune; lia).
  split; [done|]. unfold encode_rune.
  destruct (Z.ltb_spec r 0); [lia|]. destruct (Z.ltb_spec r 128); [lia|].
  destruct (Z.ltb_spec r 2048); [lia|].
  replace ((55296 <=? r) && (r <=? 57343) || (1114111 <? r))%Z with false by (unfold ValidRune in Hv; lia).
  destruct (Z.ltb_spec r 65536); [lia|]. utf8_arith.
  rewrite (div_of r 262144 (a - 240)), (div_of r 4096 ((a - 240) * 64 + (b - 128))),
    (div_of r 64 (((a - 240) * 64 + (b - 128)) * 64 + (c - 128))),
    (mod_of _ 64 (a - 240)), (mod_of _ 64 ((a - 240) * 64 + (b - 128))),
    (mod_of r 64 (((a - 240) * 64 + (b - 128)) * 64 + (c - 128))) by lia.
  do 4 f_equal; f_equal; lia.
Qed.

Lemma encode_1 c : (byte_of c < 128)%Z -> encode_rune (byte_of c) = String c "".
Proof.
  intros Hc. unfold encode_rune. pose proof (byte_range c).
  rewrite (proj2 (Z.ltb_ge _ _)), (proj2 (Z.ltb_lt _ _)) by lia. by rewrite of_byte_of.
Qed.

(** What [runes] keeps of a string. *)
Definition decoded_string (s : string) : Prop :=
  Forall decoded_rune (runes s) /\ concat_str (map snd (runes s)) = s.

Lemma decoded_cons r b s :
  decoded_rune (r, b) -> decoded_string s ->
  Forall decoded_rune ((r, b) :: runes s) /\ concat_str (map snd ((r, b) :: runes s)) = b +:+ s.
Proof. intros Hr [Hf Hc]. split; [by constructor|]. simpl. fold (concat_str (map snd (runes s))). by rewrite Hc. Qed.

Lemma decoded_bad a s :
  (128 <= byte_of a)%Z -> decoded_string s ->
  Forall decoded_rune ((rune_error, String a "") :: runes s) /\
  concat_str (map snd ((rune_error, String a "") :: runes s)) = String a s.
Proof.
  intros Ha Hs. rewrite <- (sapp_one a s). apply decoded_cons; [|done]. right. by exists a.
Qed.

Lemma Zle_of b z : (b <=? z)%Z = true -> (b <= z)%Z.
Proof. lia. Qed.

Lemma runes_decoded s : decoded_string s.
Proof.
  remember (String.length s) as n eqn:Hn. revert s Hn.
  induction (lt_wf n) as [n _ IH]. intros s ->.
  destruct s as [|a r0]; [by split; [constructor|]|].
  assert (forall t, String.length t < String.length (String a r0) -> decoded_string t) as IHt
    by (intros t Ht; by eapply IH).
  assert (decoded_string r0) as IH0 by (apply IHt; simpl; lia).
  unfold decoded_string. cbn [runes]. pose proof (byte_range a) as Hra.
  destruct (Z.ltb_spec (byte_of a) 128) as [Hlt|Hge].
  { rewrite <- (sapp_one a r0). apply decoded_cons; [|done]. left. simpl.
    rewrite encode_1 by done. split; [done|]. unfold ValidRune. lia. }
  destruct (in_range 194 223 a) eqn:H2.
  { destruct r0 as [|b r1]; [by apply decoded_bad|].
    destruct (is_cont b) eqn:Hb; [|by apply decoded_bad]. bytes.
    destruct (encode_2 (byte_of a) (byte_of b)) as [Hv He]; [lia|lia|].
    rewrite !of_byte_of in He. unfold low6.
    change (String a (String b r1)) with (String a (String b "") +:+ r1).
    apply decoded_cons; [by left|]. apply IHt. simpl. lia. }
  destruct (in_range 224 239 a) eqn:H3.
  { destruct r0 as [|b [|c r2]]; [by apply decoded_bad|by apply decoded_bad|].
    destruct (in_range _ _ b && is_cont c) eqn:Hc; [|by apply decoded_bad]. bytes.
    destruct (encode_3 (byte_of a) (byte_of b) (byte_of c)) as [Hv He]; try lia.
    1-3: destruct (Z.eqb_spec (byte_of a) 224), (Z.eqb_spec (byte_of a) 237); lia.
    rewrite !of_byte_of in He.
    change (String a (String b (String c r2))) with (String a (String b (String c "")) +:+ r2).
    apply decoded_cons; [by left|]. apply IHt. simpl. lia. }
  destruct (in_range 240 244 a) eqn:H4; [|by apply decoded_bad].
  destruct r0 as [|b [|c [|d r3]]]; [by apply decoded_bad..|].
  destruct (in_range _ _ b && is_cont c && is_cont d) eqn:Hc; [|by apply decoded_bad]. bytes.
  destruct (encode_4 (byte_of a) (byte_of b) (byte_of c) (byte_of d)) as [Hv He]; try lia.
  1-3: destruct (Z.eqb_spec (byte_of a) 240), (Z.eqb_spec (byte_of a) 244); lia.
  rewrite !of_byte_of in He.
  change (String a (String b (String c (String d r3))))
    with (String a (String b (String c (String d ""))) +:+ r3).
  apply decoded_cons; [by left|]. apply IHt. simpl. lia.
Qed.

(** ** Hexadecimal digits *)

Ltac case_decide_bool :=
  match goal with |- context [if ?b then _ else _] => destruct b eqn:? end.

Lemma hex_val_lowerhex d : (0 <= d < 16)%Z -> hex_val (lowerhex d) = Some d.
Proof.
  intros Hd. unfold hex_val, lowerhex.
  destruct (Z.ltb_spec d 10); rewrite byte_of_byte by lia; repeat case_decide_bool; lia || f_equal; lia.
Qed.

Lemma land15 x : (0 <= x)%Z -> (Z.land x 15 = x mod 16 /\ 0 <= x mod 16 < 16)%Z.
Proof. intros Hx. rewrite (land_ones_mod _ 4 15) by done. split; [done|]. apply Z.mod_pos_bound. lia. Qed.

Lemma take_hex n v x rest :
  (0 <= x)%Z ->
  take_digits hex_val 16 n v (hex_digits n x ++ rest) = Some (v * 16 ^ Z.of_nat n + x mod 16 ^ Z.of_nat n, rest)%Z.
Proof.
  intros Hx. revert v. induction n as [|n IH]; intros v; cbn [hex_digits take_digits app].
  - change (16 ^ Z.of_nat 0)%Z with 1%Z. rewrite Z.mod_1_r. do 2 f_equal. lia.
  - assert (0 <= Z.shiftr x (4 * Z.of_nat n))%Z as Hs by (apply Z.shiftr_nonneg; lia).
    destruct (land15 _ Hs) as [-> Hr]. rewrite hex_val_lowerhex, IH by done. do 2 f_equal.
    rewrite Nat2Z.inj_succ, Z.pow_succ_r by lia. rewrite Z.shiftr_div_pow2 by lia.
    rewrite Z.pow_mul_r by lia. change (2 ^ 4)%Z with 16%Z.
    rewrite (Z.mul_comm 16 (16 ^ Z.of_nat n)), Z.rem_mul_r by lia. lia.
Qed.

(** ** One piece *)

Section Pieces.
Context `{UnicodeTables}.

(** A piece that stands for itself: no quote, backslash or newline in it. *)
Definition raw (l : list ascii) : Prop := Forall (fun c => c <> DQ /\ c <> BS /\ c <> "010"%char) l.

(** Reading a piece gives back the rune's bytes. *)
Definition reads_as (piece : list ascii) (b : string) : Prop :=
  forall rest, exists v multibyte,
    UnquoteChar (piece ++ rest) DQ = Some (v, multibyte, rest) /\
    (if (v <? 128)%Z || negb multibyte then String (of_byte v) "" else encode_rune v) = b.

(** The forms of a piece: itself, or an escape. *)
Definition piece_ok (p : Z * string) : Prop :=
  reads_as (quote_piece p) (snd p) /\
  ((quote_piece p = chars (snd p) /\ raw (quote_piece p)) \/
   (exists l, quote_piece p = BS :: l /\ "010"%char ∉ l)) /\
  quote_piece p <> [].

Lemma hex_char_plain d : (0 <= d < 16)%Z -> lowerhex d <> "010"%char.
Proof.
  intros Hd Heq. apply (f_equal byte_of) in Heq. unfold lowerhex in Heq.
  change (byte_of "010") with 10%Z in Heq. destruct (Z.ltb_spec d 10); rewrite byte_of_byte in Heq; lia.
Qed.

Lemma hex_digits_plain n x : (0 <= x)%Z -> "010"%char ∉ hex_digits n x.
Proof.
  intros Hx. induction n as [|n IH]; cbn [hex_digits]; [apply not_elem_of_nil|].
  apply not_elem_of_cons. split; [|done]. assert (0 <= Z.shiftr x (4 * Z.of_nat n))%Z as Hs
    by (apply Z.shiftr_nonneg; lia).
  destruct (land15 _ Hs) as [-> ?]. apply not_eq_sym. by apply hex_char_plain.
Qed.

(** The escapes of a number. *)
Lemma unquote_x l rest v :
  take_digits hex_val 16 2 0 l = Some (v, rest) ->
  UnquoteChar (BS :: "x"%char :: l) DQ = Some (v, false, rest).
Proof. intros Hl. cbn -[take_digits]. by rewrite Hl. Qed.

Lemma unquote_u n c l rest v :
  (c = "u"%char /\ n = 4 \/ c = "U"%char /\ n = 8) ->
  take_digits hex_val 16 n 0 l = Some (v, rest) -> ValidRune v = true ->
  UnquoteChar (BS :: c :: l) DQ = Some (v, true, rest).
Proof. intros [[-> ->]|[-> ->]] Hl Hv; cbn -[take_digits]; by rewrite Hl, Hv. Qed.

Lemma escape_x x b :
  (0 <= x < 256)%Z -> b = String (of_byte x) "" -> reads_as (BS :: "x"%char :: hex_digits 2 x) b.
Proof.
  intros Hx -> rest. exists x, false. split; [|by rewrite orb_true_r].
  apply unquote_x. fold (app (A:=ascii)). rewrite take_hex by lia.
  change (16 ^ Z.of_nat 2)%Z with 256%Z. by rewrite Z.mod_small by done.
Qed.

Lemma escape_u n c x :
  (c = "u"%char /\ n = 4 \/ c = "U"%char /\ n = 8) -> (128 <= x < 16 ^ Z.of_nat n)%Z -> ValidRune x = true ->
  reads_as (BS :: c :: hex_digits n x) (encode_rune x).
Proof.
  intros Hn Hx Hv rest. exists x, true. split.
  - cbn [app]. eapply unquote_u; [done| |done]. rewrite take_hex by lia. by rewrite Z.mod_small by lia.
  - by rewrite (proj2 (Z.ltb_ge _ _)) by lia.
Qed.

Lemma encode_high r :
  (128 <= r)%Z -> ValidRune r = true ->
  exists c l, chars (encode_rune r) = c :: l /\ (128 <= byte_of c)%Z /\ Forall (fun c => 128 <= byte_of c)%Z l.
Proof.
  intros Hge Hv. unfold encode_rune, ValidRune in *.
  rewrite (proj2 (Z.ltb_ge r 0)), (proj2 (Z.ltb_ge r 128)) by lia.
  repeat case_decide_bool; simpl; do 2 eexists; (split; [reflexivity|]).
  all: split; [|repeat constructor]; utf8_arith;
    rewrite byte_of_byte by (Z.to_euclidean_division_equations; lia);
    Z.to_euclidean_division_equations; lia.
Qed.

Lemma printable_reads r :
  ValidRune r = true -> unicode_IsPrint r = true -> (r <> 34 -> r <> 92 ->
  reads_as (chars (encode_rune r)) (encode_rune r) /\ raw (chars (encode_rune r)) /\ chars (encode_rune r) <> [])%Z.
Proof.
  intros Hv Hp H34 H92. destruct (Z.ltb_spec r 128) as [Hlt|Hge].
  - unfold unicode_IsPrint in Hp. rewrite (proj2 (Z.ltb_lt _ _)) in Hp by done.
    assert (32 <= r <= 126)%Z as Hr.
    { unfold in_ranges in Hp. simpl in Hp. lia. }
    unfold encode_rune. rewrite (proj2 (Z.ltb_ge r 0)), (proj2 (Z.ltb_lt r 128)) by lia. cbn [chars].
    assert (forall c, byte_of c <> r -> of_byte r <> c) as Hne.
    { intros c Hc <-. apply Hc. by apply byte_of_byte; lia. }
    split_and!.
    + intros rest. exists r, false. cbn [app UnquoteChar].
      destruct (Ascii.eqb_spec (of_byte r) DQ) as [Heq|_]; [by exfalso; apply (Hne DQ)|].
      rewrite byte_of_byte by lia. rewrite (proj2 (Z.leb_gt _ _)) by lia.
      destruct (Ascii.eqb_spec (of_byte r) BS) as [Heq|_]; [by exfalso; apply (Hne BS)|].
      simpl. by rewrite orb_true_r.
    + constructor; [|constructor]. split_and!; apply Hne; vm_compute; lia.
    + done.
  - destruct (encode_high r Hge Hv) as (c & l & Hcl & Hc & Hl).
    split_and!; [| |by rewrite Hcl].
    + intros rest. exists r, true. rewrite (proj2 (Z.ltb_ge r 128)) by lia. split; [|done].
      pose proof (runes_encode r (of_chars rest) Hv) as Hr.
      replace (encode_rune r +:+ of_chars rest) with (of_chars (chars (encode_rune r) ++ rest)) in Hr
        by (by rewrite of_chars_app, of_chars_chars).
      unfold UnquoteChar. rewrite Hcl in Hr |- *. cbn [app] in *.
      destruct (Ascii.eqb_spec c DQ) as [->|_]; [by vm_compute in Hc|].
      rewrite (proj2 (Z.leb_le _ _)) by done. rewrite Hr.
      rewrite <- length_chars, Hcl. simpl. by rewrite drop_app_length.
    + rewrite Hcl. constructor; [|eapply Forall_impl; [done|]; cbn beta; intros c' Hc'];
        split_and!; intros ->; by vm_compute in Hc || by vm_compute in Hc'.
Qed.

(** An escape of one letter reads as the number [z]. *)
Ltac letter z :=
  split_and!;
  [intros rest; by exists z, false|right; eexists; split; [done|]; refine (bool_decide_unpack _ _); by vm_compute|done].

Lemma quote_piece_ok p : decoded_rune p -> piece_ok p.
Proof.
  destruct p as [r b]. intros [[Hb Hv]|(c & Hb & Hc & Hr)]; cbn [fst snd] in *; subst.
  2: { unfold piece_ok, quote_piece. cbn [fst snd String.length]. cbn [Z.eqb rune_error Nat.eqb andb chars].
       pose proof (byte_range c). split_and!; [|right; eexists; split; [done|]|done].
       - apply escape_x; [done|]. by rewrite of_byte_of.
       - rewrite not_elem_of_cons. split; [done|]. by apply hex_digits_plain; lia. }
  assert (quote_piece (r, encode_rune r) = escape_rune r) as Hq.
  { unfold quote_piece. cbn [fst snd]. destruct (Z.eqb_spec r rune_error) as [->|]; done. }
  unfold piece_ok. rewrite Hq. cbn [snd]. clear Hq. unfold escape_rune.
  assert (forall x, ValidRune x = true -> (0 <= x)%Z) as Hpos by (unfold ValidRune; lia).
  specialize (Hpos _ Hv).
  destruct (Z.eqb_spec r 34) as [->|H34].
  { split_and!; [|right; eexists; split; [done|]|done]; [|refine (bool_decide_unpack _ _); by vm_compute].
    intros rest. by exists 34%Z, false. }
  destruct (Z.eqb_spec r 92) as [->|H92].
  { split_and!; [|right; eexists; split; [done|]|done]; [|refine (bool_decide_unpack _ _); by vm_compute].
    intros rest. by exists 92%Z, false. }
  cbn [orb]. destruct (unicode_IsPrint r) eqn:Hp.
  { destruct (printable_reads r) as (? & ? & ?); try done. split_and!; [done|by left|done]. }
  destruct (Z.eqb_spec r 7) as [->|H7]; [letter 7%Z|].
  destruct (Z.eqb_spec r 8) as [->|H8]; [letter 8%Z|].
  destruct (Z.eqb_spec r 12) as [->|H12]; [letter 12%Z|].
  destruct (Z.eqb_spec r 10) as [->|H10]; [letter 10%Z|].
  destruct (Z.eqb_spec r 13) as [->|H13]; [letter 13%Z|].
  destruct (Z.eqb_spec r 9) as [->|H9]; [letter 9%Z|].
  destruct (Z.eqb_spec r 11) as [->|H11]; [letter 11%Z|].
  assert ("010"%char <> "x"%char /\ "010"%char <> "u"%char /\ "010"%char <> "U"%char) as (? & ? & ?) by done.
  destruct ((r <? 32)%Z || (r =? 127)%Z) eqn:Hctl.
  { split_and!; [|right; eexists; split; [done|]|done].
    - apply escape_x; [lia|]. unfold encode_rune.
      by rewrite (proj2 (Z.ltb_ge r 0)), (proj2 (Z.ltb_lt r 128)) by lia.
    - rewrite not_elem_of_cons. split; [done|]. by apply hex_digits_plain. }
  rewrite Hv. cbn [negb].
  assert (128 <= r)%Z as Hge.
  { destruct (Z.le_gt_cases 128 r); [done|]. unfold unicode_IsPrint, in_ranges in Hp.
    rewrite (proj2 (Z.ltb_lt _ _)) in Hp by done. simpl in Hp. lia. }
  destruct (Z.ltb_spec r 65536); (split_and!; [|right; eexists; split; [done|]|done]).
  - apply escape_u; [by left|change (16 ^ Z.of_nat 4)%Z with 65536%Z; lia|done].
  - rewrite not_elem_of_cons. split; [done|]. by apply hex_digits_plain.
  - apply escape_u; [by right|change (16 ^ Z.of_nat 8)%Z with 4294967296%Z; unfold ValidRune in Hv; lia|done].
  - rewrite not_elem_of_cons. split; [done|]. by apply hex_digits_plain.
Qed.
End Pieces.

(** ** The whole string *)

Section Quoting.
Context `{UnicodeTables}.
Abbreviation pieces rs := (concat (map quote_piece rs)).

Lemma piece_head p l : piece_ok p -> quote_piece p ++ l <> [] /\
  exists c t, quote_piece p ++ l = c :: t /\ c <> DQ /\ c <> "010"%char.
Proof.
  intros (_ & Hform & Hne). destruct Hform as [[_ Hr]|(t & Ht & _)].
  - destruct (quote_piece p) as [|c t]; [done|]. inversion_clear Hr as [|? ? (? & ? & ?) _].
    split; [done|]. by exists c, (t ++ l).
  - rewrite Ht. split; [done|]. by exists BS, (t ++ l).
Qed.

Lemma unquote_pieces rs fuel buf t :
  Forall piece_ok rs -> List.length rs <= fuel ->
  unquote_loop fuel DQ buf (pieces rs ++ DQ :: t) = Some (buf +:+ concat_str (map snd rs), DQ :: t).
Proof.
  intros Hrs. revert fuel buf. induction Hrs as [|p rs Hp Hrs IH]; intros fuel buf Hf.
  - cbn. destruct fuel; by rewrite sapp_nil_r.
  - cbn [map concat]. rewrite <- (assoc_L app).
    destruct fuel as [|k]; [simpl in Hf; lia|].
    destruct (piece_head p (pieces rs ++ DQ :: t) Hp) as (_ & c & l & Hl & Hdq & Hnl).
    destruct Hp as [Hreads _]. destruct (Hreads (pieces rs ++ DQ :: t)) as (v & mb & Hu & Hb).
    unfold unquote_loop; fold unquote_loop. rewrite Hl in *.
    destruct (Ascii.eqb_spec c DQ); [done|]. destruct (Ascii.eqb_spec c "010"); [done|].
    rewrite Hu, Hb. cbn [Ascii.eqb Bool.eqb]. rewrite IH by (simpl in Hf; lia).
    cbn [map]. unfold concat_str. cbn [foldr]. by rewrite sapp_assoc.
Qed.

(** The first quote of a quoted body: the closing one, or one behind a backslash. *)
Lemma first_quote rs t :
  Forall piece_ok rs ->
  exists n, index_of DQ (pieces rs ++ DQ :: t) = Some n /\
    (mem_char BS (take n (pieces rs ++ DQ :: t)) = true \/
     (n = List.length (pieces rs) /\ pieces rs = chars (concat_str (map snd rs)))).
Proof.
  induction 1 as [|p rs Hp Hrs (n & Hn & Hcase)].
  - exists 0. split; [done|]. by right.
  - cbn [map concat]. rewrite <- (assoc_L app). destruct Hp as (_ & Hform & _).
    destruct Hform as [[Heq Hraw]|(l & Hl & _)].
    + exists (List.length (quote_piece p) + n). split; [|destruct Hcase as [Hbs|[-> Hp]]].
      * assert (forall q l, raw q -> index_of DQ l = Some n -> index_of DQ (q ++ l) = Some (List.length q + n)) as Hidx.
        { intros q l Hq Hl. induction Hq as [|c q (Hc & _) _ IH]; [done|].
          cbn. destruct (Ascii.eqb_spec c DQ); [done|]. by rewrite IH. }
        by apply Hidx.
      * left. unfold mem_char in *. rewrite take_app_add', existsb_app by done. by rewrite Hbs, orb_true_r.
      * right. rewrite length_app. split; [done|]. unfold concat_str. cbn [map foldr].
        rewrite chars_app. rewrite Hp, Heq. done.
    + rewrite Hl. cbn [app index_of]. destruct (Ascii.eqb_spec BS DQ) as [|_]; [done|].
      destruct (index_of DQ (l ++ pieces rs ++ DQ :: t)) as [m|] eqn:Hm.
      * exists (S m). split; [done|]. left. done.
      * exfalso. clear -Hm. assert (DQ ∈ l ++ pieces rs ++ DQ :: t) as Hin by set_solver.
        induction (l ++ pieces rs ++ DQ :: t) as [|c q IH]; [by apply elem_of_nil in Hin|].
        cbn in Hm. destruct (Ascii.eqb_spec c DQ); [done|].
        apply elem_of_cons in Hin as [Heq|Hin]; [by subst|].
        destruct (index_of DQ q); [done|]. by apply IH.
Qed.

Lemma pieces_length rs t : Forall piece_ok rs -> List.length rs <= List.length (pieces rs ++ t).
Proof.
  rewrite length_app. induction 1 as [|p rs (_ & _ & Hne) _ IH]; [simpl; lia|].
  cbn [map concat]. rewrite length_app. destruct (quote_piece p); [done|]. simpl in *. lia.
Qed.

Lemma Unquote_Quote s : strconv_Unquote (strconv_Quote s) = Ok s.
Proof.
  destruct (runes_decoded s) as [Hdec Hs].
  assert (Forall piece_ok (runes s)) as Hok.
  { eapply Forall_impl; [exact Hdec|]. intros p. apply quote_piece_ok. }
  destruct (first_quote (runes s) [] Hok) as (n & Hn & Hcase).
  pose proof (unquote_pieces (runes s) (List.length (pieces (runes s) ++ [DQ])) "" [] Hok) as Hloop.
  rewrite Hs in *. change ("" +:+ s) with s in Hloop.
  unfold strconv_Unquote, strconv_Quote, quote_body. rewrite chars_of_chars, Hn.
  cbn [Ascii.eqb Bool.eqb orb].
  destruct Hcase as [Hbs|[-> Hraw]].
  - rewrite Hbs. cbn [negb andb]. rewrite Hloop; [done|by apply pieces_length].
  - destruct (negb _ && negb _ && ValidString _) eqn:Hplain.
    + rewrite length_app. cbn [List.length]. rewrite Nat.add_1_r, Nat.eqb_refl.
      rewrite take_app_length, Hraw, of_chars_chars. done.
    + rewrite Hloop; [done|by apply pieces_length].
Qed.

(** A quoted string is one line. *)
Lemma Quote_no_newline s : "010"%char ∉ chars (strconv_Quote s).
Proof.
  unfold strconv_Quote, quote_body. rewrite chars_of_chars. destruct (runes_decoded s) as [Hdec _].
  assert ("010"%char ∉ pieces (runes s)) as Hp.
  { induction Hdec as [|p rs Hp _ IH]; [apply not_elem_of_nil|]. cbn [map concat].
    apply not_elem_of_app. split; [|done]. apply quote_piece_ok in Hp as (_ & Hform & _).
    destruct Hform as [[_ Hr]|(l & -> & Hl)].
    - intros Hin. eapply Forall_forall in Hr; [|exact Hin]. by destruct Hr as (_ & _ & ?).
    - by apply not_elem_of_cons. }
  intros [Hc|[Hin|Hc%list_elem_of_singleton]%elem_of_app]%elem_of_cons; done.
Qed.
End Quoting.

(** ** Trimming *)

(** A decoded rune whose bytes end below 128 is that byte. *)
Lemma decoded_last p d :
  decoded_rune p -> last (chars (snd p)) = Some d -> (byte_of d < 128)%Z -> fst p = byte_of d.
Proof.
  destruct p as [r b]. intros [[-> Hv]|(c & -> & Hc & _)] Hl Hd; cbn [fst snd chars] in *.
  2: { simpl in Hl. simplify_eq. lia. }
  destruct (Z.ltb_spec r 128) as [Hlt|Hge].
  - unfold encode_rune in Hl. unfold ValidRune in Hv.
    rewrite (proj2 (Z.ltb_ge r 0)), (proj2 (Z.ltb_lt r 128)) in Hl by lia. simpl in Hl. simplify_eq.
    by rewrite byte_of_byte by lia.
  - destruct (encode_high r Hge Hv) as (c & l & Hcl & Hc & Hl'). rewrite Hcl in Hl.
    apply last_Some_elem_of in Hl. apply elem_of_cons in Hl as [->|Hin]; [lia|].
    eapply Forall_forall in Hl'; [|exact Hin]. simpl in Hl'. lia.
Qed.

(** Trimming leaves a text alone that starts and ends with a visible ASCII character. *)
Lemma TrimSpace_id c m d :
  (32 < byte_of c < 128)%Z -> (32 < byte_of d < 128)%Z ->
  strings_TrimSpace (String c (m +:+ String d "")) = String c (m +:+ String d "").
Proof.
  intros Hc Hd. set (s := String c (m +:+ String d "")).
  assert (forall r, (32 < r < 128)%Z -> unicode_IsSpace r = false) as Hsp.
  { intros r Hr. unfold unicode_IsSpace, in_ranges. simpl. lia. }
  destruct (runes_decoded s) as [Hdec Hs].
  assert (exists b rs, runes s = (byte_of c, b) :: rs) as (b & rs & Hrs).
  { unfold s. cbn [runes]. rewrite (proj2 (Z.ltb_lt _ _)) by lia. by do 2 eexists. }
  assert (drop_space (runes s) = runes s) as Hfront.
  { rewrite Hrs. cbn [drop_space]. by rewrite Hsp. }
  assert (exists p rs', runes s = rs' ++ [p] /\ fst p = byte_of d) as (p & rs' & Hrs' & Hp).
  { destruct (exists_last (l := runes s)) as (rs' & p & Hrs'); [by rewrite Hrs|].
    exists p, rs'. split; [done|]. rewrite Hrs' in Hdec, Hs. apply Forall_app in Hdec as [_ Hp].
    inversion_clear Hp as [|? ? Hpd _]. apply decoded_last; [done| |lia].
    assert (snd p <> "") as Hne.
    { destruct Hpd as [[-> Hv]|(? & -> & _)]; [|done]. unfold ValidRune in Hv.
      unfold encode_rune. by repeat case_decide_bool. }
    apply (f_equal chars) in Hs. rewrite map_app in Hs. unfold concat_str in Hs.
    rewrite foldr_app in Hs. cbn [map foldr] in Hs. rewrite sapp_nil_r in Hs.
    assert (forall l x, chars (foldr String.append x l) = concat (map chars l) ++ chars x) as Hch.
    { induction l as [|y l IH]; intros x; [done|]. simpl. by rewrite chars_app, IH, (assoc_L app). }
    rewrite Hch in Hs. unfold s in Hs. cbn [chars] in Hs. rewrite chars_app in Hs.
    assert (last (chars (snd p)) = last (concat (map chars (map snd rs')) ++ chars (snd p))) as ->.
    { rewrite last_app. destruct (last (chars (snd p))) eqn:Hl; [done|].
      apply last_None in Hl. by destruct Hne; apply chars_inj. }
    rewrite Hs. change (c :: chars m ++ chars (String d "")) with ((c :: chars m) ++ [d]). apply last_snoc. }
  unfold strings_TrimSpace. rewrite Hfront, Hrs', rev_app_distr. cbn [rev app drop_space].
  destruct p as [r bp]. cbn [fst] in Hp. subst r. rewrite Hsp by lia.
  cbn [rev]. rewrite rev_involutive. rewrite <- Hrs'. exact Hs.
Qed.

(** ** Scanning *)

(** A line that fits the buffer and does not end in a carriage return. *)
Definition scannable (l : string) : Prop :=
  ("010"%char ∉ chars l) /\ too_long l = false /\ drop_cr l = l.

Lemma scan_lines ls rerr :
  Forall scannable ls ->
  bufio_Scan (concat_str (map (fun l => l +:+ nl) ls)) rerr = (ls, rerr).
Proof.
  unfold bufio_Scan. induction 1 as [|l ls (Hnl & Hlong & Hcr) _ IH]; [done|].
  cbn [map]. unfold concat_str. cbn [foldr]. rewrite sapp_assoc. unfold nl at 1.
  rewrite sapp_one, Split_app by done. cbn [scan_go].
  pose proof (Split_nonempty (concat_str (map (fun l => l +:+ nl) ls)) "010") as Hne.
  unfold concat_str in *. destruct (strings_Split _ _) as [|x xs] eqn:Hx; [done|].
  rewrite Hlong, IH. by rewrite Hcr.
Qed.
