(* ===== verification/Effects.v ===== *)
(** * Effects: programs that call the operating system, and the logic they are verified in.

    A Go function with effects is a value of [prog A]: it returns, it stops the process (a panic or
    [os.Exit]), or it performs one call and continues with whatever the outside world answers.
    Nothing is assumed of the answers; a theorem that needs something of them names it as a rely
    condition.  [exec] is the behaviour (every prefix of a run is a behaviour too, so that what holds
    of [exec] holds at a power cut), [wp] the logic, [run] the execution against a concrete world. *)

From S2P Require Import Prelude.
Open Scope list_scope.

(** ** Programs *)

(** Why a process stopped: [os.Exit code], a run-time panic, or (in the model only) a loop of the
    source that has no bound used up the iterations the model gave it. *)
Inductive halt := ExitWith (code : Z) | Panic (msg : string) | OutOfFuel.

Inductive prog (call : Type) (resp : call -> Type) (A : Type) : Type :=
| Ret (a : A)
| Vis (c : call) (k : resp c -> prog call resp A)
| Halt (h : halt).
Arguments Ret {call resp A} a.
Arguments Vis {call resp A} c k.
Arguments Halt {call resp A} h.

(** One call with its answer. *)
Record event (call : Type) (resp : call -> Type) := Ev { ev_call : call; ev_resp : resp ev_call }.
Arguments Ev {call resp} ev_call ev_resp.
Arguments ev_call {call resp} e.
Arguments ev_resp {call resp} e.

(** How a run stands: finished, stopped, or still running. *)
Inductive outcome (A : Type) := Done (a : A) | Halted (h : halt) | Running.
Arguments Done {A} a.
Arguments Halted {A} h.
Arguments Running {A}.

Section Prog.
Context {call : Type} {resp : call -> Type}.
Abbreviation prog' := (prog call resp).
Abbreviation event' := (event call resp).

Fixpoint bind {A B} (p : prog' A) (f : A -> prog' B) : prog' B :=
  match p with
  | Ret a => f a
  | Vis c k => Vis c (fun r => bind (k r) f)
  | Halt h => Halt h
  end.

Definition perform (c : call) : prog' (resp c) := Vis c Ret.

(** Go's [if err != nil { return err }]. *)
Definition bindE {A B} (p : prog' (result A)) (f : A -> prog' (result B)) : prog' (result B) :=
  bind p (fun r => match r with Ok a => f a | Err e => Ret (Err e) end).

(** Go's [if err != nil { return fmt.Errorf(format, args..., err) }] around a call. *)
Definition wrapf {A} (format : string) (args : list string) (p : prog' (result A))
  : prog' (result A) :=
  bind p (fun r => match r with
                   | Ok a => Ret (Ok a)
                   | Err e => Ret (Err (Errorf_w format args e))
                   end).

(** A loop over a slice, left at the first error. *)
Fixpoint for_each {X} (l : list X) (body : X -> prog' (result unit)) : prog' (result unit) :=
  match l with
  | [] => Ret (Ok tt)
  | x :: l' => bindE (body x) (fun _ => for_each l' body)
  end.

(** A loop over a slice that carries a variable. *)
Fixpoint for_fold {X S} (l : list X) (s : S) (body : X -> S -> prog' S) : prog' S :=
  match l with
  | [] => Ret s
  | x :: l' => bind (body x s) (fun s' => for_fold l' s' body)
  end.

(** ** Behaviour *)

Abbreviation hist := (list event').

(** What may be assumed of the answers, and what is promised of the calls, given the history
    (newest event first). *)
Definition rely := hist -> forall c, resp c -> Prop.
Definition guar := hist -> call -> Prop.

Definition any_resp : rely := fun _ _ _ => True.
Definition any_call : guar := fun _ _ => True.

(** [exec R p h h' o]: from history [h], [p] can have reached history [h'] with outcome [o], every
    answer satisfying [R]. *)
Inductive exec {A} (R : rely) : prog' A -> hist -> hist -> outcome A -> Prop :=
| exec_ret a h : exec R (Ret a) h h (Done a)
| exec_halt s h : exec R (Halt s) h h (Halted s)
| exec_stop p h : exec R p h h Running
| exec_wait c k r h : exec R (Vis c k) h (Ev c r :: h) Running
| exec_vis c k r h h' o :
    R h c r -> exec R (k r) (Ev c r :: h) h' o -> exec R (Vis c k) h h' o.

(** Every call made after [h] satisfies the promise at the history it was made from. *)
Inductive guaranteed (G : guar) (h : hist) : hist -> Prop :=
| guaranteed_nil : guaranteed G h h
| guaranteed_cons e h' : guaranteed G h h' -> G h' (ev_call e) -> guaranteed G h (e :: h').

(** ** Logic *)

Fixpoint wp {A} (R : rely) (G : guar) (p : prog' A) (Q : outcome A -> hist -> Prop) (h : hist)
  : Prop :=
  match p with
  | Ret a => Q (Done a) h
  | Halt s => Q (Halted s) h
  | Vis c k => G h c /\ forall r, R h c r -> wp R G (k r) Q (Ev c r :: h)
  end.

(** ** Execution against a concrete world of states [W] *)

Section Run.
Context {W : Type} (H : forall c, W -> resp c * W).

Fixpoint run {A} (p : prog' A) (w : W) (h : hist) : outcome A * W * hist :=
  match p with
  | Ret a => (Done a, w, h)
  | Halt s => (Halted s, w, h)
  | Vis c k => let '(r, w') := H c w in run (k r) w' (Ev c r :: h)
  end.
End Run.
End Prog.

(** ** Interpretation: each call replaced by the program that implements it *)

Fixpoint interp {call1 resp1 call2 resp2} (I : forall c : call1, prog call2 resp2 (resp1 c))
  {A} (p : prog call1 resp1 A) : prog call2 resp2 A :=
  match p with
  | Ret a => Ret a
  | Vis c k => bind (I c) (fun r => interp I (k r))
  | Halt h => Halt h
  end.

Notation "'let*' x ':=' p 'in' q" := (bind p (fun x => q))
  (at level 10, x name, p at level 100, q at level 200) : go_scope.
Notation "'let*' ' x ':=' p 'in' q" := (bind p (fun x => q))
  (at level 10, x pattern, p at level 100, q at level 200) : go_scope.
Notation "'let!' x ':=' p 'in' q" := (bindE p (fun x => q))
  (at level 10, x name, p at level 100, q at level 200) : go_scope.
Notation "'let!' ' x ':=' p 'in' q" := (bindE p (fun x => q))
  (at level 10, x pattern, p at level 100, q at level 200) : go_scope.

(** ** Rules of the logic *)

Section Rules.
Context {call : Type} {resp : call -> Type}.
Implicit Types (R : @rely call resp) (G : @guar call resp) (h : list (event call resp)).

(** A stopped program skips its continuation. *)
Definition bind_post {A B} R G (f : A -> prog call resp B)
  (Q : outcome B -> list (event call resp) -> Prop) : outcome A -> list (event call resp) -> Prop :=
  fun o h => match o with
             | Done a => wp R G (f a) Q h
             | Halted s => Q (Halted s) h
             | Running => True
             end.

Lemma wp_bind {A B} R G (p : prog call resp A) (f : A -> prog call resp B) Q h :
  wp R G (bind p f) Q h <-> wp R G p (bind_post R G f Q) h.
Proof.
  revert h. induction p as [a|c k IH|s]; intros h; simpl; [done| |done].
  split; intros [HG Hk]; split; auto; intros r Hr; apply IH; auto.
Qed.

Lemma wp_mono {A} R G (p : prog call resp A) (Q Q' : _ -> _ -> Prop) h :
  (forall o h', Q o h' -> Q' o h') -> wp R G p Q h -> wp R G p Q' h.
Proof.
  intros HQ. revert h. induction p as [a|c k IH|s]; intros h; simpl; auto.
  intros [HG Hk]. split; auto.
Qed.

(** Strengthening what is relied on, weakening what is promised. *)
Lemma wp_weaken {A} R R' G G' (p : prog call resp A) (Q Q' : _ -> _ -> Prop) h :
  (forall h c r, R' h c r -> R h c r) -> (forall h c, G h c -> G' h c) ->
  (forall o h', Q o h' -> Q' o h') -> wp R G p Q h -> wp R' G' p Q' h.
Proof.
  intros HR HG HQ. revert h. induction p as [a|c k IH|s]; intros h; simpl; auto.
  intros [Hg Hk]. split; auto.
Qed.

Lemma wp_conj {A} R G G' (p : prog call resp A) Q Q' h :
  wp R G p Q h -> wp R G' p Q' h ->
  wp R (fun h c => G h c /\ G' h c) p (fun o h => Q o h /\ Q' o h) h.
Proof.
  revert h. induction p as [a|c k IH|s]; intros h; simpl; auto.
  intros [Hg Hk] [Hg' Hk']. split; auto.
Qed.

Lemma guaranteed_trans G h1 h2 h3 :
  guaranteed G h1 h2 -> guaranteed G h2 h3 -> guaranteed G h1 h3.
Proof. intros H12 H23. induction H23; [done|]. by constructor. Qed.

Lemma guaranteed_app G h h' : guaranteed G h h' -> exists new, h' = new ++ h.
Proof.
  induction 1 as [|e h' _ [new ->] _]; [by exists []|]. by exists (e :: new).
Qed.

(** Soundness: each call made keeps the promise, and the postcondition holds at the end. *)
Theorem wp_sound {A} R G (p : prog call resp A) Q h h' o :
  wp R G p Q h -> exec R p h h' o ->
  guaranteed G h h' /\ (o <> Running -> Q o h').
Proof.
  intros Hwp Hex.
  induction Hex as [a h|s h|p h|c k r h|c k r h h' o Hr Hex IH]; simpl in Hwp.
  - split; [constructor|auto].
  - split; [constructor|auto].
  - split; [constructor|done].
  - destruct Hwp as [Hg _]. split; [|done]. constructor; [constructor|done].
  - destruct Hwp as [Hg Hk]. destruct (IH (Hk _ Hr)) as [Hgs HQ]. split; [|done].
    eapply guaranteed_trans; [|exact Hgs]. constructor; [constructor|done].
Qed.

(** The promise at one call of a run that started with no history. *)
Lemma guaranteed_at G h newer e older :
  guaranteed G [] h -> h = newer ++ e :: older -> G older (ev_call e).
Proof.
  intros Hg. revert newer. induction Hg as [|e' h Hg IH He]; intros newer Heq.
  - by destruct newer.
  - destruct newer as [|x newer]; simplify_list_eq; eauto.
Qed.

(** What holds of every call of a program holds of every call of each of its runs. *)
Lemma exec_guaranteed_at {A} R G (p : prog call resp A) Q h o newer e older :
  wp R G p Q [] -> exec R p [] h o -> h = newer ++ e :: older -> G older (ev_call e).
Proof.
  intros Hwp Hex Heq. destruct (wp_sound _ _ _ _ _ _ _ Hwp Hex) as [Hg _].
  by eapply guaranteed_at.
Qed.

(** The calls of any run satisfy a promise that does not look at the history. *)
Lemma guaranteed_Forall (P : call -> Prop) h h' new :
  guaranteed (fun _ c => P c) h h' -> h' = new ++ h -> Forall (fun e => P (ev_call e)) new.
Proof.
  intros Hg. revert new. induction Hg as [|e h' Hg IH He]; intros new Heq.
  - assert (length new = 0) as Hl by (apply (f_equal length) in Heq; rewrite length_app in Heq; lia).
    by destruct new.
  - destruct new as [|e' new]; simplify_list_eq.
    + apply guaranteed_app in Hg as [n Hn]. apply (f_equal length) in Hn.
      rewrite length_app in Hn. simpl in Hn. lia.
    + constructor; auto.
Qed.

(** A behaviour only adds to the history. *)
Lemma exec_extends {A} R (p : prog call resp A) h h' o :
  exec R p h h' o -> exists new, h' = new ++ h.
Proof.
  induction 1 as [| | |c k r h|c k r h h' o _ _ [new ->]]; try by exists [].
  - by exists [Ev c r].
  - exists (new ++ [Ev c r]). by rewrite <- (assoc_L app).
Qed.

(** A run against a concrete world is a behaviour. *)
Lemma run_exec {W} (H : forall c, W -> resp c * W) {A} (p : prog call resp A) w h :
  let '(o, _, h') := run H p w h in exec any_resp p h h' o.
Proof.
  revert w h. induction p as [a|c k IH|s]; intros w h; simpl; [constructor| |constructor].
  destruct (H c w) as [r w']. specialize (IH r w' (Ev c r :: h)).
  destruct (run H (k r) w' _) as [[o w''] h'']. econstructor; [done|exact IH].
Qed.

(** The same under a rely, from an invariant of the world and the history. *)
Lemma run_exec_rely {W} (H : forall c, W -> resp c * W) R (Inv : W -> list (event call resp) -> Prop)
  {A} (p : prog call resp A) w h :
  (forall w h c, Inv w h -> R h c (fst (H c w)) /\ Inv (snd (H c w)) (Ev c (fst (H c w)) :: h)) ->
  Inv w h -> exec R p h (snd (run H p w h)) (fst (fst (run H p w h))).
Proof.
  intros Hstep. revert w h. induction p as [a|c k IH|s]; intros w h HI; simpl; [constructor| |constructor].
  destruct (Hstep w h c HI) as [Hr HI']. destruct (H c w) as [r w']. econstructor; [exact Hr|]. by apply IH.
Qed.

Lemma run_bind {W} (H : forall c, W -> resp c * W) {A B} (p : prog call resp A)
  (f : A -> prog call resp B) w h :
  run H (bind p f) w h =
  match run H p w h with
  | (Done a, w', h') => run H (f a) w' h'
  | (Halted s, w', h') => (Halted s, w', h')
  | (Running, w', h') => (Running, w', h')
  end.
Proof.
  revert w h. induction p as [a|c k IH|s]; intros w h; simpl; [done| |done].
  destruct (H c w) as [r w']. apply IH.
Qed.

(** A program always comes to an end: no behaviour is infinite. *)
Lemma run_ends {W} (H : forall c, W -> resp c * W) {A} (p : prog call resp A) w h :
  (run H p w h).1.1 <> Running.
Proof.
  revert w h. induction p as [a|c k IH|s]; intros w h; simpl; [done| |done].
  destruct (H c w) as [r w']. apply IH.
Qed.
End Rules.

(** ** Loops and frames *)

Section Loops.
Context {call : Type} {resp : call -> Type}.
Implicit Types (R : @rely call resp) (G : @guar call resp) (h : list (event call resp)).

(** A loop that carries a variable: [I rest s h] before the pass over [rest]. *)
Lemma wp_for_fold {X S} R G (l : list X) (s : S) (body : X -> S -> prog call resp S)
  (I : list X -> S -> list (event call resp) -> Prop) Q h :
  I l s h ->
  (forall s h, I [] s h -> Q (Done s) h) ->
  (forall x l' s h, I (x :: l') s h ->
     wp R G (body x s) (fun o h' => match o with
                                    | Done s' => I l' s' h'
                                    | Halted e => Q (Halted e) h'
                                    | Running => True
                                    end) h) ->
  wp R G (for_fold l s body) Q h.
Proof.
  intros HI Hnil Hstep. revert s h HI. induction l as [|x l IH]; intros s h HI; simpl.
  - by apply Hnil.
  - apply wp_bind. eapply wp_mono; [|by apply Hstep]. intros [s'|e|] h' H'; simpl; auto.
Qed.

(** A program whose calls a view of the history ignores leaves the view as it was. *)
Lemma wp_frame {A V} (view : list (event call resp) -> V) R G (P : call -> Prop)
  (p : prog call resp A) h :
  (forall h c r, P c -> R h c r -> view (Ev c r :: h) = view h) ->
  (forall h c, P c -> G h c) ->
  wp R (fun _ c => P c) p (fun _ _ => True) h ->
  wp R G p (fun _ h' => view h' = view h) h.
Proof.
  intros Hview HG. revert h. induction p as [a|c k IH|s]; intros h; simpl; [done| |done].
  intros [Hc Hk]. split; [auto|]. intros r Hr.
  eapply wp_mono; [|exact (IH r _ (Hk r Hr))]. simpl. intros o h' ->. by apply Hview.
Qed.

(** A view of the history that the promised calls leave as it is, at every call. *)
Lemma wp_keep {A V} (view : list (event call resp) -> V) R G (p : prog call resp A) Q h :
  (forall h c r, G h c -> view (Ev c r :: h) = view h) -> wp R G p Q h ->
  wp R (fun h' c => G h' c /\ view h' = view h) p (fun o h' => Q o h' /\ view h' = view h) h.
Proof.
  intros Hview. remember (view h) as v eqn:Hv. symmetry in Hv.
  revert h Hv. induction p as [a|c k IH|s]; intros h Hv; simpl; [done| |done].
  intros [Hc Hk]. split; [done|]. intros r Hr. apply IH; [|by apply Hk]. by rewrite Hview.
Qed.

(** A promise about every call is, at each call, kept by all the calls so far. *)
Lemma wp_so_far {A} (P : call -> Prop) R (p : prog call resp A) Q h :
  Forall (fun e => P (ev_call e)) h -> wp R (fun _ c => P c) p Q h ->
  wp R (fun h' c => P c /\ Forall (fun e => P (ev_call e)) h') p Q h.
Proof.
  revert h. induction p as [a|c k IH|s]; intros h Hh; simpl; [done| |done].
  intros [Hc Hk]. split; [done|]. intros r Hr. apply IH; [by constructor|by apply Hk].
Qed.

(** What holds of every longer history once it holds may be added to every promise. *)
Lemma wp_always {A} R G (p : prog call resp A) Q (I : list (event call resp) -> Prop) h :
  (forall e h, I h -> I (e :: h)) -> I h -> wp R G p Q h ->
  wp R (fun h c => G h c /\ I h) p (fun o h' => Q o h' /\ I h') h.
Proof.
  intros HI. revert h. induction p as [a|c k IH|s]; intros h Hh; simpl; [done| |done].
  intros [HG Hk]. split; auto.
Qed.

(** The same, kept for the end only. *)
Lemma wp_also {A} R G (p : prog call resp A) Q (I : list (event call resp) -> Prop) h :
  (forall e h, I h -> I (e :: h)) -> I h -> wp R G p Q h -> wp R G p (fun o h' => Q o h' /\ I h') h.
Proof.
  intros HI Hh Hp. eapply wp_weaken; [| | |exact (wp_always R G p Q I h HI Hh Hp)];
    [done|by intros ?? [? _]|done].
Qed.

(** The postcondition may tell of the run itself. *)
Lemma wp_exec {A} R G (p : prog call resp A) Q h :
  wp R G p Q h -> wp R G p (fun o h' => Q o h' /\ exec any_resp p h h' o) h.
Proof.
  revert h. induction p as [a|c k IH|s]; intros h; simpl.
  - intros HQ. split; [done|constructor].
  - intros [Hc Hk]. split; [done|]. intros r Hr. eapply wp_mono; [|by apply IH, Hk].
    intros o h' [HQ He]. split; [done|]. by econstructor.
  - intros HQ. split; [done|constructor].
Qed.

(** The postcondition may tell what is known of the answers. *)
Lemma wp_answers {A} (P : forall c, resp c -> Prop) R G (p : prog call resp A) Q h :
  (forall h c r, R h c r -> P c r) -> wp R G p Q h ->
  wp R G p (fun o h' => Q o h' /\ exists new, h' = new ++ h /\
    Forall (fun e => P (ev_call e) (ev_resp e)) new) h.
Proof.
  intros HP. revert h. induction p as [a|c k IH|s]; intros h; simpl.
  - intros HQ. split; [done|]. by exists [].
  - intros [Hc Hk]. split; [done|]. intros r Hr. eapply wp_mono; [|by apply IH, Hk].
    intros o h' (HQ & new & -> & Hn). split; [done|]. exists (new ++ [Ev c r]).
    rewrite <- (assoc_L app). split; [done|]. apply Forall_app_2; [done|].
    by apply Forall_singleton, (HP h).
  - intros HQ. split; [done|]. by exists [].
Qed.

(** A program does not depend on what was before it: what it promises and leaves from [h] holds of
    the part of the history that is its own. *)
Lemma wp_after {A} R R' G (p : prog call resp A) Q h older :
  (forall h c r, R' (h ++ older) c r -> R h c r) -> wp R G p Q h ->
  wp R' (fun h' c => exists own, h' = own ++ older /\ G own c) p
    (fun o h' => exists own, h' = own ++ older /\ Q o own) (h ++ older).
Proof.
  intros HR. revert h. induction p as [a|c k IH|s]; intros h; simpl; [eauto| |eauto].
  intros [Hc Hk]. split; [eauto|]. intros r Hr. apply (IH r (Ev c r :: h)), Hk, HR, Hr.
Qed.

(** The sequence of two programs, the first one leaving a property of the history behind. *)
Lemma wp_seq {A B} R G (p : prog call resp A) (f : A -> prog call resp B)
  (I : A -> list (event call resp) -> Prop) Q h :
  wp R G p (fun o h' => match o with Done a => I a h' | Halted s => Q (Halted s) h' | Running => True end) h ->
  (forall a h', I a h' -> wp R G (f a) Q h') ->
  wp R G (bind p f) Q h.
Proof.
  intros Hp Hf. apply wp_bind. eapply wp_mono; [|exact Hp]. intros [a|s|] h' H'; simpl; auto.
Qed.

(** A loop over a slice left at the first error: what a run of it consists of. *)
Inductive loop_run {X} (R : rely) (body : X -> prog call resp (result unit)) :
  list X -> list (event call resp) -> list (event call resp) -> Prop :=
| loop_nil h : loop_run R body [] h h
| loop_cons x l h h1 h2 :
    exec R (body x) h h1 (Done (Ok tt)) -> loop_run R body l h1 h2 -> loop_run R body (x :: l) h h2.

(** What a finished run of each shape of program consists of. *)
Lemma exec_inv {A} R (p : prog call resp A) h h' a :
  exec R p h h' (Done a) ->
  match p with
  | Ret b => b = a /\ h' = h
  | Vis c k => exists r, R h c r /\ exec R (k r) (Ev c r :: h) h' (Done a)
  | Halt _ => False
  end.
Proof.
  intros Hex. remember (Done a) as o. destruct Hex; simplify_eq; eauto.
Qed.

Lemma exec_bind_inv {A B} R (p : prog call resp A) (f : A -> prog call resp B) h h' b :
  exec R (bind p f) h h' (Done b) ->
  exists a h1, exec R p h h1 (Done a) /\ exec R (f a) h1 h' (Done b).
Proof.
  revert h. induction p as [a|c k IH|s]; intros h H; simpl in H.
  - exists a, h. split; [constructor|done].
  - apply exec_inv in H as (r & Hr & H). destruct (IH _ _ H) as (a & h1 & Ha & Hf).
    exists a, h1. split; [|done]. by apply exec_vis with r.
  - by apply exec_inv in H.
Qed.

Lemma exec_bind {A B} R (p : prog call resp A) (f : A -> prog call resp B) h h1 h' a o :
  exec R p h h1 (Done a) -> exec R (f a) h1 h' o -> exec R (bind p f) h h' o.
Proof.
  revert h. induction p as [b|c k IH|s]; intros h Hp Hf; apply exec_inv in Hp; simpl.
  - by destruct Hp as [-> ->].
  - destruct Hp as (r & Hr & Hp). apply exec_vis with r; auto.
  - done.
Qed.

(** A finished loop either went through the whole slice or stopped at its first failing element,
    whose error it returns. *)
Lemma for_each_runs {X} R (l : list X) (body : X -> prog call resp (result unit)) h h' r :
  exec R (for_each l body) h h' (Done r) <->
  (r = Ok tt /\ loop_run R body l h h') \/
  (exists l1 x l2 h1 e, l = l1 ++ x :: l2 /\ r = Err e /\
     loop_run R body l1 h h1 /\ exec R (body x) h1 h' (Done (Err e))).
Proof.
  revert h. induction l as [|x l IH]; intros h; simpl; split.
  - intros [<- ->]%exec_inv. left. split; [done|constructor].
  - intros [[-> Hl]|(l1 & x & l2 & h1 & e & Heq & _)]; [|by destruct l1].
    inversion Hl; subst. constructor.
  - unfold bindE. intros ([[]|e] & h1 & Hx & Hk)%exec_bind_inv.
    + apply IH in Hk as [[-> Hl]|(l1 & y & l2 & h2 & e & -> & -> & Hl & Hy)].
      * left. split; [done|]. by econstructor.
      * right. exists (x :: l1), y, l2, h2, e. split_and!; try done. by econstructor.
    + apply exec_inv in Hk as [<- ->]. right. exists [], x, l, h, e. split_and!; try done.
      constructor.
  - intros [[-> Hl]|(l1 & y & l2 & h2 & e & Heq & -> & Hl & Hy)].
    + inversion Hl; subst. eapply exec_bind; [done|]. apply IH. by left.
    + destruct l1 as [|z l1]; simplify_list_eq; inversion Hl; subst.
      * eapply exec_bind; [done|]. constructor.
      * eapply exec_bind; [done|]. apply IH. right. by repeat eexists.
Qed.
End Loops.

(** ** Programs over implementations *)

Section Implements.
Context {call1 : Type} {resp1 : call1 -> Type} {call2 : Type} {resp2 : call2 -> Type}.
Context (I : forall c : call1, prog call2 resp2 (resp1 c)).

(** [implements h1 h2]: [h2] is made of one finished run of the implementation of each call of [h1],
    in this order, the run's result being the answer. *)
Inductive implements : list (event call1 resp1) -> list (event call2 resp2) -> Prop :=
| implements_nil : implements [] []
| implements_call c r h1 h2 h2' :
    implements h1 h2 -> exec any_resp (I c) h2 h2' (Done r) -> implements (Ev c r :: h1) h2'.

(** A promise of the calls above carries over: what each implementation does from a history that
    implements one from which its call was promised, the whole program does. *)
Lemma interp_wp {A} (p : prog call1 resp1 A) G1 G2 Q h1 h2 :
  (forall c g1 g2, G1 g1 c -> implements g1 g2 -> wp any_resp G2 (I c) (fun _ _ => True) g2) ->
  wp any_resp G1 p Q h1 -> implements h1 h2 ->
  wp any_resp G2 (interp I p)
    (fun o h2' => match o with Done a => exists h1', implements h1' h2' /\ Q (Done a) h1' | _ => True end) h2.
Proof.
  intros HI. revert h1 h2. induction p as [a|c k IH|s]; intros h1 h2 Hp Hh; simpl in *; [eauto| |done].
  destruct Hp as [Hc Hk]. apply wp_bind. eapply wp_mono; [|apply wp_exec; by eapply HI].
  intros [r|s|] h2' [_ Hx]; [|done|done]. eapply IH; [by apply Hk|]. by eapply implements_call.
Qed.
End Implements.

(** ** Equality of programs: the same calls in the same order, whatever is answered *)

Section Equality.
Context {call : Type} {resp : call -> Type}.

Inductive peq {A} : prog call resp A -> prog call resp A -> Prop :=
| peq_ret a : peq (Ret a) (Ret a)
| peq_halt s : peq (Halt s) (Halt s)
| peq_vis c k k' : (forall r, peq (k r) (k' r)) -> peq (Vis c k) (Vis c k').

(** Inversion, by the shape of the first program. *)
Lemma peq_inv {A} (p q : prog call resp A) :
  peq p q ->
  match p with
  | Ret a => q = Ret a
  | Halt s => q = Halt s
  | Vis c k => exists k', q = Vis c k' /\ forall r, peq (k r) (k' r)
  end.
Proof. intros []; eauto. Qed.

#[export] Instance peq_equivalence {A} : Equivalence (@peq A).
Proof.
  split.
  - intros p. induction p; constructor; auto.
  - intros p q. induction 1; constructor; auto.
  - intros p q r Hpq. revert r. induction Hpq as [| |c k k' Hk IH]; intros r Hqr; [done|done|].
    apply peq_inv in Hqr as (k2 & -> & Hk2). constructor. intros x. apply IH, Hk2.
Qed.

#[export] Instance bind_proper {A B} :
  Proper (peq ==> pointwise_relation A peq ==> peq) (@bind call resp A B).
Proof.
  intros p q Hpq f g Hfg. induction Hpq; simpl; [apply Hfg|constructor|by constructor].
Qed.

Lemma bind_assoc {A B C} (p : prog call resp A) (f : A -> prog call resp B)
  (g : B -> prog call resp C) :
  peq (bind (bind p f) g) (bind p (fun a => bind (f a) g)).
Proof. induction p; simpl; [done|by constructor|constructor]. Qed.

Lemma bind_ret_r {A} (p : prog call resp A) : peq (bind p Ret) p.
Proof. induction p; simpl; by constructor. Qed.

(** The logic does not distinguish equal programs. *)
#[export] Instance wp_proper {A} (R : @rely call resp) G :
  Proper (peq ==> eq ==> eq ==> iff) (@wp call resp A R G).
Proof.
  intros p q Hpq Q ? <- h ? <-. revert h.
  induction Hpq as [| |c k k' _ IH]; intros h; simpl; [done|done|].
  split; intros [HG Hk]; split; auto; intros r Hr; apply IH; auto.
Qed.
End Equality.
