(* ===== verification/OS.v ===== *)
(** * OS: the calls the program makes on the outside world.

    The constructors of [call] are the methods of the interfaces of [internal/iface/iface.go] (one
    group per interface, under the interface's name), the other injected functions of the handlers,
    and below them the system calls and Go library calls the production implementations make.
    [resp] is what each answers.  Logging ([slog], [log]) is not a call: nothing reads it. *)

From S2P Require Import Prelude GoStrings GoPath Effects.
Open Scope string_scope.
Open Scope list_scope.

(** ** Data the calls exchange *)

(** [os.FileMode] bits. *)
Definition ModeDir : Z := Z.shiftl 1 31.
Definition ModeSymlink : Z := Z.shiftl 1 27.
Definition ModePerm : Z := 511.

Record FileInfo := { fi_name : string; fi_mode : Z }.

Definition fi_IsDir (i : FileInfo) : bool := negb (Z.land (fi_mode i) ModeDir =? 0)%Z.
Definition fi_IsSymlink (i : FileInfo) : bool := negb (Z.land (fi_mode i) ModeSymlink =? 0)%Z.

(** [iface.DirEntry]: [Name], [IsDir] and what [Info] returns. *)
Record DirEntry := { de_name : string; de_is_dir : bool; de_info : result FileInfo }.

(** [iface.File], an open file: its name and its descriptor. *)
Record File := { file_name : string; file_fd : Z }.

(** [os.Stdout]. *)
Definition Stdout : File := {| file_name := "/dev/stdout"; file_fd := 1 |}.

(** [iface.LoopDevice]. *)
Record LoopDevice := { ld_path : string; ld_fd : Z }.

(** [loopInfo64] of package loopdev, the kernel's [struct loop_info64]; its arrays are lists of bytes
    and of words.  [loopInfo64_zero] is the zero value. *)
Record loopInfo64 := {
  li_Device : Z; li_INode : Z; li_RDevice : Z; li_Offset : Z; li_SizeLimit : Z;
  li_Number : Z; li_EncryptType : Z; li_EncryptKeySize : Z; li_Flags : Z;
  li_FileName : list Z; li_CryptName : list Z; li_EncryptKey : list Z; li_Init : list Z;
}.

Definition loopInfo64_zero : loopInfo64 :=
  {| li_Device := 0; li_INode := 0; li_RDevice := 0; li_Offset := 0; li_SizeLimit := 0; li_Number := 0;
     li_EncryptType := 0; li_EncryptKeySize := 0; li_Flags := 0; li_FileName := replicate 64 0%Z;
     li_CryptName := replicate 64 0%Z; li_EncryptKey := replicate 32 0%Z; li_Init := [0; 0]%Z |}.

(** What transferring the root reads of [syscall.Stat_t]. *)
Record SysStat := { st_dev : Z; st_uid : Z; st_gid : Z; st_rdev : Z; st_atim : Z; st_mtim : Z }.

(** An entry of an MBR partition table, and the table's four entries (package [mbr]). *)
Record MbrPart := { mp_empty : bool; mp_start : Z; mp_len : Z }.

(** An HTTP response: its status code, protocol and status texts, and what reading its body yields. *)
Record HttpResponse := { hr_code : Z; hr_proto : string; hr_status : string; hr_body : string; hr_err : option error }.

(** [CmdLine] of u-root's package cmdline: the text and what it was parsed to. *)
Record CmdLine := { cl_Raw : string; cl_AsMap : gmap string string }.

(** What the blkid library tells of a device: the name of what is on it, its label and UUID, and
    those of its partitions. *)
Record BlkidInfo := {
  bi_Name : string; bi_Label : option string; bi_UUID : option string;
  bi_Parts : list (option string * option string);
}.

(** [io.EOF]. *)
Definition EOF : error := ErrText "EOF".

(** ** The calls *)

Inductive call :=
(* iface.FileSystem *)
| WriteFile (name data : string) (perm : Z)
| ReadFile (name : string)
| MkdirAll (path : string) (perm : Z)
| Stat (name : string)
| Lstat (name : string)
| Open (name : string)
| Create (name : string)
| CreateTemp (dir pattern : string)
| Chown (name : string) (uid gid : Z)
| Chmod (name : string) (mode : Z)
| Rename (oldpath newpath : string)
| Remove (name : string)
| RemoveAll (path : string)
| Symlink (oldname newname : string)
| Readlink (name : string)
| ReadDir (name : string)
| Hostname
(* iface.File *)
| FileWrite (f : File) (data : string)
| FileReadAll (f : File)
| FileClose (f : File)
(* iface.CommandRunner *)
| Run (name : string) (args : list string)
| RunOutput (name : string) (args : list string)
| RunWithStdin (stdin name : string) (args : list string)
| RunShell (command : string)
| RunWithEnv (env : list string) (name : string) (args : list string)
(* iface.ModuleLoader, SysctlApplier, HostnameSetter, ClockSyncer *)
| LoadedModules
| LoadModule (name params : string)
| SysctlSet (key value : string)
| SetHostname (name : string)
| SyncRTC
(* iface.Mounter, Unmounter *)
| Mount (device target mType options : string)
| ForceMount (device target mType options : string)
| Mounted (target : string)
| Unmount (target : string) (flags : Z)
(* iface.BlockProber, PartitionGrower *)
| FindByLabel (label : string)
| ListDisks
| ProbeFS (device : string)
| GrowPartition (device : string) (partNum : Z)
(* iface.LoopAttacher, LoopDevice, LoopDetacher *)
| LoopAttach (backingFile : string) (offset : Z) (readOnly : bool)
| LoopSetAutoclear (d : LoopDevice)
| LoopDetach (d : LoopDevice)
| DetachPath (device : string)
(* modes.ProcessExecutor, and the functions injected into the handlers *)
| PivotRoot (newRoot putOld : string)
| Exec (path : string) (args env : list string)
| CopyDir (src dst : string)
| CopyPreserving (src dst skipExt : string)
| RandUint32
| VirtDetect
| Sleep (ns : Z)
| Now
| CtxErr
| Getenv (key : string)
| LookupEnv (key : string)
| Environ
| Statfs (path : string)
(* iface.CmdlineParser; the second result of Flag as an option *)
| CmdlineFlag (name : string)
| CmdlineContains (name : string)
| CmdlineConsoles
| CmdlineRaw
(* the order in which a range statement visits a map with these keys *)
| RangeOrder (keys : list string)
(* terminal and standard input *)
| StdinReadString
| StdinReadByte
| Print (text : string)
| PrintErr (text : string)
(* system and library calls of the production implementations *)
| SysMount (source target fstype : string) (flags : Z) (data : string)
| SysUnmount (target : string) (flags : Z)
| SysMknod (path : string) (mode : Z) (dev : Z)
| SysOpen (path : string) (flags : Z)
| SysClose (fd : Z)
| SysRead (fd : Z) (n : Z)
| SysSeek (fd : Z) (off : Z)
| SysSync (fd : Z)
| IoctlSetInt (fd req val : Z)
| IoctlLoopGetStatus64 (fd : Z)
| IoctlLoopSetStatus64 (fd : Z) (info : loopInfo64)
(* the ioctl with the memory its argument points to; the answer is errno and the memory afterwards *)
| SysIoctl (fd req : Z) (memory : list Z)
| IoctlRereadPartitions (fd : Z)
| FindLoopDevice
| FileStat (fd : Z)
| DeviceSize (fd : Z)
| MbrRead (fd : Z)
| MbrWrite (fd : Z) (table : list MbrPart)
| GptOpen (device : string)
| GptDevice (h : Z)
| GptRead (h : Z)
| GptAvailableGrowth (h idx : Z)
| GptGrow (h idx growth : Z)
| GptWrite (h : Z)
| GptPartitions (h : Z)
| GptSectorSize (h : Z)
| KernelPartitionResize (h partNum start length : Z)
| GptClose (h : Z)
| HttpGet (url : string)
| BlkidProbe (device : string)
| BlkidProbePath (device : string)
| NewCmdLine
| ShowSubcommandHelp
| MkdirTemp (dir pattern : string)
(* package os and system calls of the entry into the root, of rc and of upgrade *)
| OpenFile (name : string) (flags perm : Z)
| FileRead (f : File) (n : Z)
| SysFlock (fd op : Z)
| SysSethostname (name : string)
| SysChroot (dir : string)
| SysPivotRoot (newRoot putOld : string)
| SysExec (path : string) (args env : list string)
| SysSyncAll
| Uname
| Chdir (dir : string)
| Setenv (key value : string)
| Unsetenv (key : string)
| Setrlimit (resource cur max : Z)
| Getpid
| Getuid
| LookPath (name : string)
| ExecRun (name : string) (args : list string)
| ExecOutput (name : string) (args : list string)
| ExecRunStdin (stdin name : string) (args : list string)
| ExecRunEnv (name : string) (args env : list string)
| ExecNamespaced (path : string) (args env : list string)
| Glob (pattern : string)
| ModprobeLoad (name params : string)
| NetInit
(* terminal modes, and the calls of the transfer of the root and of main *)
| TermIsTerminal (fd : Z)
| TermMakeRaw (fd : Z)
| TermRestore (fd : Z)
| StatSys (path : string)
| LstatSys (path : string)
| ReadDirNames (path : string)
| Mkdir (path : string) (perm : Z)
| Lchown (path : string) (uid gid : Z)
| UtimesNanoAt (path : string) (atim mtim : Z)
| CopyBuffer (dst src : File)
| SysMkfifo (path : string) (mode : Z)
| SysStatfs (path : string)
| SysDup2 (oldfd newfd : Z)
| RandRead
| SysReboot
| RtcOpen
| RtcRead (h : Z)
| RtcClose (h : Z)
| SysSettimeofday (sec usec : Z)
(* the start of the goroutine that calls SetAutoclear after a while *)
| GoAutoclear (d : LoopDevice).

(** What the world answers.  [result unit] is a Go [error]. *)
Definition resp (c : call) : Type :=
  match c with
  | ReadFile _ | Readlink _ | Hostname | FindByLabel _ | StdinReadString | Statfs _
  | FindLoopDevice | SysRead _ _ | MkdirTemp _ _ | Uname | LookPath _ | RunOutput _ _ | ExecOutput _ _ => result string
  | MbrRead _ => result (list MbrPart)
  | FileStat _ => result (bool * Z)
  | GptPartitions _ => list (Z * Z)
  | GptSectorSize _ => Z
  | Stat _ | Lstat _ => result FileInfo
  | StatSys _ | LstatSys _ => result (FileInfo * SysStat)
  | Open _ | Create _ | CreateTemp _ _ | OpenFile _ _ _ => result File
  | ReadDir _ => result (list DirEntry)
  | FileReadAll _ | FileRead _ _ => (string * option error)%type
  | LoadedModules | ListDisks | VirtDetect | Glob _ | ReadDirNames _ => result (list string)
  | Mounted _ => result bool
  | ProbeFS _ | Getenv _ => string
  | LookupEnv _ | CmdlineFlag _ => option string
  | CmdlineContains _ => bool
  | CmdlineConsoles => list string
  | CmdlineRaw => string
  | NewCmdLine => CmdLine
  | CtxErr => option error
  | Environ | RangeOrder _ => list string
  | LoopAttach _ _ _ => result LoopDevice
  | RandUint32 | SysOpen _ _ | DeviceSize _ | GptOpen _ | RtcOpen | RtcRead _
  | GptAvailableGrowth _ _ | SysStatfs _ => result Z
  | RandRead => result (list Z)
  | StdinReadByte => (option Z * option error)%type
  | TermIsTerminal _ => bool
  | Sleep _ | Print _ | PrintErr _ | SysSyncAll | NetInit | GoAutoclear _ => unit
  | Now | Getpid | Getuid => Z
  | IoctlLoopGetStatus64 _ => result loopInfo64
  | SysIoctl _ _ _ => (Z * list Z)%type
  | HttpGet _ => result HttpResponse
  | BlkidProbe _ => result (string * string)
  | BlkidProbePath _ => result BlkidInfo
  | _ => result unit
  end.

(** ** Programs over these calls *)

Abbreviation io := (prog call resp).
(** A Go function returning [(A, error)]. *)
Abbreviation M A := (io (result A)).
Abbreviation ev := (event call resp).

Definition ret {A} (a : A) : M A := Ret (Ok a).
Definition fail {A} (e : error) : M A := Ret (Err e).
Definition sys (c : call) : io (resp c) := perform c.

(** [_ = call]: the answer is dropped. *)
Definition ignore {A} (p : io A) : io unit := bind p (fun _ => Ret tt).

(** Go's [range] over a map visits the keys in an order the runtime chooses. *)
Definition range_order (keys : list string) : io (list string) :=
  bind (sys (RangeOrder keys)) (fun o =>
    Ret (if decide (o ≡ₚ keys) then o else keys)).

(** ** Relies: documented behaviour of the operating system *)

(** [os.ReadDir] returns the entries of the directory, whose names are single path elements. *)
Definition plain_entries : @rely call resp := fun _ c =>
  match c return resp c -> Prop with
  | ReadDir _ => fun r =>
      match r with Ok es => Forall (fun e => plain_name (de_name e)) es | Err _ => True end
  | _ => fun _ => True
  end.

(** ** Facts *)

Section ForEach.
Implicit Types (R : @rely call resp) (G : @guar call resp).

(** The loop rule: an invariant of the history that the body keeps while it succeeds, and that
    gives the postcondition when the body fails. *)
Lemma wp_for_each {X} R G (l : list X) (body : X -> M unit)
  (I : list X -> list ev -> Prop) (Q : outcome (result unit) -> list ev -> Prop) h :
  I l h ->
  (forall h, I [] h -> Q (Done (Ok tt)) h) ->
  (forall x l' h, I (x :: l') h ->
     wp R G (body x) (fun o h' => match o with
                                  | Done (Ok _) => I l' h'
                                  | Done (Err e) => Q (Done (Err e)) h'
                                  | Halted s => Q (Halted s) h'
                                  | Running => True
                                  end) h) ->
  wp R G (for_each l body) Q h.
Proof.
  intros HI Hnil Hstep. revert h HI. induction l as [|x l IH]; intros h HI; simpl.
  - by apply Hnil.
  - unfold bindE. apply wp_bind. eapply wp_mono; [|by apply Hstep].
    intros [[[]|e]|s|] h' H'; simpl; auto.
Qed.

Lemma wp_bindE {A B} R G (p : M A) (f : A -> M B) Q h :
  wp R G p (fun o h' => match o with
                        | Done (Ok a) => wp R G (f a) Q h'
                        | Done (Err e) => Q (Done (Err e)) h'
                        | Halted s => Q (Halted s) h'
                        | Running => True
                        end) h ->
  wp R G (bindE p f) Q h.
Proof.
  intros Hp. unfold bindE. apply wp_bind. eapply wp_mono; [|exact Hp].
  intros [[a|e]|s|] h' H'; simpl; auto.
Qed.

Lemma wp_wrapf {A} R G fmt args (p : M A) Q h :
  wp R G p (fun o h' => match o with
                        | Done (Ok a) => Q (Done (Ok a)) h'
                        | Done (Err e) => Q (Done (Err (Errorf_w fmt args e))) h'
                        | Halted s => Q (Halted s) h'
                        | Running => True
                        end) h ->
  wp R G (wrapf fmt args p) Q h.
Proof.
  intros Hp. unfold wrapf. apply wp_bind. eapply wp_mono; [|exact Hp].
  intros [[a|e]|s|] h' H'; simpl; auto.
Qed.
End ForEach.

Lemma range_order_perm (keys o : list string) : (if decide (o ≡ₚ keys) then o else keys) ≡ₚ keys.
Proof. by case_decide. Qed.

#[export] Hint Resolve range_order_perm : go.

(** ** Sequences of named steps *)

(** All the steps ran, in order, and each returned a nil error. *)
Inductive steps_ok (R : @rely call resp) : list (string * M unit) -> list ev -> list ev -> Prop :=
| steps_nil h : steps_ok R [] h h
| steps_cons name step l h h1 h2 :
    exec R step h h1 (Done (Ok tt)) -> steps_ok R l h1 h2 -> steps_ok R ((name, step) :: l) h h2.

(** The steps ran in order up to the first one that failed, whose error is [fmt]-wrapped with its
    name. *)
Definition steps_result (R : @rely call resp) (fmt : string) (l : list (string * M unit))
  (h h' : list ev) (r : result unit) : Prop :=
  (r = Ok tt /\ steps_ok R l h h') \/
  (exists before name step after h1 e,
     l = before ++ (name, step) :: after /\ steps_ok R before h h1 /\
     exec R step h1 h' (Done (Err e)) /\ r = Err (Errorf_w fmt [name] e)).

Lemma exec_wrapf R {A} fmt args (p : M A) h h' r :
  exec R (wrapf fmt args p) h h' (Done r) <->
  (exists a, r = Ok a /\ exec R p h h' (Done (Ok a))) \/
  (exists e, r = Err (Errorf_w fmt args e) /\ exec R p h h' (Done (Err e))).
Proof.
  unfold wrapf. split.
  - intros (a & h1 & Hp & Hk)%exec_bind_inv. destruct a; apply exec_inv in Hk as [<- ->]; eauto.
  - intros [(a & -> & Hp)|(e & -> & Hp)]; (eapply exec_bind; [exact Hp|constructor]).
Qed.

Lemma loop_steps_ok R fmt (l : list (string * M unit)) h h' :
  loop_run R (fun step => wrapf fmt [fst step] (snd step)) l h h' <-> steps_ok R l h h'.
Proof.
  split.
  - induction 1 as [|[name step] l h h1 h2 Hs _ IH]; [constructor|].
    apply exec_wrapf in Hs as [([] & _ & Hs)|(e & [=] & _)]. by econstructor.
  - induction 1 as [|name step l h h1 h2 Hs _ IH]; [constructor|].
    econstructor; [|done]. apply exec_wrapf. left. eauto.
Qed.

Lemma steps_exec R fmt l h h' r :
  exec R (for_each l (fun step => wrapf fmt [fst step] (snd step))) h h' (Done r) <->
  steps_result R fmt l h h' r.
Proof.
  rewrite for_each_runs. unfold steps_result. f_equiv.
  - by rewrite loop_steps_ok.
  - split.
    + intros (l1 & [name step] & l2 & h1 & e & -> & -> & Hl & Hs). simpl in Hs.
      apply exec_wrapf in Hs as [(a & [=] & _)|(e' & [= ->] & Hs)].
      exists l1, name, step, l2, h1, e'. by rewrite <- loop_steps_ok.
    + intros (l1 & name & step & l2 & h1 & e & -> & Hl & Hs & ->).
      exists l1, (name, step), l2, h1, (Errorf_w fmt [name] e). split_and!; try done.
      * by apply loop_steps_ok.
      * apply exec_wrapf. right. eauto.
Qed.

(** ** Automation: walking through a program's calls *)

(** Unfold the sequencing operators down to the next call, and no further. *)
Ltac wp_norm :=
  cbn [bind bindE wrapf sys perform ret fail ignore wp for_each is_ok negb andb fst snd bind_post].

(** The same, stopping before the call. *)
Ltac wp_head :=
  cbn [bind bindE wrapf sys perform ret fail ignore for_each is_ok negb andb fst snd bind_post].

(** Take the answer to a call, splitting on whether it is an error where the program looks at it. *)
Ltac wp_split r :=
  let T := type of r in
  lazymatch eval hnf in T with
  | result unit => destruct r as [[]|]
  | result _ => destruct r
  | option _ => destruct r
  | prod _ _ => destruct r
  | _ => idtac
  end.

Ltac wp_answer :=
  let r := fresh "r" in
  let Hr := fresh "Hr" in
  intros r Hr;
  lazymatch type of Hr with any_resp _ _ _ => clear Hr | _ => idtac end;
  wp_norm;
  lazymatch goal with
  | |- context [match r with _ => _ end] => wp_split r
  | |- context [is_ok r] => wp_split r
  | _ => idtac
  end.

Ltac wp_step :=
  wp_norm;
  lazymatch goal with
  | |- _ /\ _ => split
  | |- forall r, any_resp _ _ _ -> _ => wp_answer
  | |- forall r : resp _, _ -> _ => wp_answer
  | |- True => exact I
  | |- wp _ _ (match ?x with _ => _ end) _ _ => destruct x eqn:?
  | |- wp _ _ (bind (match ?x with _ => _ end) _) _ _ => destruct x eqn:?
  | |- wp _ _ (bind (bind (match ?x with _ => _ end) _) _) _ _ => destruct x eqn:?
  | |- wp _ _ (bind (bind (bind (match ?x with _ => _ end) _) _) _) _ _ => destruct x eqn:?
  end.
Ltac wp_calls := repeat first [wp_step | progress wp_norm].

(** ** A machine that answers every call favourably, to run programs on *)

Definition all_ok (c : call) : resp c :=
  match c return resp c with
  | ReadFile _ | Readlink _ | Hostname | FindByLabel _ | StdinReadString | Statfs _
  | FindLoopDevice | SysRead _ _ | MkdirTemp _ _ | Uname | LookPath _ | RunOutput _ _ | ExecOutput _ _ => Ok ""
  | MbrRead _ => Ok []
  | FileStat _ => Ok (true, 0%Z)
  | GptPartitions _ => []
  | GptSectorSize _ => 512%Z
  | Stat n | Lstat n => Ok {| fi_name := n; fi_mode := 420 |}
  | StatSys n | LstatSys n =>
      Ok ({| fi_name := n; fi_mode := 420 |},
          {| st_dev := 0; st_uid := 0; st_gid := 0; st_rdev := 0; st_atim := 0; st_mtim := 0 |})
  | Open n | Create n | OpenFile n _ _ => Ok {| file_name := n; file_fd := 3 |}
  | CreateTemp d p => Ok {| file_name := d +:+ "/" +:+ p; file_fd := 3 |}
  | ReadDir _ => Ok []
  | FileReadAll _ => ("", None)
  | FileRead _ _ => ("", Some EOF)
  | LoadedModules | ListDisks | VirtDetect | Glob _ | ReadDirNames _ => Ok []
  | Mounted _ => Ok false
  | ProbeFS _ | Getenv _ => ""
  | LookupEnv _ | CtxErr | CmdlineFlag _ => None
  | CmdlineContains _ => false
  | CmdlineConsoles => []
  | CmdlineRaw => ""
  | NewCmdLine => {| cl_Raw := ""; cl_AsMap := ∅ |}
  | Environ => []
  | RangeOrder keys => keys
  | LoopAttach _ _ _ => Ok {| ld_path := "/dev/loop0"; ld_fd := 3 |}
  | RandUint32 | SysOpen _ _ | DeviceSize _ | GptOpen _ | RtcOpen | RtcRead _
  | GptAvailableGrowth _ _ | SysStatfs _ => Ok 0%Z
  | RandRead => Ok [0; 0; 0; 0]%Z
  | StdinReadByte => (Some 0%Z, None)
  | TermIsTerminal _ => false
  | Sleep _ | Print _ | PrintErr _ | SysSyncAll | NetInit | GoAutoclear _ => tt
  | Now | Getpid | Getuid => 0%Z
  | IoctlLoopGetStatus64 _ => Ok loopInfo64_zero
  | SysIoctl _ _ memory => (0%Z, memory)
  | HttpGet _ => Ok {| hr_code := 200; hr_proto := "HTTP/1.1"; hr_status := "200 OK"; hr_body := ""; hr_err := None |}
  | BlkidProbe _ => Ok ("", "")
  | BlkidProbePath _ => Ok {| bi_Name := ""; bi_Label := None; bi_UUID := None; bi_Parts := [] |}
  | _ => Ok tt
  end.

(** The same machine with some answers replaced; it keeps no state. *)
Definition world (special : forall c, option (resp c)) (c : call) (w : unit) : resp c * unit :=
  (default (all_ok c) (special c), w).

Definition history {A} (special : forall c, option (resp c)) (p : io A) : list ev :=
  snd (run (world special) p tt []).
Definition final {A} (special : forall c, option (resp c)) (p : io A) : outcome A :=
  fst (fst (run (world special) p tt [])).

Lemma world_exec {A} (special : forall c, option (resp c)) (p : io A) :
  exec any_resp p [] (history special p) (final special p).
Proof.
  unfold history, final. pose proof (run_exec (world special) p tt []) as H.
  by destruct (run _ _ _ _) as [[o w] h].
Qed.

(** The same under a rely all of whose answers are checked. *)
Lemma world_exec_rely {A} (R : @rely call resp) special (p : io A) :
  (forall h c, R h c (default (all_ok c) (special c))) ->
  exec R p [] (history special p) (final special p).
Proof.
  intros HR. unfold history, final. generalize (@nil ev).
  induction p as [a|c k IH|s]; intros h; simpl; [constructor| |constructor].
  apply exec_vis with (default (all_ok c) (special c)); [apply HR|]. apply IH.
Qed.
