(* ===== verification/Cmdline.v ===== *)
(** * Cmdline: package [internal/cmdline], the two implementations of [iface.CmdlineParser].

    The first reads /proc/cmdline anew for each method, through u-root ([NewCmdLine] is a call); the
    second keeps a text parsed once.  Both answer from a [CmdLine] by u-root's methods, which the
    class [CmdLineMethods] stands for. *)

From S2P Require Import Prelude GoStrings GoPath Effects OS.
Open Scope string_scope.
Open Scope list_scope.
Open Scope go_scope.

(** ** Parsing a given text *)

(** The separator test; the state is [lastQuote]. *)
Definition cmdline_sep (lastQuote c : Z) : Z * bool :=
  if (c =? lastQuote)%Z then (0, false)%Z
  else if negb (lastQuote =? 0)%Z then (lastQuote, false)
  else if unicode_Quotation_Mark c then (c, false)
  else (lastQuote, unicode_IsSpace c).

(** A token's key and value; without an equals sign the value is "1". *)
Definition key_value (flag : string) : string * string :=
  match strings_SplitN flag "=" 2 with
  | [key; value] => (key, value)
  | _ => (flag, "1")
  end.

(** The body of the loop over the tokens. *)
Definition add_flag (m : gmap string string) (flag : string) : gmap string string :=
  if Nat.eqb (String.length flag) 0 then m
  else
    let '(key, value) := key_value flag in
    let canonicalKey := strings_ReplaceAll key "-" "_" in
    <[key := value]> (<[canonicalKey := value]> m).

Definition parseToMap (raw : string) : gmap string string :=
  foldl add_flag ∅ (strings_FieldsFunc cmdline_sep 0%Z raw).

(** ** The parsers *)

(** The methods of u-root's [CmdLine]. *)
Class CmdLineMethods := {
  uroot_Flag : CmdLine -> string -> option string;
  uroot_ContainsFlag : CmdLine -> string -> bool;
  uroot_Consoles : CmdLine -> list string;
}.

Section Parsers.
Context `{CmdLineMethods}.

(** The methods of [procParser]. *)
Definition proc_Flag (name : string) : io (option string) :=
  let* cl := sys NewCmdLine in Ret (uroot_Flag cl name).
Definition proc_Contains (name : string) : io bool :=
  let* cl := sys NewCmdLine in Ret (uroot_ContainsFlag cl name).
Definition proc_Consoles : io (list string) :=
  let* cl := sys NewCmdLine in Ret (uroot_Consoles cl).
Definition proc_Raw : io string :=
  let* cl := sys NewCmdLine in Ret (cl_Raw cl).

(** [NewFromString], and the methods of [staticParser]. *)
Definition NewFromString (raw : string) : CmdLine := {| cl_Raw := raw; cl_AsMap := parseToMap raw |}.

Definition static_Flag (cl : CmdLine) (name : string) : io (option string) := Ret (uroot_Flag cl name).
Definition static_Contains (cl : CmdLine) (name : string) : io bool := Ret (uroot_ContainsFlag cl name).
Definition static_Consoles (cl : CmdLine) : io (list string) := Ret (uroot_Consoles cl).
Definition static_Raw (cl : CmdLine) : io string := Ret (cl_Raw cl).

(** A parser behind the interface: what runs for each of its methods. *)
Definition procParser (c : call) : io (resp c) :=
  match c return io (resp c) with
  | CmdlineFlag name => proc_Flag name
  | CmdlineContains name => proc_Contains name
  | CmdlineConsoles => proc_Consoles
  | CmdlineRaw => proc_Raw
  | c => sys c
  end.
Definition staticParser (cl : CmdLine) (c : call) : io (resp c) :=
  match c return io (resp c) with
  | CmdlineFlag name => static_Flag cl name
  | CmdlineContains name => static_Contains cl name
  | CmdlineConsoles => static_Consoles cl
  | CmdlineRaw => static_Raw cl
  | c => sys c
  end.
End Parsers.

(** ** The map *)

(** The value a token gives to a key: its own, or its canonical form's. *)
Definition gives (k flag : string) : option string :=
  if Nat.eqb (String.length flag) 0 then None
  else
    let '(key, value) := key_value flag in
    if bool_decide (k = key \/ k = strings_ReplaceAll key "-" "_") then Some value else None.

Lemma parse_tokens (flags : list string) (m : gmap string string) k :
  foldl add_flag m flags !! k = match last (omap (gives k) flags) with Some v => Some v | None => m !! k end.
Proof.
  revert m. induction flags as [|f flags IH]; intros m; [done|]. cbn [foldl].
  rewrite IH. change (omap (gives k) (f :: flags)) with
    (match gives k f with Some v => v :: omap (gives k) flags | None => omap (gives k) flags end).
  unfold gives at 2, add_flag. destruct (Nat.eqb _ 0); [done|].
  destruct (key_value f) as [key value]. case_bool_decide as Hk.
  - rewrite last_cons. destruct (last (omap (gives k) flags)) as [v|] eqn:Hl; [done|].
    destruct (decide (k = key)) as [->|Hne]; [by rewrite lookup_insert_eq|].
    destruct Hk as [?|Hk]; [done|]. rewrite lookup_insert_ne by done. rewrite Hk. by rewrite lookup_insert_eq.
  - destruct (last (omap (gives k) flags)); [done|].
    rewrite !lookup_insert_ne; [done|intros <-; apply Hk; by right|intros <-; apply Hk; by left].
Qed.

(** Every key, and its canonical form with underscores, holds the last value given for it. *)
Lemma parseToMap_last raw k :
  parseToMap raw !! k = last (omap (gives k) (strings_FieldsFunc cmdline_sep 0%Z raw)).
Proof. unfold parseToMap. rewrite parse_tokens, lookup_empty. by destruct (last _). Qed.
