(* ===== verification/Only.v ===== *)
(** * Only: programs all of whose calls satisfy a predicate, and how to show it by going through
    their text. *)

From S2P Require Import Prelude Effects OS.
Open Scope string_scope.
Open Scope list_scope.
Open Scope go_scope.

(** Whatever is answered, only these calls are made. *)
Fixpoint only (P : call -> Prop) {A} (p : io A) : Prop :=
  match p with
  | Ret _ | Halt _ => True
  | Vis c k => P c /\ forall r, only P (k r)
  end.

Section Rules.
Context (P : call -> Prop).

Lemma only_sys c : P c -> only P (sys c).
Proof. by split. Qed.

Lemma only_bind {A B} (p : io A) (f : A -> io B) :
  only P p -> (forall a, only P (f a)) -> only P (bind p f).
Proof.
  intros Hp Hf. induction p as [a|c k IH|s]; cbn in *; [auto| |done].
  destruct Hp as [Hc Hk]. split; [done|]. intros r. by apply IH.
Qed.

Lemma only_bindE {A B} (p : M A) (f : A -> M B) :
  only P p -> (forall a, only P (f a)) -> only P (bindE p f).
Proof. intros Hp Hf. apply only_bind; [done|]. by intros [a|e]. Qed.

Lemma only_wrapf {A} fmt args (p : M A) : only P p -> only P (wrapf fmt args p).
Proof. intros Hp. apply only_bind; [done|]. by intros [a|e]. Qed.

Lemma only_ignore {A} (p : io A) : only P p -> only P (ignore p).
Proof. intros Hp. by apply only_bind. Qed.

Lemma only_for_each {X} (l : list X) (body : X -> M unit) :
  (forall x, x ∈ l -> only P (body x)) -> only P (for_each l body).
Proof.
  induction l as [|x l IH]; intros Hb; [done|]. cbn [for_each].
  apply only_bindE; [apply Hb; by left|]. intros _. apply IH. intros y Hy. apply Hb. by right.
Qed.

Lemma only_for_fold {X S} (l : list X) (s : S) (body : X -> S -> io S) :
  (forall x s, x ∈ l -> only P (body x s)) -> only P (for_fold l s body).
Proof.
  revert s. induction l as [|x l IH]; intros s Hb; [done|]. cbn [for_fold].
  apply only_bind; [apply Hb; by left|]. intros s'. apply IH. intros y s2 Hy. apply Hb. by right.
Qed.

Lemma only_range_order keys : P (RangeOrder keys) -> only P (range_order keys).
Proof. intros H. apply only_bind; [by apply only_sys|]. done. Qed.

Lemma only_wp {A} R (G : @guar call resp) (p : io A) h :
  (forall h c, P c -> G h c) -> only P p -> wp R G p (fun _ _ => True) h.
Proof.
  intros HG. revert h. induction p as [a|c k IH|s]; intros h; [done| |done].
  intros [Hc Hk]. split; [by apply HG|]. intros r _. by apply IH.
Qed.
End Rules.

(** A promise that looks at no history. *)
Lemma only_of_wp R (P : call -> Prop) {A} (p : io A) Q h :
  (forall h c r, R h c r) -> wp R (fun _ => P) p Q h -> only P p.
Proof.
  intros HR. revert h. induction p as [a|c k IH|s]; intros h; [done| |done].
  intros [Hc Hk]. split; [done|]. intros r. eapply IH, Hk, HR.
Qed.

Lemma only_impl (P Q : call -> Prop) {A} (p : io A) :
  (forall c, P c -> Q c) -> only P p -> only Q p.
Proof.
  intros HPQ. induction p as [a|c k IH|s]; [done| |done]. intros [Hc Hk]. split; auto.
Qed.

(** Replacing calls by programs. *)
Lemma only_interp (P Q : call -> Prop) (I : forall c, io (resp c)) {A} (p : io A) :
  (forall c, P c -> only Q (I c)) -> only P p -> only Q (interp I p).
Proof.
  intros HI. induction p as [a|c k IH|s]; [done| |done]. intros [Hc Hk]. cbn [interp].
  apply only_bind; [by apply HI|]. intros r. by apply IH.
Qed.

(** ** The calls of a program

    [makes p h0 h c]: started from [h0], [p] can have reached [h] and make the call [c] there. *)

Definition makes {A} (p : io A) (h0 h : list ev) (c : call) : Prop :=
  exists r, exec any_resp p h0 (Ev c r :: h) Running.

(** What a program promises best: to make the calls it makes. *)
Lemma makes_wp {A} (p : io A) h0 :
  wp any_resp (makes p h0) p (fun o h => exec any_resp p h0 h o) h0.
Proof.
  assert (forall (q : io A) h, (forall h' o, exec any_resp q h h' o -> exec any_resp p h0 h' o) ->
    wp any_resp (makes p h0) q (fun o h' => exec any_resp p h0 h' o) h) as H; [|by apply H].
  intros q. induction q as [a|c k IH|s]; intros h Hq; simpl.
  - apply Hq. constructor.
  - split; [exists (all_ok c); apply Hq; constructor|]. intros r _. apply IH.
    intros h' o Hx. apply Hq. by apply exec_vis with r.
  - apply Hq. constructor.
Qed.

Create HintDb calls.

(** One step through the text of a program; a call's predicate is decided by [done], a component's
    by the database. *)
Ltac only_step :=
  lazymatch goal with
  | |- only _ (Ret _) => exact I
  | |- only _ (Halt _) => exact I
  | |- only _ (ret _) => exact I
  | |- only _ (fail _) => exact I
  | |- only _ (sys _) => apply only_sys; done
  | |- only _ (perform _) => apply only_sys; done
  | |- only _ (bind _ _) => apply only_bind; [|intros ?]
  | |- only _ (bindE _ _) => apply only_bindE; [|intros ?]
  | |- only _ (wrapf _ _ _) => apply only_wrapf
  | |- only _ (ignore _) => apply only_ignore
  | |- only _ (for_each _ _) => apply only_for_each; intros ? ?
  | |- only _ (for_fold _ _ _) => apply only_for_fold; intros ? ? ?
  | |- only _ (range_order _) => apply only_range_order; done
  | |- only _ (match ?x with _ => _ end) => destruct x
  | |- only _ _ => first [solve [auto 2 with calls nocore] | progress cbn beta zeta iota]
  end.
Ltac only_solve := cbn beta zeta; repeat only_step.
