(* ===== verification/Steps.v ===== *)
(** * Steps: phases made of steps, what each may do and what it leaves behind.

    A promise [G] on all calls, from every history a step can start in, and a property of the history
    when it ends without an error. *)

From S2P Require Import Prelude Effects OS Only.
Open Scope string_scope.
Open Scope list_scope.
Open Scope go_scope.

(** A property of the history that stays true. *)
Definition lasting (I : list ev -> Prop) : Prop := forall e h, I h -> I (e :: h).

(** What holds when the program ends without an error. *)
Definition on_success {A} (I : list ev -> Prop) (o : outcome (result A)) (h : list ev) : Prop :=
  match o with Done (Ok _) => I h | _ => True end.

Definition nothing_more (h : list ev) : Prop := True.

(** [p] ran and succeeded. *)
Definition ran_ok (p : M unit) (h : list ev) : Prop :=
  exists h0 h1 new, exec any_resp p h0 h1 (Done (Ok tt)) /\ h = new ++ h1.

(** An event is in the history. *)
Definition happened (c : call) (r : resp c) (h : list ev) : Prop := Ev c r ∈ h.

Lemma ran_ok_lasting p : lasting (ran_ok p).
Proof. intros e h (h0 & h1 & new & Hx & ->). by exists h0, h1, (e :: new). Qed.

Lemma happened_lasting c r : lasting (happened c r).
Proof. intros e h. by right. Qed.

Lemma nothing_lasting : lasting nothing_more.
Proof. done. Qed.

Lemma and_lasting I J : lasting I -> lasting J -> lasting (fun h => I h /\ J h).
Proof. intros HI HJ e h [? ?]. split; [by apply HI|by apply HJ]. Qed.

Lemma or_lasting I J : lasting I -> lasting J -> lasting (fun h => I h \/ J h).
Proof. intros HI HJ e h [?|?]; [left; by apply HI|right; by apply HJ]. Qed.

Lemma ex_lasting {A} (I : A -> list ev -> Prop) :
  (forall a, lasting (I a)) -> lasting (fun h => exists a, I a h).
Proof. intros HI e h [a Ha]. exists a. by apply HI. Qed.

Lemma Forall_lasting {A} (I : A -> list ev -> Prop) (l : list A) :
  (forall a, lasting (I a)) -> lasting (fun h => Forall (fun a => I a h) l).
Proof. intros HI e h Hl. eapply Forall_impl; [exact Hl|]. intros a. apply HI. Qed.

Section Steps.
Context (G : @guar call resp).

(** [p] keeps the promise, and has [J] afterwards, wherever [I] holds. *)
Definition keeps_from (I : list ev -> Prop) (p : M unit) (J : list ev -> Prop) : Prop :=
  forall h, I h -> wp any_resp G p (on_success J) h.
Definition keeps (p : M unit) (J : list ev -> Prop) : Prop :=
  forall h, wp any_resp G p (on_success J) h.

Lemma keeps_weaken (p : M unit) (J K : list ev -> Prop) :
  (forall h, J h -> K h) -> keeps p J -> keeps p K.
Proof. intros HJK Hp h. eapply wp_mono; [|apply Hp]. intros [[[]|e]|s|] h'; cbn; auto. Qed.

Lemma keeps_any (p : M unit) J h : keeps p J -> wp any_resp G p (fun _ _ => True) h.
Proof. intros Hp. eapply wp_mono; [|apply Hp]. done. Qed.

(** The property holds still when a program that keeps the promise has run. *)
Lemma keeps_still (p : M unit) I J h :
  lasting I -> I h -> keeps p J -> wp any_resp G p (on_success (fun h' => I h' /\ J h')) h.
Proof.
  intros HI Hh Hp. eapply wp_mono; [|exact (wp_also _ _ _ _ I h HI Hh (Hp h))].
  intros [[[]|e]|s|] h' [H1 H2]; cbn in *; auto.
Qed.

(** Two programs one after the other. *)
Lemma keeps_bindE {A} (p : M A) (k : A -> M unit) J h :
  wp any_resp G p (fun _ _ => True) h -> (forall a, keeps (k a) J) ->
  wp any_resp G (bindE p k) (on_success J) h.
Proof. intros Hp Hk. apply wp_bind. eapply wp_mono; [|exact Hp]. intros [[a|e]|s|] h' _; try done. apply Hk. Qed.

Lemma bindE_keeps (p : M unit) (k : unit -> M unit) I J h :
  wp any_resp G p (on_success I) h -> (forall h', I h' -> wp any_resp G (k tt) (on_success J) h') ->
  wp any_resp G (bindE p k) (on_success J) h.
Proof.
  intros Hp Hk. apply wp_bind. eapply wp_mono; [|exact Hp]. intros [[[]|e]|s|] h' HI; try done. by apply Hk.
Qed.

(** What was there before a step is there after it. *)
Lemma keeps_from_and (p : M unit) I J :
  lasting I -> keeps_from I p J -> keeps_from I p (fun h => I h /\ J h).
Proof.
  intros HI Hp h Hh. eapply wp_mono; [|exact (wp_also _ _ _ _ I h HI Hh (Hp h Hh))].
  intros [[[]|e]|s|] h' [H1 H2]; cbn in *; auto.
Qed.

(** One step after the other, with what was there before the first still there at the second. *)
Lemma seq_keeps_from (p q : M unit) I J K :
  lasting I -> keeps_from I p J -> keeps_from (fun h => I h /\ J h) q K ->
  keeps_from I (let! _ := p in q) K.
Proof.
  intros HI Hp Hq h Hh. apply (bindE_keeps _ _ (fun h' => I h' /\ J h')).
  - by apply keeps_from_and.
  - intros h' Hh'. by apply Hq.
Qed.

Lemma last_keeps_from (p : M unit) I J :
  keeps_from I p J -> keeps_from I (let! _ := p in ret tt) J.
Proof. intros Hp h Hh. apply (bindE_keeps _ _ J); [by apply Hp|done]. Qed.

Lemma wrapf_keeps fmt args (p : M unit) J h :
  wp any_resp G p (on_success J) h -> wp any_resp G (wrapf fmt args p) (on_success J) h.
Proof. intros Hp. apply wp_bind. eapply wp_mono; [|exact Hp]. by intros [[[]|e]|s|] h' HJ. Qed.

(** A call and its answer. *)
Lemma call_keeps (c : call) (k : resp c -> M unit) J h :
  G h c -> (forall r, wp any_resp G (k r) (on_success J) (Ev c r :: h)) ->
  wp any_resp G (bind (sys c) k) (on_success J) h.
Proof. intros Hc Hk. split; [done|]. intros r _. apply Hk. Qed.

(** A program that the caller gave, in its own words. *)
Lemma runner_keeps_from (p : M unit) I :
  lasting I -> (forall h h0 c, I h -> makes p h0 h c -> G h c) -> keeps_from I p (ran_ok p).
Proof.
  intros HI HG h Hh. eapply (wp_weaken any_resp any_resp);
    [done| | |exact (wp_always _ _ _ _ I h HI Hh (makes_wp p h))].
  - intros h' c [Hc Hh']. by eapply HG.
  - intros [[[]|e]|s|] h' [Hx _]; try done. by exists h, h', [].
Qed.

Lemma runner_keeps (p : M unit) : (forall h h0 c, makes p h0 h c -> G h c) -> keeps p (ran_ok p).
Proof. intros HG h. by apply (runner_keeps_from p nothing_more); [|intros h1 h0 c _; apply HG|]. Qed.

Lemma keeps_runner (p q : M unit) fmt :
  (forall h h0 c, makes p h0 h c -> G h c) -> keeps q nothing_more ->
  keeps (let! _ := wrapf fmt [] p in q) (ran_ok p).
Proof.
  intros HG Hq h. apply (bindE_keeps _ _ (ran_ok p)); [by apply wrapf_keeps, runner_keeps|].
  intros h' Hp. eapply wp_mono; [|exact (keeps_still q _ _ h' (ran_ok_lasting p) Hp Hq)].
  intros [[[]|e]|s|] h2 H; [apply H|done..].
Qed.

(** A loop that is left at the first error. *)
Lemma for_each_keeps {X} (l : list X) (body : X -> M unit) (J : X -> list ev -> Prop) :
  (forall x, lasting (J x)) -> (forall x, keeps (body x) (J x)) ->
  keeps (for_each l body) (fun h => Forall (fun x => J x h) l).
Proof.
  intros HJ Hb. induction l as [|x l IH]; intros h; cbn [for_each]; [by constructor|].
  apply (bindE_keeps _ _ (J x)); [apply Hb|]. intros h' HI.
  eapply wp_mono; [|exact (keeps_still _ _ _ h' (HJ x) HI IH)].
  intros [[[]|e]|s|] h2 H; try done. by constructor; destruct H.
Qed.

(** Steps that start where all before them succeeded; the last one's property need not last. *)
Inductive chain : (list ev -> Prop) -> list (string * M unit) -> (list ev -> Prop) -> Prop :=
| chain_last I name p J : keeps_from I p J -> chain I [(name, p)] (fun h => I h /\ J h)
| chain_step I name p J l K :
    lasting J -> keeps_from I p J -> chain (fun h => I h /\ J h) l K -> chain I ((name, p) :: l) K.

Lemma chain_wp fmt I l K h :
  chain I l K -> lasting I -> I h ->
  wp any_resp G (for_each l (fun s => wrapf fmt [fst s] (snd s))) (on_success K) h.
Proof.
  intros Hc. revert h. induction Hc as [I name p J Hp|I name p J l K HJ Hp _ IH]; intros h HI Hh;
    cbn [for_each fst snd];
    (apply (bindE_keeps _ _ (fun h' => I h' /\ J h'));
      [by apply wrapf_keeps, keeps_from_and|]).
  - by intros h' Hh'.
  - intros h' Hh'. apply IH; [by apply and_lasting|done].
Qed.

Lemma keeps_keeps_from I p J : keeps p J -> keeps_from I p J.
Proof. intros Hp h _. apply Hp. Qed.
End Steps.

(** ** Programs that always return *)

Fixpoint returning {A} (p : io A) : Prop :=
  match p with Ret _ => True | Halt _ => False | Vis c k => forall r, returning (k r) end.

Lemma returning_bind {A B} (p : io A) (f : A -> io B) :
  returning p -> (forall a, returning (f a)) -> returning (bind p f).
Proof. intros Hp Hf. induction p as [a|c k IH|s]; cbn in *; auto. Qed.

Lemma wp_returning {A} R G (p : io A) Q h :
  returning p -> wp R G p Q h -> wp R G p (fun o h' => Q o h' /\ exists a, o = Done a) h.
Proof.
  revert h. induction p as [a|c k IH|s]; intros h Hp; cbn in *; [eauto| |done].
  intros [Hc Hk]. split; auto.
Qed.

Ltac returning_step :=
  lazymatch goal with
  | |- returning (Ret _) => exact I
  | |- returning (ret _) => exact I
  | |- returning (fail _) => exact I
  | |- returning (sys _) => intros ?; exact I
  | |- returning (bind _ _) => apply returning_bind; [|intros ?]
  | |- returning (bindE _ _) => unfold bindE at 1
  | |- returning (wrapf _ _ _) => unfold wrapf at 1
  | |- returning (match ?x with _ => _ end) => destruct x
  | |- returning _ => progress cbn beta zeta iota
  end.
Ltac returning_solve := cbn beta zeta; repeat returning_step.

(** A call whose argument is one of a list. *)
Ltac listed := repeat first [apply list_elem_of_here | apply list_elem_of_further].
