(* ===== verification/FileWorld.v ===== *)
(** * FileWorld: a machine with a file system, to state what programs leave in files.

    Reading, writing, renaming, removing and looking for files work on a map from paths to contents;
    every other call is answered favourably.  Directories are not represented: a path exists when it
    holds a file. *)

From S2P Require Import Prelude GoStrings GoPath Effects OS.
Open Scope string_scope.
Open Scope list_scope.
Open Scope go_scope.

Abbreviation files := (gmap string string).

Definition no_file {A} (op p : string) : result A := Err (ErrSys op p ENOENT).

Definition fs_world (c : call) (w : files) : resp c * files :=
  match c return resp c * files with
  | ReadFile p => (match w !! p with Some d => Ok d | None => no_file "open" p end, w)
  | WriteFile p d _ => (Ok tt, <[p := d]> w)
  | Stat p | Lstat p =>
      (match w !! p with
       | Some _ => Ok {| fi_name := path_Base p; fi_mode := 420 |}
       | None => no_file "stat" p
       end, w)
  | Rename a b =>
      match w !! a with
      | Some d => (Ok tt, <[b := d]> (delete a w))
      | None => (no_file "rename" a, w)
      end
  | Remove p =>
      match w !! p with Some _ => (Ok tt, delete p w) | None => (no_file "remove" p, w) end
  | Create p => (all_ok (Create p), <[p := ""]> w)
  | CreateTemp d pat => (all_ok (CreateTemp d pat), <[d +:+ "/" +:+ pat := ""]> w)
  | FileWrite f d => (Ok tt, <[file_name f := default "" (w !! file_name f) +:+ d]> w)
  | c => (all_ok c, w)
  end.

(** The outcome and the files a program leaves behind. *)
Definition fs_run {A} (p : io A) (w : files) (h : list ev) : outcome A * files :=
  fst (run fs_world p w h).

(** Runs do not depend on the history they start from. *)
Lemma run_history {A W} (H : forall c, W -> resp c * W) (p : io A) w h h' :
  fst (run H p w h) = fst (run H p w h').
Proof.
  revert w h h'. induction p as [a|c k IH|s]; intros w h h'; simpl; [done| |done].
  destruct (H c w) as [r w']. apply IH.
Qed.

Lemma fs_run_bind {A B} (p : io A) (f : A -> io B) w h :
  fs_run (bind p f) w h =
  match fs_run p w h with
  | (Done a, w') => fs_run (f a) w' h
  | (Halted s, w') => (Halted s, w')
  | (Running, w') => (Running, w')
  end.
Proof.
  unfold fs_run. rewrite run_bind. destruct (run fs_world p w h) as [[[a|s|] w'] h']; simpl; try done.
  apply run_history.
Qed.

(** A step that succeeds hands its value and its files on. *)
Lemma fs_run_ok {A B} fmt args (p : M A) (f : A -> M B) a w w' h :
  fs_run p w h = (Done (Ok a), w') ->
  fs_run (bindE (wrapf fmt args p) f) w h = fs_run (f a) w' h.
Proof. intros Hp. unfold bindE, wrapf. by rewrite !fs_run_bind, Hp. Qed.

Lemma fs_run_wrapf {A} fmt args (p : M A) a w w' h :
  fs_run p w h = (Done (Ok a), w') -> fs_run (wrapf fmt args p) w h = (Done (Ok a), w').
Proof. intros Hp. unfold wrapf. by rewrite fs_run_bind, Hp. Qed.
