(* ===== verification/System.v ===== *)
(** * System: package [internal/system], the standard directories ([system.go]). *)

From S2P Require Import Prelude GoStrings GoPath Effects OS.
Open Scope string_scope.
Open Scope list_scope.
Open Scope go_scope.

Definition DefaultRootDir : string := "/k3os/system".
Definition DefaultLocalDir : string := "/var/lib/rancher/k3os".
Definition DefaultStateDir : string := "/run/k3os".

Definition RootPath (elem : list string) : string := path_Join [DefaultRootDir; path_Join elem].
Definition LocalPath (elem : list string) : string := path_Join [DefaultLocalDir; path_Join elem].
Definition StatePath (elem : list string) : string := path_Join [DefaultStateDir; path_Join elem].
