(* ===== verification/BootInit.v ===== *)
(** * BootInit: the init orchestrator, [internal/boot/init.go].

    [Init_Run] is written over any signature of calls, because the Go method only calls the
    functions injected into [Init].  Its specification is the automaton [boot_step] over the phases
    themselves ([icall]); [Init_Run_refines] shows that the orchestrator built from concrete phases
    behaves as the abstract one with each phase replaced by its program. *)

From S2P Require Import Prelude Effects.
Open Scope string_scope.
Open Scope list_scope.
Open Scope go_scope.

(** [Init].  [i_Cmdline] is the parser's [Contains], if there is a parser.  [i_Finalizer] is the finalizer as a function of the mode [ModeSetterFunc] has stored in
    it; a nil [ModeSetterFunc] ([i_ModeSetter = false]) leaves its mode empty. *)
Record Init (call : Type) (resp : call -> Type) := mkInit {
  i_Bootstrap : prog call resp (result unit);
  i_ModeDetector : prog call resp (result string);
  i_ModeRegistry : string -> result (prog call resp (result unit));
  i_Finalizer : string -> prog call resp (result unit);
  i_Environ : prog call resp (list string);
  i_ExecFunc : string -> list string -> list string -> prog call resp (result unit);
  i_Cmdline : option (string -> prog call resp bool);
  i_RescueFunc : prog call resp (result unit);
  i_ConsoleRedirect : option (prog call resp (result unit));
  i_ModeSetter : bool;
}.
Arguments mkInit {call resp}.
Arguments i_Bootstrap {call resp}.
Arguments i_ModeDetector {call resp}.
Arguments i_ModeRegistry {call resp}.
Arguments i_Finalizer {call resp}.
Arguments i_Environ {call resp}.
Arguments i_ExecFunc {call resp}.
Arguments i_Cmdline {call resp}.
Arguments i_RescueFunc {call resp}.
Arguments i_ConsoleRedirect {call resp}.
Arguments i_ModeSetter {call resp}.

Section Run.
Context {call : Type} {resp : call -> Type} (i : Init call resp) (os_Args : list string).

(** [rescue]. *)
Definition rescue : prog call resp unit := bind (i_RescueFunc i) (fun _ => Ret tt).

(** A phase: continue on success, drop to the rescue shell on failure. *)
Definition or_rescue {A} (p : prog call resp (result A)) (k : A -> prog call resp unit)
  : prog call resp unit :=
  bind p (fun r => match r with Ok a => k a | Err _ => rescue end).

(** [setupDebug]; the answer sets the level of logging and nothing else. *)
Definition setupDebug : prog call resp unit :=
  match i_Cmdline i with
  | Some contains => bind (contains "k3os.debug") (fun _ => Ret tt)
  | None => Ret tt
  end.

(** [Run]. *)
Definition Init_Run : prog call resp unit :=
  or_rescue (i_Bootstrap i) (fun _ =>
  let* _ := setupDebug in
  let* _ := match i_ConsoleRedirect i with
            | Some redirect => bind redirect (fun _ => Ret tt)
            | None => Ret tt
            end in
  or_rescue (i_ModeDetector i) (fun mode =>
  let fmode := if i_ModeSetter i then mode else "" in
  match i_ModeRegistry i mode with
  | Err _ => rescue
  | Ok handler =>
      or_rescue handler (fun _ =>
      or_rescue (i_Finalizer i fmode) (fun _ =>
      let* environ := i_Environ i in
      or_rescue (i_ExecFunc i "/sbin/init" os_Args environ) (fun _ => Ret tt)))
  end)).
End Run.

(** ** The phases as calls *)

Inductive icall :=
| IBootstrap
| IContains (flag : string)
| IConsole
| IDetect
| IHandler (mode : string)
| IFinalize (mode : string)
| IEnviron
| IExec (path : string) (args env : list string)
| IRescue.

Definition iresp (c : icall) : Type :=
  match c with
  | IDetect => result string
  | IEnviron => list string
  | IContains _ => bool
  | _ => result unit
  end.

(** The orchestrator over bare phases; [known] says which modes the registry knows, the others
    which of the optional fields are there. *)
Definition abstract_init (known : string -> option error) (debug console setter : bool) : Init icall iresp :=
  mkInit (perform IBootstrap) (perform IDetect)
    (fun m => match known m with None => Ok (perform (IHandler m)) | Some e => Err e end)
    (fun m => perform (IFinalize m)) (perform IEnviron)
    (fun p a e => perform (IExec p a e))
    (if debug then Some (fun flag => perform (IContains flag)) else None) (perform IRescue)
    (if console then Some (perform IConsole) else None) setter.

(** ** The specification: a deterministic automaton over phases and their results *)

Inductive bstate :=
| SBootstrap | SDebug | SConsole | SDetect | SHandler (mode : string) | SFinalize (mode : string)
| SEnviron | SExec (env : list string) | SRescue | SEnd.

Definition on_ok (r : result unit) (s : bstate) : bstate :=
  match r with Ok _ => s | Err _ => SRescue end.

Section Automaton.
Context (known : string -> option error) (debug console setter : bool) (os_Args : list string).

Definition after_debug : bstate := if console then SConsole else SDetect.

(** The state after an event, [None] for a phase the state does not allow. *)
Definition boot_step (s : bstate) (e : event icall iresp) : option bstate :=
  match s, e with
  | SBootstrap, Ev IBootstrap r => Some (on_ok r (if debug then SDebug else after_debug))
  | SDebug, Ev (IContains flag) _ => if decide (flag = "k3os.debug") then Some after_debug else None
  | SConsole, Ev IConsole _ => Some SDetect
  | SDetect, Ev IDetect r =>
      Some (match r with
            | Ok m => match known m with None => SHandler m | Some _ => SRescue end
            | Err _ => SRescue
            end)
  | SHandler m, Ev (IHandler m') r => if decide (m = m') then Some (on_ok r (SFinalize m)) else None
  | SFinalize m, Ev (IFinalize m') r =>
      if decide (m' = if setter then m else "") then Some (on_ok r SEnviron) else None
  | SEnviron, Ev IEnviron env => Some (SExec env)
  | SExec env, Ev (IExec p a env') r =>
      if decide (p = "/sbin/init" /\ a = os_Args /\ env' = env) then Some (on_ok r SEnd) else None
  | SRescue, Ev IRescue _ => Some SEnd
  | _, _ => None
  end.

(** The state reached over a history, newest event first. *)
Fixpoint boot_state (h : list (event icall iresp)) : option bstate :=
  match h with
  | [] => Some SBootstrap
  | e :: h' => match boot_state h' with Some s => boot_step s e | None => None end
  end.
End Automaton.

(** The interpretation of phases by the programs of a concrete orchestrator. *)
Definition phase_impl {call resp} (i : Init call resp) (c : icall) : prog call resp (iresp c) :=
  match c with
  | IBootstrap => i_Bootstrap i
  | IContains flag => match i_Cmdline i with Some contains => contains flag | None => Ret false end
  | IConsole => match i_ConsoleRedirect i with Some p => p | None => Ret (Ok tt) end
  | IDetect => i_ModeDetector i
  | IHandler m => match i_ModeRegistry i m with Ok p => p | Err e => Ret (Err e) end
  | IFinalize m => i_Finalizer i m
  | IEnviron => i_Environ i
  | IExec p a e => i_ExecFunc i p a e
  | IRescue => i_RescueFunc i
  end.

Definition known_modes {call resp} (i : Init call resp) (m : string) : option error :=
  match i_ModeRegistry i m with Ok _ => None | Err e => Some e end.

Definition abstraction_of {call resp} (i : Init call resp) : Init icall iresp :=
  abstract_init (known_modes i) (match i_Cmdline i with Some _ => true | None => false end)
    (match i_ConsoleRedirect i with Some _ => true | None => false end)
    (i_ModeSetter i).

(** ** The orchestrator follows the automaton *)

Section Spec.
Context (known : string -> option error) (debug console setter : bool) (os_Args : list string).
Abbreviation state := (boot_state known debug console setter os_Args).
Abbreviation run_abs := (Init_Run (abstract_init known debug console setter) os_Args).

(** A call the automaton allows whatever it answers. *)
Definition allowed : @guar icall iresp := fun h c => forall r, is_Some (state (Ev c r :: h)).

Definition boot_ok (o : outcome unit) (h : list (event icall iresp)) : Prop :=
  o = Done tt /\ state h = Some SEnd.

(** The states reached so far compute, except for the comparisons with the mode and arguments. *)
Ltac step :=
  repeat (simpl; try (rewrite decide_True by done));
  match goal with
  | |- boot_ok _ _ => split; [done|]
  | |- allowed _ _ => intros ?
  | |- _ /\ _ => split
  | |- is_Some _ => eexists; reflexivity
  | |- forall r : result _, any_resp _ _ _ -> _ => intros [?|?] _
  | |- forall r, any_resp _ _ _ -> _ => intros ? _
  | |- context [match known ?m with _ => _ end] => destruct (known m) eqn:?
  | H : ?x = _ |- context [?x] => rewrite H
  | _ => done
  end.

Lemma run_abs_wp : wp any_resp allowed run_abs boot_ok [].
Proof using Type.
  unfold Init_Run, setupDebug, or_rescue, rescue, abstract_init, perform.
  destruct debug eqn:Hd, console eqn:Hc, setter eqn:Hs; simpl; repeat step.
Qed.

Lemma guaranteed_allowed h : guaranteed allowed [] h -> is_Some (state h).
Proof. destruct 1 as [|[c r] h' _ He]; [by eexists|]. apply He. Qed.

Lemma run_abs_follows h o :
  exec any_resp run_abs [] h o ->
  exists s, state h = Some s /\
    match o with Done _ => s = SEnd | Halted _ => False | Running => True end.
Proof.
  intros Hex. destruct (wp_sound _ _ _ _ _ _ _ run_abs_wp Hex) as [Hg HQ].
  apply guaranteed_allowed in Hg as [s Hs]. exists s. split; [done|].
  destruct o as [u|x|]; [|by destruct (HQ ltac:(done))|done].
  destruct (HQ ltac:(done)) as [_ He]. congruence.
Qed.

(** The events of a boot that reached the final exec, newest first. *)
Definition before_exec (m : string) (env : list string) : list (event icall iresp) -> Prop :=
  fun h => exists con deb,
    h = [Ev IEnviron env; Ev (IFinalize (if setter then m else "")) (Ok tt);
         Ev (IHandler m) (Ok tt); Ev IDetect (Ok m)] ++ con ++ deb ++ [Ev IBootstrap (Ok tt)] /\
    (if console then exists r, con = [Ev IConsole r] else con = []) /\
    (if debug then exists b, deb = [Ev (IContains "k3os.debug") b] else deb = []) /\ known m = None.

Definition exec_guard : @guar icall iresp := fun h c =>
  match c with
  | IExec p a env => p = "/sbin/init" /\ a = os_Args /\ exists m, before_exec m env h
  | IRescue => Forall (fun e => match ev_call e with IRescue => False | _ => True end) h
  | _ => True
  end.

Lemma run_abs_exec_wp : wp any_resp exec_guard run_abs (fun _ _ => True) [].
Proof using Type.
  unfold Init_Run, setupDebug, or_rescue, rescue, abstract_init, perform, before_exec.
  destruct debug eqn:Hd, console eqn:Hc; simpl;
    repeat match goal with
    | |- exec_guard _ (IExec _ _ _) => simpl
    | |- exec_guard _ IRescue => simpl
    | |- exec_guard _ _ => exact I
    | |- _ /\ _ => split
    | |- forall r : result unit, any_resp _ _ _ -> _ => intros [[]|?] _; simpl
    | |- forall r : result string, any_resp _ _ _ -> _ => intros [?|?] _; simpl
    | |- forall r, any_resp _ _ _ -> _ => intros ? _; simpl
    | |- context [match known ?m with _ => _ end] => destruct (known m) eqn:?; simpl
    | |- True => exact I
    end.
  all: match goal with
  | |- Forall _ _ => repeat constructor
  | |- exists _, _ => eexists; unfold before_exec; rewrite ?Hc, ?Hd;
      first [exists [], []; by split_and!
            |eexists [_], []; split_and!; [reflexivity|by eexists|done..]
            |eexists [], [_]; split_and!; [reflexivity|done|by eexists|done]
            |eexists [_], [_]; split_and!; [reflexivity|by eexists|by eexists|done]]
  | |- _ => reflexivity
  end.
Qed.
End Spec.

(** C1: the orchestrator is the boot state machine.  Over the phases as opaque calls, every behaviour
    (stopped at any point, whatever each phase answers) is a path of the automaton [boot_step]:
    bootstrap, the optional look for k3os.debug, the optional console redirect whose failure is ignored, mode detection, the handler
    of exactly the detected mode, the finalizer with that mode, and the exec of /sbin/init with the
    process's arguments and the environment read last; the first failing phase, an unknown mode or
    a failing exec leads to the rescue shell and nothing else.  A boot never stops abnormally, and
    when [Run] returns the automaton is in its final state. *)
Theorem Init_Run_follows_automaton known debug console setter os_Args h o :
  exec any_resp (Init_Run (abstract_init known debug console setter) os_Args) [] h o ->
  exists s, boot_state known debug console setter os_Args h = Some s /\
    match o with Done _ => s = SEnd | Halted _ => False | Running => True end.
Proof. apply run_abs_follows. Qed.


(** C3: /sbin/init is executed only at the end of a boot in which every phase succeeded: whenever
    the exec is attempted, the calls made so far are exactly bootstrap, the look for k3os.debug and the console redirect if there
    are these, the detection of a mode the registry knows, that mode's handler, the finalizer with that
    mode (the empty mode when no [ModeSetterFunc] is set) and the reading of the environment, which
    is the environment passed on.  The rescue shell runs at most once. *)
Theorem Init_Run_exec_after_all_phases known debug console setter os_Args h o newer e older :
  exec any_resp (Init_Run (abstract_init known debug console setter) os_Args) [] h o ->
  h = newer ++ e :: older ->
  exec_guard known debug console setter os_Args older (ev_call e).
Proof. apply exec_guaranteed_at with (1 := run_abs_exec_wp known debug console setter os_Args). Qed.

(** ** Concrete boots *)

Definition disk_only (m : string) : option error :=
  if bool_decide (m = "disk") then None else Some (Errorf "unknown mode: %q" [m]).

(** A world in which every phase succeeds and the mode is [m]. *)
Definition good_world (m : string) (c : icall) (w : unit) : iresp c * unit :=
  (match c return iresp c with IDetect => Ok m | IEnviron => ["A=1"] | IContains _ => false | _ => Ok tt end, w).

Definition good_boot (m : string) : list (event icall iresp) :=
  snd (run (good_world m) (Init_Run (abstract_init disk_only true true true) ["/init"]) tt []).

Lemma good_boot_exec m :
  exists o, exec any_resp (Init_Run (abstract_init disk_only true true true) ["/init"]) [] (good_boot m) o.
Proof.
  pose proof (run_exec (good_world m) (Init_Run (abstract_init disk_only true true true) ["/init"]) tt [])
    as H.
  unfold good_boot. destruct (run _ _ _ _) as [[o w] h]. by exists o.
Qed.

Lemma Init_Run_follows_automaton_witness :
  exists o s,
    exec any_resp (Init_Run (abstract_init disk_only true true true) ["/init"]) [] (good_boot "live") o /\
    boot_state disk_only true true true ["/init"] (good_boot "live") = Some s.
Proof.
  destruct (good_boot_exec "live") as [o Ho].
  destruct (Init_Run_follows_automaton _ _ _ _ _ _ _ Ho) as [s [Hs _]]. eauto.
Defined.

Lemma Init_Run_exec_after_all_phases_witness :
  exists o, exec any_resp (Init_Run (abstract_init disk_only true true true) ["/init"]) []
              (good_boot "disk") o /\
    exec_guard disk_only true true true ["/init"] (tail (good_boot "disk"))
      (IExec "/sbin/init" ["/init"] ["A=1"]).
Proof.
  destruct (good_boot_exec "disk") as [o Ho]. exists o. split; [exact Ho|].
  refine (Init_Run_exec_after_all_phases _ _ _ _ _ _ _ []
    (Ev (IExec "/sbin/init" ["/init"] ["A=1"]) (Ok tt)) _ Ho _). vm_compute. reflexivity.
Defined.
