(* ===== verification/Bootstrap.v ===== *)
(** * Bootstrap: the first boot phase, [internal/boot/bootstrap/bootstrap.go].

    A [Bootstrapper] is the Go struct without the interfaces that are calls of [OS.v]: the injected
    functions are programs, the nilable [LoopAttacher] a boolean. *)

From S2P Require Import Prelude GoStrings GoPath Effects OS System.
Open Scope string_scope.
Open Scope list_scope.
Open Scope go_scope.

Record Bootstrapper := {
  b_LoopAttacher : bool;
  b_CopyDir : string -> string -> M unit;
  b_RCRunner : M unit;
  b_ConfigRunner : M unit;
  b_KernelVersion : string;
  b_Mode : string;
}.

(** [replaceInFile]. *)
Definition replaceInFile (path old replacement : string) : M unit :=
  let! data := sys (ReadFile path) in
  let replaced := strings_ReplaceAll data old replacement in
  sys (WriteFile path replaced (oct 644)).

(** The text [appendLine] writes over content [data]. *)
Definition appended (data line : string) : string :=
  let content :=
    match last (chars data) with
    | Some c => if Ascii.eqb c "010" then data else data +:+ nl
    | None => data
    end in
  content +:+ line +:+ nl.

(** [appendLine]. *)
Definition appendLine (path line : string) : M unit :=
  let* r := sys (ReadFile path) in
  let data := match r with Ok d => d | Err _ => "" end in
  sys (WriteFile path (appended data line) (oct 644)).

Section Bootstrapper.
Context (b : Bootstrapper).

Definition SetupEtc : M unit :=
  let! _ := wrapf "mkdir /etc: %w" [] (sys (MkdirAll "/etc" (oct 755))) in
  let! _ := wrapf "mkdir /proc: %w" [] (sys (MkdirAll "/proc" (oct 755))) in
  let! _ := wrapf "mount tmpfs on /etc: %w" [] (sys (ForceMount "none" "/etc" "tmpfs" "")) in
  let! _ := wrapf "mount proc on /proc: %w" [] (sys (ForceMount "none" "/proc" "proc" "")) in
  let! _ := wrapf "copy /usr/etc to /etc: %w" [] (b_CopyDir b "/usr/etc" "/etc") in
  ret tt.

Definition SetupModules : M unit :=
  let modulesPath := ".base/lib/modules/" +:+ b_KernelVersion b in
  let* st := sys (Stat modulesPath) in
  let! _ :=
    if is_ok st then
      wrapf "bind mount modules: %w" []
        (sys (Mount ".base/lib/modules" "/lib/modules" "" "bind"))
    else ret tt in
  let* st2 := sys (Stat ".base/lib/firmware") in
  if is_ok st2 then
    wrapf "bind mount firmware: %w" []
      (sys (Mount ".base/lib/firmware" "/lib/firmware" "" "bind"))
  else ret tt.

Definition SetupUsers : M unit :=
  let! _ := wrapf "replace shell in passwd: %w" []
              (replaceInFile "/etc/passwd" "/bin/ash" "/bin/bash") in
  let! _ := wrapf "mkdir /home: %w" [] (sys (MkdirAll "/home" (oct 755))) in
  let! _ := wrapf "add sudo group: %w" [] (appendLine "/etc/group" "sudo:x:101:rancher") in
  let! _ := wrapf "add rancher group: %w" [] (appendLine "/etc/group" "rancher:x:1000:") in
  let! _ := wrapf "add rancher user: %w" []
              (appendLine "/etc/passwd" "rancher:x:1000:1000::/home/rancher:/bin/bash") in
  let! _ := wrapf "add rancher shadow: %w" [] (appendLine "/etc/shadow" "rancher:*:::::::") in
  let! _ := wrapf "mkdir rancher home: %w" [] (sys (MkdirAll "/home/rancher" (oct 755))) in
  ret tt.

Definition SetupRC : M unit := wrapf "k3os rc: %w" [] (b_RCRunner b).

Definition SetupDirs : M unit :=
  wrapf "mkdir /run/k3os: %w" [] (sys (MkdirAll "/run/k3os" (oct 755))).

(** [findKernelSquashfs]: the first candidate that can be statted. *)
Fixpoint first_existing (candidates : list string) : io string :=
  match candidates with
  | [] => Ret ""
  | path :: rest =>
      let* st := sys (Stat path) in
      if is_ok st then Ret path else first_existing rest
  end.

Definition findKernelSquashfs : io string :=
  let relPath := RootPath ["kernel"; b_KernelVersion b; "kernel.squashfs"] in
  first_existing [relPath; "/.base" +:+ relPath].

Definition SetupKernel : M unit :=
  let* kernelPath := findKernelSquashfs in
  if bool_decide (kernelPath = "") then ret tt
  else
    let! _ := wrapf "mkdir /run/k3os/kernel: %w" [] (sys (MkdirAll "/run/k3os/kernel" (oct 755))) in
    let! _ := wrapf "mkdir /usr/lib/modules: %w" [] (sys (MkdirAll "/usr/lib/modules" (oct 755))) in
    let! _ := wrapf "mkdir /usr/lib/firmware: %w" [] (sys (MkdirAll "/usr/lib/firmware" (oct 755))) in
    let! mountDevice :=
      if b_LoopAttacher b then
        let! dev := wrapf "attach loop for kernel squashfs: %w" []
                      (sys (LoopAttach kernelPath 0 true)) in
        let* _ := sys (LoopSetAutoclear dev) in
        ret (ld_path dev)
      else ret kernelPath in
    let! _ := wrapf "mount squashfs: %w" []
                (sys (Mount mountDevice "/run/k3os/kernel" "squashfs" "ro")) in
    let! _ := wrapf "bind mount kernel modules: %w" []
                (sys (Mount "/run/k3os/kernel/lib/modules" "/usr/lib/modules" "" "bind")) in
    let! _ := wrapf "bind mount kernel firmware: %w" []
                (sys (Mount "/run/k3os/kernel/lib/firmware" "/usr/lib/firmware" "" "bind")) in
    ret tt.

Definition SetupConfig (mode : string) : M unit :=
  if bool_decide (mode = "local") then ret tt
  else wrapf "k3os config --initrd: %w" [] (b_ConfigRunner b).

Definition Bootstrap_steps : list (string * M unit) :=
  [("SetupEtc", SetupEtc); ("SetupModules", SetupModules); ("SetupUsers", SetupUsers);
   ("SetupRC", SetupRC); ("SetupDirs", SetupDirs); ("SetupKernel", SetupKernel);
   ("SetupConfig", SetupConfig (b_Mode b))].

Definition Bootstrap_Run : M unit :=
  for_each Bootstrap_steps (fun step => wrapf "bootstrap %s: %w" [fst step] (snd step)).
End Bootstrapper.
