(* ===== verification/BootstrapSpec.v ===== *)
(** * BootstrapSpec: what the bootstrapper leaves behind. *)

From S2P Require Import Prelude GoStrings GoPath Effects OS FileWorld Bootstrap.
Open Scope string_scope.
Open Scope list_scope.
Open Scope go_scope.

(** ** Appending a line *)

Lemma appended_lines data line :
  "010"%char ∉ chars line -> lines_of (appended data line) = lines_of data ++ [line].
Proof.
  intros Hl. unfold appended.
  assert (forall c, lines_of ((c +:+ nl) +:+ line +:+ nl) = strings_Split c "010" ++ [line]) as H.
  { intros c. rewrite sapp_assoc, <- sapp_assoc, <- (sapp_assoc _ line).
    rewrite lines_of_nl, sapp_assoc. unfold nl. rewrite sapp_one, Split_app_any.
    by rewrite (Split_no_sep _ line). }
  destruct (last (chars data)) as [c|] eqn:Hlast.
  - destruct (Ascii.eqb_spec c "010") as [->|Hc].
    + apply last_Some in Hlast as [l Hd].
      assert (data = of_chars l +:+ nl) as ->.
      { apply chars_inj. rewrite Hd, chars_app, chars_of_chars. done. }
      by rewrite H, lines_of_nl.
    + rewrite H, lines_of_open; [done| |congruence]. by intros ->.
  - apply last_None in Hlast. assert (data = "") as -> by (by apply chars_inj).
    rewrite <- sapp_assoc, lines_of_nl. by rewrite Split_no_sep.
Qed.

Lemma appendLine_run p line (w : files) h :
  fs_run (appendLine p line) w h =
  (Done (Ok tt), <[p := appended (default "" (w !! p)) line]> w).
Proof. unfold appendLine, fs_run. simpl. by destruct (w !! p). Qed.

Lemma replaceInFile_run p old new data (w : files) h :
  w !! p = Some data ->
  fs_run (replaceInFile p old new) w h =
  (Done (Ok tt), <[p := strings_ReplaceAll data old new]> w).
Proof. intros Hp. unfold replaceInFile, fs_run. simpl. by rewrite Hp. Qed.

(** ** Users and groups *)

Lemma SetupUsers_run (w : files) passwd group shadow :
  w !! "/etc/passwd" = Some passwd -> w !! "/etc/group" = Some group ->
  w !! "/etc/shadow" = Some shadow ->
  exists w', fs_run SetupUsers w [] = (Done (Ok tt), w') /\
    w' !! "/etc/passwd" = Some (appended (strings_ReplaceAll passwd "/bin/ash" "/bin/bash")
                                  "rancher:x:1000:1000::/home/rancher:/bin/bash") /\
    w' !! "/etc/group" = Some (appended (appended group "sudo:x:101:rancher") "rancher:x:1000:") /\
    w' !! "/etc/shadow" = Some (appended shadow "rancher:*:::::::") /\
    forall p, p ∉ ["/etc/passwd"; "/etc/group"; "/etc/shadow"] -> w' !! p = w !! p.
Proof.
  intros Hp Hg Hs. eexists. split.
  - unfold SetupUsers.
    rewrite (fs_run_ok _ _ _ _ tt _ _ _ (replaceInFile_run _ _ _ _ _ _ Hp)).
    rewrite (fs_run_ok _ _ (sys (MkdirAll "/home" _)) _ tt _ _ _ eq_refl).
    do 4 rewrite (fs_run_ok _ _ _ _ tt _ _ _ (appendLine_run _ _ _ _)).
    rewrite (fs_run_ok _ _ (sys (MkdirAll _ _)) _ tt _ _ _ eq_refl). reflexivity.
  - split_and!.
    + by rewrite lookup_insert_ne, lookup_insert_eq, lookup_insert_ne, lookup_insert_ne,
        lookup_insert_eq by done.
    + by rewrite !(lookup_insert_ne _ _ "/etc/group"), !lookup_insert_eq, lookup_insert_ne, Hg by done.
    + by rewrite lookup_insert_eq, !lookup_insert_ne, Hs by done.
    + intros p Hin. rewrite !not_elem_of_cons in Hin. destruct Hin as (? & ? & ? & _).
      by rewrite !lookup_insert_ne by done.
Qed.

(** ** Properties *)

(** [SetupUsers] on a machine that has the three account files returns nil and adds whole lines
    at their ends: the groups sudo and rancher, the rancher user after every /bin/ash of
    /etc/passwd has been replaced by /bin/bash, and its locked shadow entry.  Lines that were there
    stay, in order, whether or not the file ended with a newline, and no other file changes. *)
Theorem SetupUsers_appends_lines (w : files) passwd group shadow :
  w !! "/etc/passwd" = Some passwd -> w !! "/etc/group" = Some group ->
  w !! "/etc/shadow" = Some shadow ->
  exists w' p g s,
    fs_run SetupUsers w [] = (Done (Ok tt), w') /\
    w' !! "/etc/passwd" = Some p /\ w' !! "/etc/group" = Some g /\ w' !! "/etc/shadow" = Some s /\
    lines_of p = lines_of (strings_ReplaceAll passwd "/bin/ash" "/bin/bash")
                 ++ ["rancher:x:1000:1000::/home/rancher:/bin/bash"] /\
    lines_of g = lines_of group ++ ["sudo:x:101:rancher"; "rancher:x:1000:"] /\
    lines_of s = lines_of shadow ++ ["rancher:*:::::::"] /\
    forall f, f ∉ ["/etc/passwd"; "/etc/group"; "/etc/shadow"] -> w' !! f = w !! f.
Proof.
  intros Hp Hg Hs. destruct (SetupUsers_run w _ _ _ Hp Hg Hs) as (w' & Hrun & Hp' & Hg' & Hs' & Ho).
  exists w'. do 3 eexists. split_and!; try eassumption;
    rewrite !appended_lines, <- ?(assoc_L app);
    done || (refine (bool_decide_unpack _ _); by vm_compute).
Qed.

(** [Bootstrapper.Run] runs its seven steps in order and stops at the first that fails, with
    the error labelled with the step's name; its finished behaviours are exactly these. *)
Theorem Bootstrap_Run_first_error b h r :
  exec any_resp (Bootstrap_Run b) [] h (Done r) <->
  steps_result any_resp "bootstrap %s: %w" (Bootstrap_steps b) [] h r.
Proof. apply steps_exec. Qed.

Definition demo_files : files :=
  <["/etc/passwd" := "root:x:0:0:root:/root:/bin/ash" +:+ nl]>
    (<["/etc/group" := "root:x:0:"]> (<["/etc/shadow" := ""]> ∅)).

Lemma SetupUsers_appends_lines_witness :
  demo_files !! "/etc/group" = Some "root:x:0:" /\
  exists w' g, fs_run SetupUsers demo_files [] = (Done (Ok tt), w') /\ w' !! "/etc/group" = Some g /\
    lines_of g = ["root:x:0:"; "sudo:x:101:rancher"; "rancher:x:1000:"].
Proof.
  split; [reflexivity|].
  destruct (SetupUsers_appends_lines demo_files _ _ _ eq_refl eq_refl eq_refl)
    as (w' & p & g & s & Hrun & _ & Hg & _ & _ & Hl & _).
  exists w', g. split; [exact Hrun|]. split; [exact Hg|]. rewrite Hl. reflexivity.
Defined.
