(* ===== verification/BootstrapWhole.v ===== *)
(** * BootstrapWhole: what the first phase does to the machine, from its first step to its last. *)

From S2P Require Import Prelude GoStrings GoPath Effects OS System Only Steps Bootstrap.
Open Scope string_scope.
Open Scope list_scope.
Open Scope go_scope.

Section Bootstrapper.
Context (b : Bootstrapper).

(** ** What is there after the steps *)

(** The temporary /etc, and /proc, are mounted. *)
Definition tmpfs_there (h : list ev) : Prop :=
  happened (ForceMount "none" "/etc" "tmpfs" "") (Ok tt) h /\
  happened (ForceMount "none" "/proc" "proc" "") (Ok tt) h.

Definition accounts : list (string * string) :=
  [("/etc/group", "sudo:x:101:rancher"); ("/etc/group", "rancher:x:1000:");
   ("/etc/passwd", "rancher:x:1000:1000::/home/rancher:/bin/bash"); ("/etc/shadow", "rancher:*:::::::")].

Definition account_added (a : string * string) (h : list ev) : Prop :=
  exists data, happened (WriteFile (fst a) (appended data (snd a)) (oct 644)) (Ok tt) h.

Definition accounts_there (h : list ev) : Prop := Forall (fun a => account_added a h) accounts.

(** Where the kernel's image may be, and which of the two is taken: the first that can be statted. *)
Definition image : string := RootPath ["kernel"; b_KernelVersion b; "kernel.squashfs"].

Definition image_found (p : string) (h : list ev) : Prop :=
  (exists i, happened (Stat p) (Ok i) h) /\
  (p = image \/ p = "/.base" +:+ image /\ exists e, happened (Stat image) (Err e) h).

Definition no_image (h : list ev) : Prop :=
  (exists e, happened (Stat image) (Err e) h) /\ exists e, happened (Stat ("/.base" +:+ image)) (Err e) h.

(** What is mounted as the kernel: the loop device attached to the image found, from its start and
    read-only, or the image itself where there is nothing to attach with. *)
Definition kernel_source (dev : string) (h : list ev) : Prop :=
  exists p, image_found p h /\
    if b_LoopAttacher b then exists d, dev = ld_path d /\ happened (LoopAttach p 0 true) (Ok d) h
    else dev = p.

Definition kernel_mounted (h : list ev) : Prop :=
  exists dev, kernel_source dev h /\ happened (OS.Mount dev "/run/k3os/kernel" "squashfs" "ro") (Ok tt) h.

Definition kernel_there (h : list ev) : Prop :=
  no_image h \/
  kernel_mounted h /\
  happened (OS.Mount "/run/k3os/kernel/lib/modules" "/usr/lib/modules" "" "bind") (Ok tt) h /\
  happened (OS.Mount "/run/k3os/kernel/lib/firmware" "/usr/lib/firmware" "" "bind") (Ok tt) h.

Definition run_dir_there : list ev -> Prop := happened (MkdirAll "/run/k3os" (oct 755)) (Ok tt).

Definition configured (h : list ev) : Prop := b_Mode b = "local" \/ ran_ok (b_ConfigRunner b) h.

Definition bootstrapped (h : list ev) : Prop :=
  tmpfs_there h /\ ran_ok (b_CopyDir b "/usr/etc" "/etc") h /\ accounts_there h /\
  ran_ok (b_RCRunner b) h /\ run_dir_there h /\ kernel_there h /\ configured h.

(** ** What it may do *)

(** The text of a file that was just read, changed. *)
Definition account_text (p d : string) (h : list ev) : Prop :=
  exists r older, h = Ev (ReadFile p) r :: older /\
    let data := match r with Ok data => data | Err _ => "" end in
    (p = "/etc/passwd" /\ is_ok r = true /\ d = strings_ReplaceAll data "/bin/ash" "/bin/bash") \/
    exists line, (p, line) ∈ accounts /\ d = appended data line.

(** A directory of the base, mounted right after it was seen. *)
Definition base_dir (src dst : string) (h : list ev) : Prop :=
  exists seen i older, h = Ev (Stat seen) (Ok i) :: older /\
    ((src, dst) = (".base/lib/modules", "/lib/modules") /\ seen = ".base/lib/modules/" +:+ b_KernelVersion b \/
     (src, dst) = (".base/lib/firmware", "/lib/firmware") /\ seen = src).

Definition own_call : @guar call resp := fun h c =>
  match c with
  | Stat _ | ReadFile _ => True
  | MkdirAll p perm =>
      perm = oct 755 /\
      p ∈ ["/etc"; "/proc"; "/home"; "/home/rancher"; "/run/k3os"; "/run/k3os/kernel"; "/usr/lib/modules";
           "/usr/lib/firmware"]
  | ForceMount src dst mType opts =>
      (src, dst, mType, opts) ∈ [("none", "/etc", "tmpfs", ""); ("none", "/proc", "proc", "")]
  | OS.Mount src dst mType opts =>
      (mType, opts) = ("", "bind") /\ base_dir src dst h \/
      (dst, mType, opts) = ("/run/k3os/kernel", "squashfs", "ro") /\ kernel_source src h \/
      (mType, opts) = ("", "bind") /\ kernel_mounted h /\
        (src, dst) ∈ [("/run/k3os/kernel/lib/modules", "/usr/lib/modules");
                      ("/run/k3os/kernel/lib/firmware", "/usr/lib/firmware")]
  | LoopAttach p offset readOnly =>
      image_found p h /\ offset = 0%Z /\ readOnly = true /\ b_LoopAttacher b = true
  | LoopSetAutoclear d => exists p older, h = Ev (LoopAttach p 0 true) (Ok d) :: older
  | WriteFile p d perm => tmpfs_there h /\ perm = oct 644 /\ account_text p d h
  | _ => False
  end.

(** All calls: its own, and those of the three programs it is given, each in its place. *)
Definition bootstrap_guard : @guar call resp := fun h c =>
  own_call h c \/
  (tmpfs_there h /\ exists h0, makes (b_CopyDir b "/usr/etc" "/etc") h0 h c) \/
  (accounts_there h /\ exists h0, makes (b_RCRunner b) h0 h c) \/
  (ran_ok (b_RCRunner b) h /\ kernel_there h /\ b_Mode b <> "local" /\
   exists h0, makes (b_ConfigRunner b) h0 h c).

(** ** What lasts *)

Create HintDb lasts.
#[local] Hint Resolve happened_lasting ran_ok_lasting nothing_lasting and_lasting or_lasting : lasts.

Lemma tmpfs_lasting : lasting tmpfs_there.
Proof using Type. apply and_lasting; auto with lasts. Qed.

Lemma account_lasting a : lasting (account_added a).
Proof using Type. apply ex_lasting. auto with lasts. Qed.

Lemma accounts_lasting : lasting accounts_there.
Proof using Type. apply Forall_lasting, account_lasting. Qed.

Lemma image_found_lasting p : lasting (image_found p).
Proof using Type.
  intros e h [[i Hi] [Hp|[Hp [e' He]]]]; (split; [exists i; by right|]); [by left|].
  right. split; [done|]. exists e'. by right.
Qed.

Lemma kernel_source_lasting dev : lasting (kernel_source dev).
Proof using Type.
  intros e h (p & Hp & Hd). exists p. split; [by apply image_found_lasting|].
  destruct (b_LoopAttacher b); [|done]. destruct Hd as (d & -> & Hd). exists d. split; [done|by right].
Qed.

Lemma kernel_mounted_lasting : lasting kernel_mounted.
Proof using Type.
  apply ex_lasting. intros dev. apply and_lasting; [apply kernel_source_lasting|auto with lasts].
Qed.

Lemma kernel_there_lasting : lasting kernel_there.
Proof using Type.
  apply or_lasting; [apply and_lasting; apply ex_lasting; auto with lasts|].
  apply and_lasting; [apply kernel_mounted_lasting|auto with lasts].
Qed.
#[local] Hint Resolve tmpfs_lasting accounts_lasting kernel_there_lasting : lasts.

(** ** The steps *)

#[local] Abbreviation keeps := (Steps.keeps bootstrap_guard).
#[local] Abbreviation keeps_from := (Steps.keeps_from bootstrap_guard).

Lemma SetupEtc_keeps :
  keeps (SetupEtc b) (fun h => tmpfs_there h /\ ran_ok (b_CopyDir b "/usr/etc" "/etc") h).
Proof using Type.
  intros h. unfold SetupEtc. wp_norm. split; [left; split; [done|listed]|]. wp_answer; [|done].
  split; [left; split; [done|listed]|]. wp_answer; [|done]. split; [left; cbn; listed|].
  wp_answer; [|done]. split; [left; cbn; listed|]. wp_answer; [|done]. set (h1 := Ev _ _ :: _).
  assert (tmpfs_there h1) as H1 by (split; unfold happened; subst h1; listed).
  apply (last_keeps_from bootstrap_guard _ tmpfs_there); [|exact H1]. intros h2 H2.
  apply wrapf_keeps, keeps_from_and; [apply tmpfs_lasting| |done].
  apply runner_keeps_from; [apply tmpfs_lasting|].
  intros h' h0 c Ht Hc. right. left. split; [done|by exists h0].
Qed.

Lemma SetupModules_keeps : keeps (SetupModules b) nothing_more.
Proof using Type.
  intros h. unfold SetupModules. wp_norm. split; [by left|]. intros st _. wp_norm.
  assert (forall h1, wp any_resp bootstrap_guard
    (let* st2 := sys (Stat ".base/lib/firmware") in
     if is_ok st2 then wrapf "bind mount firmware: %w" []
       (sys (OS.Mount ".base/lib/firmware" "/lib/firmware" "" "bind"))
     else ret tt) (on_success nothing_more) h1) as Hfirmware.
  { intros h1. wp_norm. split; [by left|]. intros [i|e] _; wp_norm; [|done].
    split; [left; left; split; [done|]; eexists _, _, _; split; [done|by right]|]. by wp_answer. }
  destruct st as [i|e]; wp_norm; [|apply Hfirmware].
  split; [left; left; split; [done|]; eexists _, _, _; split; [done|by left]|].
  wp_answer; [apply Hfirmware|done].
Qed.

Lemma appendLine_keeps fmt p line I :
  (p, line) ∈ accounts -> (forall h, I h -> tmpfs_there h) ->
  keeps_from I (wrapf fmt [] (appendLine p line)) (account_added (p, line)).
Proof using Type.
  intros Hp HI h Ht%HI. unfold appendLine. wp_norm. split; [by left|]. intros r _. wp_norm.
  split; [left; split_and!; [by apply tmpfs_lasting|done|]; exists r, h; split; [done|]; right; by exists line|].
  wp_answer; [|done]. eexists. left.
Qed.

Lemma replaceInFile_keeps fmt I :
  (forall h, I h -> tmpfs_there h) ->
  keeps_from I (wrapf fmt [] (replaceInFile "/etc/passwd" "/bin/ash" "/bin/bash")) nothing_more.
Proof using Type.
  intros HI h Ht%HI. unfold replaceInFile. wp_norm. split; [by left|].
  wp_answer; [|done].
  split; [left; split_and!; [by apply tmpfs_lasting|done|]; eexists _, h; split; [done|]; by left|].
  by wp_answer.
Qed.

Lemma mkdir_keeps fmt p :
  p ∈ ["/etc"; "/proc"; "/home"; "/home/rancher"; "/run/k3os"; "/run/k3os/kernel"; "/usr/lib/modules";
       "/usr/lib/firmware"] ->
  keeps (wrapf fmt [] (sys (MkdirAll p (oct 755)))) (happened (MkdirAll p (oct 755)) (Ok tt)).
Proof using Type. intros Hp h. wp_norm. split; [by left|]. wp_answer; [left|done]. Qed.

Lemma SetupUsers_keeps : keeps_from tmpfs_there SetupUsers accounts_there.
Proof using Type.
  unfold SetupUsers.
  eapply seq_keeps_from; [auto with lasts|by apply replaceInFile_keeps|].
  eapply seq_keeps_from; [auto with lasts|apply keeps_keeps_from, mkdir_keeps; listed|].
  do 4 (eapply seq_keeps_from; [auto 10 using account_lasting with lasts|apply appendLine_keeps; [unfold accounts; listed|tauto]|]).
  intros h Hh. wp_norm. split; [left; split; [done|listed]|]. wp_answer; [|done].
  apply accounts_lasting. repeat constructor; tauto.
Qed.

Lemma SetupRC_keeps : keeps_from accounts_there (SetupRC b) (ran_ok (b_RCRunner b)).
Proof using Type.
  intros h Hh. apply wrapf_keeps. apply (runner_keeps_from _ _ accounts_there); [apply accounts_lasting| |done].
  intros h' h0 c Ha Hc. right. right. left. split; [done|by exists h0].
Qed.

Lemma SetupDirs_keeps : keeps SetupDirs run_dir_there.
Proof using Type. apply mkdir_keeps. listed. Qed.

Lemma RootPath_rooted elem : exists s, RootPath elem = "/" +:+ s.
Proof using Type.
  unfold RootPath, path_Join at 1. rewrite filter_cons_True by done. unfold path_Clean.
  assert (forall l, path_rooted (strings_Join (DefaultRootDir :: l) "/") = true) as H by by intros [|].
  rewrite H. by eexists.
Qed.

Lemma findKernelSquashfs_wp h :
  wp any_resp bootstrap_guard (findKernelSquashfs b) (fun o h' => match o with
    | Done p => if bool_decide (p = "") then no_image h' else image_found p h'
    | _ => False end) h.
Proof using Type.
  assert (image <> "") as Hne by (unfold image; by destruct (RootPath_rooted ["kernel"; b_KernelVersion b; "kernel.squashfs"]) as [? ->]).
  unfold findKernelSquashfs. fold image. cbn [first_existing]. wp_norm. split; [by left|].
  intros [i|e] _; wp_norm.
  - rewrite bool_decide_false by done. split; [exists i; left|by left].
  - split; [by left|]. intros [i|e'] _; wp_norm.
    + rewrite bool_decide_false by done. split; [exists i; left|]. right. split; [done|]. exists e. right. left.
    + split; [exists e; right; left|exists e'; left].
Qed.

Lemma mount_kernel_keeps dev :
  keeps_from (kernel_source dev)
    (let! _ := wrapf "mount squashfs: %w" [] (sys (OS.Mount dev "/run/k3os/kernel" "squashfs" "ro")) in
     let! _ := wrapf "bind mount kernel modules: %w" []
                 (sys (OS.Mount "/run/k3os/kernel/lib/modules" "/usr/lib/modules" "" "bind")) in
     let! _ := wrapf "bind mount kernel firmware: %w" []
                 (sys (OS.Mount "/run/k3os/kernel/lib/firmware" "/usr/lib/firmware" "" "bind")) in
     ret tt) kernel_there.
Proof using Type.
  intros h Hs. wp_norm. split; [left; right; by left|]. wp_answer; [|done].
  assert (kernel_mounted (Ev (OS.Mount dev "/run/k3os/kernel" "squashfs" "ro") (Ok tt) :: h)) as Hk.
  { exists dev. split; [by apply kernel_source_lasting|left]. }
  split; [left; right; right; split_and!; [done..|listed]|]. wp_answer; [|done].
  set (hm := _ :: h) in Hk |- *.
  assert (kernel_mounted (Ev (OS.Mount "/run/k3os/kernel/lib/modules" "/usr/lib/modules" "" "bind") (Ok tt) :: hm))
    as Hk' by by apply kernel_mounted_lasting.
  split; [left; right; right; split_and!; [done|exact Hk'|listed]|]. wp_answer; [|done].
  right. split; [by apply kernel_mounted_lasting|]. unfold happened. split; listed.
Qed.

Lemma SetupKernel_keeps : keeps (SetupKernel b) kernel_there.
Proof using Type.
  intros h. unfold SetupKernel. apply wp_bind. eapply wp_mono; [|apply findKernelSquashfs_wp].
  intros [p|s|] h1 Hp; try done. cbn [bind_post]. case_bool_decide; [by left|].
  apply (seq_keeps_from _ _ _ (image_found p) (happened (MkdirAll "/run/k3os/kernel" (oct 755)) (Ok tt)));
    [apply image_found_lasting|apply keeps_keeps_from, mkdir_keeps; listed| |done].
  eapply seq_keeps_from; [auto using image_found_lasting with lasts|
    apply keeps_keeps_from, mkdir_keeps; listed|].
  eapply seq_keeps_from; [auto 8 using image_found_lasting with lasts|
    apply keeps_keeps_from, mkdir_keeps; listed|].
  intros h2 (((Hi & _) & _) & _). destruct (b_LoopAttacher b) eqn:Hb.
  - wp_norm. split; [left; by split_and!|]. wp_answer; [|done]. split; [left; by eexists _, _|].
    intros r _. wp_norm. apply mount_kernel_keeps. exists p. split; [by do 2 apply image_found_lasting|].
    rewrite Hb. eexists. split; [done|]. right. left.
  - wp_norm. apply mount_kernel_keeps. exists p. by rewrite Hb.
Qed.

Lemma SetupConfig_keeps_from :
  keeps_from (fun h => ran_ok (b_RCRunner b) h /\ kernel_there h) (SetupConfig b (b_Mode b)) configured.
Proof using Type.
  intros h Hh. unfold SetupConfig. case_bool_decide as Hm; [by left|].
  eapply wp_mono; [|apply wrapf_keeps; apply (runner_keeps_from bootstrap_guard (b_ConfigRunner b)
    (fun h => ran_ok (b_RCRunner b) h /\ kernel_there h)); [auto with lasts| |done]].
  - intros [[[]|e]|s|] h' Hc; try done. by right.
  - intros h' h0 c [Hr Hk] Hc. right. right. right. split_and!; [done..|by exists h0].
Qed.

Lemma Bootstrap_Run_wp h :
  wp any_resp bootstrap_guard (Bootstrap_Run b) (on_success bootstrapped) h.
Proof using Type.
  eapply wp_mono; [|eapply (chain_wp bootstrap_guard "bootstrap %s: %w" nothing_more); [|apply nothing_lasting|done]].
  2: {
    eapply chain_step; [|apply keeps_keeps_from, SetupEtc_keeps|]; [auto with lasts|].
    eapply chain_step; [|apply keeps_keeps_from, SetupModules_keeps|]; [auto with lasts|].
    eapply chain_step; [apply accounts_lasting| |].
    { intros h' Hh'. apply SetupUsers_keeps. tauto. }
    eapply chain_step; [apply ran_ok_lasting| |].
    { intros h' Hh'. apply SetupRC_keeps. tauto. }
    eapply (chain_step _ _ _ _ run_dir_there); [apply happened_lasting|apply keeps_keeps_from, SetupDirs_keeps|].
    eapply chain_step; [apply kernel_there_lasting|apply keeps_keeps_from, SetupKernel_keeps|].
    apply (chain_last _ _ _ _ configured). intros h' Hh'. apply SetupConfig_keeps_from. tauto. }
  intros [[[]|]|s|] h'; try done. cbn [on_success]. unfold bootstrapped. tauto.
Qed.
End Bootstrapper.

(** ** Properties *)

(** C8: the first phase prepares the machine in its order and touches nothing else.  In every
    behaviour, also one cut off anywhere: it writes only passwd, group and shadow, only in the tmpfs
    mounted over /etc, and only the text just read with the shell replaced or one of the four account
    lines added at its end; it binds a directory of the base only right after it saw it; as the kernel
    it mounts only the image found first, through a loop device attached to it from its start and
    read-only where it can attach one, and binds modules and firmware only out of that; the copying of
    /usr/etc starts after the tmpfs is mounted, the rc after the accounts are there, and the
    configuration, never in local mode, after the rc succeeded and the kernel is in place.  When it
    returns no error, all of this is done. *)
Theorem Bootstrap_Run_prepares b h o :
  exec any_resp (Bootstrap_Run b) [] h o ->
  guaranteed (bootstrap_guard b) [] h /\ (o = Done (Ok tt) -> bootstrapped b h).
Proof.
  intros Hex. destruct (wp_sound _ _ _ _ _ _ _ (Bootstrap_Run_wp b []) Hex) as [Hg Ho].
  split; [done|]. intros ->. by apply (Ho ltac:(done)).
Qed.

Definition demo_bootstrapper : Bootstrapper :=
  {| b_LoopAttacher := true; b_CopyDir := fun src dst => sys (CopyPreserving src dst "");
     b_RCRunner := ret tt; b_ConfigRunner := ret tt; b_KernelVersion := "5.15"; b_Mode := "" |}.

(** A machine that has entered its state partition: the image is below /.base only. *)
Definition pivoted_machine (c : call) : option (resp c) :=
  match c return option (resp c) with
  | Stat p =>
      if bool_decide (p = image demo_bootstrapper) then Some (Err ErrSilentSkip) else None
  | LoopAttach p _ _ => Some (Ok {| ld_path := "/dev/loop0"; ld_fd := 3 |})
  | _ => None
  end.

Lemma Bootstrap_Run_prepares_witness :
  exec any_resp (Bootstrap_Run demo_bootstrapper) []
    (history pivoted_machine (Bootstrap_Run demo_bootstrapper)) (Done (Ok tt)) /\
  bootstrapped demo_bootstrapper (history pivoted_machine (Bootstrap_Run demo_bootstrapper)) /\
  OS.Mount "/dev/loop0" "/run/k3os/kernel" "squashfs" "ro" ∈
    map ev_call (history pivoted_machine (Bootstrap_Run demo_bootstrapper)).
Proof.
  assert (final pivoted_machine (Bootstrap_Run demo_bootstrapper) = Done (Ok tt)) as Hf
    by (vm_compute; reflexivity).
  pose proof (world_exec pivoted_machine (Bootstrap_Run demo_bootstrapper)) as H. rewrite Hf in H.
  split; [exact H|]. split; [|vm_compute; listed].
  exact (proj2 (Bootstrap_Run_prepares demo_bootstrapper _ _ H) eq_refl).
Defined.
