(* ===== verification/DiskMode.v ===== *)
(** * DiskMode: the "disk" boot mode, [internal/boot/modes/disk.go], with the dependencies record of
    [internal/boot/modes/handler.go]. *)

From S2P Require Import Prelude GoStrings GoPath Effects OS.
Open Scope string_scope.
Open Scope list_scope.
Open Scope go_scope.

(** [Deps], without the interfaces that are calls of [OS.v].  A nilable interface is a boolean: the
    handler makes its calls only when it is set. *)
Record Deps := {
  d_PartitionGrower : bool;
  d_LoopDetacher : bool;
  d_KernelVersion : string;
  d_VersionID : string;
}.

Definition targetDir : string := "/run/k3os/target".
Definition stateLabel : string := "K3OS_STATE".
Definition stateMaxRetries : nat := 10.
Definition second : Z := 1000000000.
Definition stateRetrySleep : Z := (1 * second)%Z.

(** [filepath.Join(targetDir, p)]. *)
Definition target (p : string) : string := path_Join [targetDir; p].

(** ** Device names *)

(** [stripPartitionNumber]: [rl] is the device name from the end; the first non-digit decides. *)
Fixpoint strip_go (device : string) (rl : list ascii) : string :=
  match rl with
  | [] => device
  | c :: rest =>
      if is_digit c then strip_go device rest
      else
        match rest with
        | d :: _ =>
            if Ascii.eqb c "p" && is_digit d then of_chars (rev rest)
            else of_chars (rev (c :: rest))
        | [] => of_chars (rev (c :: rest))
        end
  end.
Definition stripPartitionNumber (device : string) : string :=
  strip_go device (rev (chars device)).

(** [extractPartitionNumber]: the digits after the last non-digit, or nothing if there is none. *)
Fixpoint extract_go (num : list ascii) (rl : list ascii) : string :=
  match rl with
  | [] => ""
  | c :: rest => if is_digit c then extract_go (c :: num) rest else of_chars num
  end.
Definition extractPartitionNumber (device : string) : string := extract_go [] (rev (chars device)).

(** ** The steps *)

(** [resolveStateDevice], [n] attempts left. *)
Fixpoint resolve_go (n : nat) : M string :=
  match n with
  | O => fail (Errorf "device with label %q not found after %d attempts" [stateLabel; "10"])
  | S k =>
      let* r := sys (FindByLabel stateLabel) in
      let again := let* _ := sys (Sleep stateRetrySleep) in resolve_go k in
      match r with
      | Ok device => if bool_decide (device = "") then again else ret device
      | Err _ => again
      end
  end.
Definition resolveStateDevice : M string := resolve_go stateMaxRetries.

Section DiskHandler.
Context (deps : Deps).

(** The part of [SetupMounts] after the growpart device is known: unmount, grow, remount. *)
Definition grow_target (device fsType dev num devNum growpartPath : string) : M unit :=
  let! _ := wrapf "umount for grow: %w" [] (sys (Run "umount" [targetDir])) in
  match strconv_Atoi num with
  | Err e => fail (Errorf_w "parse partition number %q: %w" [num] e)
  | Ok partNumInt =>
      let* _ :=
        if d_PartitionGrower deps then
          let* g := sys (GrowPartition dev partNumInt) in
          if is_ok g then
            let* _ := sys (Run "e2fsck" ["-fy"; devNum]) in
            ignore (sys (Run "resize2fs" [devNum]))
          else Ret tt
        else Ret tt in
      let! _ := wrapf "remount K3OS_STATE: %w" [] (sys (Mount device targetDir fsType "")) in
      let* _ := sys (Remove growpartPath) in
      ret tt
  end.

Definition SetupMounts : M unit :=
  let! _ := wrapf "mkdir target: %w" [] (sys (MkdirAll targetDir (oct 755))) in
  let! device := wrapf "mount K3OS_STATE: %w" [] resolveStateDevice in
  let* fsType := sys (ProbeFS device) in
  let! _ := wrapf "mount K3OS_STATE: %w" [] (sys (Mount device targetDir fsType "")) in
  let growpartPath := target "k3os/system/growpart" in
  let* data := sys (ReadFile growpartPath) in
  match data with
  | Err _ => ret tt
  | Ok data =>
      match strings_Fields data with
      | dev :: num :: _ =>
          let devNum := dev +:+ num in
          let* st := sys (Stat devNum) in
          let* probed :=
            if is_ok st then Ret (Some (dev, num, devNum))
            else
              let* part := sys (FindByLabel "K3OS_STATE") in
              match part with
              | Err _ => Ret None
              | Ok part =>
                  Ret (Some (stripPartitionNumber part, extractPartitionNumber part, part))
              end in
          match probed with
          | None => ret tt
          | Some (dev, num, devNum) =>
              let* st2 := sys (Stat devNum) in
              if is_ok st2 then grow_target device fsType dev num devNum growpartPath else ret tt
          end
      | _ => ret tt
      end
  end.

Definition SetupKernelSquashfs : M unit :=
  let src := "/.base/k3os/system/kernel/" +:+ d_KernelVersion deps +:+ "/kernel.squashfs" in
  let dst := path_Join [targetDir; "k3os/system/kernel"; d_KernelVersion deps; "kernel.squashfs"] in
  let* s := sys (Stat src) in
  if negb (is_ok s) then ret tt
  else
    let* d := sys (Stat dst) in
    if is_ok d then ret tt
    else
      let! _ := wrapf "mkdir kernel dir: %w" [] (sys (MkdirAll (path_Dir dst) (oct 755))) in
      wrapf "copy kernel squashfs: %w" [] (sys (Run "cp" ["-r"; src; dst])).

Definition SetupK3OS : M unit :=
  let* cur := sys (Stat (target "k3os/system/k3os/current/k3os")) in
  if is_ok cur then ret tt
  else
    let src := "/.base/k3os/system/k3os/current/k3os" in
    let* s := sys (Stat src) in
    if negb (is_ok s) then ret tt
    else
      let dstFile := path_Join [targetDir; "k3os/system/k3os"; d_VersionID deps; "k3os"] in
      let* d := sys (Stat dstFile) in
      let! _ :=
        if is_ok d then ret tt
        else
          let! _ := wrapf "mkdir k3os dir: %w" [] (sys (MkdirAll (path_Dir dstFile) (oct 755))) in
          let tmpFile := dstFile +:+ ".tmp" in
          let! _ := wrapf "copy k3os binary: %w" [] (sys (Run "cp" ["-f"; src; tmpFile])) in
          wrapf "rename k3os binary: %w" [] (sys (Rename tmpFile dstFile)) in
      let currentLink := target "k3os/system/k3os/current" in
      let* l := sys (Symlink (d_VersionID deps) currentLink) in
      if is_ok l then ret tt
      else
        let* _ := sys (Remove currentLink) in
        wrapf "symlink k3os current: %w" [] (sys (Symlink (d_VersionID deps) currentLink)).

Definition SetupInit : M unit :=
  let initPath := target "sbin/init" in
  let* l := sys (Lstat initPath) in
  if is_ok l then ret tt
  else
    let! _ := wrapf "mkdir sbin: %w" [] (sys (MkdirAll (target "sbin") (oct 755))) in
    wrapf "symlink init: %w" [] (sys (Symlink "../k3os/system/k3os/current/k3os" initPath)).

(** The first entry of the directory that is a real directory. *)
Fixpoint first_real_dir (entries : list DirEntry) : string :=
  match entries with
  | [] => ""
  | e :: rest =>
      match de_info e with
      | Err _ => first_real_dir rest
      | Ok info =>
          if fi_IsSymlink info then first_real_dir rest
          else if de_is_dir e then de_name e else first_real_dir rest
      end
  end.

Definition SetupK3s : M unit :=
  let* cur := sys (Stat (target "k3os/system/k3s/current/k3s")) in
  if is_ok cur then ret tt
  else
    let k3sDir := target "k3os/system/k3s" in
    let* entries := sys (ReadDir k3sDir) in
    match entries with
    | Err _ => ret tt
    | Ok entries =>
        let latest := first_real_dir entries in
        if bool_decide (latest = "") then ret tt
        else
          let currentLink := path_Join [k3sDir; "current"] in
          let* _ := sys (Remove currentLink) in
          wrapf "symlink k3s current: %w" [] (sys (Symlink latest currentLink))
    end.

(** A cleaning loop of [Takeover]: remove each entry of [dir] that [keep] does not spare. *)
Definition clean_dir (dir : string) (keep : string -> bool) (entries : list DirEntry) : io unit :=
  for_fold entries tt (fun e _ =>
    if keep (de_name e) then Ret tt
    else ignore (sys (RemoveAll (path_Join [dir; de_name e])))).

Definition keep_in_target (n : string) : bool :=
  bool_decide (n = "boot") || bool_decide (n = "k3os") || bool_decide (n = "sbin").
Definition keep_in_sbin (n : string) : bool :=
  bool_decide (n = "init") || bool_decide (n = "k3s") || bool_decide (n = "k3os").
Definition keep_in_boot (n : string) : bool := strings_HasPrefix n "g".

(** The end of [Takeover]: power off or reboot; coming back from either is an error. *)
Definition power_down : M unit :=
  let poweroffPath := target "k3os/system/poweroff" in
  let* p := sys (Stat poweroffPath) in
  if is_ok p then
    let* _ := sys (Remove poweroffPath) in
    let* _ := sys (Run "sync" []) in
    let! _ := wrapf "poweroff -f failed: %w" [] (sys (Run "poweroff" ["-f"])) in
    fail (Errorf "poweroff -f returned unexpectedly" [])
  else
    let! _ := wrapf "reboot -f failed: %w" [] (sys (Run "reboot" ["-f"])) in
    fail (Errorf "reboot -f returned unexpectedly" []).

Definition Takeover : M unit :=
  let takeoverPath := target "k3os/system/takeover" in
  let* t := sys (Stat takeoverPath) in
  if negb (is_ok t) then ret tt
  else
    let! _ := wrapf "write factory-reset marker: %w" []
                (sys (WriteFile (target "k3os/system/factory-reset") "" (oct 644))) in
    let sbinPath := target "sbin" in
    let* l := sys (Lstat sbinPath) in
    let* _ :=
      match l with
      | Ok info => if fi_IsSymlink info then ignore (sys (Remove sbinPath)) else Ret tt
      | Err _ => Ret tt
      end in
    let! entries := wrapf "read target dir: %w" [] (sys (ReadDir targetDir)) in
    let* _ := clean_dir targetDir keep_in_target entries in
    let* sbinEntries := sys (ReadDir sbinPath) in
    let* _ :=
      match sbinEntries with
      | Ok es => clean_dir sbinPath keep_in_sbin es
      | Err _ => Ret tt
      end in
    let bootDir := target "boot" in
    let* bootEntries := sys (ReadDir bootDir) in
    let* _ :=
      match bootEntries with
      | Ok es => clean_dir bootDir keep_in_boot es
      | Err _ => Ret tt
      end in
    let* _ := sys (Remove takeoverPath) in
    let* _ := sys (RemoveAll (target "k3os/data")) in
    let* _ := sys (Run "sync" []) in
    power_down.

Definition CleanupEphemeral : M unit :=
  let factoryResetPath := target "k3os/system/factory-reset" in
  let ephemeralPath := target "k3os/system/ephemeral" in
  let* fr := sys (Stat factoryResetPath) in
  let* eph := sys (Stat ephemeralPath) in
  if negb (is_ok fr) && negb (is_ok eph) then ret tt
  else
    let* _ := sys (RemoveAll (target "k3os/data")) in
    let* _ := sys (Remove factoryResetPath) in
    ret tt.

Definition PivotAndExec : M unit :=
  let* _ := if d_LoopDetacher deps then ignore (sys (DetachPath "/dev/loop0")) else Ret tt in
  let! _ := wrapf "make root private: %w" [] (sys (ForceMount "" "/" "none" "rprivate")) in
  let dotRoot := target ".root" in
  let! _ := wrapf "mkdir .root: %w" [] (sys (MkdirAll dotRoot (oct 755))) in
  let! _ := wrapf "pivot_root: %w" [] (sys (PivotRoot targetDir dotRoot)) in
  let* environ := sys Environ in
  let env := environ ++ ["K3OS_MODE=local"] in
  let! _ := wrapf "exec /sbin/init: %w" [] (sys (Exec "/sbin/init" ["/sbin/init"] env)) in
  fail (ErrExecCalled "/sbin/init" ["/sbin/init"] env).

(** [Execute]. *)
Definition Disk_Execute : M unit :=
  let! _ := wrapf "setup mounts: %w" [] SetupMounts in
  let! _ := wrapf "setup k3os: %w" [] SetupK3OS in
  let! _ := wrapf "setup kernel squashfs: %w" [] SetupKernelSquashfs in
  let! _ := wrapf "setup init: %w" [] SetupInit in
  let! _ := wrapf "setup k3s: %w" [] SetupK3s in
  let! _ := wrapf "takeover: %w" [] Takeover in
  let! _ := wrapf "cleanup ephemeral: %w" [] CleanupEphemeral in
  let! _ := PivotAndExec in
  ret tt.
End DiskHandler.
