(* ===== verification/DiskSpec.v ===== *)
(** * DiskSpec: what the "disk" boot mode guarantees. *)

From S2P Require Import Prelude GoStrings GoPath Effects OS DiskMode.
Open Scope string_scope.
Open Scope list_scope.
Open Scope go_scope.

(** ** The state of the target directory, read off the history *)

Definition takeoverPath : string := target "k3os/system/takeover".

(** Whether K3OS_STATE is mounted on the target, whether its partition has been grown since it was
    last mounted, and whether the latest look for the takeover marker found none. *)
Record view := mkView { v_mounted : bool; v_grown : bool; v_cleared : bool }.

Definition observe (e : ev) (v : view) : view :=
  match e with
  | Ev c r =>
      match c return resp c -> view with
      | Mount _ t _ _ => fun r =>
          if bool_decide (t = targetDir) && is_ok r then mkView true false (v_cleared v) else v
      | Run n args => fun r =>
          if bool_decide (n = "umount") && bool_decide (args = [targetDir]) && is_ok r
          then mkView false (v_grown v) (v_cleared v) else v
      | GrowPartition _ _ => fun r => mkView (v_mounted v) (is_ok r) (v_cleared v)
      | Stat p => fun r =>
          if bool_decide (p = takeoverPath)
          then mkView (v_mounted v) (v_grown v) (negb (is_ok r)) else v
      | _ => fun _ => v
      end r
  end.

Definition view_of (h : list ev) : view := foldr observe (mkView false false false) h.

(** The promise of the disk mode. *)
Definition disk_guard : @guar call resp := fun h c =>
  match c with
  | GrowPartition _ _ => v_mounted (view_of h) = false
  | Run n _ =>
      n = "e2fsck" \/ n = "resize2fs" -> v_mounted (view_of h) = false /\ v_grown (view_of h) = true
  | PivotRoot new old =>
      new = targetDir /\ old = target ".root" /\
      v_mounted (view_of h) = true /\ v_cleared (view_of h) = true
  | Exec p args env =>
      p = "/sbin/init" /\ args = ["/sbin/init"] /\
      exists environ older, env = environ ++ ["K3OS_MODE=local"] /\
        h = Ev Environ environ :: Ev (PivotRoot targetDir (target ".root")) (Ok tt) :: older
  | _ => True
  end.

(** ** The steps *)

Lemma view_cons e h : view_of (e :: h) = observe e (view_of h).
Proof. done. Qed.

(** Calls that leave the target as it is. *)
Definition quiet (c : call) : Prop :=
  match c with
  | Mount _ t _ _ => t <> targetDir
  | Run n _ => n <> "umount" /\ n <> "e2fsck" /\ n <> "resize2fs"
  | GrowPartition _ _ | PivotRoot _ _ | Exec _ _ _ => False
  | _ => True
  end.

Lemma quiet_guard h c : quiet c -> disk_guard h c.
Proof. destruct c; simpl; try done. intros (_ & ? & ?) [?|?]; done. Qed.

Lemma quiet_mounted h c r : quiet c -> v_mounted (view_of (Ev c r :: h)) = v_mounted (view_of h).
Proof.
  rewrite view_cons. destruct c; simpl; try done.
  - by case_bool_decide.
  - intros (H & _). by rewrite (bool_decide_false (_ = "umount")).
  - intros H. by rewrite (bool_decide_false (_ = targetDir)).
Qed.

(** A quiet step keeps the target mounted. *)
Lemma quiet_wp {A} (p : io A) h :
  wp any_resp (fun _ c => quiet c) p (fun _ _ => True) h ->
  wp any_resp disk_guard p (fun _ h' => v_mounted (view_of h') = v_mounted (view_of h)) h.
Proof.
  apply (wp_frame (fun h => v_mounted (view_of h))).
  - intros h' c r Hc _. by apply quiet_mounted.
  - intros h' c. apply quiet_guard.
Qed.

Section Steps.
Context (deps : Deps).

Lemma SetupK3OS_quiet h : wp any_resp (fun _ c => quiet c) (SetupK3OS deps) (fun _ _ => True) h.
Proof using Type. unfold SetupK3OS. wp_calls; done. Qed.

Lemma SetupKernelSquashfs_quiet h :
  wp any_resp (fun _ c => quiet c) (SetupKernelSquashfs deps) (fun _ _ => True) h.
Proof using Type. unfold SetupKernelSquashfs. wp_calls; done. Qed.

Lemma SetupInit_quiet h : wp any_resp (fun _ c => quiet c) SetupInit (fun _ _ => True) h.
Proof using Type. unfold SetupInit. wp_calls; done. Qed.

Lemma SetupK3s_quiet h : wp any_resp (fun _ c => quiet c) SetupK3s (fun _ _ => True) h.
Proof using Type. unfold SetupK3s. wp_calls; done. Qed.
End Steps.

(** ** Takeover *)

Lemma wp_clean_dir R G dir keep entries (I : list ev -> Prop) Q h :
  I h ->
  (forall h e, I h -> e ∈ entries -> keep (de_name e) = false ->
     G h (RemoveAll (path_Join [dir; de_name e])) /\
     forall r, I (Ev (RemoveAll (path_Join [dir; de_name e])) r :: h)) ->
  (forall h, I h -> Q (Done tt) h) ->
  wp R G (clean_dir dir keep entries) Q h.
Proof.
  intros HI Hstep HQ. unfold clean_dir.
  apply (wp_for_fold R G entries tt _ (fun l _ h' => I h' /\ forall e, e ∈ l -> e ∈ entries)).
  - done.
  - intros [] h' [H' _]. by apply HQ.
  - intros e l [] h' [H' Hin]. destruct (keep (de_name e)) eqn:Hk.
    + simpl. split; [done|]. intros x Hx. apply Hin. by right.
    + destruct (Hstep h' e) as [HG HI']; [done|apply Hin; by left|done|].
      wp_norm. split; [done|]. intros r _. split; [done|]. intros x Hx. apply Hin. by right.
Qed.

(** The paths a factory reset may delete recursively. *)
Definition removable (p : string) : Prop :=
  p = targetDir +:+ "/k3os/data" \/
  exists n, plain_name n /\
    ((p = targetDir +:+ "/" +:+ n /\ n <> "boot" /\ n <> "k3os" /\ n <> "sbin") \/
     (p = targetDir +:+ "/sbin/" +:+ n /\ n <> "init" /\ n <> "k3s" /\ n <> "k3os") \/
     (p = targetDir +:+ "/boot/" +:+ n /\ strings_HasPrefix n "g" = false)).

Definition reset_marker : string := targetDir +:+ "/k3os/system/factory-reset".

Definition marked (h : list ev) : Prop := Ev (WriteFile reset_marker "" (oct 644)) (Ok tt) ∈ h.

(** The promise of [Takeover]: it mounts, pivots to and executes nothing, it deletes recursively
    within [removable] only, and only once the marker of the reset is on disk. *)
Definition reset_call (c : call) : Prop :=
  match c with
  | RemoveAll p => removable p
  | Remove p => p = target "sbin" \/ p = takeoverPath \/ p = target "k3os/system/poweroff"
  | Stat p => p = target "k3os/system/poweroff"
  | Run n args => (n, args) ∈ [("sync", []); ("poweroff", ["-f"]); ("reboot", ["-f"])]
  | Lstat _ | ReadDir _ => True
  | _ => False
  end.

Definition takeover_guard : @guar call resp := fun h c =>
  match c with
  | Stat p => p = takeoverPath \/ marked h /\ reset_call c
  | WriteFile p data mode => p = reset_marker /\ data = ""
  | _ => marked h /\ reset_call c
  end.

Lemma path_Join_target n : plain_name n -> path_Join [targetDir; n] = targetDir +:+ "/" +:+ n.
Proof.
  intros Hn. change targetDir with (abs_path ["run"; "k3os"; "target"]).
  by rewrite path_Join_abs; [|done|plain_names|done].
Qed.

Lemma path_Join_sub d n :
  plain_name d -> plain_name n -> path_Join [targetDir +:+ "/" +:+ d; n] = targetDir +:+ "/" +:+ d +:+ "/" +:+ n.
Proof.
  intros Hd Hn. change (targetDir +:+ "/" +:+ d) with (abs_path ["run"; "k3os"; "target"; d]).
  rewrite path_Join_abs; [reflexivity|done| |done].
  repeat (constructor; [first [exact Hd | plain_names]|]). constructor.
Qed.

(** Each cleaning loop removes only what it may. *)
Lemma removable_target n :
  plain_name n -> keep_in_target n = false -> removable (path_Join [targetDir; n]).
Proof.
  intros Hn Hk. rewrite path_Join_target by done. right. exists n. split; [done|left].
  unfold keep_in_target in Hk. rewrite !orb_false_iff, !bool_decide_eq_false in Hk. by destruct Hk as [[? ?] ?].
Qed.

Lemma removable_sbin n :
  plain_name n -> keep_in_sbin n = false -> removable (path_Join [target "sbin"; n]).
Proof.
  intros Hn Hk. change (target "sbin") with (targetDir +:+ "/" +:+ "sbin").
  rewrite path_Join_sub by (done || plain_names). right. exists n. split; [done|right; left].
  unfold keep_in_sbin in Hk. rewrite !orb_false_iff, !bool_decide_eq_false in Hk. by destruct Hk as [[? ?] ?].
Qed.

Lemma removable_boot n :
  plain_name n -> keep_in_boot n = false -> removable (path_Join [target "boot"; n]).
Proof.
  intros Hn Hk. change (target "boot") with (targetDir +:+ "/" +:+ "boot").
  rewrite path_Join_sub by (done || plain_names). right. exists n. split; [done|right; right].
  by unfold keep_in_boot in Hk.
Qed.

Lemma power_down_wp R h :
  wp R (fun _ => reset_call) power_down (fun o _ => forall r, o = Done r -> is_ok r = false) h.
Proof.
  unfold power_down. wp_calls; simpl; try (intros ? [= <-]; done); try set_solver; auto.
Qed.

(** What [Takeover] does once the marker is on disk: it never returns normally. *)
Lemma clean_dir_wp h dir keep (entries : list DirEntry) Q :
  (forall n, plain_name n -> keep n = false -> removable (path_Join [dir; n])) ->
  Forall (fun e => plain_name (de_name e)) entries ->
  (forall h, Q (Done tt) h) ->
  wp plain_entries (fun _ => reset_call) (clean_dir dir keep entries) Q h.
Proof.
  intros Hrem Hes HQ. apply wp_clean_dir with (I := fun _ => True); try done.
  intros h' e _ He Hk. split; [|done]. apply Hrem; [|done].
  by eapply Forall_forall in Hes.
Qed.

Lemma takeover_wp h :
  wp plain_entries takeover_guard Takeover
    (fun o h' => o = Done (Ok tt) -> exists e, h' = Ev (Stat takeoverPath) (Err e) :: h) h.
Proof.
  unfold Takeover. wp_norm. split; [by left|]. wp_answer; wp_norm; [|intros _; by eexists].
  split; [done|]. wp_answer; wp_head; [|done].
  match goal with |- context [Ev (WriteFile ?p ?d ?m) ?r :: ?h0] =>
    set (h1 := Ev (WriteFile p d m) r :: h0) end.
  assert (marked h1) as Hm.
  { unfold marked. change reset_marker with (target "k3os/system/factory-reset"). by left. }
  clearbody h1. clear Hr Hr0 a.
  apply (wp_weaken plain_entries plain_entries
    (fun h c => reset_call c /\ marked h) takeover_guard _
    (fun o h' => (forall r, o = Done r -> is_ok r = false) /\ marked h')); try done.
  { intros h' c [Hc Hh]. destruct c; simpl in *; auto. done. }
  { intros o h' [Ho _] ->. by specialize (Ho _ eq_refl). }
  apply (wp_always _ _ _ _ marked); [|done|].
  { intros e h' H'. by right. }
  repeat first
    [ wp_step | progress wp_norm
    | exact I | by left | by right; left
    | apply wp_bind; apply clean_dir_wp;
      [first [exact removable_target | exact removable_sbin | exact removable_boot]
      |done|intros ?; wp_norm]
    | apply power_down_wp | by intros ? [= <-] | done ].

Qed.

(** ** Mounting and growing *)

Lemma resolve_quiet n h :
  wp any_resp (fun _ c => quiet c) (resolve_go n) (fun _ _ => True) h.
Proof.
  revert h. induction n as [|n IH]; intros h; [exact I|].
  cbn [resolve_go]. wp_calls; try done; apply IH.
Qed.

(** Compute the view after known events. *)
Ltac view_tac :=
  cbn [view_of foldr observe is_ok andb];
  repeat (rewrite (bool_decide_true (targetDir = targetDir)) by reflexivity
          || rewrite bool_decide_true by reflexivity
          || case_bool_decide; simplify_eq; cbn [andb v_mounted v_grown v_cleared]);
  try done.

Section Mounts.
Context (deps : Deps).

Definition when_ok (P : list ev -> Prop) (o : outcome (result unit)) (h : list ev) : Prop :=
  match o with Done (Ok _) => P h | _ => True end.

Definition mounted (h : list ev) : Prop := v_mounted (view_of h) = true.

Lemma grow_target_wp device fsType dev num devNum gp h :
  wp any_resp disk_guard (grow_target deps device fsType dev num devNum gp) (when_ok mounted) h.
Proof using Type.
  unfold grow_target. wp_calls; unfold when_ok, mounted; try done; try (intros [?|?]; done);
    try (intros _; split); view_tac.
Qed.

(** Looking for the grow marker leaves the target mounted. *)
Lemma mounted_quiet h c r : quiet c -> mounted h -> mounted (Ev c r :: h).
Proof using Type. intros Hc H. unfold mounted. by rewrite quiet_mounted. Qed.

Lemma disk_SetupMounts_wp h :
  wp any_resp disk_guard (SetupMounts deps) (when_ok mounted) h.
Proof using Type.
  unfold SetupMounts, resolveStateDevice. wp_norm. split; [done|]. wp_answer; wp_norm; [|done].
  apply wp_bind, wp_bind. eapply wp_mono; [|apply quiet_wp, resolve_quiet].
  intros [[device|e]|s|] h1 _; wp_norm; try done.
  split; [done|]. wp_answer. split; [done|]. wp_answer; wp_norm; [|done].
  match goal with |- context [Ev (ReadFile _) _ :: ?h0] => assert (mounted h0) as Hm end.
  { unfold mounted. by view_tac. }
  match goal with |- context [Ev (ReadFile _) _ :: ?h0] => generalize dependent h0 end.
  intros h2 Hm.
  split; [done|]. wp_answer; wp_norm; [|by apply mounted_quiet].
  repeat first [ wp_step | progress wp_norm | by auto using mounted_quiet
               | by repeat apply mounted_quiet
               | apply grow_target_wp ].
Qed.
End Mounts.

(** ** The whole mode *)

(** Whatever the directories contain, the reset path neither mounts nor pivots nor returns. *)
Lemma takeover_quiet h :
  wp any_resp (fun _ c => quiet c) Takeover
    (fun o h' => o = Done (Ok tt) -> exists e, h' = Ev (Stat takeoverPath) (Err e) :: h) h.
Proof.
  unfold Takeover. wp_norm. split; [done|]. wp_answer; wp_norm; [|intros _; by eexists].
  unfold power_down.
  repeat first
    [ wp_step | progress wp_norm
    | apply wp_bind; apply wp_clean_dir with (I := fun _ => True);
      [done|intros; by repeat split|intros ? _; wp_norm]
    | intros [=] | done ].
Qed.

Lemma takeover_disk_wp h :
  mounted h ->
  wp any_resp disk_guard Takeover
    (when_ok (fun h => mounted h /\ v_cleared (view_of h) = true)) h.
Proof.
  intros Hm. eapply wp_weaken; [done|apply quiet_guard|simpl|apply takeover_quiet].
  intros [[[]|e]|s|] h' Ho; simpl; try done. destruct (Ho eq_refl) as [e ->].
  split; [by apply mounted_quiet|]. reflexivity.
Qed.

Lemma cleanup_wp h :
  mounted h /\ v_cleared (view_of h) = true ->
  wp any_resp disk_guard CleanupEphemeral
    (when_ok (fun h => mounted h /\ v_cleared (view_of h) = true)) h.
Proof.
  unfold CleanupEphemeral, when_ok, mounted. intros [Hm Hc]. wp_calls; try done;
    (split; [rewrite !quiet_mounted by done; done|]; by view_tac).
Qed.

Lemma pivot_wp deps h :
  mounted h /\ v_cleared (view_of h) = true ->
  wp any_resp disk_guard (PivotAndExec deps) (fun o _ => forall r, o = Done r -> is_ok r = false) h.
Proof.
  unfold PivotAndExec, mounted. intros [Hm Hc]. wp_calls; try done; try (by intros ? [= <-]);
    split_and!; try done; by eauto.
Qed.

(** A step of [Execute] under its error text. *)
Lemma wp_when_ok (fmt : string) (p : M unit) (I J : list ev -> Prop) (f : unit -> M unit) Q h :
  I h ->
  (forall h, I h -> wp any_resp disk_guard p (when_ok J) h) ->
  (forall h, J h -> wp any_resp disk_guard (f tt) Q h) ->
  (forall e h, Q (Done (Err e)) h) -> (forall s h, Q (Halted s) h) ->
  wp any_resp disk_guard (bindE (wrapf fmt [] p) f) Q h.
Proof.
  intros HI Hp Hf He Hs. apply wp_bindE, wp_wrapf. eapply wp_mono; [|by apply Hp].
  intros [[[]|e]|s|] h' H'; simpl in *; auto.
Qed.

Lemma mounted_step (p : M unit) h :
  (forall h, wp any_resp (fun _ c => quiet c) p (fun _ _ => True) h) ->
  mounted h -> wp any_resp disk_guard p (when_ok mounted) h.
Proof.
  intros Hq Hm. eapply wp_mono; [|apply quiet_wp, Hq].
  intros [[[]|e]|s|] h' H'; simpl; try done. unfold mounted. by rewrite H'.
Qed.

(** The next step, from the invariant [I] to [J]. *)
Ltac next I J := apply wp_when_ok with I J; [assumption || done| | |by intros ?? ? [= <-]|done].

Lemma Disk_Execute_wp deps :
  wp any_resp disk_guard (Disk_Execute deps) (fun o _ => forall r, o = Done r -> is_ok r = false) [].
Proof.
  unfold Disk_Execute.
  next (fun _ : list ev => True) mounted; [by intros; apply disk_SetupMounts_wp|intros h1 H1].
  next mounted mounted; [intros; by apply mounted_step; [apply SetupK3OS_quiet|]|intros h2 H2].
  next mounted mounted; [intros; by apply mounted_step; [apply SetupKernelSquashfs_quiet|]|intros h3 H3].
  next mounted mounted; [intros; by apply mounted_step; [apply SetupInit_quiet|]|intros h4 H4].
  next mounted mounted; [intros; by apply mounted_step; [apply SetupK3s_quiet|]|intros h5 H5].
  next mounted (fun h => mounted h /\ v_cleared (view_of h) = true);
    [intros; by apply takeover_disk_wp|intros h6 H6].
  next (fun h => mounted h /\ v_cleared (view_of h) = true)
       (fun h => mounted h /\ v_cleared (view_of h) = true);
    [intros; by apply cleanup_wp|intros h7 H7].
  apply wp_bindE. eapply wp_mono; [|by apply pivot_wp].
  intros [[a|e]|s|] h' H'; simpl; try done.
  by specialize (H' _ eq_refl).
Qed.

(** ** Waiting for the device *)

(** An answer that names no device. *)
Definition no_device (r : result string) : Prop :=
  match r with Ok d => d = "" | Err _ => True end.

(** The events of unsuccessful attempts, each followed by a pause; [answers] in order. *)
Definition attempts (answers : list (result string)) (h : list ev) : list ev :=
  fold_left (fun h a => Ev (Sleep stateRetrySleep) tt :: Ev (FindByLabel stateLabel) a :: h) answers h.

Definition resolved (n : nat) (h h' : list ev) (r : result string) : Prop :=
  exists bad, Forall no_device bad /\
    ((exists dev, dev <> "" /\ (List.length bad < n)%nat /\ r = Ok dev /\
        h' = Ev (FindByLabel stateLabel) (Ok dev) :: attempts bad h) \/
     (List.length bad = n /\ h' = attempts bad h /\
        r = Err (Errorf "device with label %q not found after %d attempts" [stateLabel; "10"]))).

Lemma resolved_succ n h h' r a :
  no_device a ->
  resolved n (Ev (Sleep stateRetrySleep) tt :: Ev (FindByLabel stateLabel) a :: h) h' r ->
  resolved (S n) h h' r.
Proof.
  intros Ha (bad & Hbad & H). exists (a :: bad). split; [by constructor|].
  destruct H as [(dev & Hdev & Hl & -> & ->)|(Hl & -> & ->)]; [left|right].
  - exists dev. simpl. split_and!; auto with lia.
  - simpl. split_and!; auto with lia.
Qed.

Lemma resolve_exec n h h' r :
  exec any_resp (resolve_go n) h h' (Done r) <-> resolved n h h' r.
Proof.
  revert h. induction n as [|n IH]; intros h; split.
  - intros [<- ->]%exec_inv. exists []. split; [done|]. right. done.
  - intros (bad & _ & [(dev & _ & Hl & _)|(Hl & -> & ->)]); [simpl in Hl; lia|].
    destruct bad; [constructor|done].
  - intros (a & _ & H)%exec_inv.
    assert (no_device a ->
      exec any_resp (let* _ := sys (Sleep stateRetrySleep) in resolve_go n)
        (Ev (FindByLabel stateLabel) a :: h) h' (Done r) -> resolved (S n) h h' r) as Hagain.
    { intros Ha ([] & _ & Hk)%exec_inv. apply IH in Hk. by apply resolved_succ in Hk. }
    destruct a as [d|e]; simpl in H; [|by apply Hagain].
    case_bool_decide as Hd; [by apply Hagain|]. apply exec_inv in H as [<- ->].
    exists []. split; [done|]. left. exists d. simpl. split_and!; auto with lia.
  - intros (bad & Hbad & H). destruct Hbad as [|a bad Ha Hbad].
    + destruct H as [(dev & Hdev & _ & -> & ->)|(Hl & _)]; [|done].
      apply exec_vis with (Ok dev); [done|]. simpl. rewrite bool_decide_false by done. constructor.
    + assert (resolved n (Ev (Sleep stateRetrySleep) tt :: Ev (FindByLabel stateLabel) a :: h) h' r)
        as Hr.
      { exists bad. split; [done|]. simpl in H.
        destruct H as [(dev & Hd & Hl & -> & ->)|(Hl & -> & ->)]; [left; exists dev|right];
          split_and!; (done || lia). }
      apply IH in Hr. apply exec_vis with a; [done|]. destruct a as [d|e]; simpl in *.
      * rewrite bool_decide_true by done. by apply exec_vis with tt.
      * by apply exec_vis with tt.
Qed.

(** ** Properties *)



(** Waiting for the state device is bounded and exact.  The finished behaviours of
    [resolveStateDevice] are exactly these: fewer than ten attempts that named no device, each
    followed by a one-second pause, then the first non-empty answer, which is returned; or ten such
    attempts and the error. *)
Theorem resolveStateDevice_spec h r :
  exec any_resp resolveStateDevice [] h (Done r) <-> resolved 10 [] h r.
Proof. apply resolve_exec. Qed.

(** ** Concrete boots *)

Definition demo_deps : Deps :=
  {| d_PartitionGrower := true; d_LoopDetacher := true; d_KernelVersion := "5.15";
     d_VersionID := "v1" |}.

(** A disk whose marker asks for growing /dev/sda2 and that has no takeover marker. *)
Definition demo_disk (c : call) : option (resp c) :=
  match c return option (resp c) with
  | FindByLabel _ => Some (Ok "/dev/sda2")
  | ReadFile _ => Some (Ok "/dev/sda 2")
  | Stat p => if bool_decide (p = takeoverPath) then Some (Err (ErrSys "stat" p ENOENT)) else None
  | _ => None
  end.


(** A target with a takeover marker, a data file and a stray entry in boot. *)
Definition entry (n : string) : DirEntry :=
  {| de_name := n; de_is_dir := true; de_info := Ok {| fi_name := n; fi_mode := ModeDir |} |}.

Definition demo_reset (c : call) : option (resp c) :=
  match c return option (resp c) with
  | ReadDir p => Some (Ok (map entry (if bool_decide (p = targetDir)
                                      then ["boot"; "etc"; "k3os"; "sbin"] else ["grub"; "vmlinuz"])))
  | _ => None
  end.

