(* ===== verification/LiveModes.v ===== *)
(** * LiveModes: the other boot modes, [internal/boot/modes/live.go], [local.go] and [shell.go], and
    the registry of handlers ([handler.go]). *)

From S2P Require Import Prelude GoStrings GoPath Effects OS System DiskMode.
Open Scope string_scope.
Open Scope list_scope.
Open Scope go_scope.

Definition baseDir : string := "/.base".
Definition maxRetries : nat := 5.
Definition retrySleep : Z := (1 * second)%Z.
Definition motdPath : string := "/etc/motd".
Definition motdContent : string :=
  nl +:+ "You can configure this system or install to disk using " +:+ dq +:+ "sudo k3os install"
  +:+ dq +:+ nl.

Section LiveSetup.
Context (deps : Deps).

(** One pass over the disks: [true] as soon as one mounts. *)
Fixpoint try_disks (names : list string) : io bool :=
  match names with
  | [] => Ret false
  | name :: rest =>
      let* m := sys (Mount ("/dev/" +:+ name) baseDir "" "") in
      if is_ok m then Ret true else try_disks rest
  end.

Fixpoint probe_disks (n : nat) : M unit :=
  match n with
  | O => fail (Errorf "failed to mount base filesystem after %d attempts" ["5"])
  | S k =>
      let* disks := sys ListDisks in
      let* found := match disks with Ok names => try_disks names | Err _ => Ret false end in
      if found : bool then ret tt
      else
        let* _ := sys (Sleep retrySleep) in
        probe_disks k
  end.

Definition SetupBase : M unit :=
  let* r := sys (FindByLabel "K3OS") in
  match r with
  | Ok device =>
      if bool_decide (device = "") then probe_disks maxRetries
      else wrapf "mount K3OS ISO: %w" [] (sys (Mount device baseDir "" "ro"))
  | Err _ => probe_disks maxRetries
  end.

Definition SetupKernel : M unit :=
  let kernelPath := RootPath ["kernel"; d_KernelVersion deps; "kernel.squashfs"] in
  let* st := sys (Stat kernelPath) in
  if negb (is_ok st) then ret tt
  else
    let! _ := wrapf "mkdir kernel: %w" [] (sys (MkdirAll "/run/k3os/kernel" (oct 755))) in
    let! _ := wrapf "mount squashfs: %w" []
                (sys (Mount kernelPath "/run/k3os/kernel" "squashfs" "")) in
    let! _ := wrapf "bind mount modules: %w" []
                (sys (Mount "/run/k3os/kernel/lib/modules" "/lib/modules" "" "bind")) in
    let! _ := wrapf "bind mount firmware: %w" []
                (sys (Mount "/run/k3os/kernel/lib/firmware" "/lib/firmware" "" "bind")) in
    wrapf "umount kernel: %w" [] (sys (Run "umount" ["/run/k3os/kernel"])).

Definition SetupPasswd : M unit :=
  wrapf "passwd -d rancher: %w" [] (sys (Run "passwd" ["-d"; "rancher"])).

Definition SetupMotd : M unit :=
  let* r := sys (ReadFile motdPath) in
  let existing := match r with Ok d => d | Err _ => "" end in
  wrapf "write motd: %w" [] (sys (WriteFile motdPath (existing +:+ motdContent) (oct 644))).

(** [LiveSetup.Run]; the "live" and "install" handlers are this. *)
Definition Live_Run : M unit :=
  let! _ := wrapf "setup base: %w" [] SetupBase in
  let! _ := wrapf "setup kernel: %w" [] SetupKernel in
  let! _ := wrapf "setup passwd: %w" [] SetupPasswd in
  let! _ := wrapf "setup motd: %w" [] SetupMotd in
  ret tt.

Definition Live_Execute : M unit := Live_Run.
Definition Install_Execute : M unit := Live_Run.

(** [ShellHandler.Execute]. *)
Definition Shell_Execute : M unit :=
  let! _ := wrapf "live setup: %w" [] Live_Run in
  let* environ := sys Environ in
  let! _ := wrapf "exec bash: %w" [] (sys (Exec "/bin/bash" ["/bin/bash"] environ)) in
  fail (ErrExecCalled "/bin/bash" ["/bin/bash"] environ).
End LiveSetup.

(** ** The "local" mode *)

Section Local.
Definition persistDir : string := "/var/lib/rancher/k3os/ssh".
Definition etcSSH : string := "/etc/ssh".

Definition SetupSSH : M unit :=
  let* st := sys (Stat persistDir) in
  let! _ :=
    if is_ok st then ret tt
    else
      let! _ := wrapf "mkdir rancher dir: %w" []
                  (sys (MkdirAll "/var/lib/rancher/k3os" (oct 755))) in
      wrapf "copy ssh keys: %w" [] (sys (CopyDir etcSSH persistDir)) in
  let! _ := wrapf "remove /etc/ssh: %w" [] (sys (RemoveAll etcSSH)) in
  wrapf "symlink ssh: %w" [] (sys (Symlink persistDir etcSSH)).

Definition SetupRancherNode : M unit :=
  let! _ := wrapf "mkdir /etc/rancher: %w" [] (sys (MkdirAll "/etc/rancher" (oct 755))) in
  let! _ := wrapf "mkdir node dir: %w" []
              (sys (MkdirAll "/var/lib/rancher/k3os/node" (oct 755))) in
  wrapf "symlink node: %w" [] (sys (Symlink "/var/lib/rancher/k3os/node" "/etc/rancher/node")).

Definition Local_Execute : M unit :=
  let! _ := wrapf "setup ssh: %w" [] SetupSSH in
  let! _ := wrapf "setup rancher node: %w" [] SetupRancherNode in
  ret tt.
End Local.

(** ** The registry *)

Definition handlers : list (string * (Deps -> M unit)) :=
  [("disk", Disk_Execute); ("local", fun _ => Local_Execute); ("live", Live_Execute);
   ("install", Install_Execute); ("shell", Shell_Execute)].

Definition assoc_find {A} (k : string) (l : list (string * A)) : option A :=
  snd <$> find (fun p => bool_decide (fst p = k)) l.

(** [Registry.Get]: the handler of a mode. *)
Definition Registry_Get (deps : Deps) (mode : string) : result (M unit) :=
  match assoc_find mode handlers with
  | Some ctor => Ok (ctor deps)
  | None => Err (Errorf "unknown mode: %q" [mode])
  end.
