(* ===== verification/LiveSpec.v ===== *)
(** * LiveSpec: what the modes live, install, shell and local do, through the registry. *)

From S2P Require Import Prelude GoStrings GoPath Effects OS System Only Steps DiskMode LiveModes.
Open Scope string_scope.
Open Scope list_scope.
Open Scope go_scope.

(** ** The live setup *)

Section Live.
Context (deps : Deps).

(** Something is mounted on /.base. *)
Definition based (h : list ev) : Prop :=
  exists dev opts, happened (OS.Mount dev baseDir "" opts) (Ok tt) h.

(** How often the disks were listed. *)
Definition is_listing (e : ev) : bool := match ev_call e with OS.ListDisks => true | _ => false end.
Definition listings (h : list ev) : nat := length (List.filter is_listing h).

Definition image_path : string := RootPath ["kernel"; d_KernelVersion deps; "kernel.squashfs"].

Definition image_mounted : list ev -> Prop :=
  happened (OS.Mount image_path "/run/k3os/kernel" "squashfs" "") (Ok tt).
Definition image_bound (h : list ev) : Prop :=
  happened (OS.Mount "/run/k3os/kernel/lib/modules" "/lib/modules" "" "bind") (Ok tt) h /\
  happened (OS.Mount "/run/k3os/kernel/lib/firmware" "/lib/firmware" "" "bind") (Ok tt) h.

(** The machine has no image for its kernel, or what is in it was bound. *)
Definition kernel_done (h : list ev) : Prop :=
  (exists e, happened (Stat image_path) (Err e) h) \/
  image_mounted h /\ image_bound h /\ happened (Run "umount" ["/run/k3os/kernel"]) (Ok tt) h.

Definition password_gone : list ev -> Prop := happened (Run "passwd" ["-d"; "rancher"]) (Ok tt).

(** The text of the message of the day, with the hint at its end. *)
Definition motd_text (d : string) (h : list ev) : Prop :=
  exists r older, h = Ev (ReadFile motdPath) r :: older /\
    d = match r with Ok text => text | Err _ => "" end +:+ motdContent.
Definition motd_there (h : list ev) : Prop :=
  exists text, happened (WriteFile motdPath (text +:+ motdContent) (oct 644)) (Ok tt) h.

Definition live_done (h : list ev) : Prop :=
  based h /\ kernel_done h /\ password_gone h /\ motd_there h.

Definition base_source (dev opts : string) (h : list ev) : Prop :=
  (opts = "ro" /\ dev <> "" /\ exists older, h = Ev (FindByLabel "K3OS") (Ok dev) :: older) \/
  (opts = "" /\ exists names name,
     happened OS.ListDisks (Ok names) h /\ name ∈ names /\ dev = "/dev/" +:+ name).

Definition live_guard : @guar call resp := fun h c =>
  match c with
  | Stat p => p = image_path
  | ReadFile p => p = motdPath
  | FindByLabel label => label = "K3OS"
  | OS.ListDisks => (listings h < maxRetries)%nat /\ ~ based h
  | Sleep d => d = retrySleep /\ ~ based h
  | MkdirAll p perm => p = "/run/k3os/kernel" /\ perm = oct 755
  | OS.Mount src dst mType opts =>
      (dst = baseDir /\ mType = "" /\ ~ based h /\ base_source src opts h) \/
      ((src, dst, mType, opts) = (image_path, "/run/k3os/kernel", "squashfs", "") /\
        exists i, happened (Stat image_path) (Ok i) h) \/
      ((mType, opts) = ("", "bind") /\ image_mounted h /\
        (src, dst) ∈ [("/run/k3os/kernel/lib/modules", "/lib/modules");
                      ("/run/k3os/kernel/lib/firmware", "/lib/firmware")])
  | Run "umount" args => args = ["/run/k3os/kernel"] /\ image_bound h
  | Run "passwd" args => args = ["-d"; "rancher"] /\ based h /\ kernel_done h
  | WriteFile p d perm => p = motdPath /\ perm = oct 644 /\ motd_text d h
  | _ => False
  end.

Lemma based_lasting : lasting based.
Proof using Type. do 2 (apply ex_lasting; intros ?). apply happened_lasting. Qed.

Lemma kernel_done_lasting : lasting kernel_done.
Proof using Type.
  apply or_lasting; [apply ex_lasting; intros ?; apply happened_lasting|].
  repeat apply and_lasting; apply happened_lasting.
Qed.

#[local] Abbreviation keeps_from := (Steps.keeps_from live_guard).

Lemma not_based e h : (forall dev opts, ev_call e <> OS.Mount dev baseDir "" opts) -> ~ based h -> ~ based (e :: h).
Proof using Type.
  intros He Hh (dev & opts & Hin). apply elem_of_cons in Hin as [<-|Hin].
  - by apply (He dev opts).
  - apply Hh. by exists dev, opts.
Qed.

Lemma not_based_refused dev opts e h : ~ based h -> ~ based (Ev (OS.Mount dev baseDir "" opts) (Err e) :: h).
Proof using Type.
  intros Hh (dev' & opts' & Hin). apply elem_of_cons in Hin as [Hin|Hin].
  { apply (f_equal (fun e => match ev_call e as c return resp c -> bool with
                             | OS.Mount _ _ _ _ => is_ok | _ => fun _ => false end (ev_resp e))) in Hin. done. }
  apply Hh. by exists dev', opts'.
Qed.

Lemma try_disks_wp names all h :
  ~ based h -> happened OS.ListDisks (Ok all) h -> (forall n, n ∈ names -> n ∈ all) ->
  wp any_resp live_guard (try_disks names)
    (fun o h' => match o with
                 | Done true => based h'
                 | Done false => ~ based h' /\ listings h' = listings h
                 | _ => False
                 end) h.
Proof using Type.
  revert h. induction names as [|n names IH]; intros h Hb Hl Hn; cbn [try_disks]; [done|].
  wp_norm. split.
  { left. split_and!; [done..|]. right. split; [done|]. exists all, n. split_and!; [done|apply Hn; by left|done]. }
  intros [[]|e] _; wp_norm; [by exists ("/dev/" +:+ n), ""; left|].
  eapply wp_mono; [|apply IH]; [done|by apply not_based_refused|by right|].
  intros x Hx. apply Hn. by right.
Qed.

Lemma probe_disks_keeps k h :
  ~ based h -> (listings h + k = maxRetries)%nat ->
  wp any_resp live_guard (probe_disks k) (on_success based) h.
Proof using Type.
  revert h. induction k as [|k IH]; intros h Hb Hk; cbn [probe_disks]; [done|].
  wp_norm. split; [split; [lia|done]|]. intros disks _. wp_norm. set (h1 := Ev OS.ListDisks disks :: h).
  assert (~ based h1) as Hb1 by by apply not_based.
  assert (listings h1 = S (listings h)) as Hl1 by done.
  apply wp_seq with (fun (found : bool) h' => if found then based h' else ~ based h' /\ listings h' = listings h1).
  - destruct disks as [names|e]; [|done]. eapply wp_mono; [|apply (try_disks_wp names names)]; [|done|left|done].
    by intros [[|]|s|].
  - intros [|] h2 H2; [done|]. destruct H2 as [H2 Hl2]. wp_norm. split; [done|]. intros [] _. wp_norm.
    apply IH; [by apply not_based|]. change (listings (Ev (Sleep retrySleep) () :: h2)) with (listings h2). lia.
Qed.

Lemma SetupBase_keeps h : ~ based h -> listings h = 0%nat -> wp any_resp live_guard SetupBase (on_success based) h.
Proof using Type.
  intros Hb Hl. unfold SetupBase. wp_norm. split; [done|]. intros r _. wp_norm.
  set (h1 := Ev _ r :: h).
  assert (~ based h1) as Hb1 by by apply not_based.
  assert (wp any_resp live_guard (probe_disks maxRetries) (on_success based) h1) as Hprobe.
  { apply probe_disks_keeps; [done|]. change (listings h1) with (listings h). by rewrite Hl. }
  destruct r as [dev|e]; [|done]. case_bool_decide as Hd; [done|]. wp_norm. split.
  - left. split_and!; [done..|]. left. split_and!; [done..|by exists h].
  - wp_answer; [|done]. eexists _, _. left.
Qed.

Lemma SetupKernel_keeps_from I : keeps_from I (SetupKernel deps) kernel_done.
Proof using Type.
  intros h _. unfold SetupKernel. fold image_path. wp_norm. split; [done|].
  intros [i|e] _; wp_norm; [|left; exists e; left]. split; [done|]. wp_answer; [|done].
  split; [right; left; split; [done|]; exists i; right; left|]. wp_answer; [|done].
  split; [right; right; split_and!; [done|left|listed]|]. wp_answer; [|done].
  split; [right; right; split_and!; [done|right; left|listed]|]. wp_answer; [|done].
  split; [split; [done|split; unfold happened; listed]|]. wp_answer; [|done].
  right. unfold image_mounted, image_bound, happened. split_and!; listed.
Qed.

Lemma SetupPasswd_keeps_from : keeps_from (fun h => based h /\ kernel_done h) SetupPasswd password_gone.
Proof using Type. intros h [Hb Hk]. unfold SetupPasswd. wp_norm. split; [done|]. wp_answer; [left|done]. Qed.

Lemma SetupMotd_keeps_from I : keeps_from I SetupMotd motd_there.
Proof using Type.
  intros h _. unfold SetupMotd. wp_norm. split; [done|]. intros r _. wp_norm.
  split; [split_and!; [done..|by eexists _, _]|]. wp_answer; [|done]. eexists. left.
Qed.

Lemma Live_Run_wp h :
  ~ based h -> listings h = 0%nat -> wp any_resp live_guard (Live_Run deps) (on_success live_done) h.
Proof using Type.
  intros Hb Hl. unfold Live_Run. apply (bindE_keeps _ _ _ based).
  { by apply wrapf_keeps, SetupBase_keeps. }
  intros h1 H1.
  apply (seq_keeps_from live_guard _ _ based kernel_done); [apply based_lasting| | |done].
  { intros h2 H2. by apply wrapf_keeps, (SetupKernel_keeps_from based). }
  apply (seq_keeps_from live_guard _ _ _ password_gone);
    [apply and_lasting; [apply based_lasting|apply kernel_done_lasting]| |].
  { intros h2 H2. by apply wrapf_keeps, SetupPasswd_keeps_from. }
  intros h2 H2. apply (bindE_keeps _ _ _ live_done); [|done]. apply wrapf_keeps.
  eapply wp_mono; [|apply (keeps_from_and live_guard _ (fun h => (based h /\ kernel_done h) /\ password_gone h) motd_there);
    [|apply SetupMotd_keeps_from|exact H2]].
  - intros [[[]|]|s|] h3 H3; try done. cbn in *. unfold live_done. tauto.
  - apply and_lasting; [apply and_lasting; [apply based_lasting|apply kernel_done_lasting]|apply happened_lasting].
Qed.

(** ** It ends *)

Lemma try_disks_returns names : returning (try_disks names).
Proof using Type. induction names; cbn [try_disks]; returning_solve; auto. Qed.

Lemma probe_disks_returns k : returning (probe_disks k).
Proof using Type. induction k; cbn [probe_disks]; returning_solve; auto using try_disks_returns. Qed.

Lemma Live_Run_returns : returning (Live_Run deps).
Proof using Type.
  unfold Live_Run, SetupBase, SetupKernel, SetupPasswd, SetupMotd. returning_solve; apply probe_disks_returns.
Qed.

(** ** The shell *)

(** The shell is started once all is done, with the environment just read. *)
Definition shell_guard : @guar call resp := fun h c =>
  live_guard h c \/
  match c with
  | Environ => live_done h
  | Exec path args env =>
      live_done h /\ path = "/bin/bash" /\ args = ["/bin/bash"] /\ exists older, h = Ev Environ env :: older
  | _ => False
  end.

(** It does not come back: its end is the error of the step that failed, or the note that bash runs. *)
Definition shell_left (o : outcome (result unit)) (h : list ev) : Prop :=
  match o with
  | Done (Err (ErrExecCalled path args env)) =>
      live_done h /\ exists older, h = Ev (Exec path args env) (Ok tt) :: older
  | Done (Err (ErrFmt _ _ _)) => True
  | _ => False
  end.

Lemma live_done_lasting : lasting live_done.
Proof using Type.
  repeat apply and_lasting;
    [apply based_lasting|apply kernel_done_lasting|apply happened_lasting|
     apply ex_lasting; intros ?; apply happened_lasting].
Qed.

Lemma Shell_Execute_wp h :
  ~ based h -> listings h = 0%nat -> wp any_resp shell_guard (Shell_Execute deps) shell_left h.
Proof using Type.
  intros Hb Hl. unfold Shell_Execute. apply wp_bind. unfold wrapf at 1. apply wp_bind.
  eapply (wp_weaken any_resp any_resp);
    [done|by left| |exact (wp_returning _ _ _ _ h Live_Run_returns (Live_Run_wp h Hb Hl))].
  intros o h1 [H1 [[[]|e] ->]]; [|done]. cbn [on_success] in H1. unfold bind_post. wp_norm.
  split; [by right|]. intros env _. wp_norm.
  split; [right; split_and!; [by apply live_done_lasting|done..|by exists h1]|].
  wp_answer; [|done]. split; [by do 2 apply live_done_lasting|by eexists].
Qed.
End Live.

(** ** The local mode *)

Section Local.
(** The host keys are where the machine keeps them. *)
Definition keys_kept (h : list ev) : Prop :=
  (exists i, happened (Stat persistDir) (Ok i) h) \/ happened (CopyDir etcSSH persistDir) (Ok tt) h.

Definition node_dir : string := "/var/lib/rancher/k3os/node".
Definition node_link : string := "/etc/rancher/node".

Definition local_guard : @guar call resp := fun h c =>
  match c with
  | Stat p => p = persistDir
  | MkdirAll p perm => perm = oct 755 /\ p ∈ ["/var/lib/rancher/k3os"; "/etc/rancher"; node_dir]
  | CopyDir src dst => (src, dst) = (etcSSH, persistDir) /\ exists e, happened (Stat persistDir) (Err e) h
  | RemoveAll p => p = etcSSH /\ keys_kept h
  | Symlink src dst =>
      ((src, dst) = (persistDir, etcSSH) /\ keys_kept h /\ happened (RemoveAll etcSSH) (Ok tt) h) \/
      ((src, dst) = (node_dir, node_link) /\ happened (MkdirAll node_dir (oct 755)) (Ok tt) h)
  | _ => False
  end.

Definition local_done (h : list ev) : Prop :=
  keys_kept h /\ happened (Symlink persistDir etcSSH) (Ok tt) h /\ happened (Symlink node_dir node_link) (Ok tt) h.

Lemma keys_lasting : lasting keys_kept.
Proof using Type. apply or_lasting; [apply ex_lasting; intros ?|]; apply happened_lasting. Qed.

Lemma move_keys_keeps h : keys_kept h ->
  wp any_resp local_guard
    (let! _ := wrapf "remove /etc/ssh: %w" [] (sys (RemoveAll etcSSH)) in
     wrapf "symlink ssh: %w" [] (sys (Symlink persistDir etcSSH)))
    (on_success (fun h => keys_kept h /\ happened (Symlink persistDir etcSSH) (Ok tt) h)) h.
Proof using Type.
  intros Hk. wp_norm. split; [done|]. wp_answer; [|done].
  split; [left; split_and!; [done|by apply keys_lasting|left]|]. wp_answer; [|done].
  split; [by do 2 apply keys_lasting|left].
Qed.

Lemma SetupSSH_keeps h :
  wp any_resp local_guard SetupSSH
    (on_success (fun h => keys_kept h /\ happened (Symlink persistDir etcSSH) (Ok tt) h)) h.
Proof using Type.
  unfold SetupSSH. wp_norm. split; [done|]. intros [i|e] _; wp_norm.
  - apply move_keys_keeps. left. exists i. left.
  - split; [split; [done|listed]|]. wp_answer; [|done]. split; [split; [done|]; exists e; right; left|].
    wp_answer; [|done]. apply move_keys_keeps. right. left.
Qed.

Lemma SetupRancherNode_keeps h :
  wp any_resp local_guard SetupRancherNode (on_success (happened (Symlink node_dir node_link) (Ok tt))) h.
Proof using Type.
  unfold SetupRancherNode. wp_norm. split; [split; [done|listed]|]. wp_answer; [|done].
  split; [split; [done|listed]|]. wp_answer; [|done]. split; [right; split; [done|left]|]. wp_answer; [left|done].
Qed.

Lemma Local_Execute_wp h : wp any_resp local_guard Local_Execute (on_success local_done) h.
Proof using Type.
  unfold Local_Execute.
  eapply wp_mono; [|apply (seq_keeps_from local_guard _ _ nothing_more
    (fun h => keys_kept h /\ happened (Symlink persistDir etcSSH) (Ok tt) h) local_done)]; [done|done| | |done].
  - intros h1 _. apply wrapf_keeps, SetupSSH_keeps.
  - intros h1 H1. apply (bindE_keeps _ _ _ local_done); [|done]. apply wrapf_keeps.
    eapply wp_mono; [|apply (keeps_from_and local_guard _
      (fun h => keys_kept h /\ happened (Symlink persistDir etcSSH) (Ok tt) h)
      (happened (Symlink node_dir node_link) (Ok tt)))].
    + intros [[[]|]|s|] h2 H2; try done. cbn in *. unfold local_done. tauto.
    + apply and_lasting; [apply keys_lasting|apply happened_lasting].
    + intros h2 _. apply SetupRancherNode_keeps.
    + tauto.
Qed.
End Local.

Section Modes.
Context (deps : Deps).

Lemma Local_Execute_returns : returning Local_Execute.
Proof using Type. unfold Local_Execute, SetupSSH, SetupRancherNode. returning_solve. Qed.

Definition mode_guard (mode : string) : @guar call resp :=
  if bool_decide (mode = "local") then local_guard
  else if bool_decide (mode = "shell") then shell_guard deps else live_guard deps.

Definition mode_left (mode : string) (o : outcome (result unit)) (h : list ev) : Prop :=
  if bool_decide (mode = "local") then on_success local_done o h
  else if bool_decide (mode = "shell") then shell_left deps o h else on_success (live_done deps) o h.

(** What a handler promises and leaves, and that it ends. *)
Definition handles (mode : string) (p : M unit) : Prop :=
  forall h o, exec any_resp p [] h o ->
    guaranteed (mode_guard mode) [] h /\ (o <> Running -> mode_left mode o h /\ exists r, o = Done r).

Lemma wp_handles mode p :
  returning p -> wp any_resp (mode_guard mode) p (mode_left mode) [] -> handles mode p.
Proof using Type. intros Hr Hp h o Hex. exact (wp_sound _ _ _ _ _ _ _ (wp_returning _ _ _ _ _ Hr Hp) Hex). Qed.

Lemma Shell_Execute_returns : returning (Shell_Execute deps).
Proof using Type.
  unfold Shell_Execute. apply returning_bind; [|intros [[]|e]; returning_solve].
  unfold wrapf. apply returning_bind; [apply Live_Run_returns|]. by intros [a|e].
Qed.

Lemma not_based_nil : ~ based [].
Proof using Type. intros (dev & opts & H). by apply elem_of_nil in H. Qed.

Lemma handlers_handle mode :
  (exists p, Registry_Get deps mode = Ok p /\ mode ∈ ["disk"; "local"; "live"; "install"; "shell"] /\
     (mode <> "disk" -> handles mode p)) \/
  (Registry_Get deps mode = Err (Errorf "unknown mode: %q" [mode]) /\
     mode ∉ ["disk"; "local"; "live"; "install"; "shell"]).
Proof using Type.
  unfold Registry_Get, assoc_find, handlers. cbn [find fst].
  case_bool_decide as H1; [left; subst mode; eexists; split_and!; [done|listed|done]|].
  case_bool_decide as H2.
  { left. subst mode. eexists. split_and!; [done|listed|intros _].
    apply wp_handles; [apply Local_Execute_returns|apply Local_Execute_wp]. }
  case_bool_decide as H3.
  { left. subst mode. eexists. split_and!; [done|listed|intros _].
    apply wp_handles; [apply Live_Run_returns|apply Live_Run_wp; [apply not_based_nil|done]]. }
  case_bool_decide as H4.
  { left. subst mode. eexists. split_and!; [done|listed|intros _].
    apply wp_handles; [apply Live_Run_returns|apply Live_Run_wp; [apply not_based_nil|done]]. }
  case_bool_decide as H5.
  { left. subst mode. eexists. split_and!; [done|listed|intros _].
    apply wp_handles; [apply Shell_Execute_returns|apply Shell_Execute_wp; [apply not_based_nil|done]]. }
  right. split; [done|]. rewrite !not_elem_of_cons. split_and!; by (apply not_elem_of_nil || congruence).
Qed.
End Modes.

(** ** Properties *)

(** C11: what the modes live, install, shell and local do.  The registry has a handler for five modes
    and reports every other name.  A handler but the one of disk always comes to its end, and in each of
    its behaviours, also one cut off anywhere: live and install mount one device on /.base, the one
    labelled K3OS read-only or a disk of a list they made, list the disks at most five times with a
    second between, mount the kernel's image only where it is and take it away only once modules and
    firmware are bound out of it, delete rancher's password only after all that, and only add to the
    end of the message of the day; shell does the same and starts bash after it, with the environment
    it just read; local removes /etc/ssh only when the keys are at their place or were copied there,
    and links what it made.  A handler that reports no error has done all of this, and shell ends only
    with an error or with the note that bash runs. *)
Theorem modes_prepare deps mode :
  (exists p, Registry_Get deps mode = Ok p /\ mode ∈ ["disk"; "local"; "live"; "install"; "shell"] /\
     (mode <> "disk" -> forall h o, exec any_resp p [] h o ->
        guaranteed (mode_guard deps mode) [] h /\
        (o <> Running -> mode_left deps mode o h /\ exists r, o = Done r))) \/
  (Registry_Get deps mode = Err (Errorf "unknown mode: %q" [mode]) /\
     mode ∉ ["disk"; "local"; "live"; "install"; "shell"]).
Proof. apply handlers_handle. Qed.

Definition live_demo_deps : Deps :=
  {| d_PartitionGrower := true; d_LoopDetacher := true; d_KernelVersion := "5.15"; d_VersionID := "v1" |}.

(** No medium with the label, and of the two disks the second one mounts. *)
Definition usb_machine (c : call) : option (resp c) :=
  match c return option (resp c) with
  | FindByLabel _ => Some (Ok "")
  | OS.ListDisks => Some (Ok ["sda"; "sdb"])
  | OS.Mount "/dev/sda" _ _ _ => Some (Err ErrSilentSkip)
  | _ => None
  end.

Lemma modes_prepare_witness :
  exec any_resp (Live_Execute live_demo_deps) [] (history usb_machine (Live_Execute live_demo_deps)) (Done (Ok tt)) /\
  live_done live_demo_deps (history usb_machine (Live_Execute live_demo_deps)) /\
  OS.Mount "/dev/sdb" "/.base" "" "" ∈ map ev_call (history usb_machine (Live_Execute live_demo_deps)).
Proof.
  assert (final usb_machine (Live_Execute live_demo_deps) = Done (Ok tt)) as Hf by (vm_compute; reflexivity).
  pose proof (world_exec usb_machine (Live_Execute live_demo_deps)) as H. rewrite Hf in H.
  split; [exact H|]. split; [|vm_compute; listed].
  destruct (modes_prepare live_demo_deps "live") as [(p & Hp & _ & Hall)|[Hp _]]; [|discriminate Hp].
  change (Registry_Get live_demo_deps "live") with (Ok (Live_Execute live_demo_deps)) in Hp.
  injection Hp as <-.
  specialize (Hall ltac:(done)).
  exact (proj1 (proj2 (Hall _ _ H) ltac:(done))).
Defined.
