(* ===== verification/Finalize.v ===== *)
(** * Finalize: the last boot phase, package [internal/boot/finalize]. *)

From S2P Require Import Prelude GoStrings GoPath Effects OS DiskMode.
Open Scope string_scope.
Open Scope list_scope.
Open Scope go_scope.

Record Finalizer := {
  f_PartitionGrower : bool;
  f_SleepFunc : bool;
  f_Mode : string;
  f_ConfigRunner : M unit;
  f_ManifestCopier : string -> string -> M unit;
}.

(** ** Pure helpers *)

(** [splitPartition] (grow.go): the trailing digits of [part], and what precedes them without the
    'p' of a name like nvme0n1p2. *)
Definition splitPartition (part : string) : string * string :=
  let fix digits (num rl : list ascii) : list ascii * list ascii :=
    match rl with
    | c :: rest => if is_digit c then digits (c :: num) rest else (num, rl)
    | [] => (num, [])
    end in
  let '(num, rdev) := digits [] (rev (chars part)) in
  let rdev' :=
    match rdev with
    | c :: ((d :: _) as rest) => if Ascii.eqb c "p" && is_digit d then rest else rdev
    | _ => rdev
    end in
  (of_chars (rev rdev'), of_chars num).

(** [trimNewline] (hostname.go). *)
Fixpoint drop_nl (l : list ascii) : list ascii :=
  match l with
  | c :: l' => if Ascii.eqb c "010" || Ascii.eqb c "013" then drop_nl l' else l
  | [] => []
  end.
Definition trimNewline (s : string) : string := of_chars (rev (drop_nl (rev (chars s)))).

(** [extractBaudrate], [parseConsoleEntries] (ttys.go). *)
Fixpoint leading_digits (l : list ascii) : list ascii :=
  match l with
  | c :: l' => if is_digit c then c :: leading_digits l' else []
  | [] => []
  end.
Definition extractBaudrate (spec : string) : string :=
  match leading_digits (chars spec) with [] => "9600" | ds => of_chars ds end.

Record consoleEntry := { ce_tty : string; ce_baudrate : string }.

Definition parseConsoleEntries (cmdline : string) : list consoleEntry :=
  omap (fun field =>
    if strings_HasPrefix field "console=" then
      match strings_SplitN (strings_TrimPrefix field "console=") "," 2 with
      | [tty] => Some {| ce_tty := tty; ce_baudrate := "9600" |}
      | tty :: b :: _ =>
          Some {| ce_tty := tty;
                  ce_baudrate := if bool_decide (b = "") then "9600" else extractBaudrate b |}
      | [] => None
      end
    else None) (strings_Fields cmdline).

(** The /etc/hosts template (hostname.go). *)
Definition tab : string := String "009" EmptyString.
Definition hosts_text (hostname : string) : string :=
  "127.0.0.1" +:+ tab +:+ "localhost localhost.localdomain" +:+ nl +:+
  "127.0.1.1" +:+ tab +:+ hostname +:+ " " +:+ hostname +:+ ".localdomain" +:+ nl +:+
  nl +:+
  "::1     ip6-localhost ip6-loopback" +:+ nl +:+
  "fe00::0 ip6-localnet" +:+ nl +:+
  "ff00::0 ip6-mcastprefix" +:+ nl +:+
  "ff02::1 ip6-allnodes" +:+ nl +:+
  "ff02::2 ip6-allrouters" +:+ nl.

(** The service lists (services.go). *)
Definition sysinitServices : list string :=
  ["hwdrivers"; "dmesg"; "devfs"; "loadkmap"; "udev"; "udev-root"; "udev-coldplug"].
Definition bootServices : list string :=
  ["acpid"; "hwclock"; "syslog"; "bootmisc"; "hostname"; "sysctl"; "modules"; "connman"; "dbus";
   "haveged"; "issue"].
Definition defaultServices : list string :=
  ["sshd"; "local"; "ccapply"; "crond"; "iscsid"; "ntpd"].
Definition shutdownServices : list string := ["savecache"; "killprocs"; "mount-ro"].

Definition runlevels : list (string * list string) :=
  [("sysinit", sysinitServices); ("boot", bootServices); ("default", defaultServices);
   ("shutdown", shutdownServices)].

Section Finalizer.
Context (f : Finalizer).

(** The loop that unmounts /.base until it is no longer mounted; [fuel] bounds its passes. *)
Fixpoint umount_base (fuel : nat) : M unit :=
  let! mounted := wrapf "check /.base mounted: %w" [] (sys (Mounted "/.base")) in
  if mounted : bool then
    let! _ := wrapf "umount /.base: %w" [] (sys (Run "umount" ["-l"; "/.base"])) in
    match fuel with O => Halt OutOfFuel | S k => umount_base k end
  else ret tt.

Definition SetupMounts (fuel : nat) : M unit :=
  let* b := sys (Stat "/.base/boot") in
  let! _ :=
    if is_ok b then
      let! _ := wrapf "mkdir /boot: %w" [] (sys (MkdirAll "/boot" (oct 755))) in
      wrapf "bind mount /boot: %w" [] (sys (Mount "/.base/boot" "/boot" "" "bind"))
    else ret tt in
  let* s := sys (Stat "/.base/k3os/system") in
  let! _ :=
    if is_ok s then
      let! _ := wrapf "mkdir /k3os/system: %w" [] (sys (MkdirAll "/k3os/system" (oct 755))) in
      wrapf "bind mount /k3os/system: %w" []
        (sys (Mount "/.base/k3os/system" "/k3os/system" "" "ro,bind"))
    else ret tt in
  umount_base fuel.

Definition GrowLive : M unit :=
  if bool_decide (f_Mode f <> "local") then ret tt
  else
    let* data := sys (ReadFile "/k3os/system/growpart") in
    match data with
    | Err _ => ret tt
    | Ok data =>
        match strings_Fields (strings_TrimSpace data) with
        | dev :: num :: _ =>
            let* st := sys (Stat (dev +:+ num)) in
            let! '(dev, num, part) :=
              if is_ok st then ret (dev, num, dev +:+ num)
              else
                let! output := wrapf "find K3OS_STATE by label: %w" []
                                 (sys (FindByLabel "K3OS_STATE")) in
                let '(dev, num) := splitPartition output in
                ret (dev, num, output) in
            match strconv_Atoi num with
            | Err e => fail (Errorf_w "parse partition number %q: %w" [num] e)
            | Ok partNumInt =>
                if negb (f_PartitionGrower f) then ret tt
                else
                  let! _ := wrapf "grow partition: %w" [] (sys (GrowPartition dev partNumInt)) in
                  let* _ := if f_SleepFunc f then sys (Sleep (2 * second)) else Ret tt in
                  let! _ := wrapf "resize2fs: %w" [] (sys (Run "resize2fs" [part])) in
                  wrapf "remove growpart marker: %w" [] (sys (Remove "/k3os/system/growpart"))
            end
        | _ => fail (Errorf "invalid growpart content: %q" [data])
        end
    end.

Definition SetupHostname : M unit :=
  let* st := sys (Stat "/etc/hostname") in
  if is_ok st then ret tt
  else
    let* data := sys (ReadFile "/var/lib/rancher/k3os/hostname") in
    match data with
    | Ok hostname =>
        wrapf "write /etc/hostname: %w" [] (sys (WriteFile "/etc/hostname" hostname (oct 644)))
    | Err _ =>
        let! randVal := wrapf "generate random value: %w" [] (sys RandUint32) in
        let hostname := "k3os-" +:+ strconv_Itoa randVal in
        let! _ := wrapf "mkdir hostname dir: %w" []
                    (sys (MkdirAll "/var/lib/rancher/k3os" (oct 755))) in
        let! _ := wrapf "write persisted hostname: %w" []
                    (sys (WriteFile "/var/lib/rancher/k3os/hostname" (hostname +:+ nl) (oct 644))) in
        wrapf "write /etc/hostname: %w" []
          (sys (WriteFile "/etc/hostname" (hostname +:+ nl) (oct 644)))
    end.

Definition SetupHosts : M unit :=
  let* st := sys (Stat "/etc/hosts") in
  if is_ok st then ret tt
  else
    let! data := wrapf "read /etc/hostname: %w" [] (sys (ReadFile "/etc/hostname")) in
    wrapf "write /etc/hosts: %w" []
      (sys (WriteFile "/etc/hosts" (hosts_text (trimNewline data)) (oct 644))).

Definition SetupRoot : M unit :=
  let* st := sys (Stat "/root") in
  match st with
  | Ok _ => ret tt
  | Err e =>
      if negb (os_IsNotExist e) then fail (Errorf_w "stat /root: %w" [] e)
      else
        let! _ := wrapf "mkdir /root: %w" [] (sys (MkdirAll "/root" (oct 700))) in
        wrapf "chmod /root: %w" [] (sys (Chmod "/root" (oct 700)))
  end.

(** What [SetupTTYs] has accumulated: the lines for /etc/inittab and /etc/securetty, and the
    terminals already added. *)
Record tty_state := { ts_inittab : string; ts_securetty : string; ts_seen : list string }.

Definition add_tty (tty line : string) (s : tty_state) : tty_state :=
  {| ts_inittab := ts_inittab s +:+ line;
     ts_securetty := ts_securetty s +:+ tty +:+ nl;
     ts_seen := tty :: ts_seen s |}.

Definition standard_tty (i : Z) (s : tty_state) : io tty_state :=
  let tty := "tty" +:+ strconv_Itoa i in
  let* st := sys (Stat ("/dev/" +:+ tty)) in
  if is_ok st
  then Ret (add_tty tty (tty +:+ "::respawn:/sbin/getty 38400 " +:+ tty +:+ nl) s)
  else Ret s.

Definition serial_tty (entry : consoleEntry) (s : tty_state) : io tty_state :=
  let tty := ce_tty entry in
  if bool_decide (tty ∈ ts_seen s) then Ret s
  else
    let* st := sys (Stat ("/dev/" +:+ tty)) in
    if is_ok st
    then Ret (add_tty tty (tty +:+ "::respawn:/sbin/getty -L " +:+ ce_baudrate entry +:+ " "
                           +:+ tty +:+ " vt100" +:+ nl) s)
    else Ret s.

(** Append [text] to the file, reading it first; nothing to do for an empty text. *)
Definition append_to (path text : string) : M unit :=
  if bool_decide (text = "") then ret tt
  else
    let* r := sys (ReadFile path) in
    let existing := match r with Ok d => d | Err _ => "" end in
    sys (WriteFile path (existing +:+ text) (oct 644)).

Definition collect_ttys : io tty_state :=
  let* s := for_fold [1; 2; 3; 4; 5; 6]%Z {| ts_inittab := ""; ts_securetty := ""; ts_seen := [] |}
              standard_tty in
  let* raw := sys CmdlineRaw in
  for_fold (parseConsoleEntries raw) s serial_tty.

Definition SetupTTYs : M unit :=
  let* s := collect_ttys in
  let! _ := wrapf "write /etc/inittab: %w" [] (append_to "/etc/inittab" (ts_inittab s)) in
  wrapf "write /etc/securetty: %w" [] (append_to "/etc/securetty" (ts_securetty s)).

Definition SetupSudoers : M unit :=
  let content := "%sudo   ALL = (ALL) ALL" +:+ nl +:+ "rancher ALL = (ALL) NOPASSWD: ALL" +:+ nl in
  let! _ := wrapf "mkdir /etc/sudoers.d: %w" [] (sys (MkdirAll "/etc/sudoers.d" (oct 755))) in
  wrapf "write /etc/sudoers.d/sudo: %w" []
    (sys (WriteFile "/etc/sudoers.d/sudo" content (oct 440))).

Definition enable_service (level svc : string) : M unit :=
  let src := "/etc/init.d/" +:+ svc in
  let dst := "/etc/runlevels/" +:+ level +:+ "/" +:+ svc in
  wrapf "symlink %s to %s: %w" [src; dst] (sys (Symlink src dst)).

(** The services of a virtualization type. *)
Definition vm_services (vt : string) : list string :=
  if bool_decide (vt = "kvm") || bool_decide (vt = "qemu") then ["qemu-guest-agent"]
  else if bool_decide (vt = "microsoft") || bool_decide (vt = "hyperv") then
    ["hv_kvp_daemon"; "hv_fcopy_daemon"; "hv_vss_daemon"]
  else if bool_decide (vt = "vmw") || bool_decide (vt = "vmware") then ["open-vm-tools"]
  else [].

Definition SetupServices : M unit :=
  let! _ := for_each runlevels (fun '(level, services) =>
              for_each services (enable_service level)) in
  let* virt := sys VirtDetect in
  let virtTypes := match virt with Ok l => l | Err _ => [] end in
  for_each virtTypes (fun vt =>
    for_each (vm_services vt) (fun svc =>
      wrapf "symlink %s: %w" [svc]
        (sys (Symlink ("/etc/init.d/" +:+ svc) ("/etc/runlevels/boot/" +:+ svc))))).

(** Enable a service when its conf.d file exists. *)
Definition link_if_configured (svc level : string) : M unit :=
  let* st := sys (Stat ("/etc/conf.d/" +:+ svc)) in
  if is_ok st then
    wrapf "symlink %s: %w" [svc]
      (sys (Symlink ("/etc/init.d/" +:+ svc) ("/etc/runlevels/" +:+ level +:+ "/" +:+ svc)))
  else ret tt.

Definition SetupConfig : M unit :=
  let! _ := wrapf "k3os config --boot: %w" [] (f_ConfigRunner f) in
  let! _ := link_if_configured "udev-settle" "sysinit" in
  let* cc := sys (Stat "/var/lib/connman/cloud-config.config") in
  let! _ :=
    if is_ok cc then
      let* r := sys (ReadFile "/etc/conf.d/connman") in
      let existing := match r with Ok d => d | Err _ => "" end in
      wrapf "write connman conf: %w" []
        (sys (WriteFile "/etc/conf.d/connman"
                (existing +:+ "rc_want=" +:+ dq +:+ "wpa_supplicant" +:+ dq +:+ nl) (oct 644)))
    else ret tt in
  let! _ := link_if_configured "cloud-config" "boot" in
  link_if_configured "rngd" "boot".

Definition SetupManifests : M unit :=
  let! _ := wrapf "mkdir manifests: %w" []
              (sys (MkdirAll "/var/lib/rancher/k3s/server/manifests" (oct 755))) in
  wrapf "copy manifests: %w" []
    (f_ManifestCopier f "/usr/share/rancher/k3s/server/manifests"
                        "/var/lib/rancher/k3s/server/manifests").

Definition SetupStateDirs : M unit :=
  for_each ["/var/lib/nfs"; "/var/lib/rancher/k3s/agent/libexec/kubernetes"] (fun dir =>
    wrapf "mkdir %s: %w" [dir] (sys (MkdirAll dir (oct 755)))).

Definition Cleanup : M unit :=
  let* r := sys (ReadDir "/run/k3os") in
  let! entries :=
    match r with
    | Ok es => ret es
    | Err e => if os_IsNotExist e then ret [] else fail (Errorf_w "read /run/k3os: %w" [] e)
    end in
  let* _ := for_fold entries tt (fun e _ =>
    if bool_decide (de_name e = "kernel") then Ret tt
    else ignore (sys (RemoveAll (path_Join ["/run/k3os"; de_name e])))) in
  if bool_decide (f_Mode f = "") then ret tt
  else
    let! _ := wrapf "mkdir /run/k3os: %w" [] (sys (MkdirAll "/run/k3os" (oct 755))) in
    wrapf "write /run/k3os/mode: %w" []
      (sys (WriteFile "/run/k3os/mode" (f_Mode f +:+ nl) (oct 644))).

Definition Finalize_steps (fuel : nat) : list (string * M unit) :=
  [("SetupMounts", SetupMounts fuel); ("GrowLive", GrowLive); ("SetupHostname", SetupHostname);
   ("SetupHosts", SetupHosts); ("SetupRoot", SetupRoot); ("SetupTTYs", SetupTTYs);
   ("SetupSudoers", SetupSudoers); ("SetupServices", SetupServices); ("SetupConfig", SetupConfig);
   ("SetupManifests", SetupManifests); ("SetupStateDirs", SetupStateDirs); ("Cleanup", Cleanup)].

Definition Finalize_Run (fuel : nat) : M unit :=
  for_each (Finalize_steps fuel) (fun step => wrapf "finalize %s: %w" [fst step] (snd step)).
End Finalizer.
