(* ===== verification/FinalizeSpec.v ===== *)
(** * FinalizeSpec: what the finalizer guarantees. *)

From S2P Require Import Prelude GoStrings GoPath Effects OS DiskMode Finalize.
Open Scope string_scope.
Open Scope list_scope.
Open Scope go_scope.

(** The calls of a history, oldest first. *)
Definition calls_of (h : list ev) : list call := rev (map ev_call h).

(** ** Cleanup *)

Section Cleanup.
Context (f : Finalizer).

(** The calls of a successful [Cleanup] over a directory with these entries. *)
Definition cleanup_calls (names : list string) : list call :=
  [ReadDir "/run/k3os"] ++
  map (fun n => RemoveAll ("/run/k3os/" +:+ n)) (filter (fun n => n <> "kernel") names) ++
  (if bool_decide (f_Mode f = "") then []
   else [MkdirAll "/run/k3os" (oct 755); WriteFile "/run/k3os/mode" (f_Mode f +:+ nl) (oct 644)]).

Lemma path_Join_run n : plain_name n -> path_Join ["/run/k3os"; n] = "/run/k3os/" +:+ n.
Proof using Type.
  intros Hn. change "/run/k3os" with (abs_path ["run"; "k3os"]).
  by rewrite path_Join_abs; [|done|plain_names|done].
Qed.

Lemma calls_cons e h : calls_of (e :: h) = calls_of h ++ [ev_call e].
Proof using Type. done. Qed.

(** The removal loop, from any history. *)
Lemma cleanup_loop es h h' u :
  Forall (fun e => plain_name (de_name e)) es ->
  exec plain_entries
    (for_fold es tt (fun e _ =>
       if bool_decide (de_name e = "kernel") then Ret tt
       else ignore (sys (RemoveAll (path_Join ["/run/k3os"; de_name e]))))) h h' (Done u) ->
  calls_of h' = calls_of h ++
    map (fun n => RemoveAll ("/run/k3os/" +:+ n)) (filter (fun n => n <> "kernel") (map de_name es)).
Proof using Type.
  intros Hes. revert h. induction Hes as [|e es He _ IH]; intros h H; simpl in H.
  - apply exec_inv in H as [_ ->]. by rewrite app_nil_r.
  - apply exec_bind_inv in H as ([] & h1 & Hb & H). apply IH in H as ->. simpl.
    case_bool_decide as Hk.
    + apply exec_inv in Hb as [_ ->]. by rewrite filter_cons_False by auto.
    + apply exec_inv in Hb as (r & _ & [_ ->]%exec_inv).
      rewrite filter_cons_True, calls_cons by done. simpl.
      by rewrite path_Join_run, <- (assoc_L app) by done.
Qed.

(** The entries [Cleanup] works on: those listed, none when the directory does not exist. *)
Definition listed (r : result (list DirEntry)) (es : list DirEntry) : Prop :=
  match r with Ok l => es = l | Err e => es = [] /\ os_IsNotExist e = true end.

Lemma cleanup_exec h :
  exec plain_entries (Cleanup f) [] h (Done (Ok tt)) ->
  exists r es older, h = older ++ [Ev (ReadDir "/run/k3os") r] /\ listed r es /\
    calls_of h = cleanup_calls (map de_name es).
Proof using Type.
  intros Hex. pose proof Hex as Hex0.
  apply exec_inv in Hex as (r & Hr & Hex). pose proof (exec_extends _ _ _ _ _ Hex) as [older Hh].
  cbn [bind] in Hex. apply exec_bind_inv in Hex as (res & h1 & Hl & Hex).
  assert (exists es, listed r es /\ res = Ok es /\ h1 = [Ev (ReadDir "/run/k3os") r] /\
    Forall (fun e => plain_name (de_name e)) es) as (es & Hles & -> & -> & Hes).
  { destruct r as [es|e]; simpl in *.
    - apply exec_inv in Hl as [<- ->]. by exists es.
    - destruct (os_IsNotExist e) eqn:He; apply exec_inv in Hl as [<- ->].
      + exists []. split_and!; done.
      + by apply exec_inv in Hex as [[=] _]. }
  exists r, es, older. split; [done|]. split; [done|].
  apply exec_bind_inv in Hex as ([] & h2 & Hloop & Hex).
  apply cleanup_loop in Hloop; [|done]. unfold cleanup_calls.
  case_bool_decide.
  - apply exec_inv in Hex as [_ ->]. rewrite Hloop. by rewrite app_nil_r.
  - apply exec_bind_inv in Hex as ([[]|e] & h3 & Hm & Hex); [|by apply exec_inv in Hex as [[=] _]].
    apply exec_wrapf in Hm as [([] & _ & Hm)|(e & [=] & _)].
    apply exec_inv in Hm as (r1 & _ & [_ ->]%exec_inv).
    apply exec_wrapf in Hex as [([] & _ & Hw)|(e & [=] & _)].
    apply exec_inv in Hw as (r2 & _ & [_ ->]%exec_inv).
    rewrite !calls_cons, Hloop. simpl. by rewrite <- !(assoc_L app).
Qed.
End Cleanup.

(** ** Terminals *)

Section TTYs.
Context (f : Finalizer).

(** What has been collected: each terminal once, listed in order, and only those whose device
    exists. *)
Definition tty_inv (s : tty_state) (h : list ev) : Prop :=
  NoDup (ts_seen s) /\
  ts_securetty s = concat_str (map (fun t => t +:+ nl) (rev (ts_seen s))) /\
  Forall (fun t => exists i, Ev (Stat ("/dev/" +:+ t)) (Ok i) ∈ h) (ts_seen s).

Lemma concat_str_app a b : concat_str (a ++ b) = concat_str a +:+ concat_str b.
Proof using Type.
  induction a as [|x a IH]; [done|]. simpl. rewrite IH. by rewrite sapp_assoc.
Qed.

Lemma tty_inv_add s t line i h :
  tty_inv s h -> t ∉ ts_seen s ->
  tty_inv (add_tty t line s) (Ev (Stat ("/dev/" +:+ t)) (Ok i) :: h).
Proof using Type.
  intros (Hn & Hs & Hf) Ht. split_and!; simpl.
  - by constructor.
  - rewrite map_app, concat_str_app, Hs. simpl. by rewrite sapp_nil_r.
  - constructor; [exists i; by left|]. eapply Forall_impl; [exact Hf|].
    intros x [j Hj]. exists j. by right.
Qed.

Lemma tty_inv_skip s e h : tty_inv s h -> tty_inv s (e :: h).
Proof using Type.
  intros (Hn & Hs & Hf). split_and!; try done. eapply Forall_impl; [exact Hf|].
  intros x [j Hj]. exists j. by right.
Qed.

Definition std_name (i : Z) : string := "tty" +:+ strconv_Itoa i.

Lemma collect_ttys_wp G h :
  (forall h p, G h (Stat p)) -> (forall h, G h CmdlineRaw) ->
  wp any_resp G collect_ttys
    (fun o h' => match o with Done s => tty_inv s h' | _ => False end) h.
Proof using Type.
  intros HG HG2. unfold collect_ttys.
  apply wp_seq with tty_inv.
  - apply wp_for_fold with (I := fun l s h' => tty_inv s h' /\ NoDup (map std_name l) /\
      forall i, i ∈ l -> std_name i ∉ ts_seen s).
    + split_and!; [repeat split; constructor| |intros i _; apply not_elem_of_nil].
      refine (bool_decide_unpack _ _). by vm_compute.
    + by intros s h' [H _].
    + intros i l s h' (Hinv & Hnd & Hin). apply NoDup_cons in Hnd as [Hi Hnd].
      unfold standard_tty. fold (std_name i). wp_norm. split; [apply HG|]. wp_answer; wp_norm.
      * split_and!; [apply tty_inv_add; auto using list_elem_of_here|done|]. simpl.
        intros j Hj Hs. apply elem_of_cons in Hs as [Hs|Hs].
        -- apply Hi. rewrite <- Hs. by apply list_elem_of_fmap_2.
        -- apply (Hin j); [by right|done].
      * split_and!; [by apply tty_inv_skip|done|]. intros j Hj. apply Hin. by right.
  - intros s1 h1 H1. wp_norm. split; [apply HG2|]. intros raw _. wp_norm.
    apply wp_for_fold with (I := fun _ s h' => tty_inv s h'); [by apply tty_inv_skip|done|].
    intros e l s h' Hinv. unfold serial_tty. case_bool_decide as Hs; [exact Hinv|].
    wp_norm. split; [apply HG|]. wp_answer; wp_norm.
    + by apply tty_inv_add.
    + by apply tty_inv_skip.
Qed.
End TTYs.

(** ** Unmounting the boot medium *)

(** A mount table where /.base is mounted [n] times over; unmounting takes the top one away. *)
Definition stacked (c : call) (n : nat) : resp c * nat :=
  match c return resp c * nat with
  | Mounted _ => (Ok (bool_decide (n <> O)), n)
  | Run "umount" ["-l"; "/.base"] => (Ok tt, pred n)
  | c => (all_ok c, n)
  end.

Lemma umount_base_run fuel n h :
  (n <= fuel)%nat ->
  exists h', run stacked (umount_base fuel) n h = (Done (Ok tt), O, h') /\
    calls_of h' = calls_of h ++
      concat (replicate n [Mounted "/.base"; Run "umount" ["-l"; "/.base"]]) ++ [Mounted "/.base"].
Proof.
  revert n h. induction fuel as [|k IH]; intros [|n] h Hle; try lia.
  - by eexists.
  - by eexists.
  - destruct (IH n (Ev (Run "umount" ["-l"; "/.base"]) (Ok tt) :: Ev (Mounted "/.base") (Ok true) :: h))
      as (h' & Hrun & Hcalls); [lia|].
    exists h'. split; [exact Hrun|]. rewrite Hcalls. unfold calls_of. simpl.
    by rewrite <- !(assoc_L app).
Qed.

(** ** Properties *)

(** The finalizer runs its twelve steps in order and stops at the first that fails.  Its finished
    behaviours are exactly: all steps succeeded one after the other and it returns nil, or the steps
    before some step succeeded, that step returned an error, no later step did anything, and it
    returns that error labelled with the step's name. *)
Theorem Finalize_Run_first_error f fuel h r :
  exec any_resp (Finalize_Run f fuel) [] h (Done r) <->
  steps_result any_resp "finalize %s: %w" (Finalize_steps f fuel) [] h r.
Proof. apply steps_exec. Qed.

(** A successful [Cleanup] makes exactly these calls: it lists /run/k3os, removes recursively
    every entry but kernel in the order listed (none when the directory does not exist), and, unless
    the mode is empty, recreates the directory and writes the mode with a newline to
    /run/k3os/mode, last. *)
Theorem Cleanup_calls f h :
  exec plain_entries (Cleanup f) [] h (Done (Ok tt)) ->
  exists r es older, h = older ++ [Ev (ReadDir "/run/k3os") r] /\ listed r es /\
    calls_of h = cleanup_calls f (map de_name es).
Proof. apply cleanup_exec. Qed.

(** The terminals [SetupTTYs] collects (the six consoles, then those of console= on the kernel
    command line) are distinct, and are exactly the lines it adds to /etc/securetty, in the order
    found; each has a device the run has seen. *)
Theorem collect_ttys_distinct h h' s :
  exec any_resp collect_ttys h h' (Done s) ->
  NoDup (ts_seen s) /\
  ts_securetty s = concat_str (map (fun t => t +:+ nl) (rev (ts_seen s))) /\
  Forall (fun t => exists i, Ev (Stat ("/dev/" +:+ t)) (Ok i) ∈ h') (ts_seen s).
Proof.
  intros Hex. by destruct (wp_sound _ _ _ _ _ _ _ (collect_ttys_wp any_call h ltac:(done) ltac:(done)) Hex)
    as [_ H]; apply H.
Qed.

(** The loop that takes /.base away terminates with it unmounted: over a mount table where it is
    mounted any number of times, as many passes as mounts are enough, each unmounting once, and the
    loop then returns nil having left nothing mounted. *)
Theorem umount_base_terminates fuel n :
  (n <= fuel)%nat ->
  exists h, run stacked (umount_base fuel) n [] = (Done (Ok tt), O, h) /\
    calls_of h =
      concat (replicate n [Mounted "/.base"; Run "umount" ["-l"; "/.base"]]) ++ [Mounted "/.base"].
Proof. apply umount_base_run. Qed.

(** ** Concrete runs *)

Definition demo_finalizer : Finalizer :=
  {| f_PartitionGrower := true; f_SleepFunc := true; f_Mode := "local";
     f_ConfigRunner := ret tt; f_ManifestCopier := fun _ _ => ret tt |}.

Definition demo_run (c : call) : option (resp c) :=
  match c return option (resp c) with
  | CmdlineRaw => Some "console=ttyS0,115200n8 quiet console=tty1"
  | ReadDir _ => Some (Ok [ {| de_name := "kernel"; de_is_dir := true; de_info := Err ErrSilentSkip |};
                            {| de_name := "target"; de_is_dir := true; de_info := Err ErrSilentSkip |} ])
  | _ => None
  end.

Lemma Cleanup_calls_witness :
  exec plain_entries (Cleanup demo_finalizer) [] (history demo_run (Cleanup demo_finalizer))
    (Done (Ok tt)) /\
  exists es, calls_of (history demo_run (Cleanup demo_finalizer)) =
    cleanup_calls demo_finalizer (map de_name es).
Proof.
  assert (exec plain_entries (Cleanup demo_finalizer) []
    (history demo_run (Cleanup demo_finalizer)) (Done (Ok tt))) as H.
  { change (Done (Ok tt)) with (final demo_run (Cleanup demo_finalizer)).
    apply world_exec_rely. intros h c. destruct c; simpl; try exact I. plain_names. }
  split; [exact H|].
  destruct (Cleanup_calls demo_finalizer _ H) as (r & es & older & _ & _ & Hc). eauto.
Defined.

Lemma collect_ttys_distinct_witness :
  exists s, exec any_resp collect_ttys []
      (history demo_run collect_ttys) (Done s) /\
    ts_seen s = ["ttyS0"; "tty6"; "tty5"; "tty4"; "tty3"; "tty2"; "tty1"] /\ NoDup (ts_seen s).
Proof.
  pose proof (world_exec demo_run collect_ttys) as H.
  destruct (final demo_run collect_ttys) as [s|e|] eqn:Hf; [|done|done].
  exists s. split; [exact H|]. split; [by vm_compute in Hf; simplify_eq|].
  exact (proj1 (collect_ttys_distinct _ _ _ H)).
Defined.

Lemma umount_base_terminates_witness :
  (2 <= 5)%nat /\ fst (fst (run stacked (umount_base 5) 2%nat [])) = Done (Ok tt).
Proof.
  split; [lia|].
  destruct (umount_base_terminates 5 2 ltac:(lia)) as (h & -> & _). reflexivity.
Defined.
