(* ===== verification/FinalizeWhole.v ===== *)
(** * FinalizeWhole: what the finalizer does to the machine, from its first step to its last. *)

From S2P Require Import Prelude GoStrings GoPath Effects OS Only Steps DiskMode Finalize FinalizeSpec.
Open Scope string_scope.
Open Scope list_scope.
Open Scope go_scope.

Section Finalizer.
Context (f : Finalizer).

Definition marker : string := "/k3os/system/growpart".
Definition manifests : string * string :=
  ("/usr/share/rancher/k3s/server/manifests", "/var/lib/rancher/k3s/server/manifests").
Definition persisted : string := "/var/lib/rancher/k3os/hostname".

(** ** What it may write *)

(** The text put in the place of what the file was just read to hold, the same with more at its end. *)
Definition appended (p d : string) (h : list ev) : Prop :=
  exists r older text, h = Ev (ReadFile p) r :: older /\
    d = match r with Ok old => old | Err _ => "" end +:+ text.

Definition may_write (p d : string) (h : list ev) : Prop :=
  (p = persisted /\ exists n, d = "k3os-" +:+ strconv_Itoa n +:+ nl) \/
  (p = "/etc/hostname" /\ exists older,
     h = Ev (ReadFile persisted) (Ok d) :: older \/ h = Ev (WriteFile persisted d (oct 644)) (Ok tt) :: older) \/
  (p = "/etc/hosts" /\ exists name older,
     h = Ev (ReadFile "/etc/hostname") (Ok name) :: older /\ d = hosts_text (trimNewline name)) \/
  (p ∈ ["/etc/inittab"; "/etc/securetty"; "/etc/conf.d/connman"] /\ appended p d h) \/
  p = "/etc/sudoers.d/sudo" \/
  (p = "/run/k3os/mode" /\ f_Mode f <> "" /\ d = f_Mode f +:+ nl).

(** The finalizer's own calls. *)
Definition own_guard : @guar call resp := fun h c =>
  match c with
  | Stat _ | ReadFile _ | ReadDir _ | Mounted _ | FindByLabel _ | RandUint32 | CmdlineRaw | VirtDetect
  | Sleep _ => True
  | MkdirAll p _ =>
      p ∈ ["/boot"; "/k3os/system"; "/var/lib/rancher/k3os"; "/root"; "/etc/sudoers.d"; snd manifests;
           "/var/lib/nfs"; "/var/lib/rancher/k3s/agent/libexec/kubernetes"; "/run/k3os"]
  | Chmod p perm => p = "/root" /\ perm = oct 700
  | Mount src dst _ opts =>
      (src, dst, opts) ∈ [("/.base/boot", "/boot", "bind"); ("/.base/k3os/system", "/k3os/system", "ro,bind")]
  | Run "umount" args => args = ["-l"; "/.base"] /\ exists older, h = Ev (Mounted "/.base") (Ok true) :: older
  | Run "resize2fs" _ => f_Mode f = "local" /\ exists dev n, Ev (GrowPartition dev n) (Ok tt) ∈ h
  | GrowPartition _ _ => f_Mode f = "local" /\ exists text, Ev (ReadFile marker) (Ok text) ∈ h
  | Remove p => p = marker /\ exists part older, h = Ev (Run "resize2fs" [part]) (Ok tt) :: older
  | RemoveAll p =>
      exists es e, Ev (ReadDir "/run/k3os") (Ok es) ∈ h /\ e ∈ es /\ de_name e <> "kernel" /\
        p = path_Join ["/run/k3os"; de_name e]
  | Symlink src dst =>
      exists level svc, src = "/etc/init.d/" +:+ svc /\ dst = "/etc/runlevels/" +:+ level +:+ "/" +:+ svc
  | WriteFile p d _ => may_write p d h
  | _ => False
  end.

(** All calls: its own, those of the configuration and those of the copying of manifests. *)
Definition finalize_guard : @guar call resp := fun h c =>
  own_guard h c \/
  (exists h0, makes (f_ConfigRunner f) h0 h c) \/
  (exists h0, makes (f_ManifestCopier f (fst manifests) (snd manifests)) h0 h c).

Lemma own h c : own_guard h c -> finalize_guard h c.
Proof using Type. by left. Qed.

(** ** What holds after the steps *)

Definition base_gone (h : list ev) : Prop := Ev (Mounted "/.base") (Ok false) ∈ h.
Definition hostname_there (h : list ev) : Prop :=
  (exists i, Ev (Stat "/etc/hostname") (Ok i) ∈ h) \/
  (exists d, Ev (WriteFile "/etc/hostname" d (oct 644)) (Ok tt) ∈ h).
Definition hosts_there (h : list ev) : Prop :=
  (exists i, Ev (Stat "/etc/hosts") (Ok i) ∈ h) \/
  (exists d, Ev (WriteFile "/etc/hosts" d (oct 644)) (Ok tt) ∈ h).
Definition services_linked (h : list ev) : Prop :=
  Forall (fun '(level, services) => Forall (fun svc =>
    Ev (Symlink ("/etc/init.d/" +:+ svc) ("/etc/runlevels/" +:+ level +:+ "/" +:+ svc)) (Ok tt) ∈ h) services)
    runlevels.

(** The mode is written last, if there is one. *)
Definition mode_last (h : list ev) : Prop :=
  f_Mode f <> "" ->
  exists older, h = Ev (WriteFile "/run/k3os/mode" (f_Mode f +:+ nl) (oct 644)) (Ok tt) :: older.

Definition finalized (h : list ev) : Prop :=
  base_gone h /\ hostname_there h /\ hosts_there h /\ services_linked h /\
  ran_ok (f_ConfigRunner f) h /\
  ran_ok (f_ManifestCopier f (fst manifests) (snd manifests)) h /\ mode_last h.

Lemma base_gone_lasting : lasting base_gone.
Proof using Type. intros e h. by right. Qed.

Lemma hostname_lasting : lasting hostname_there.
Proof using Type. intros e h [[x H]|[x H]]; [left|right]; exists x; by right. Qed.

Lemma hosts_lasting : lasting hosts_there.
Proof using Type. intros e h [[x H]|[x H]]; [left|right]; exists x; by right. Qed.

Lemma services_lasting : lasting services_linked.
Proof using Type.
  intros e h H. eapply Forall_impl; [exact H|]. intros [level services] Hs.
  eapply Forall_impl; [exact Hs|]. intros svc. by right.
Qed.

(** ** The steps *)

#[local] Abbreviation keeps := (Steps.keeps finalize_guard).

(** A program of own calls that look at no history. *)
Lemma only_keeps (p : M unit) : (only (fun c => forall h, own_guard h c) p) -> keeps p nothing_more.
Proof using Type.
  intros Hp h. eapply wp_mono; [|eapply only_wp; [|exact Hp]].
  - by intros [[[]|]|s|].
  - intros h' c Hc. by left.
Qed.

Lemma umount_base_keeps fuel : keeps (umount_base fuel) base_gone.
Proof using Type.
  induction fuel as [|k IH]; intros h; cbn [umount_base];
    (wp_norm; split; [by left|]; wp_answer; [|done]; destruct a; [|by left]).
  - wp_norm. split; [left; split; [done|by eexists]|]. by wp_answer.
  - wp_norm. split; [left; split; [done|by eexists]|]. wp_answer; [|done]. apply IH.
Qed.

Lemma SetupMounts_keeps fuel : keeps (SetupMounts fuel) base_gone.
Proof using Type.
  intros h. unfold SetupMounts. wp_norm. split; [by left|]. intros b _. wp_norm.
  apply wp_bind.
  assert (forall h, wp any_resp finalize_guard
    (let* s := sys (Stat "/.base/k3os/system") in
     let! _ := if is_ok s then
         let! _ := wrapf "mkdir /k3os/system: %w" [] (sys (MkdirAll "/k3os/system" (oct 755))) in
         wrapf "bind mount /k3os/system: %w" [] (sys (Mount "/.base/k3os/system" "/k3os/system" "" "ro,bind"))
       else ret tt in
     umount_base fuel) (on_success base_gone) h) as Hrest.
  { intros h1. wp_norm. split; [by left|]. intros s _. wp_norm. destruct s as [i|e]; wp_norm; [|apply umount_base_keeps].
    split; [left; cbn; listed|]. wp_answer; [|done]. split; [left; cbn; listed|].
    wp_answer; [|done]. apply umount_base_keeps. }
  destruct b as [i|e]; wp_norm; [|apply Hrest].
  split; [left; cbn; listed|]. wp_answer; [|done]. split; [left; cbn; listed|].
  wp_answer; [|done]. apply Hrest.
Qed.

Lemma GrowLive_keeps : keeps (GrowLive f) nothing_more.
Proof using Type.
  intros h. unfold GrowLive. case_bool_decide as Hm; [done|].
  assert (f_Mode f = "local") as Hlocal by (by destruct (decide (f_Mode f = "local"))).
  wp_norm. split; [by left|]. intros [text|e] _; [|done]. wp_norm.
  destruct (strings_Fields _) as [|dev [|num rest]]; [done|done|]. wp_norm. split; [by left|]. intros st _. wp_norm.
  assert (forall dev num part h1, Ev (ReadFile marker) (Ok text) ∈ h1 ->
    wp any_resp finalize_guard
      (match strconv_Atoi num with
       | Err e => fail (Errorf_w "parse partition number %q: %w" [num] e)
       | Ok n =>
           if negb (f_PartitionGrower f) then ret tt
           else
             let! _ := wrapf "grow partition: %w" [] (sys (GrowPartition dev n)) in
             let* _ := if f_SleepFunc f then sys (Sleep (2 * second)) else Ret tt in
             let! _ := wrapf "resize2fs: %w" [] (sys (Run "resize2fs" [part])) in
             wrapf "remove growpart marker: %w" [] (sys (Remove "/k3os/system/growpart"))
       end) (on_success nothing_more) h1) as Hgrow.
  { intros d n part h1 Hin. destruct (strconv_Atoi n) as [z|e]; [|done].
    destruct (f_PartitionGrower f); [|done]. wp_norm. split; [left; split; [done|by exists text]|].
    wp_answer; [|done]. set (h2 := Ev (GrowPartition d z) _ :: h1).
    assert (forall h3, Ev (GrowPartition d z) (Ok tt) ∈ h3 ->
      wp any_resp finalize_guard
        (let! _ := wrapf "resize2fs: %w" [] (sys (Run "resize2fs" [part])) in
         wrapf "remove growpart marker: %w" [] (sys (Remove "/k3os/system/growpart")))
        (on_success nothing_more) h3) as Hresize.
    { intros h3 H3. wp_norm. split; [left; split; [done|by eexists _, _]|]. wp_answer; [|done].
      split; [left; split; [done|by eexists _, _]|]. by wp_answer. }
    destruct (f_SleepFunc f); wp_norm; [split; [by left|]; intros [] _|]; apply Hresize; [right|]; left. }
  destruct st as [i|e]; wp_norm; [apply Hgrow; right; left|].
  split; [by left|]. wp_answer; [|done]. wp_norm.
  destruct (splitPartition a) as [d n]. wp_norm. apply (Hgrow d n a). right. right. left.
Qed.

Lemma SetupHostname_keeps : keeps SetupHostname hostname_there.
Proof using Type.
  intros h. unfold SetupHostname. wp_norm. split; [by left|]. intros [i|e] _.
  { wp_norm. left. exists i. left. }
  wp_norm. split; [by left|]. intros [name|e'] _; wp_norm.
  - split; [left; right; left; split; [done|eexists; by left]|]. wp_answer; [|done]. right. eexists. left.
  - split; [by left|]. wp_answer; [|done]. split; [left; cbn; listed|]. wp_answer; [|done].
    split; [left; left; split; [done|]; exists a; by rewrite sapp_assoc|]. wp_answer; [|done].
    split; [left; right; left; split; [done|eexists; by right]|]. wp_answer; [|done]. right. eexists. left.
Qed.

Lemma SetupHosts_keeps : keeps SetupHosts hosts_there.
Proof using Type.
  intros h. unfold SetupHosts. wp_norm. split; [by left|]. intros [i|e] _.
  { wp_norm. left. exists i. left. }
  wp_norm. split; [by left|]. wp_answer; [|done].
  split; [left; right; right; left; split; [done|by eexists _, _]|]. wp_answer; [|done]. right. eexists. left.
Qed.

Lemma SetupRoot_keeps : keeps SetupRoot nothing_more.
Proof using Type.
  intros h. unfold SetupRoot. wp_norm. split; [by left|]. intros [i|e] _; wp_norm; [done|].
  destruct (os_IsNotExist e); wp_norm; [|done]. split; [left; cbn; listed|]. wp_answer; [|done].
  split; [by left|]. by wp_answer.
Qed.

Lemma append_to_keeps p text fmt :
  p ∈ ["/etc/inittab"; "/etc/securetty"; "/etc/conf.d/connman"] ->
  keeps (wrapf fmt [] (append_to p text)) nothing_more.
Proof using Type.
  intros Hp h. unfold append_to. case_bool_decide; [done|]. wp_norm. split; [by left|]. intros r _. wp_norm.
  split; [left; right; right; right; left; split; [done|by eexists r, _, text]|]. by wp_answer.
Qed.

Lemma SetupTTYs_keeps : keeps SetupTTYs nothing_more.
Proof using Type.
  intros h. unfold SetupTTYs. apply wp_bind.
  eapply wp_mono; [|apply collect_ttys_wp; by left]. intros [s|s|] h' Hs; try done. cbn [bind_post].
  apply keeps_bindE; [eapply keeps_any|intros []]; apply append_to_keeps; listed.
Qed.

Lemma SetupSudoers_keeps : keeps SetupSudoers nothing_more.
Proof using Type.
  intros h. unfold SetupSudoers. wp_norm. split; [left; cbn; listed|]. wp_answer; [|done].
  split; [left; right; right; right; right; by left|]. by wp_answer.
Qed.

Lemma link_guard h svc level :
  finalize_guard h (Symlink ("/etc/init.d/" +:+ svc) ("/etc/runlevels/" +:+ level +:+ "/" +:+ svc)).
Proof using Type. left. by exists level, svc. Qed.

Lemma enable_service_keeps level svc :
  keeps (enable_service level svc) (fun h =>
    Ev (Symlink ("/etc/init.d/" +:+ svc) ("/etc/runlevels/" +:+ level +:+ "/" +:+ svc)) (Ok tt) ∈ h).
Proof using Type.
  intros h. unfold enable_service. wp_norm. split; [apply link_guard|]. wp_answer; [left|done].
Qed.

Lemma SetupServices_keeps : keeps SetupServices services_linked.
Proof using Type.
  intros h. unfold SetupServices. apply wp_bind.
  eapply wp_mono; [|apply (for_each_keeps _ runlevels) with (J := fun '(level, services) h =>
    Forall (fun svc => Ev (Symlink ("/etc/init.d/" +:+ svc) ("/etc/runlevels/" +:+ level +:+ "/" +:+ svc))
      (Ok tt) ∈ h) services)].
  - intros [[[]|e]|s|] h' Hs; try done. cbn [bind_post].
    assert (services_linked h') as HI.
    { eapply Forall_impl; [exact Hs|]. by intros [level services]. }
    wp_norm. split; [by left|]. intros r _. wp_norm.
    set (h2 := Ev VirtDetect r :: h').
    assert (keeps (for_each match r with Ok l => l | Err _ => [] end (fun vt =>
      for_each (vm_services vt) (fun svc => wrapf "symlink %s: %w" [svc]
        (sys (Symlink ("/etc/init.d/" +:+ svc) ("/etc/runlevels/boot/" +:+ svc)))))) nothing_more) as Hvm.
    { intros h3. eapply wp_mono; [|apply for_each_keeps with (J := fun _ _ => True); [done|]].
      - by intros [[[]|]|s|].
      - intros vt h4. eapply wp_mono; [|apply for_each_keeps with (J := fun _ _ => True); [done|]].
        + by intros [[[]|]|s|].
        + intros svc h5. wp_norm. split; [left; by exists "boot", svc|]. by wp_answer. }
    eapply wp_mono; [|exact (wp_also _ _ _ _ services_linked h2 services_lasting
      (services_lasting _ _ HI) (Hvm h2))].
    intros [[[]|e]|s|] h3 [_ H3]; done.
  - intros [level services] e h' H. eapply Forall_impl; [exact H|]. intros svc. by right.
  - intros [level services]. apply for_each_keeps; [by right|]. apply enable_service_keeps.
Qed.

Lemma link_if_configured_keeps svc level : keeps (link_if_configured svc level) nothing_more.
Proof using Type.
  intros h. unfold link_if_configured. wp_norm. split; [by left|]. intros [i|e] _; wp_norm; [|done].
  split; [apply link_guard|]. by wp_answer.
Qed.

Lemma config_guard h h0 c : makes (f_ConfigRunner f) h0 h c -> finalize_guard h c.
Proof using Type. intros Hc. right. left. by exists h0. Qed.

Lemma copier_guard h h0 c :
  makes (f_ManifestCopier f (fst manifests) (snd manifests)) h0 h c -> finalize_guard h c.
Proof using Type. intros Hc. right. right. by exists h0. Qed.

Lemma SetupConfig_keeps : keeps (SetupConfig f) (ran_ok (f_ConfigRunner f)).
Proof using Type.
  unfold SetupConfig. apply keeps_runner; [apply config_guard|]. intros h.
  apply keeps_bindE; [eapply keeps_any, link_if_configured_keeps|]. intros [] h1.
  wp_norm. split; [by left|]. intros st _. wp_norm. set (h2 := Ev _ st :: h1).
  assert (keeps (let! _ := link_if_configured "cloud-config" "boot" in link_if_configured "rngd" "boot")
    nothing_more) as Hlinks.
  { intros h3. apply keeps_bindE; [eapply keeps_any, link_if_configured_keeps|].
    intros []. apply link_if_configured_keeps. }
  destruct st as [i|e]; wp_norm; [|apply Hlinks]. split; [by left|]. intros r _. wp_norm.
  split; [left; right; right; right; left; split; [by do 2 right; left|by eexists r, _, _]|].
  wp_answer; [|done]. apply Hlinks.
Qed.

Lemma SetupManifests_keeps :
  keeps (SetupManifests f) (ran_ok (f_ManifestCopier f (fst manifests) (snd manifests))).
Proof using Type.
  intros h. unfold SetupManifests. wp_norm. split; [left; cbn; listed|]. wp_answer; [|done].
  wp_norm. apply wp_bind. eapply wp_mono; [|apply runner_keeps, copier_guard]. by intros [[[]|e]|s|] h' Hp.
Qed.

Lemma SetupStateDirs_keeps : keeps SetupStateDirs nothing_more.
Proof using Type.
  intros h. unfold SetupStateDirs. wp_norm. split; [left; cbn; listed|]. wp_answer; [|done].
  split; [left; cbn; listed|]. by wp_answer.
Qed.

Lemma Cleanup_keeps : keeps (Cleanup f) mode_last.
Proof using Type.
  intros h. unfold Cleanup. wp_norm. split; [by left|]. intros r _. wp_norm.
  set (h1 := Ev _ r :: h).
  assert (forall es, (es = [] \/ r = Ok es) ->
    wp any_resp finalize_guard
      (let* _ := for_fold es tt (fun e _ =>
         if bool_decide (de_name e = "kernel") then Ret tt
         else ignore (sys (RemoveAll (path_Join ["/run/k3os"; de_name e])))) in
       if bool_decide (f_Mode f = "") then ret tt
       else
         let! _ := wrapf "mkdir /run/k3os: %w" [] (sys (MkdirAll "/run/k3os" (oct 755))) in
         wrapf "write /run/k3os/mode: %w" []
           (sys (WriteFile "/run/k3os/mode" (f_Mode f +:+ nl) (oct 644)))) (on_success mode_last) h1) as Hes.
  { intros es Hes. apply wp_seq with (fun _ _ => True).
    - apply wp_for_fold with (I := fun l _ h' =>
        (forall e, e ∈ l -> e ∈ es) /\ (forall e, e ∈ es -> Ev (ReadDir "/run/k3os") (Ok es) ∈ h')); [|done|].
      + split; [done|]. intros e He. destruct Hes as [->| ->]; [by apply elem_of_nil in He|left].
      + intros e l [] h2 [Hl Hin]. case_bool_decide as Hk.
        { split; [|done]. intros x Hx. apply Hl. by right. }
        wp_norm. split.
        * left. exists es, e. split_and!; [by apply (Hin e), Hl; left|by apply Hl; left|done|done].
        * intros x _. wp_norm. split; [intros y Hy; apply Hl; by right|]. intros y Hy. right. by apply Hin in Hy.
    - intros [] h2 _. case_bool_decide as Hm; [by intros ?|]. wp_norm. split; [left; cbn; listed|].
      wp_answer; [|done]. split; [left; do 5 right; by split_and!|]. wp_answer; [|done]. intros _. by eexists. }
  destruct r as [es|e]; wp_norm; [apply Hes; by right|].
  destruct (os_IsNotExist e); wp_norm; [apply Hes; by left|done].
Qed.

Lemma Finalize_Run_wp fuel h :
  wp any_resp finalize_guard (Finalize_Run f fuel) (on_success finalized) h.
Proof using Type.
  eapply wp_mono; [|eapply (chain_wp finalize_guard "finalize %s: %w" nothing_more); [|apply nothing_lasting|done]].
  2: {
    apply (chain_step _ _ _ _ base_gone); [apply base_gone_lasting|apply keeps_keeps_from, SetupMounts_keeps|].
    apply (chain_step _ _ _ _ nothing_more); [apply nothing_lasting|apply keeps_keeps_from, GrowLive_keeps|].
    apply (chain_step _ _ _ _ hostname_there); [apply hostname_lasting|apply keeps_keeps_from, SetupHostname_keeps|].
    apply (chain_step _ _ _ _ hosts_there); [apply hosts_lasting|apply keeps_keeps_from, SetupHosts_keeps|].
    apply (chain_step _ _ _ _ nothing_more); [apply nothing_lasting|apply keeps_keeps_from, SetupRoot_keeps|].
    apply (chain_step _ _ _ _ nothing_more); [apply nothing_lasting|apply keeps_keeps_from, SetupTTYs_keeps|].
    apply (chain_step _ _ _ _ nothing_more); [apply nothing_lasting|apply keeps_keeps_from, SetupSudoers_keeps|].
    apply (chain_step _ _ _ _ services_linked); [apply services_lasting|apply keeps_keeps_from, SetupServices_keeps|].
    eapply chain_step; [apply ran_ok_lasting|apply keeps_keeps_from, SetupConfig_keeps|].
    eapply chain_step; [apply ran_ok_lasting|apply keeps_keeps_from, SetupManifests_keeps|].
    apply (chain_step _ _ _ _ nothing_more); [apply nothing_lasting|apply keeps_keeps_from, SetupStateDirs_keeps|].
    apply chain_last, keeps_keeps_from, Cleanup_keeps. }
  intros [[[]|e]|s|] h'; try done. cbn [on_success]. unfold finalized. tauto.
Qed.
End Finalizer.

(** ** Properties *)


(** The machine of [FinalizeSpec], whose state partition is to be grown. *)
Definition grown_machine (c : call) : option (resp c) :=
  match c return option (resp c) with
  | ReadFile p => if bool_decide (p = marker) then Some (Ok ("/dev/sda 1" +:+ nl)) else None
  | c => demo_run c
  end.

