(* ===== verification/PartNames.v ===== *)
(** * PartNames: partition device names, split in two places: [stripPartitionNumber] and
    [extractPartitionNumber] of [disk.go], [splitPartition] of [grow.go]. *)

From S2P Require Import Prelude GoStrings GoPath Effects OS DiskMode Finalize.
Open Scope string_scope.
Open Scope list_scope.
Open Scope go_scope.

Abbreviation digits := (Forall (fun c : ascii => is_digit c = true)).

(** The name the kernel gives to partition [n] of a disk: a disk whose name ends in a digit gets a
    'p' in between (nvme0n1p2, mmcblk0p1). *)
Definition kernel_partition (disk : string) (n : Z) : string :=
  match last (chars disk) with
  | Some c => if is_digit c then disk +:+ "p" +:+ strconv_Itoa n else disk +:+ strconv_Itoa n
  | None => strconv_Itoa n
  end.

(** A whole disk's name: not empty, and not itself of the form a partition would have. *)
Definition disk_name (disk : string) : Prop :=
  match rev (chars disk) with
  | [] => False
  | [c] => True
  | c :: d :: _ => ~ (c = "p"%char /\ is_digit d = true)
  end.

(** What precedes the number, without the 'p' of the longer form; the argument is reversed. *)
Definition strip_p (rdev : list ascii) : list ascii :=
  match rdev with
  | c :: ((d :: _) as rest) => if Ascii.eqb c "p" && is_digit d then rest else rdev
  | _ => rdev
  end.

Lemma splitPartition_eq ds rest :
  digits ds -> match rest with c :: _ => is_digit c = false | [] => True end ->
  splitPartition (of_chars (rev rest ++ ds)) = (of_chars (rev (strip_p rest)), of_chars ds).
Proof.
  intros Hds Hrest. unfold splitPartition. rewrite chars_of_chars, rev_app_distr, rev_involutive.
  match goal with |- context [?f [] (rev ds ++ rest)] => set (go := f) end.
  assert (forall l num, digits l -> go num (l ++ rest) = (rev l ++ num, rest)) as Hgo.
  { induction l as [|c l IH]; intros num Hl.
    - destruct rest as [|c rest]; [done|]. simpl. by rewrite Hrest.
    - apply Forall_cons in Hl as [Hc Hl]. simpl. rewrite Hc, IH by done.
      by rewrite <- (assoc_L app). }
  rewrite Hgo by (apply Forall_rev; exact Hds). rewrite rev_involutive, app_nil_r. done.
Qed.

(** Every name is its non-digit part followed by its trailing digits. *)
Lemma name_parts (l : list ascii) :
  exists rest ds, rev l = rev ds ++ rest /\ digits ds /\
    match rest with c :: _ => is_digit c = false | [] => True end.
Proof.
  induction (rev l) as [|c r (rest & ds & -> & Hds & Hrest)]; [by exists [], []|].
  destruct (is_digit c) eqn:Hc.
  - exists rest, (ds ++ [c]). rewrite rev_app_distr. split_and!; try done.
    apply Forall_app_2; [done|]. by repeat constructor.
  - by exists (c :: rev ds ++ rest), [].
Qed.

Lemma strip_go_eq device ds rest :
  digits ds -> match rest with c :: _ => is_digit c = false | [] => True end ->
  strip_go device (ds ++ rest) =
  match rest with [] => device | _ => of_chars (rev (strip_p rest)) end.
Proof.
  intros Hds Hrest. induction Hds as [|c ds Hc Hds IH]; simpl.
  - destruct rest as [|c rest]; [done|]. simpl. rewrite Hrest.
    destruct rest as [|d rest]; [done|]. by destruct (Ascii.eqb c "p" && is_digit d).
  - by rewrite Hc.
Qed.

Lemma extract_go_eq num ds rest :
  digits ds -> match rest with c :: _ => is_digit c = false | [] => True end ->
  extract_go num (ds ++ rest) =
  match rest with [] => "" | _ => of_chars (rev ds ++ num) end.
Proof.
  intros Hds Hrest. revert num. induction Hds as [|c ds Hc Hds IH]; intros num; simpl.
  - destruct rest as [|c rest]; [done|]. simpl. by rewrite Hrest.
  - rewrite Hc, IH. by rewrite <- (assoc_L app).
Qed.

Lemma digits_Itoa n : (0 <= n)%Z -> digits (chars (strconv_Itoa n)).
Proof.
  intros Hn. unfold strconv_Itoa. rewrite (proj2 (Z.ltb_ge _ _)), chars_of_chars by lia.
  apply dec_go_digits; [done|constructor].
Qed.

Lemma Atoi_Itoa n : (0 <= n < 2 ^ 63)%Z -> strconv_Atoi (strconv_Itoa n) = Ok n.
Proof.
  intros Hn. pose proof (digits_Itoa n ltac:(lia)) as Hd.
  unfold strconv_Atoi, strconv_ParseInt. unfold strconv_Itoa in *.
  rewrite (proj2 (Z.ltb_ge _ _)) in * by lia. rewrite chars_of_chars in *.
  pose proof (parse_dec_nat n ltac:(lia)) as Hp.
  pose proof (dec_go_nonempty (S (Z.to_nat (Z.log2 n))) n [] ltac:(done)) as Hne.
  unfold dec_nat in *. destruct (dec_go _ _ _) as [|c l]; [done|].
  apply Forall_cons in Hd as [Hc _].
  destruct (Ascii.eqb_spec c "+") as [->|]; [done|].
  destruct (Ascii.eqb_spec c "-") as [->|]; [done|].
  rewrite Hp. by rewrite (proj2 (Z.ltb_lt _ _)) by lia.
Qed.

Lemma split_kernel_partition disk n :
  disk_name disk -> (0 <= n)%Z ->
  splitPartition (kernel_partition disk n) = (disk, strconv_Itoa n).
Proof.
  intros Hdisk Hn. pose proof (digits_Itoa n Hn) as Hd.
  unfold disk_name, kernel_partition in *. rewrite last_head_rev.
  destruct (rev (chars disk)) as [|c rest] eqn:Hrev; [done|]. simpl.
  assert (disk = of_chars (rev (c :: rest))) as ->
    by (apply chars_inj; by rewrite chars_of_chars, <- Hrev, rev_involutive).
  remember (chars (strconv_Itoa n)) as num eqn:Hnum.
  assert (strconv_Itoa n = of_chars num) as -> by (subst num; by rewrite of_chars_chars).
  clear Hnum Hrev. destruct (is_digit c) eqn:Hc.
  - change "p" with (of_chars ["p"%char]). rewrite <- !of_chars_app, (assoc_L app).
    change (rev (c :: rest) ++ ["p"%char]) with (rev ("p"%char :: c :: rest)).
    rewrite splitPartition_eq by done. simpl strip_p. by rewrite Hc.
  - rewrite <- of_chars_app, splitPartition_eq by done. do 2 f_equal.
    unfold strip_p. destruct rest as [|d rest]; [done|].
    destruct (Ascii.eqb_spec c "p") as [->|]; [|done]. destruct (is_digit d) eqn:Hd'; [|done].
    by destruct Hdisk.
Qed.

Lemma strip_extract device :
  (exists c, c ∈ chars device /\ is_digit c = false) ->
  (stripPartitionNumber device, extractPartitionNumber device) = splitPartition device.
Proof.
  intros (c & Hin & Hc). destruct (name_parts (chars device)) as (rest & ds & Heq & Hds & Hrest).
  assert (device = of_chars (rev rest ++ ds)) as ->.
  { apply chars_inj. rewrite chars_of_chars, <- (rev_involutive (chars device)), Heq.
    by rewrite rev_app_distr, rev_involutive. }
  rewrite chars_of_chars in *. rewrite splitPartition_eq by done.
  unfold stripPartitionNumber, extractPartitionNumber.
  rewrite chars_of_chars, rev_app_distr, rev_involutive.
  rewrite strip_go_eq, extract_go_eq by (by try apply Forall_rev).
  destruct rest as [|d rest]; [|by rewrite rev_involutive, app_nil_r].
  simpl in Hin. eapply Forall_forall in Hin; [|exact Hds]. simpl in Hin. congruence.
Qed.

(** Splitting a partition's device name gives back the disk and the number, for both naming
    schemes of the kernel (sda2, nvme0n1p2) and every partition number; and the number is read back
    as that integer. *)
Theorem splitPartition_roundtrip disk n :
  disk_name disk -> (0 <= n < 2 ^ 63)%Z ->
  splitPartition (kernel_partition disk n) = (disk, strconv_Itoa n) /\
  strconv_Atoi (snd (splitPartition (kernel_partition disk n))) = Ok n.
Proof.
  intros Hd Hn. rewrite split_kernel_partition by (done || lia). split; [done|].
  by apply Atoi_Itoa.
Qed.

Lemma splitPartition_roundtrip_witness :
  disk_name "/dev/nvme0n1" /\
  splitPartition "/dev/nvme0n1p2" = ("/dev/nvme0n1", "2").
Proof.
  assert (disk_name "/dev/nvme0n1") as Hd by (vm_compute; intros [? _]; discriminate).
  split; [exact Hd|]. exact (proj1 (splitPartition_roundtrip "/dev/nvme0n1" 2 Hd ltac:(lia))).
Defined.

(** C40: the disk handler and the finalizer split device names alike: on every name with a non-digit
    in it, [stripPartitionNumber] and [extractPartitionNumber] together are [splitPartition]. *)
Theorem strip_extract_splitPartition device :
  (exists c, c ∈ chars device /\ is_digit c = false) ->
  (stripPartitionNumber device, extractPartitionNumber device) = splitPartition device.
Proof. apply strip_extract. Qed.

Lemma strip_extract_splitPartition_witness :
  (exists c, c ∈ chars "/dev/sda12" /\ is_digit c = false) /\
  stripPartitionNumber "/dev/sda12" = "/dev/sda".
Proof.
  assert (exists c, c ∈ chars "/dev/sda12" /\ is_digit c = false) as H
    by (exists "/"%char; split; [left|done]).
  split; [exact H|]. exact (f_equal fst (strip_extract_splitPartition "/dev/sda12" H)).
Defined.
