(* ===== verification/ModeDetect.v ===== *)
(** * ModeDetect: boot mode detection, [internal/mode/detect.go] and [mode.go]. *)

From S2P Require Import Prelude GoStrings GoPath Effects OS System.
Open Scope string_scope.
Open Scope list_scope.
Open Scope go_scope.

Definition ValidModes : list string := ["disk"; "local"; "live"; "install"; "shell"].

(** [Detector]: its constants.  [Cmdline], [BlockProber], [StatfsChecker], [EnvReader], [FileWriter],
    [MkdirAll] and [SleepFunc] are calls. *)
Record Detector := {
  dt_Timeout : Z;
  dt_SleepInterval : Z;
  dt_StateDir : string;
}.

Section Detector.
Context (d : Detector).

(** [detectOnce]. *)
Definition detectOnce (fallbackMode : string) : io string :=
  let* r := sys (FindByLabel "K3OS_STATE") in
  let mode := match r with
              | Ok dev => if bool_decide (dev = "") then "" else "disk"
              | Err _ => ""
              end in
  let* envMode := sys (Getenv "K3OS_MODE") in
  let mode := if bool_decide (envMode = "") then mode else envMode in
  let mode := if bool_decide (mode = "") then fallbackMode else mode in
  if bool_decide (mode = "") then
    let* fs := sys (Statfs "/") in
    match fs with
    | Ok fsType => if bool_decide (fsType = "tmpfs") then Ret "" else Ret "local"
    | Err _ => Ret ""
    end
  else Ret mode.

(** [finalize]: check the mode, write the state file. *)
Definition finalize (mode : string) : M string :=
  if negb (bool_decide (mode ∈ ValidModes)) then
    fail (Errorf "invalid mode %q: must be one of disk, local, live, install, shell" [mode])
  else
    let stateDir := if bool_decide (dt_StateDir d = "") then StatePath [] else dt_StateDir d in
    let! _ := wrapf "creating state dir: %w" [] (sys (MkdirAll stateDir (oct 755))) in
    let! _ := wrapf "writing mode file: %w" []
                (sys (WriteFile (path_Join [stateDir; "mode"]) mode (oct 644))) in
    ret mode.

(** The retry loop of [Detect]; [fuel] bounds its passes. *)
Fixpoint detect_loop (fuel : nat) (fallback : string) (deadline : Z) : M string :=
  let* detected := detectOnce fallback in
  if negb (bool_decide (detected = "")) then finalize detected
  else
    let* now := sys Now in
    if (deadline <? now)%Z then
      fail (Errorf "failed to determine boot mode (did you forget to set k3os.mode?)" [])
    else
      let* c := sys CtxErr in
      match c with
      | Some e => fail (Errorf_w "mode detection cancelled: %w" [] e)
      | None =>
          let* _ := sys (Sleep (dt_SleepInterval d)) in
          match fuel with
          | O => Halt OutOfFuel
          | S k => detect_loop k fallback deadline
          end
      end.

(** [Detect]; on the command line, rescue wins over k3os.mode. *)
Definition Detect (fuel : nat) : M string :=
  let* mode := sys (CmdlineFlag "k3os.mode") in
  let* rescue := sys (CmdlineContains "rescue") in
  let mode := if rescue : bool then "shell" else default "" mode in
  let* fallback := sys (CmdlineFlag "k3os.fallback_mode") in
  let fallback := default "" fallback in
  if negb (bool_decide (mode = "")) then finalize mode
  else
    let* now := sys Now in
    detect_loop fuel fallback (now + dt_Timeout d)%Z.
End Detector.

(** [mode.Get]. *)
Definition mode_Get (prefix : list string) : M string :=
  let* r := sys (ReadFile (path_Join [path_Join prefix; StatePath ["mode"]])) in
  match r with
  | Ok bytes => ret (strings_TrimSpace bytes)
  | Err e => if os_IsNotExist e then ret "" else fail e
  end.
