(* ===== verification/ModeDetectSpec.v ===== *)
(** * ModeDetectSpec: what boot mode detection guarantees. *)

From S2P Require Import Prelude GoStrings GoPath Effects OS System ModeDetect.
Open Scope string_scope.
Open Scope list_scope.
Open Scope go_scope.

Section Spec.
Context (d : Detector).

Definition state_dir : string :=
  if bool_decide (dt_StateDir d = "") then "/run/k3os" else dt_StateDir d.

(** The only file written is the mode file, with a valid mode. *)
Definition mode_guard : @guar call resp := fun _ c =>
  match c with
  | WriteFile p data _ => p = path_Join [state_dir; "mode"] /\ data ∈ ValidModes
  | MkdirAll p _ => p = state_dir
  | FindByLabel _ | Getenv _ | Statfs _ | Now | CtxErr | Sleep _ | CmdlineFlag _ | CmdlineContains _ => True
  | _ => False
  end.

(** The mode returned is the one just written. *)
Definition recorded (o : outcome (result string)) (h : list ev) : Prop :=
  forall m, o = Done (Ok m) ->
    m ∈ ValidModes /\
    exists older, h = Ev (WriteFile (path_Join [state_dir; "mode"]) m (oct 644)) (Ok tt)
                   :: Ev (MkdirAll state_dir (oct 755)) (Ok tt) :: older.

Lemma finalize_wp R m h : wp R mode_guard (finalize d m) recorded h.
Proof using Type.
  unfold finalize, recorded. destruct (bool_decide (m ∈ ValidModes)) eqn:Hm; wp_norm; [|done].
  apply bool_decide_eq_true in Hm. change (StatePath []) with "/run/k3os". fold state_dir.
  split; [done|]. intros [[]|e] _; wp_norm; [|done].
  split; [done|]. intros [[]|e] _; wp_norm; [|done].
  intros m' [= <-]. eauto.
Qed.

Lemma detectOnce_wp R (fb : string) Q h :
  (forall s h', Q (Done s) h') -> wp R mode_guard (detectOnce fb) Q h.
Proof using Type.
  intros HQ. unfold detectOnce. wp_norm. split; [done|]. intros lbl _. wp_norm.
  split; [done|]. intros env _. wp_norm.
  destruct (bool_decide (_ = "")); [|apply HQ]. wp_norm. split; [done|].
  intros [fs|e] _; wp_norm; [destruct (bool_decide (fs = "tmpfs"))|]; apply HQ.
Qed.

Lemma detect_loop_wp R fuel fb deadline h :
  wp R mode_guard (detect_loop d fuel fb deadline) recorded h.
Proof using Type.
  revert h. induction fuel as [|k IH]; intros h; cbn [detect_loop]; apply wp_bind, detectOnce_wp;
    intros s h1; wp_norm; (destruct (bool_decide (s = "")); wp_norm; [|apply finalize_wp]);
    (split; [done|]); intros now _; wp_norm; (destruct (deadline <? now)%Z; wp_norm; [done|]);
    (split; [done|]); intros [e|] _; wp_norm; try done; (split; [done|]); intros [] _; wp_norm;
    first [apply IH | done].
Qed.

Lemma Detect_wp R fuel h : wp R mode_guard (Detect d fuel) recorded h.
Proof using Type.
  unfold Detect. wp_norm. do 3 (split; [done|]; intros ? _; wp_norm).
  destruct (bool_decide (_ = "")); wp_norm; [|apply finalize_wp].
  split; [done|]. intros now _. apply detect_loop_wp.
Qed.

(** ** Which mode one look finds *)

(** The mode found from the state device, the environment, the fallback and the root file system. *)
Definition found_mode (label : result string) (env fallback : string) (root : result string)
  : string :=
  if bool_decide (env <> "") then env
  else if match label with Ok dev => bool_decide (dev <> "") | Err _ => false end then "disk"
  else if bool_decide (fallback <> "") then fallback
  else match root with
       | Ok fs => if bool_decide (fs = "tmpfs") then "" else "local"
       | Err _ => ""
       end.

Lemma detectOnce_exec fb h h' m :
  exec any_resp (detectOnce fb) h h' (Done m) ->
  exists label env root, m = found_mode label env fb root /\
    (h' = Ev (Getenv "K3OS_MODE") env :: Ev (FindByLabel "K3OS_STATE") label :: h \/
     h' = Ev (Statfs "/") root :: Ev (Getenv "K3OS_MODE") env
          :: Ev (FindByLabel "K3OS_STATE") label :: h).
Proof using Type.
  unfold detectOnce. intros (lbl & _ & (env & _ & H)%exec_inv)%exec_inv. cbn in H.
  unfold found_mode.
  destruct (decide (env = "")) as [->|Henv].
  - rewrite (bool_decide_true ("" = "")) in H by done.
    assert (bool_decide ("" <> "") = false) as Hne by done.
    set (lab := match lbl with Ok dev => _ | Err _ => _ end) in H.
    assert (lab = if match lbl with Ok dev => bool_decide (dev <> "") | Err _ => false end
                  then "disk" else "") as Hlab.
    { subst lab. destruct lbl as [dev|]; [|done]. by repeat case_bool_decide. }
    clearbody lab. destruct (match lbl with Ok dev => _ | Err _ => _ end) eqn:Hd; subst lab; cbn in H.
    + apply exec_inv in H as [<- ->]. exists lbl, "", (Ok ""). rewrite Hne, Hd. split; [done|]. auto.
    + rewrite (bool_decide_true ("" = "")) in H by done. cbn in H.
      destruct (decide (fb = "")) as [->|Hfb].
      * rewrite (bool_decide_true ("" = "")) in H by done. 
        apply exec_inv in H as (root & _ & H). exists lbl, "", root.
        rewrite Hne, Hd. destruct root as [fs|e]; [destruct (bool_decide (fs = "tmpfs"))|];
          apply exec_inv in H as [<- ->]; (split; [done|]); auto.
      * rewrite (bool_decide_false (fb = "")) in H by done. apply exec_inv in H as [<- ->].
        exists lbl, "", (Ok ""). rewrite Hne, Hd, bool_decide_true by done. split; [done|]. auto.
  - repeat (rewrite (bool_decide_false (env = "")) in H by done; cbn in H). apply exec_inv in H as [<- ->].
    exists lbl, env, (Ok ""). rewrite bool_decide_true by done. split; [done|]. auto.
Qed.

(** ** Termination *)

(** The time known to have been reached: the last answer of the clock plus the pauses since. *)
Fixpoint clock (h : list ev) : Z :=
  match h with
  | [] => 0
  | Ev c r :: h' =>
      match c return resp c -> Z with
      | Now => fun t => t
      | Sleep ns => fun _ => (clock h' + ns)%Z
      | _ => fun _ => clock h'
      end r
  end.

(** The clock does not go back, and a pause lasts at least as long as asked. *)
Definition monotonic : @rely call resp := fun h c =>
  match c return resp c -> Prop with
  | Now => fun t => (clock h <= t)%Z
  | _ => fun _ => True
  end.

Lemma detectOnce_clock (fb : string) Q h :
  (forall s h', clock h' = clock h -> Q (Done s) h') -> wp monotonic any_call (detectOnce fb) Q h.
Proof using Type.
  intros HQ. unfold detectOnce. wp_norm. split; [done|]. intros lbl _. wp_norm.
  split; [done|]. intros env _. wp_norm.
  destruct (bool_decide (_ = "")); [|by apply HQ]. wp_norm. split; [done|].
  intros [fs|e] _; wp_norm; [destruct (bool_decide (fs = "tmpfs"))|]; by apply HQ.
Qed.

Definition not_halted (o : outcome (result string)) (_ : list ev) : Prop :=
  match o with Halted _ => False | _ => True end.

Lemma finalize_ends R m h : wp R any_call (finalize d m) not_halted h.
Proof using Type.
  unfold finalize. destruct (bool_decide (m ∈ ValidModes)); wp_norm; [|done].
  split; [done|]. intros [[]|e] _; wp_norm; [|done]. split; [done|].
  by intros [[]|e] _.
Qed.

Lemma detect_loop_ends fuel fb deadline h :
  (0 <= dt_SleepInterval d)%Z -> (deadline < clock h + Z.of_nat fuel * dt_SleepInterval d)%Z ->
  wp monotonic any_call (detect_loop d fuel fb deadline) not_halted h.
Proof using Type.
  intros Hi. revert h. induction fuel as [|k IH]; intros h Hd; cbn [detect_loop]; apply wp_bind, detectOnce_clock;
    intros s h1 Hc; wp_norm; (destruct (bool_decide (s = "")); wp_norm; [|apply finalize_ends]);
    (split; [done|]); intros now Hnow; wp_norm; simpl in Hnow;
    (destruct (Z.ltb_spec deadline now); wp_norm; [done|]); [simpl in Hd; lia|].
  split; [done|]. intros [e|] _; wp_norm; [done|]. split; [done|]. intros [] _.
  apply IH. simpl. lia.
Qed.
End Spec.

(** ** Properties *)

(** C27: mode detection writes only the mode file, and only a valid mode into it.  In every behaviour
    of [Detect], each file written is <state dir>/mode with one of the five valid modes and the only
    directory created is the state directory; and when it returns a mode without error, that mode is
    valid and has just been written there. *)
Theorem Detect_records_valid_mode d fuel h o newer e older :
  exec any_resp (Detect d fuel) [] h o ->
  h = newer ++ e :: older ->
  mode_guard d older (ev_call e) /\ recorded d o h.
Proof.
  intros Hex Heq. destruct (wp_sound _ _ _ _ _ _ _ (Detect_wp d any_resp fuel []) Hex) as [Hg Ho].
  split; [by eapply guaranteed_at|]. destruct o; [by apply Ho|by apply Ho|by intros m [=]].
Qed.


(** C37: detection ends.  On a clock that does not go back and counts the pauses, a detector with a
    positive pause never runs out of passes once it is given more than timeout / pause of them:
    every behaviour of [Detect] that stops has returned a mode or an error. *)
Theorem Detect_terminates d fuel h s :
  (0 < dt_SleepInterval d)%Z -> (dt_Timeout d < Z.of_nat fuel * dt_SleepInterval d)%Z ->
  ~ exec monotonic (Detect d fuel) [] h (Halted s).
Proof.
  intros Hi Ht Hex.
  assert (wp monotonic any_call (Detect d fuel) not_halted []) as Hwp.
  { unfold Detect. wp_norm. do 3 (split; [done|]; intros ? _; wp_norm).
    destruct (bool_decide (_ = "")); wp_norm; [|apply finalize_ends].
    split; [done|]. intros now _. apply detect_loop_ends; simpl; lia. }
  by destruct (wp_sound _ _ _ _ _ _ _ Hwp Hex) as [_ Ho]; apply Ho.
Qed.

(** ** Concrete detections *)

Definition demo_detector : Detector :=
  {| dt_Timeout := 30; dt_SleepInterval := 1; dt_StateDir := "" |}.

Definition demo_state (c : call) : option (resp c) :=
  match c return option (resp c) with
  | FindByLabel _ => Some (Ok "/dev/sda2")
  | _ => None
  end.

Lemma Detect_records_valid_mode_witness :
  exec any_resp (Detect demo_detector 31) [] (history demo_state (Detect demo_detector 31))
    (Done (Ok "disk")) /\
  recorded demo_detector (Done (Ok "disk")) (history demo_state (Detect demo_detector 31)).
Proof.
  pose proof (world_exec demo_state (Detect demo_detector 31)) as H.
  split; [exact H|].
  refine (proj2 (Detect_records_valid_mode demo_detector 31 _ _ [] _ _ H _)).
  vm_compute. reflexivity.
Defined.


Lemma Detect_terminates_witness :
  (0 < 1)%Z /\ ~ exec monotonic (Detect demo_detector 31) [] [] (Halted OutOfFuel).
Proof.
  split; [lia|]. apply (Detect_terminates demo_detector 31); simpl; lia.
Defined.
