(* ===== verification/TestMode.v ===== *)
(** * TestMode: the post-init verifier, [internal/boot/testmode/testmode.go]. *)

From S2P Require Import Prelude GoStrings GoPath Effects OS.
Open Scope string_scope.
Open Scope list_scope.
Open Scope go_scope.

Definition ResultStart : string := "---TEST_RESULTS_START---".
Definition ResultEnd : string := "---TEST_RESULTS_END---".

Record Check := mkCheck { c_Name : string; c_Passed : bool; c_Detail : string }.
Record Phase := mkPhase { p_Name : string; p_Passed : bool; p_Checks : list Check }.
Record Results := mkResults { r_Passed : bool; r_Phases : list Phase; r_Summary : string }.

(** A detail text built with [fmt.Sprintf] from an error or a quoted string is rendered by the two
    parameters: [err_text] is [%v] of an error, [quote] is [%q] of a string. *)
Section Verifier.
Context (err_text : error -> string) (quote : string -> string).
Context (marshal : Results -> result string).

(** [Verifier]: where the report goes and what ends it, if they are set; what it looks with is package
    os.  [json.Marshal] is the parameter [marshal]. *)
Record Verifier := { v_RebootFunc : option (M unit); v_Output : option File }.

Definition checkProcMounted : io Check :=
  let* r := sys (Stat "/proc/self/status") in
  Ret (if is_ok r then mkCheck "proc_mounted" true "/proc/self/status exists"
       else mkCheck "proc_mounted" false "/proc/self/status does not exist").

Definition checkEtcPopulated : io Check :=
  let* r := sys (ReadFile "/etc/passwd") in
  Ret (match r with
       | Err e => mkCheck "etc_populated" false ("failed to read /etc/passwd: " +:+ err_text e)
       | Ok data =>
           if strings_Contains data "rancher"
           then mkCheck "etc_populated" true "/etc/passwd contains rancher"
           else mkCheck "etc_populated" false "/etc/passwd does not contain rancher user"
       end).

Definition checkRunK3osExists : io Check :=
  let* r := sys (Stat "/run/k3os") in
  Ret (if is_ok r then mkCheck "run_k3os_exists" true "/run/k3os directory exists"
       else mkCheck "run_k3os_exists" false "/run/k3os directory does not exist").

Definition testmode_validModes : list string := ["local"; "live"; "disk"].

Definition checkModeFile : io Check :=
  let* r := sys (ReadFile "/run/k3os/mode") in
  Ret (match r with
       | Err e => mkCheck "mode_file" false ("failed to read /run/k3os/mode: " +:+ err_text e)
       | Ok data =>
           let mode := strings_TrimSpace data in
           if bool_decide (mode ∈ testmode_validModes)
           then mkCheck "mode_file" true ("/run/k3os/mode contains valid mode: " +:+ quote mode)
           else mkCheck "mode_file" false ("/run/k3os/mode contains invalid mode: " +:+ quote mode)
       end).

(** The value of the first command-line field with the given prefix, and "" if there is none. *)
Fixpoint field_value (pre : string) (fields : list string) : string :=
  match fields with
  | [] => ""
  | fd :: rest => if strings_HasPrefix fd pre then strings_TrimPrefix fd pre
                  else field_value pre rest
  end.

Definition checkExpectedMode : io Check :=
  let* r := sys (ReadFile "/proc/cmdline") in
  match r with
  | Err _ => Ret (mkCheck "expected_mode" true
                    "cannot read /proc/cmdline, skipping expected mode check")
  | Ok cmdline =>
      let expected := field_value "k3os.test_expected_mode=" (strings_Fields cmdline) in
      if bool_decide (expected = "") then
        Ret (mkCheck "expected_mode" true "no k3os.test_expected_mode set, skipping")
      else
        let* m := sys (ReadFile "/run/k3os/mode") in
        match m with
        | Err e => Ret (mkCheck "expected_mode" false
                          ("expected mode " +:+ quote expected +:+
                           " but cannot read /run/k3os/mode: " +:+ err_text e))
        | Ok modeData =>
            let actual := strings_TrimSpace modeData in
            if bool_decide (actual = expected)
            then Ret (mkCheck "expected_mode" true ("mode matches expected: " +:+ quote expected))
            else Ret (mkCheck "expected_mode" false
                        ("expected mode " +:+ quote expected +:+ " but got " +:+ quote actual))
        end
  end.

Definition checkModeTarget : io Check :=
  let* r := sys (ReadFile "/run/k3os/mode") in
  match r with
  | Err e => Ret (mkCheck "mode_target" false ("cannot determine mode: " +:+ err_text e))
  | Ok modeData =>
      let mode := strings_TrimSpace modeData in
      if bool_decide (mode = "disk") then
        let* s := sys (Stat "/run/k3os/target/k3os/system") in
        Ret (if is_ok s
             then mkCheck "mode_target" true "disk mode: /run/k3os/target/k3os/system exists"
             else mkCheck "mode_target" false
                    "disk mode: /run/k3os/target/k3os/system not found (K3OS_STATE mount failed)")
      else if bool_decide (mode = "live") || bool_decide (mode = "install") then
        let* s := sys (Stat "/.base/k3os") in
        Ret (if is_ok s
             then mkCheck "mode_target" true (mode +:+ " mode: /.base/k3os exists")
             else mkCheck "mode_target" true
                    (mode +:+ " mode: /.base/k3os not found (no boot media — expected in test)"))
      else Ret (mkCheck "mode_target" true (mode +:+ " mode: no target check required"))
  end.

Definition checkPivotRoot : io Check :=
  let* r := sys (ReadFile "/proc/cmdline") in
  let cmdlineStr := match r with Ok d => d | Err _ => "" end in
  if existsb (fun fd => strings_HasPrefix fd "k3os.mode=") (strings_Fields cmdlineStr) then
    Ret (mkCheck "pivot_root" true "k3os.mode= set on cmdline, pivot_root check not applicable")
  else
    let* s := sys (Stat "/.root") in
    Ret (if is_ok s
         then mkCheck "pivot_root" true "/.root exists (pivot_root from disk mode succeeded)"
         else mkCheck "pivot_root" false "/.root not found (pivot_root from disk mode did not occur)").

Definition checkHostname : io Check :=
  let* r := sys Hostname in
  Ret (match r with
       | Err e => mkCheck "hostname_set" false ("failed to get hostname: " +:+ err_text e)
       | Ok h =>
           if bool_decide (h = "") then mkCheck "hostname_set" false "hostname is empty"
           else mkCheck "hostname_set" true ("hostname is " +:+ quote h)
       end).

(** Run the checks in order. *)
Fixpoint run_checks (l : list (io Check)) : io (list Check) :=
  match l with
  | [] => Ret []
  | c :: rest => let* x := c in let* xs := run_checks rest in Ret (x :: xs)
  end.

(** The loop over the checks that each phase ends with. *)
Fixpoint all_passed (checks : list Check) : bool :=
  match checks with
  | [] => true
  | c :: rest => if c_Passed c then all_passed rest else false
  end.

Definition phase (name : string) (l : list (io Check)) : io Phase :=
  let* checks := run_checks l in
  Ret (mkPhase name (all_passed checks) checks).

Definition checkBootstrap : io Phase := phase "bootstrap" [checkProcMounted; checkEtcPopulated].
Definition checkModeDetection : io Phase :=
  phase "mode_detection" [checkRunK3osExists; checkModeFile; checkExpectedMode].
Definition checkModeExecution : io Phase :=
  phase "mode_execution" [checkModeTarget; checkPivotRoot].
Definition checkFinalization : io Phase := phase "finalization" [checkHostname].

(** The counting loops of [verify]: total and passed checks, and whether every phase passed. *)
Definition count_checks (phases : list Phase) : Z * Z :=
  fold_left (fun acc p =>
    fold_left (fun '(t, n) c => (t + 1, if c_Passed c then n + 1 else n))%Z (p_Checks p) acc)
    phases (0, 0)%Z.
Definition all_phases (phases : list Phase) : bool :=
  fold_left (fun acc p => if p_Passed p then acc else false) phases true.

Definition summarize (phases : list Phase) : Results :=
  let '(total, passed) := count_checks phases in
  mkResults (all_phases phases) phases
    (strconv_Itoa passed +:+ "/" +:+ strconv_Itoa total +:+ " checks passed").

Definition verify : io Results :=
  let* b := checkBootstrap in
  let* m := checkModeDetection in
  let* e := checkModeExecution in
  let* f := checkFinalization in
  Ret (summarize [b; m; e; f]).

(** [fmt.Fprintln] of a text. *)
Definition Fprintln (out : File) (text : string) : io unit := ignore (sys (FileWrite out (text +:+ nl))).

(** [Run]: print the results between the two markers, then reboot. *)
Definition Verifier_Run (v : Verifier) : M unit :=
  let out := default Stdout (v_Output v) in
  let reboot := default (sys SysReboot) (v_RebootFunc v) in
  let* results := verify in
  match marshal results with
  | Err e => fail (Errorf_w "testmode: failed to marshal results: %w" [] e)
  | Ok data =>
      let* _ := Fprintln out ResultStart in
      let* _ := Fprintln out data in
      let* _ := Fprintln out ResultEnd in
      reboot
  end.
End Verifier.
