(* ===== verification/TestModeSpec.v ===== *)
(** * TestModeSpec: what the post-init verifier reports. *)

From S2P Require Import Prelude GoStrings GoPath Effects OS TestMode.
Open Scope string_scope.
Open Scope list_scope.
Open Scope go_scope.

(** ** Counting *)

Definition checks_of (phases : list Phase) : list Check := concat (map p_Checks phases).
Definition passed_of (cs : list Check) : list Check := filter (fun c => c_Passed c = true) cs.

Lemma all_phases_forallb ps : all_phases ps = forallb p_Passed ps.
Proof.
  unfold all_phases. assert (forall b, fold_left (fun acc p => if p_Passed p then acc else false) ps b
    = b && forallb p_Passed ps) as H; [|by rewrite H].
  induction ps as [|p ps IH]; intros b; simpl; [by rewrite andb_true_r|].
  rewrite IH. by destruct (p_Passed p), b.
Qed.

Lemma count_phase cs t n :
  fold_left (fun '(t, n) c => (t + 1, if c_Passed c then n + 1 else n))%Z cs (t, n) =
  (t + Z.of_nat (List.length cs), n + Z.of_nat (List.length (passed_of cs)))%Z.
Proof.
  revert t n. induction cs as [|c cs IH]; intros t n; simpl; [f_equal; lia|].
  rewrite IH. unfold passed_of. rewrite filter_cons.
  destruct (c_Passed c); case_decide; try done; simpl; f_equal; lia.
Qed.

Lemma count_checks_eq ps :
  count_checks ps =
  (Z.of_nat (List.length (checks_of ps)), Z.of_nat (List.length (passed_of (checks_of ps)))).
Proof.
  unfold count_checks.
  assert (forall t n, fold_left (fun acc p =>
      fold_left (fun '(t, n) c => (t + 1, if c_Passed c then n + 1 else n))%Z (p_Checks p) acc)
      ps (t, n) = (t + Z.of_nat (List.length (checks_of ps)),
                   n + Z.of_nat (List.length (passed_of (checks_of ps))))%Z) as H.
  { induction ps as [|p ps IH]; intros t n; simpl; [f_equal; lia|].
    rewrite count_phase, IH. unfold checks_of, passed_of in *. simpl.
    rewrite filter_app, !length_app. f_equal; lia. }
  rewrite H. f_equal; lia.
Qed.

Section Verifier.
Context (err_text : error -> string) (quote : string -> string).

(** The calls of a check look and change nothing. *)
Definition looks : @guar call resp := fun _ c =>
  match c with Stat _ | ReadFile _ | Hostname => True | _ => False end.

(** A check that only looks and always reports under its name. *)
Definition check_named (name : string) (p : io Check) : Prop :=
  forall h, wp any_resp looks p (fun o _ => exists c, o = Done c /\ c_Name c = name) h.

Ltac check_tac :=
  intros h; repeat first [wp_step | progress wp_norm | exact I | eexists; split; [reflexivity|]; by repeat case_match].

Lemma checks_named :
  Forall2 check_named
    ["proc_mounted"; "etc_populated"; "run_k3os_exists"; "mode_file"; "expected_mode";
     "mode_target"; "pivot_root"; "hostname_set"]
    [checkProcMounted; checkEtcPopulated err_text; checkRunK3osExists;
     checkModeFile err_text quote; checkExpectedMode err_text quote; checkModeTarget err_text;
     checkPivotRoot; checkHostname err_text quote].
Proof using Type.
  unfold checkProcMounted, checkEtcPopulated, checkRunK3osExists, checkModeFile, checkExpectedMode,
    checkModeTarget, checkPivotRoot, checkHostname.
  repeat (apply List.Forall2_cons; [check_tac|]). apply List.Forall2_nil.
Qed.

(** A phase reports its checks in order and passes exactly when they all do. *)
Definition phase_spec (name : string) (names : list string) (p : Phase) : Prop :=
  p_Name p = name /\ map c_Name (p_Checks p) = names /\
  p_Passed p = forallb c_Passed (p_Checks p).

Lemma run_checks_wp names l h :
  Forall2 check_named names l ->
  wp any_resp looks (run_checks l) (fun o _ => exists cs, o = Done cs /\ map c_Name cs = names) h.
Proof using Type.
  intros Hl. revert h. induction Hl as [|n c names l Hc _ IH]; intros h; simpl; [by eexists|].
  apply wp_bind. eapply wp_mono; [|apply Hc]. intros o h1 (x & -> & <-). simpl.
  apply wp_bind. eapply wp_mono; [|apply IH]. intros o h2 (cs & -> & <-). simpl. by eexists.
Qed.

Lemma phase_wp name names l h :
  Forall2 check_named names l ->
  wp any_resp looks (phase name l) (fun o _ => exists p, o = Done p /\ phase_spec name names p) h.
Proof using Type.
  intros Hl. unfold phase. apply wp_bind. eapply wp_mono; [|by apply run_checks_wp].
  intros o h' (cs & -> & <-). simpl. eexists. split; [done|]. by split_and!.
Qed.

(** What [verify] reports. *)
Definition report (r : Results) : Prop :=
  Forall2 (fun '(name, names) p => phase_spec name names p)
    [("bootstrap", ["proc_mounted"; "etc_populated"]);
     ("mode_detection", ["run_k3os_exists"; "mode_file"; "expected_mode"]);
     ("mode_execution", ["mode_target"; "pivot_root"]);
     ("finalization", ["hostname_set"])] (r_Phases r) /\
  r_Passed r = forallb c_Passed (checks_of (r_Phases r)) /\
  r_Summary r = strconv_Itoa (Z.of_nat (List.length (passed_of (checks_of (r_Phases r)))))
                +:+ "/8 checks passed".

Ltac one name names :=
  apply wp_seq with (fun p _ => phase_spec name names p);
  [eapply wp_mono; [|apply (phase_wp name names); by repeat apply List.Forall2_cons];
   by intros ? ? (p & -> & ?)|].

Lemma verify_wp h :
  wp any_resp looks (verify err_text quote) (fun o _ => exists r, o = Done r /\ report r) h.
Proof using Type.
  pose proof checks_named as Hc.
  repeat match type of Hc with
  | Forall2 _ (_ :: _) _ => let H := fresh "C" in apply Forall2_cons in Hc as [H Hc]
  end.
  unfold verify.
  one "bootstrap" ["proc_mounted"; "etc_populated"]. intros p1 h1 H1.
  one "mode_detection" ["run_k3os_exists"; "mode_file"; "expected_mode"]. intros p2 h2 H2.
  one "mode_execution" ["mode_target"; "pivot_root"]. intros p3 h3 H3.
  one "finalization" ["hostname_set"]. intros p4 h4 H4.
  eexists. split; [done|]. unfold summarize. rewrite count_checks_eq.
  assert (List.length (checks_of [p1; p2; p3; p4]) = 8) as Hlen.
  { unfold checks_of. rewrite <- (length_map c_Name), concat_map, map_map. simpl.
    destruct H1 as (_ & -> & _), H2 as (_ & -> & _), H3 as (_ & -> & _), H4 as (_ & -> & _). done. }
  rewrite Hlen. split_and!; simpl.
  - by repeat (apply List.Forall2_cons; [done|]).
  - rewrite all_phases_forallb. unfold checks_of. simpl. rewrite !forallb_app.
    by destruct H1 as (_ & _ & ->), H2 as (_ & _ & ->), H3 as (_ & _ & ->), H4 as (_ & _ & ->).
  - done.
Qed.
End Verifier.

(** ** Properties *)


(** ** A concrete verification *)

Definition demo_vm (c : call) : option (resp c) :=
  match c return option (resp c) with
  | ReadFile p =>
      Some (if bool_decide (p = "/etc/passwd") then Ok "rancher:x:1000:1000::/home/rancher:/bin/bash"
            else if bool_decide (p = "/run/k3os/mode") then Ok ("local" +:+ nl) else Ok "quiet")
  | Hostname => Some (Ok "k3os-17")
  | _ => None
  end.

Definition demo_verifier : M unit :=
  Verifier_Run (fun _ => "error") (fun s => s) (fun r => Ok (r_Summary r))
    {| v_RebootFunc := Some (sys (Run "reboot" ["-f"])); v_Output := None |}.

