(* ===== verification/Config.v ===== *)
(** * Config: package [internal/config], reading and merging the configuration.

    The YAML codec, mergo and mapstructure are third-party packages and parameters of the section
    that uses them.  [map[string]interface{}] is a [gmap]; [putValue] and [normalizeData], which
    change a map in place, return the map as changed: the maps of a tree are not shared. *)

From S2P Require Import Prelude GoStrings GoPath GoEncoding Effects OS System.
Open Scope string_scope.
Open Scope list_scope.
Open Scope go_scope.

(** ** Data *)

(** The dynamic values: [string], [[]string], a nested map, or a value of another type (a YAML number,
    boolean, list), known by how [%v] prints it. *)
#[warnings="-register-all"]
Inductive value :=
| VString (s : string)
| VStrings (l : list string)
| VMap (m : gmap string value)
| VOther (printed : string).

Abbreviation data := (gmap string value).

Record Wifi := { wf_Name : string; wf_Passphrase : string }.

Record Install := {
  in_ForceEFI : bool; in_Device : string; in_ConfigURL : string; in_Silent : bool;
  in_ISOURL : string; in_PowerOff : bool; in_NoFormat : bool; in_Debug : bool; in_TTY : string;
}.

Record K3OS := {
  k_DataSources : list string; k_Modules : list string; k_Sysctls : gmap string string;
  k_NTPServers : list string; k_DNSNameservers : list string; k_Wifi : list Wifi;
  k_Password : string; k_ServerURL : string; k_Token : string; k_Labels : gmap string string;
  k_K3sArgs : list string; k_Environment : gmap string string; k_Taints : list string;
  k_Install : option Install;
}.

(** The Go type [File] (the name is taken by [iface.File]). *)
Record CFile := {
  cf_Encoding : string; cf_Content : string; cf_Owner : string; cf_Path : string;
  cf_RawFilePermissions : string;
}.

Record CloudConfig := {
  cc_SSHAuthorizedKeys : list string; cc_WriteFiles : list CFile; cc_Hostname : string;
  cc_K3OS : K3OS; cc_Runcmd : list string; cc_Bootcmd : list string; cc_Initcmd : list string;
}.

Definition emptyInstall : Install :=
  {| in_ForceEFI := false; in_Device := ""; in_ConfigURL := ""; in_Silent := false;
     in_ISOURL := ""; in_PowerOff := false; in_NoFormat := false; in_Debug := false; in_TTY := "" |}.

Definition emptyK3OS (install : option Install) : K3OS :=
  {| k_DataSources := []; k_Modules := []; k_Sysctls := ∅; k_NTPServers := [];
     k_DNSNameservers := []; k_Wifi := []; k_Password := ""; k_ServerURL := ""; k_Token := "";
     k_Labels := ∅; k_K3sArgs := []; k_Environment := ∅; k_Taints := []; k_Install := install |}.

Definition emptyCloudConfig (install : option Install) : CloudConfig :=
  {| cc_SSHAuthorizedKeys := []; cc_WriteFiles := []; cc_Hostname := "";
     cc_K3OS := emptyK3OS install; cc_Runcmd := []; cc_Bootcmd := []; cc_Initcmd := [] |}.

(** [File.Permissions]; [os.FileMode] is an unsigned 32-bit integer. *)
Definition Permissions (f : CFile) : result Z :=
  if bool_decide (cf_RawFilePermissions f = "") then Ok (oct 644)
  else
    match strconv_ParseInt (cf_RawFilePermissions f) 8 32 with
    | Err _ => Err (Errorf "unable to parse file permissions %q as integer" [cf_RawFilePermissions f])
    | Ok perm => Ok (perm mod 2 ^ 32)%Z
    end.

(** ** Nested maps (helpers.go) *)

(** The loop of [getValue] over the remaining keys. *)
Fixpoint get_path (current : value) (keys : list string) : option value :=
  match keys with
  | [] => Some current
  | key :: rest =>
      match current with
      | VMap m => match m !! key with Some v => get_path v rest | None => None end
      | _ => None
      end
  end.

Definition getValue (d : data) (keys : list string) : option value :=
  match keys with [] => None | _ => get_path (VMap d) keys end.

(** The map found under a key, a fresh one when there is none. *)
Definition sub_map (d : data) (key : string) : data :=
  match d !! key with Some (VMap m) => m | _ => ∅ end.

Fixpoint putValue (d : data) (val : value) (keys : list string) : data :=
  match keys with
  | [] => d
  | [key] => <[key := val]> d
  | key :: rest => <[key := VMap (putValue (sub_map d key) val rest)]> d
  end.

(** ** Key names *)

Section Names.
Context `{UnicodeTables}.

Definition underscore : Z := 95.

(** [camelToSnake] from the [i]th rune on: [prev] is the rune before, if there is one. *)
Fixpoint snake_go (prev : option Z) (rs : list Z) : list Z :=
  match rs with
  | [] => []
  | r :: rest =>
      let sep :=
        match prev with
        | Some p =>
            if unicode_IsUpper r then
              if unicode_IsLower p || unicode_IsDigit p then [underscore]
              else if unicode_IsUpper p &&
                      match rest with n :: _ => unicode_IsLower n | [] => false end
              then [underscore] else []
            else []
        | None => []
        end in
      sep ++ unicode_ToLower r :: snake_go (Some r) rest
  end.

(** [string([]rune)]: each rune in UTF-8. *)
Definition of_runes (rs : list Z) : string := concat_str (map encode_rune rs).

Definition camelToSnake (s : string) : string := of_runes (snake_go None (map fst (runes s))).

(** [matchName] (decode.go). *)
Definition aliases : list (string * string) := [("pass", "passphrase"); ("password", "passphrase")].

Definition matchName (mapKey fieldName : string) : bool :=
  let normalizedKey := strings_ToLower (camelToSnake mapKey) in
  let normalizedField := strings_ToLower (camelToSnake fieldName) in
  let keyNoSep := strings_ReplaceAll normalizedKey "_" "" in
  let fieldNoSep := strings_ReplaceAll normalizedField "_" "" in
  bool_decide (normalizedKey = normalizedField)
  || bool_decide (normalizedKey +:+ "s" = normalizedField)
  || bool_decide (normalizedKey +:+ "es" = normalizedField)
  || match find (fun p => bool_decide (fst p = normalizedKey)) aliases with
     | Some (_, target) =>
         bool_decide (normalizedField = target) || bool_decide (normalizedField = target +:+ "s")
     | None => false
     end
  || bool_decide (keyNoSep = fieldNoSep)
  || bool_decide (keyNoSep +:+ "s" = fieldNoSep)
  || bool_decide (keyNoSep +:+ "es" = fieldNoSep).

Definition normalizeKey (key : string) : string := strings_ToLower (camelToSnake key).

(** [normalizeData]: the loop visits the keys the map had when it started; a key it adds is
    normalized already, and visiting it too would change nothing.  [fuel] bounds the nesting. *)
Fixpoint normalizeData (fuel : nat) (d : data) : io data :=
  match fuel with
  | O => Halt OutOfFuel
  | S k =>
      let* keys := range_order (map fst (map_to_list d)) in
      for_fold keys d (fun key d =>
        match d !! key with
        | None => Ret d
        | Some val =>
            let* val := match val with
                        | VMap sub => let* sub := normalizeData k sub in Ret (VMap sub)
                        | _ => Ret val
                        end in
            let d := <[key := val]> d in
            let normalized := normalizeKey key in
            if bool_decide (normalized <> key) then Ret (<[normalized := val]> (delete key d))
            else Ret d
        end)
  end.
End Names.

(** ** The kernel command line (cmdline_reader.go) *)

Definition dquote : ascii := "034".
Definition hash_bang : string := "#!".

(** The quote-aware separator test of [splitCmdlineTokens]; the state is [lastQuote]. *)
Definition cmdline_sep (lastQuote c : Z) : Z * bool :=
  if (c =? lastQuote)%Z then (0, false)%Z
  else if negb (lastQuote =? 0)%Z then (lastQuote, false)
  else if (c =? 34)%Z then (c, false)
  else (lastQuote, (c =? 32) || (c =? 9) || (c =? 10) || (c =? 13))%Z.

Definition splitCmdlineTokens (raw : string) : list string :=
  strings_FieldsFunc cmdline_sep 0%Z raw.

Definition splitKeyValue (token : string) : string * string :=
  match strings_SplitN token "=" 2 with
  | key :: v :: _ => (key, strings_Trim v dquote)
  | [key] => (key, "true")
  | [] => ("", "true")
  end.

(** What both readers do with a key and a value: a first value is stored as a string, later ones
    accumulate into a list; a value under a key that holds anything else is dropped. *)
Definition accumulate (d : data) (keys : list string) (v : string) : data :=
  match getValue d keys with
  | Some (VString s) => putValue d (VStrings [s; v]) keys
  | Some (VStrings l) => putValue d (VStrings (l ++ [v])) keys
  | Some _ => d
  | None => putValue d (VString v) keys
  end.

(** The key path and value of a token. *)
Definition token_entry (token : string) : list string * string :=
  let '(key, v) := splitKeyValue token in (strings_Split (strings_Trim key dquote) ".", v).

Definition parseCmdlineArgs (raw : string) : data :=
  fold_left (fun d token =>
    if Nat.eqb (String.length token) 0 then d
    else let '(keys, v) := token_entry token in accumulate d keys v)
    (splitCmdlineTokens raw) ∅.

Definition cmdlineFile : string := "/proc/cmdline".

(** A reader's map; [None] is the nil map. *)
Definition none_if_empty (d : data) : option data := if bool_decide (d = ∅) then None else Some d.

Definition readCmdline : M (option data) :=
  let* content := sys (ReadFile cmdlineFile) in
  match content with
  | Ok content => ret (none_if_empty (parseCmdlineArgs content))
  | Err e => if errors_Is_NotExist e then ret None else fail e
  end.

(** ** The flags file (flags_reader.go) *)

Definition flagsFile : string := "/run/k3os/config.flags".

Definition splitFlagLine (line : string) : string * string :=
  match strings_SplitN line "=" 2 with
  | key :: v :: _ =>
      let v := strings_TrimSpace v in
      (strings_TrimSpace key, match strconv_Unquote v with Ok u => u | Err _ => v end)
  | [key] => (strings_TrimSpace key, "true")
  | [] => ("", "true")
  end.

(** One line of the scan. *)
Definition flag_line (d : data) (text : string) : data :=
  let line := strings_TrimSpace text in
  if bool_decide (line = "") || strings_HasPrefix line "#" then d
  else
    let '(key, v) := splitFlagLine line in
    if bool_decide (key = "") then d else accumulate d (strings_Split key ".") v.

Definition readFlagsFile : M (option data) :=
  let* f := sys (Open flagsFile) in
  match f with
  | Err e => if errors_Is_NotExist e then ret None else fail e
  | Ok f =>
      let* '(content, rerr) := sys (FileReadAll f) in
      let '(lines, scan_err) := bufio_Scan content rerr in
      let* _ := ignore (sys (FileClose f)) in
      match scan_err with
      | Some e => fail e
      | None => ret (none_if_empty (fold_left flag_line lines ∅))
      end
  end.

(** ** Files, cloud metadata and merging (read.go, read_cc.go, decode.go, write.go) *)

Section Sources.
Context `{UnicodeTables}.
Context (yaml_Unmarshal : string -> result data) (yaml_Marshal : CloudConfig -> result string).
Context (yaml_Install : Install -> result string).
Context (mergo_override : data -> data -> result data).
Context (mapstructure_Decode : (string -> string -> bool) -> data -> CloudConfig -> result CloudConfig).

Definition SystemConfig : string := RootPath ["config.yaml"].
Definition LocalConfig : string := LocalPath ["config.yaml"].
Definition localConfigs : string := LocalPath ["config.d"].
Definition hostnameFile : string := "/run/config/local_hostname".
Definition sshFile : string := "/run/config/ssh/authorized_keys".
Definition userdataFile : string := "/run/config/userdata".

Definition readFile (path : string) : M (option data) :=
  let* f := sys (ReadFile path) in
  match f with
  | Err e => if os_IsNotExist e then ret None else fail e
  | Ok f => Ret (result_map Some (yaml_Unmarshal f))
  end.

Definition readSystemConfig : M (option data) := readFile SystemConfig.
Definition readLocalConfig : M (option data) := readFile LocalConfig.

Definition readLocalConfigs : io (list (M (option data))) :=
  let* files := sys (ReadDir localConfigs) in
  match files with
  | Err e => if os_IsNotExist e then Ret [] else Ret [fail e]
  | Ok files => Ret (map (fun f => readFile (path_Join [localConfigs; de_name f])) files)
  end.

Definition readCloudConfig : M (option data) :=
  let* hostnameData := sys (ReadFile hostnameFile) in
  let res := match hostnameData with
             | Ok h => <["hostname" := VString (strings_TrimSpace h)]> (∅ : data)
             | Err _ => ∅
             end in
  let* keyData := sys (ReadFile sshFile) in
  match keyData with
  | Err _ => ret (Some res)
  | Ok keyData =>
      let keys := filter (fun l => l <> "") (map strings_TrimSpace (strings_Split keyData "010")) in
      ret (Some (if bool_decide (keys = []) then res
                 else <["ssh_authorized_keys" := VStrings keys]> res))
  end.

Definition userdata_config (f : CFile) : CloudConfig :=
  let c := emptyCloudConfig None in
  {| cc_SSHAuthorizedKeys := []; cc_WriteFiles := [f]; cc_Hostname := ""; cc_K3OS := cc_K3OS c;
     cc_Runcmd := ["source /run/k3os/userdata"]; cc_Bootcmd := []; cc_Initcmd := [] |}.

(** The file a user-data script becomes. *)
Definition script_file (encoding content : string) : CFile :=
  {| cf_Encoding := encoding; cf_Content := content; cf_Owner := "root";
     cf_Path := "/run/k3os/userdata"; cf_RawFilePermissions := "0700" |}.

(** [encodeCloudConfigToMap], and [encodeToMap] of read.go: through YAML and back. *)
Definition encodeCloudConfigToMap (cc : CloudConfig) : result data :=
  match yaml_Marshal cc with Err e => Err e | Ok raw => yaml_Unmarshal raw end.
Definition encodeToMap (cfg : CloudConfig) : result data :=
  match yaml_Marshal cfg with Err e => Err e | Ok raw => yaml_Unmarshal raw end.

Definition readUserData : M (option data) :=
  let* d := sys (ReadFile userdataFile) in
  match d with
  | Err e => if os_IsNotExist e then ret None else fail e
  | Ok d =>
      Ret (result_map Some
        (if mem_char "000" (chars d)
         then encodeCloudConfigToMap (userdata_config (script_file "b64" (base64_EncodeToString d)))
         else if strings_HasPrefix d hash_bang then encodeCloudConfigToMap (userdata_config (script_file "" d))
         else yaml_Unmarshal d))
  end.

(** [mergeData]; [None] is the nil map. *)
Definition mergeData (dst : data) (src : option data) : result data :=
  match src with None => Ok dst | Some src => mergo_override dst src end.

(** [merge]: every reader in order, its keys normalized, the later ones overriding. *)
Fixpoint merge_go (fuel : nat) (d : data) (readers : list (M (option data))) : M data :=
  match readers with
  | [] => ret d
  | r :: rest =>
      let! newData := r in
      match newData with
      | None => merge_go fuel d rest
      | Some newData =>
          let* newData := normalizeData fuel newData in
          match mergeData d (Some newData) with
          | Err e => fail e
          | Ok d => merge_go fuel d rest
          end
      end
  end.
Definition merge (fuel : nat) (readers : list (M (option data))) : M data := merge_go fuel ∅ readers.

Definition readers : list (M (option data)) :=
  [readSystemConfig; readCmdline; readFlagsFile; readLocalConfig; readCloudConfig; readUserData].

(** [decodeToObj]: names are matched by [matchName]. *)
Definition decodeToObj (d : data) (result : CloudConfig) : Prelude.result CloudConfig :=
  mapstructure_Decode matchName d result.

(** [readersToObject]: the decoder starts from an empty configuration with an empty [Install]. *)
Definition readersToObject (fuel : nat) (rs : list (M (option data))) : M CloudConfig :=
  let! d := merge fuel rs in
  Ret (decodeToObj d (emptyCloudConfig (Some emptyInstall))).

Definition ReadConfig (fuel : nat) : M CloudConfig :=
  let* locals := readLocalConfigs in
  readersToObject fuel (readers ++ locals).

(** [mapToEnv]: [KEY=value] for every leaf, nested keys joined by underscores. *)
Definition print_value (v : value) : string :=
  match v with
  | VString s => s
  | VStrings l => "[" +:+ strings_Join l " " +:+ "]"
  | VMap _ => ""
  | VOther s => s
  end.

Fixpoint mapToEnv (fuel : nat) (prefix : string) (d : data) : io (list string) :=
  match fuel with
  | O => Halt OutOfFuel
  | S fuel =>
      let* keys := range_order (map fst (map_to_list d)) in
      for_fold keys [] (fun k res =>
        let keyName := strings_ToUpper (prefix +:+ camelToSnake k) in
        match d !! k with
        | None => Ret res
        | Some (VMap sub) =>
            let* sub := mapToEnv fuel (keyName +:+ "_") sub in Ret (res ++ sub)
        | Some v => Ret (res ++ [keyName +:+ "=" +:+ print_value v])
        end)
  end.

Definition ToEnv (fuel : nat) (cfg : CloudConfig) : M (list string) :=
  match encodeToMap cfg with
  | Err e => fail e
  | Ok d => let* env := mapToEnv fuel "" d in ret env
  end.

(** [PrintInstall], [ToBytes]: the install settings are printed on their own and left out of the
    rest. *)
Definition without_install (c : CloudConfig) : CloudConfig :=
  let k := cc_K3OS c in
  {| cc_SSHAuthorizedKeys := cc_SSHAuthorizedKeys c; cc_WriteFiles := cc_WriteFiles c;
     cc_Hostname := cc_Hostname c;
     cc_K3OS := {| k_DataSources := k_DataSources k; k_Modules := k_Modules k;
                   k_Sysctls := k_Sysctls k; k_NTPServers := k_NTPServers k;
                   k_DNSNameservers := k_DNSNameservers k; k_Wifi := k_Wifi k;
                   k_Password := k_Password k; k_ServerURL := k_ServerURL k; k_Token := k_Token k;
                   k_Labels := k_Labels k; k_K3sArgs := k_K3sArgs k;
                   k_Environment := k_Environment k; k_Taints := k_Taints k; k_Install := None |};
     cc_Runcmd := cc_Runcmd c; cc_Bootcmd := cc_Bootcmd c; cc_Initcmd := cc_Initcmd c |}.

Definition PrintInstall (cfg : CloudConfig) : result (option string) :=
  match k_Install (cc_K3OS cfg) with
  | None => Ok None
  | Some i => result_map Some (yaml_Install i)
  end.

Definition ToBytes (cfg : CloudConfig) : result string := yaml_Marshal (without_install cfg).
End Sources.

Example cmdline_1 :
  getValue (parseCmdlineArgs "k3os.labels.a=x quiet k3os.dns=1 k3os.dns=2") ["k3os"; "dns"] =
  Some (VStrings ["1"; "2"]).
Proof. vm_compute. reflexivity. Qed.
