(* ===== verification/ConfigSpec.v ===== *)
(** * ConfigSpec: what reading the configuration guarantees. *)

From S2P Require Import Prelude GoStrings GoPath GoEncoding Effects OS System Config.
Open Scope string_scope.
Open Scope list_scope.
Open Scope go_scope.

(** ** The laws of nested maps *)

Lemma get_path_cons (d : data) k v ks :
  d !! k = Some v -> get_path (VMap d) (k :: ks) = get_path v ks.
Proof. intros H. simpl. by rewrite H. Qed.

Lemma put_cons (d : data) v k k' ks :
  putValue d v (k :: k' :: ks) = <[k := VMap (putValue (sub_map d k) v (k' :: ks))]> d.
Proof. done. Qed.

Lemma get_put_same (d : data) v keys :
  keys <> [] -> getValue (putValue d v keys) keys = Some v.
Proof.
  unfold getValue. revert d. induction keys as [|k [|k' ks] IH]; intros d Hne; [done| |].
  - simpl. by rewrite lookup_insert_eq.
  - rewrite put_cons. erewrite get_path_cons by apply lookup_insert_eq. by apply IH.
Qed.

(** Only paths that extend the written one, or that it extends, are touched. *)
Definition apart (k1 k2 : list string) : Prop := ~ k1 `prefix_of` k2 /\ ~ k2 `prefix_of` k1.

Lemma get_put_apart (d : data) v k1 k2 :
  apart k1 k2 -> getValue (putValue d v k1) k2 = getValue d k2.
Proof.
  unfold getValue. revert d k2. induction k1 as [|k [|k' ks] IH]; intros d k2 [H1 H2].
  - destruct H1. apply prefix_nil.
  - destruct k2 as [|x k2]; [by destruct H2; apply prefix_nil|]. simpl.
    destruct (decide (x = k)) as [->|]; [|by rewrite lookup_insert_ne].
    destruct H1. apply prefix_cons, prefix_nil.
  - destruct k2 as [|x k2]; [by destruct H2; apply prefix_nil|]. rewrite put_cons.
    destruct (decide (x = k)) as [->|Hx]; [|simpl; by rewrite lookup_insert_ne].
    assert (apart (k' :: ks) k2) as Hap.
    { split; intros Hp; [apply H1|apply H2]; by apply prefix_cons. }
    erewrite get_path_cons by apply lookup_insert_eq.
    specialize (IH (sub_map d k) k2 Hap).
    destruct k2 as [|y k2]; [by destruct Hap as [_ Hn]; destruct Hn; apply prefix_nil|].
    rewrite IH. unfold sub_map. simpl get_path at 2.
    destruct (d !! k) as [[]|] eqn:Hd; try reflexivity.
Qed.

(** ** Accumulating command-line values *)

(** How the values given under one key are held. *)
Definition held (vs : list string) : option value :=
  match vs with [] => None | [v] => Some (VString v) | _ => Some (VStrings vs) end.

(** The values the entries give under a key path, in order. *)
Definition values_of (entries : list (list string * string)) (keys : list string) : list string :=
  map snd (filter (fun e => fst e = keys) entries).

Lemma accumulate_same (d : data) keys v vs :
  keys <> [] -> getValue d keys = held vs ->
  getValue (accumulate d keys v) keys = held (vs ++ [v]).
Proof.
  intros Hne Hg. unfold accumulate. rewrite Hg.
  destruct vs as [|a [|b vs]]; simpl; by rewrite get_put_same.
Qed.

Lemma accumulate_apart (d : data) k1 k2 v :
  apart k1 k2 -> getValue (accumulate d k1 v) k2 = getValue d k2.
Proof.
  intros Ha. unfold accumulate.
  destruct (getValue d k1) as [[]|]; try done; by apply get_put_apart.
Qed.

(** No key path is another with more components. *)
Definition prefix_free (entries : list (list string * string)) : Prop :=
  forall k1 k2, k1 ∈ map fst entries -> k2 ∈ map fst entries -> k1 `prefix_of` k2 -> k1 = k2.

Lemma accumulate_all entries (d : data) keys vs :
  Forall (fun e => fst e <> []) entries ->
  (forall k, k ∈ map fst entries -> k = keys \/ apart k keys) ->
  keys <> [] -> getValue d keys = held vs ->
  getValue (fold_left (fun d '(ks, v) => accumulate d ks v) entries d) keys =
  held (vs ++ values_of entries keys).
Proof.
  intros Hne. revert d vs. induction Hne as [|[ks v] es Hk Hes IH]; intros d vs Hap Hkeys Hg.
  - simpl. by rewrite app_nil_r.
  - simpl. assert (ks ∈ map fst ((ks, v) :: es)) as Hin by (simpl; left).
    assert (forall k, k ∈ map fst es -> k = keys \/ apart k keys) as Hap'.
    { intros k Hi. apply Hap. simpl. by right. }
    unfold values_of. rewrite filter_cons. simpl fst.
    destruct (Hap ks Hin) as [->|Ha]; case_decide as Hd; try done.
    + simpl. rewrite (IH _ (vs ++ [v])), <- (assoc_L app); try done. by apply accumulate_same.
    + destruct Ha as [Ha _]. by destruct Ha; subst.
    + apply IH; try done. by rewrite accumulate_apart.
Qed.

(** The entries of a command line. *)
Definition cmdline_entries (raw : string) : list (list string * string) :=
  map token_entry (filter (fun t => t <> "") (splitCmdlineTokens raw)).

Lemma parseCmdlineArgs_entries raw :
  parseCmdlineArgs raw = fold_left (fun d '(ks, v) => accumulate d ks v) (cmdline_entries raw) ∅.
Proof.
  unfold parseCmdlineArgs, cmdline_entries. generalize (∅ : data).
  induction (splitCmdlineTokens raw) as [|t ts IH]; intros d; [done|].
  simpl. rewrite filter_cons, IH. destruct t as [|c t].
  - by rewrite decide_False by auto.
  - rewrite decide_True by done. simpl. by destruct (token_entry _).
Qed.

Lemma token_entry_keys t : fst (token_entry t) <> [].
Proof.
  unfold token_entry. destruct (splitKeyValue t). simpl. apply Split_nonempty.
Qed.

Lemma cmdline_entries_keys raw : Forall (fun e => fst e <> []) (cmdline_entries raw).
Proof.
  unfold cmdline_entries. induction (filter _ _) as [|t ts IH]; constructor; [|done].
  apply token_entry_keys.
Qed.

(** ** Key names *)

(** What the case tables beyond ASCII must satisfy: lower-casing gives no upper-case rune and has
    nothing left to do the second time. *)
Class LowerTables `{UnicodeTables} := {
  lower_not_upper : forall r, unicode_IsUpper (sanitize (unicode_ToLower r)) = false;
  lower_lower : forall r,
    unicode_ToLower (sanitize (unicode_ToLower r)) = sanitize (unicode_ToLower r);
}.

#[export] Instance ascii_lower : @LowerTables ascii_tables.
Proof.
  assert (forall r, sanitize (@unicode_ToLower ascii_tables r) =
    if in_ranges [(65, 90)%Z] r then (r + 32)%Z else sanitize r) as Hs.
  { intros r. unfold unicode_ToLower, in_ranges. simpl.
    destruct (Z.ltb_spec r 128); [|by replace ((65 <=? r) && (r <=? 90) || false)%Z with false by lia].
    destruct ((65 <=? r) && (r <=? 90) || false)%Z eqn:Hr; [|done].
    unfold sanitize, ValidRune. by replace ((0 <=? r + 32) && _ || _)%Z with true by lia. }
  assert (forall r, ~ (65 <= r <= 90)%Z -> in_ranges [(65, 90)%Z] r = false) as Hout.
  { intros r Hr. unfold in_ranges. simpl. lia. }
  assert (forall r, ~ (65 <= (if in_ranges [(65, 90)] r then r + 32 else sanitize r) <= 90))%Z as Hl.
  { intros r. unfold in_ranges. simpl. destruct ((65 <=? r) && (r <=? 90) || false)%Z eqn:Hr; [lia|].
    unfold sanitize. destruct (ValidRune r); [lia|]. unfold rune_error. lia. }
  split; intros r; rewrite Hs; specialize (Hl r); revert Hl;
    generalize (if in_ranges [(65, 90)%Z] r then r + 32 else sanitize r)%Z; intros x Hx.
  - unfold unicode_IsUpper. rewrite Hout by done. by destruct (x <? 128)%Z.
  - unfold unicode_ToLower. rewrite Hout by done. by destruct (x <? 128)%Z.
Qed.

Section Names.
Context `{LowerTables}.

(** Runes that lower-casing leaves alone and that are not upper case. *)
Definition settled (r : Z) : Prop :=
  unicode_IsUpper r = false /\ unicode_ToLower r = r /\ sanitize r = r.

Lemma snake_settled prev rs : Forall settled rs -> snake_go prev rs = rs.
Proof using Type.
  intros Hrs. revert prev. induction Hrs as [|r rs (Hu & Hl & _) _ IH]; intros prev; simpl; [done|].
  rewrite IH, Hl. destruct prev; by rewrite ?Hu.
Qed.

Lemma sanitize_idem r : sanitize (sanitize r) = sanitize r.
Proof using Type. unfold sanitize. destruct (ValidRune r) eqn:Hv; by rewrite ?Hv. Qed.

Lemma snake_output prev rs : Forall settled (map sanitize (snake_go prev rs)).
Proof using Type*.
  assert (forall r, settled (sanitize (unicode_ToLower r))) as Hlow.
  { intros r. split_and!; [apply lower_not_upper|apply lower_lower|apply sanitize_idem]. }
  revert prev. induction rs as [|r rs IH]; intros prev; simpl; [constructor|].
  rewrite map_app. apply Forall_app_2; [|by constructor].
  assert (Forall settled (map sanitize [underscore])) as Hu by (by constructor).
  repeat case_match; solve [exact Hu | constructor].
Qed.

Lemma runes_snake s :
  map fst (runes (camelToSnake s)) = map sanitize (snake_go None (map fst (runes s))).
Proof using Type. unfold camelToSnake, of_runes. by rewrite runes_of_runes, map_map. Qed.

Lemma of_runes_sanitize rs : of_runes (map sanitize rs) = of_runes rs.
Proof using Type.
  unfold of_runes. induction rs as [|r rs IH]; [done|]. simpl. by rewrite encode_sanitize, IH.
Qed.

Lemma camel_idem s : camelToSnake (camelToSnake s) = camelToSnake s.
Proof using Type*.
  unfold camelToSnake at 1. rewrite runes_snake, snake_settled by apply snake_output.
  apply of_runes_sanitize.
Qed.

(** Lower-casing a snake-case name changes nothing. *)
Lemma lower_snake s : strings_ToLower (camelToSnake s) = camelToSnake s.
Proof using Type*.
  unfold strings_ToLower. rewrite <- (map_map fst (fun r => encode_rune (unicode_ToLower r))).
  rewrite runes_snake. etrans; [|apply of_runes_sanitize]. unfold of_runes. f_equal.
  pose proof (snake_output None (map fst (runes s))) as Hs.
  induction Hs as [|r rs (_ & Hl & _) _ IH]; simpl; [done|]. by rewrite Hl, IH.
Qed.
End Names.

(** ** Normalizing the keys of a tree *)

Section Normalize.
Context `{LowerTables}.

Lemma normalizeKey_eq k : normalizeKey k = camelToSnake k.
Proof using Type*. apply lower_snake. Qed.

Lemma normalizeKey_idem k : normalizeKey (normalizeKey k) = normalizeKey k.
Proof using Type*. rewrite !normalizeKey_eq. apply camel_idem. Qed.

(** [v'] is [v] with every key at every level normalized, nothing lost and nothing added. *)
Inductive renamed : value -> value -> Prop :=
| ren_leaf v : match v with VMap _ => False | _ => True end -> renamed v v
| ren_map (m m' : data) :
    (forall k v, m !! k = Some v -> exists v', m' !! normalizeKey k = Some v' /\ renamed v v') ->
    (forall k', is_Some (m' !! k') -> exists k, is_Some (m !! k) /\ normalizeKey k = k') ->
    renamed (VMap m) (VMap m').

(** No two keys of one map become the same; [n] bounds the nesting. *)
Fixpoint distinct_keys (n : nat) (d : data) : Prop :=
  match n with
  | O => False
  | S n =>
      (forall k1 k2, is_Some (d !! k1) -> is_Some (d !! k2) ->
         normalizeKey k1 = normalizeKey k2 -> k1 = k2) /\
      (forall k sub, d !! k = Some (VMap sub) -> distinct_keys n sub)
  end.

(** The loop: the keys in [l] are still to visit, the others have been renamed. *)
Definition norm_inv (d : data) (l : list string) (dc : data) : Prop :=
  (forall k v, d !! k = Some v -> k ∈ l -> dc !! k = Some v) /\
  (forall k v, d !! k = Some v -> k ∉ l ->
     exists v', dc !! normalizeKey k = Some v' /\ renamed v v') /\
  (forall k', is_Some (dc !! k') ->
     (k' ∈ l /\ is_Some (d !! k')) \/
     (exists k, is_Some (d !! k) /\ (k ∉ l) /\ normalizeKey k = k')).

(** What one visit does to the map. *)
Definition visit (dc : data) (key : string) (val' : value) : data :=
  if bool_decide (normalizeKey key <> key)
  then <[normalizeKey key := val']> (delete key (<[key := val']> dc))
  else <[key := val']> dc.

Lemma lookup_visit dc key val' k :
  visit dc key val' !! k =
  if decide (k = normalizeKey key) then Some val' else if decide (k = key) then None else dc !! k.
Proof using Type.
  unfold visit. case_bool_decide as Hn.
  - destruct (decide (k = _)) as [->|]; [by rewrite lookup_insert_eq|].
    rewrite lookup_insert_ne by done. destruct (decide (k = key)) as [->|].
    + apply lookup_delete_eq.
    + by rewrite lookup_delete_ne, lookup_insert_ne by done.
  - rewrite Hn.
    destruct (decide (k = key)) as [->|]; [by rewrite lookup_insert_eq|].
    by rewrite lookup_insert_ne.
Qed.

Lemma norm_inv_step n d key val val' l dc :
  distinct_keys (S n) d -> NoDup (key :: l) -> d !! key = Some val -> renamed val val' ->
  norm_inv d (key :: l) dc -> norm_inv d l (visit dc key val').
Proof using Type*.
  intros [Hinj _] Hnd Hkey Hren (Hto & Hdone & Hall).
  apply NoDup_cons in Hnd as [Hkl Hnd].
  assert (is_Some (d !! key)) as Hsk by (by eexists).
  split_and!.
  - intros k v Hk Hl. rewrite lookup_visit.
    destruct (decide (k = normalizeKey key)) as [->|].
    { destruct Hkl. rewrite (Hinj key (normalizeKey key)); [done|done|by eexists|].
      by rewrite normalizeKey_idem. }
    rewrite decide_False by (by intros ->). apply Hto; [done|by right].
  - intros k v Hk Hl. rewrite lookup_visit. destruct (decide (k = key)) as [->|Hne].
    { rewrite decide_True by done. exists val'. split; [done|]. congruence. }
    destruct (Hdone k v Hk) as (v' & Hv' & Hr).
    { intros [?|?]%elem_of_cons; done. }
    rewrite decide_False, decide_False; [by exists v'| |].
    + intros Heq. apply Hne. apply Hinj; [by eexists|done|]. by rewrite <- Heq, normalizeKey_idem.
    + intros Heq. apply Hne. apply Hinj; [by eexists|done|done].
  - intros k' Hk'. rewrite lookup_visit in Hk'.
    destruct (decide (k' = normalizeKey key)) as [->|Hn1]; [by right; exists key|].
    destruct (decide (k' = key)) as [->|Hn2]; [by destruct Hk'|].
    destruct (Hall k' Hk') as [[Hl Hd]|(k & Hd & Hl & Heq)].
    + apply elem_of_cons in Hl as [?|Hl]; [done|by left].
    + right. exists k. split_and!; [done| |done]. intros Hin. apply Hl. by right.
Qed.

Lemma normalizeData_wp n d h :
  distinct_keys n d ->
  wp any_resp any_call (normalizeData n d)
    (fun o _ => exists d', o = Done d' /\ renamed (VMap d) (VMap d')) h.
Proof using Type*.
  revert d h. induction n as [|n IH]; intros d h Hd; [done|].
  cbn [normalizeData]. unfold range_order. wp_norm. split; [done|]. intros order _. wp_norm.
  set (keys := if decide _ then _ else _).
  assert (keys ≡ₚ map fst (map_to_list d)) as Hperm by apply range_order_perm.
  clearbody keys.
  assert (NoDup keys) as Hnd by (rewrite Hperm; apply NoDup_fst_map_to_list).
  assert (forall k, k ∈ keys <-> is_Some (d !! k)) as Hdom.
  { intros k. rewrite Hperm. split.
    - intros ([k' v] & -> & Hin%elem_of_map_to_list)%list_elem_of_fmap. by eexists.
    - intros [v Hv]. apply list_elem_of_fmap. exists (k, v). by rewrite elem_of_map_to_list. }
  apply wp_for_fold with (I := fun l dc _ => norm_inv d l dc /\ NoDup l /\ forall k, k ∈ l -> k ∈ keys).
  - split; [|done]. unfold norm_inv. split_and!; [done| |].
    + intros k v Hk Hnot. destruct Hnot. apply Hdom. by eexists.
    + intros k' Hk'. left. by rewrite Hdom.
  - intros dc h' [(Hto & Hdone & Hall) _]. exists dc. split; [done|]. constructor.
    + intros k v Hk. apply Hdone; [done|apply not_elem_of_nil].
    + intros k' Hk'. destruct (Hall k' Hk') as [[Hl _]|(k & Hk & _ & Heq)]; [|by exists k].
      by apply not_elem_of_nil in Hl.
  - intros key l dc h' (Hinv & Hndl & Hsub).
    destruct (proj1 (Hdom key) (Hsub key ltac:(left))) as [val Hval].
    rewrite (proj1 Hinv key val Hval) by left.
    assert (forall val', renamed val val' ->
      norm_inv d l (visit dc key val') /\ NoDup l /\ forall k, k ∈ l -> k ∈ keys) as Hnext.
    { intros val' Hr. split_and!.
      - by apply norm_inv_step with n val.
      - by apply NoDup_cons in Hndl as [_ Hndl].
      - intros k Hk. apply Hsub. by right. }
    assert (forall val' (Q : outcome data -> list ev -> Prop) h0, renamed val val' ->
      (forall s, norm_inv d l s /\ NoDup l /\ (forall k, k ∈ l -> k ∈ keys) -> Q (Done s) h0) ->
      wp any_resp any_call
        (if bool_decide (normalizeKey key <> key)
         then Ret (<[normalizeKey key := val']> (delete key (<[key := val']> dc)))
         else Ret (<[key := val']> dc)) Q h0) as Hlast.
    { intros val' Q h0 Hr HQ. specialize (HQ _ (Hnext val' Hr)). unfold visit in HQ.
      by destruct (bool_decide _). }
    destruct val as [s|s|sub|s].
    1,2,4: wp_head; apply Hlast; [by constructor|done].
    apply wp_bind, wp_bind. eapply wp_mono; [|apply (IH sub)].
    + intros o h1 (sub' & -> & Hr). wp_head. by apply Hlast.
    + destruct Hd as [_ Hd]. by apply (Hd key).
Qed.
End Normalize.

(** ** Properties *)

(** [getValue] and [putValue] are lookup and update of a tree: what was put under a path is
    found there, and a path that neither extends the written one nor is extended by it is not
    affected. *)
Theorem getValue_putValue (d : data) v keys :
  keys <> [] ->
  getValue (putValue d v keys) keys = Some v /\
  forall keys', apart keys keys' -> getValue (putValue d v keys) keys' = getValue d keys'.
Proof. intros Hne. split; [by apply get_put_same|]. intros keys' Ha. by apply get_put_apart. Qed.

(** The command line reader accumulates.  On a command line none of whose key paths extends
    another, [parseCmdlineArgs] holds under each path given exactly the values given for it, in the
    order given: a string when there is one, a list when there are more. *)
Theorem parseCmdlineArgs_accumulates raw keys :
  prefix_free (cmdline_entries raw) ->
  keys ∈ map fst (cmdline_entries raw) ->
  getValue (parseCmdlineArgs raw) keys = held (values_of (cmdline_entries raw) keys).
Proof.
  intros Hpf Hin. rewrite parseCmdlineArgs_entries.
  assert (keys <> []) as Hne.
  { pose proof (cmdline_entries_keys raw) as Hk. apply list_elem_of_fmap in Hin as (e & -> & He).
    by eapply Forall_forall in Hk. }
  apply (accumulate_all _ _ _ []); [apply cmdline_entries_keys| |done|].
  - intros k Hk. destruct (decide (k = keys)) as [|Hd]; [by left|right].
    split; intros Hp; apply Hd; [|symmetry]; by apply Hpf.
  - unfold getValue. destruct keys; [done|]. simpl. by rewrite lookup_empty.
Qed.

(** [normalizeData] renames every key of a tree, at every level, whatever order the runtime
    visits the keys in: when no two keys of one map become the same it always finishes, every value
    is found under its normalized key with its own keys normalized, and no other key is left. *)
Theorem normalizeData_renames `{LowerTables} n d h h' o :
  distinct_keys n d ->
  exec any_resp (normalizeData n d) h h' o -> o <> Running ->
  exists d', o = Done d' /\ renamed (VMap d) (VMap d').
Proof.
  intros Hd Hex Ho. destruct (wp_sound _ _ _ _ _ _ _ (normalizeData_wp n d h Hd) Hex) as [_ HQ].
  by apply HQ.
Qed.

(** ** Concrete configurations *)

Lemma getValue_putValue_witness :
  ["k3os"; "mode"] <> [] /\
  getValue (putValue (putValue ∅ (VString "x") ["k3os"; "token"]) (VString "live") ["k3os"; "mode"])
    ["k3os"; "token"] = Some (VString "x").
Proof.
  split; [discriminate|].
  rewrite (proj2 (getValue_putValue _ (VString "live") ["k3os"; "mode"] ltac:(discriminate))).
  - apply (proj1 (getValue_putValue ∅ (VString "x") ["k3os"; "token"] ltac:(discriminate))).
  - split; intros [k Hk]; vm_compute in Hk; discriminate.
Defined.

Definition demo_cmdline : string :=
  "k3os.dns=1.1.1.1 quiet k3os.label=" +:+ dq +:+ "a b" +:+ dq +:+ " k3os.dns=8.8.8.8".

Lemma parseCmdlineArgs_accumulates_witness :
  prefix_free (cmdline_entries demo_cmdline) /\
  getValue (parseCmdlineArgs demo_cmdline) ["k3os"; "dns"] = Some (VStrings ["1.1.1.1"; "8.8.8.8"]).
Proof.
  assert (prefix_free (cmdline_entries demo_cmdline)) as Hpf.
  { intros k1 k2 H1 H2 Hp. vm_compute in H1, H2.
    repeat (apply elem_of_cons in H1 as [->|H1]); [..|by apply not_elem_of_nil in H1];
      (repeat (apply elem_of_cons in H2 as [->|H2]); [..|by apply not_elem_of_nil in H2]);
      try reflexivity; by destruct Hp as [k Hp]. }
  split; [exact Hpf|].
  rewrite (parseCmdlineArgs_accumulates demo_cmdline ["k3os"; "dns"] Hpf); [reflexivity|].
  refine (bool_decide_unpack _ _). vm_compute. exact I.
Defined.

Definition demo_tree : data := <["serverUrl" := VString "u"]> (<["K3sArgs" := VStrings ["a"]]> ∅).

Lemma normalizeData_renames_witness :
  distinct_keys 1 demo_tree /\
  exists d', renamed (VMap demo_tree) (VMap d') /\
    d' !! "server_url" = Some (VString "u").
Proof.
  assert (distinct_keys 1 demo_tree) as Hd.
  { split.
    - intros k1 k2 [v1 H1] [v2 H2] Heq. unfold demo_tree in *.
      apply lookup_insert_Some in H1 as [[<- _]|[_ H1]]; [|apply lookup_insert_Some in H1 as [[<- _]|[_ H1]]; [|done]];
      (apply lookup_insert_Some in H2 as [[<- _]|[_ H2]]; [|apply lookup_insert_Some in H2 as [[<- _]|[_ H2]]; [|done]]);
      try reflexivity; vm_compute in Heq; discriminate.
    - intros k sub Hs. unfold demo_tree in Hs.
      apply lookup_insert_Some in Hs as [[_ Hs]|[_ Hs]]; [discriminate|].
      apply lookup_insert_Some in Hs as [[_ Hs]|[_ Hs]]; discriminate. }
  split; [exact Hd|].
  pose proof (world_exec (fun _ => None) (normalizeData 1 demo_tree)) as H.
  destruct (final (fun _ => None) (normalizeData 1 demo_tree)) as [d'|s|] eqn:Hf;
    [|vm_compute in Hf; discriminate|vm_compute in Hf; discriminate].
  destruct (normalizeData_renames 1 demo_tree _ _ _ Hd H ltac:(discriminate)) as (x & [= ->] & Hr).
  exists x. split; [exact Hr|]. vm_compute in Hf. injection Hf as <-. reflexivity.
Defined.
