(* ===== verification/ConfigMerge.v ===== *)
(** * ConfigMerge: which of the configuration's sources a setting comes from. *)

From S2P Require Import Prelude GoStrings GoPath Effects OS System Config ConfigSpec.
Open Scope string_scope.
Open Scope list_scope.
Open Scope go_scope.

(** A value of a setting that is not empty. *)
Definition setting (v : value) : Prop :=
  match v with VString s => s <> "" | VStrings l => l <> [] | _ => False end.

(** The tree says nothing of a path: where it ends there is nothing, and no value but a map is in
    its way. *)
Fixpoint silent (d : data) (keys : list string) : Prop :=
  match keys with
  | [] => False
  | [k] => d !! k = None
  | k :: rest => match d !! k with None => True | Some (VMap m) => silent m rest | Some _ => False end
  end.

(** [mergo.Merge] with [WithOverride], as it is documented: maps are merged key by key at every level,
    non-empty values of the source override what the destination has, the rest stays. *)
Class Mergo (mergo_override : data -> data -> result data) := {
  mergo_sets d e r keys v :
    mergo_override d e = Ok r -> getValue e keys = Some v -> setting v -> getValue r keys = Some v;
  mergo_keeps d e r keys :
    mergo_override d e = Ok r -> silent e keys -> getValue r keys = getValue d keys;
}.

Section Merge.
Context `{UnicodeTables} (mergo_override : data -> data -> result data) (fuel : nat).

#[local] Abbreviation merge_go := (merge_go mergo_override fuel).

(** The readers ran one after the other; the trees they gave, normalized, in this order. *)
Inductive merge_runs : list (M (option data)) -> list ev -> list ev -> list data -> Prop :=
| runs_nil h : merge_runs [] h h []
| runs_nothing r rs h h1 h2 l :
    exec any_resp r h h1 (Done (Ok None)) -> merge_runs rs h1 h2 l -> merge_runs (r :: rs) h h2 l
| runs_tree r rs h h1 h2 h3 d n l :
    exec any_resp r h h1 (Done (Ok (Some d))) ->
    exec any_resp (normalizeData fuel d) h1 h2 (Done n) ->
    merge_runs rs h2 h3 l -> merge_runs (r :: rs) h h3 (n :: l).

(** The trees merged from the first to the last. *)
Fixpoint merged (d : data) (l : list data) : result data :=
  match l with
  | [] => Ok d
  | n :: l => match mergo_override d n with Ok d => merged d l | Err e => Err e end
  end.

Lemma merge_go_runs rs d h h' r :
  exec any_resp (merge_go d rs) h h' (Done (Ok r)) ->
  exists l, merge_runs rs h h' l /\ merged d l = Ok r.
Proof using Type.
  revert d h. induction rs as [|rd rs IH]; intros d h Hex.
  - apply exec_inv in Hex as [[= ->] ->]. exists []. by split; [constructor|].
  - cbn [Config.merge_go] in Hex. unfold bindE in Hex.
    apply exec_bind_inv in Hex as ([[d1|]|e] & h1 & Hr & Hk).
    + apply exec_bind_inv in Hk as (n & h2 & Hn & Hk). simpl in Hk.
      destruct (mergo_override d n) as [d2|e] eqn:Hm; [|by apply exec_inv in Hk as [[=] _]].
      apply IH in Hk as (l & Hl & Hd). exists (n :: l). split; [by econstructor|]. simpl. by rewrite Hm.
    + apply IH in Hk as (l & Hl & Hd). exists l. by split; [eapply runs_nothing|].
    + by apply exec_inv in Hk as [[=] _].
Qed.

Context `{!Mergo mergo_override}.

Lemma merged_keeps d l r keys :
  merged d l = Ok r -> Forall (fun n => silent n keys) l -> getValue r keys = getValue d keys.
Proof using Type*.
  revert d. induction l as [|n l IH]; intros d Hm Hs; simpl in Hm; [by injection Hm as ->|].
  destruct (mergo_override d n) as [d'|e] eqn:Hd; [|done]. apply Forall_cons in Hs as [Hn Hs].
  rewrite (IH d') by done. by apply (mergo_keeps d n).
Qed.

Lemma merged_sets d l1 n l2 r keys v :
  merged d (l1 ++ n :: l2) = Ok r -> getValue n keys = Some v -> setting v ->
  Forall (fun n => silent n keys) l2 -> getValue r keys = Some v.
Proof using Type*.
  revert d. induction l1 as [|n1 l1 IH]; intros d Hm Hv Hs Hl; simpl in Hm;
    destruct (mergo_override d _) as [d'|e] eqn:Hd; try done; [|by apply (IH d')].
  rewrite (merged_keeps d' l2) by done. by apply (mergo_sets d n).
Qed.
End Merge.

(** ** A merge that does as documented *)

(** Values [mergo] takes for empty. *)
Definition no_value (v : value) : bool :=
  match v with
  | VString s => bool_decide (s = "")
  | VStrings l => bool_decide (l = [])
  | VMap m => bool_decide (m = ∅)
  | VOther _ => false
  end.

(** A value laid over the one there is. *)
Definition lay (over : data -> data -> result data) (v : value) (old : option value) : result value :=
  match v, old with
  | VMap m, Some (VMap m') => result_map VMap (over m' m)
  | _, Some o => Ok (if no_value v then o else v)
  | _, None => Ok v
  end.

(** A map laid over another, as deep as [n] maps. *)
Fixpoint overlay (n : nat) (d e : data) : result data :=
  match n with
  | O => Err (Errorf "too deep" [])
  | S n =>
      map_fold (fun k v acc =>
        match acc with
        | Err err => Err err
        | Ok r => match lay (overlay n) v (r !! k) with Ok w => Ok (<[k := w]> r) | Err err => Err err end
        end) (Ok d) e
  end.

(** What lies under each key afterwards. *)
Lemma overlay_lookup n d e r k :
  overlay (S n) d e = Ok r ->
  match e !! k with
  | None => r !! k = d !! k
  | Some v => exists w, lay (overlay n) v (d !! k) = Ok w /\ r !! k = Some w
  end.
Proof.
  simpl. revert r k.
  apply (map_fold_weak_ind (fun acc (e : data) => forall r k, acc = Ok r ->
    match e !! k with
    | None => r !! k = d !! k
    | Some v => exists w, lay (overlay n) v (d !! k) = Ok w /\ r !! k = Some w
    end)); [by intros r k [= ->]|].
  intros i v m [r|err] Hi IH r' k Hr; [|done].
  pose proof (IH r i eq_refl) as Hri. rewrite Hi in Hri. rewrite Hri in Hr.
  destruct (lay _ _ _) as [w|] eqn:Hw; [|done]. injection Hr as <-.
  destruct (decide (i = k)) as [->|Hk].
  - rewrite !lookup_insert_eq. by exists w.
  - rewrite !lookup_insert_ne by done. by apply IH.
Qed.

Lemma getValue_cons (d : data) k ks :
  getValue d (k :: ks) = match d !! k with Some v => get_path v ks | None => None end.
Proof. done. Qed.

Lemma silent_getValue d keys : silent d keys -> getValue d keys = None.
Proof.
  revert d. induction keys as [|k [|k2 keys] IH]; intros d; [done| |].
  - intros Hs. rewrite getValue_cons. simpl in Hs. by rewrite Hs.
  - intros Hs. rewrite getValue_cons. simpl in Hs.
    destruct (d !! k) as [[]|]; try done. by apply IH.
Qed.

#[export] Instance overlay_mergo n : Mergo (overlay n).
Proof.
  split; induction n as [|n IH]; try done; intros d e r keys.
  - intros v Hr Hv Hs. destruct keys as [|k keys]; [done|].
    apply (overlay_lookup n d e r k) in Hr. rewrite getValue_cons in *.
    destruct (e !! k) as [v'|]; [|done]. destruct Hr as (w & Hw & ->). destruct keys as [|k2 keys].
    + injection Hv as ->. destruct v as [s|l| |]; try done; destruct (d !! k); simpl in Hw;
        rewrite ?bool_decide_eq_false_2 in Hw by done; by injection Hw as <-.
    + destruct v' as [| |m|]; try done.
      destruct (d !! k) as [[| |m'|]|]; simpl in Hw; try by injection Hw as <-.
      all: try (case_bool_decide; [by subst|by injection Hw as <-]).
      destruct (overlay n m' m) as [r'|] eqn:Hr'; [|done]. injection Hw as <-.
      by apply (IH m' m r' (k2 :: keys) v).
  - intros Hr Hs. destruct keys as [|k keys]; [done|].
    apply (overlay_lookup n d e r k) in Hr. rewrite !getValue_cons.
    destruct keys as [|k2 keys]; [simpl in Hs; rewrite Hs in Hr; by rewrite Hr|].
    simpl in Hs. destruct (e !! k) as [[| |m|]|]; try done; [|by rewrite Hr].
    destruct Hr as (w & Hw & ->).
    destruct (d !! k) as [[| |m'|]|]; simpl in Hw.
    all: try (injection Hw as <-; try case_bool_decide; try done;
              by apply (silent_getValue m (k2 :: keys))).
    destruct (overlay n m' m) as [r'|] eqn:Hr'; [|done]. injection Hw as <-.
    by apply (IH m' m r' (k2 :: keys)).
Qed.


(** ** A machine with two sources *)

(** The system's file and one file of config.d, each naming a host; nothing else is there. *)
Definition two_sources (c : call) : option (resp c) :=
  match c return option (resp c) with
  | ReadDir _ => Some (Ok [{| de_name := "90.yaml"; de_is_dir := false; de_info := Err (ErrText "unknown") |}])
  | ReadFile p =>
      Some (if bool_decide (p = SystemConfig) then Ok "base"
            else if bool_decide (p = path_Join [localConfigs; "90.yaml"]) then Ok "late"
            else Err (ErrSys "open" p ENOENT))
  | Open p => Some (Err (ErrSys "open" p ENOENT))
  | _ => None
  end.

Definition demo_yaml (text : string) : result data := Ok {["HostName" := VString text]}.

Definition demo_decode (_ : string -> string -> bool) (d : data) (c : CloudConfig) : result CloudConfig :=
  match getValue d ["host_name"] with
  | Some (VString s) =>
      Ok {| cc_SSHAuthorizedKeys := []; cc_WriteFiles := []; cc_Hostname := s; cc_K3OS := cc_K3OS c;
            cc_Runcmd := []; cc_Bootcmd := []; cc_Initcmd := [] |}
  | _ => Ok c
  end.

#[local] Abbreviation demo_read :=
  (ReadConfig demo_yaml (fun _ => Ok "") (overlay 3) demo_decode 3).

