(* ===== verification/MountPkg.v ===== *)
(** * MountPkg: package [internal/mount], and the mounts, nodes and links of package
    [internal/namespace]. *)

From S2P Require Import Prelude GoStrings GoPath Effects OS.
Open Scope string_scope.
Open Scope list_scope.
Open Scope go_scope.

(** ** Mount options (flags.go, flags_linux.go) *)

Definition RDONLY : Z := 1.
Definition NOSUID : Z := 2.
Definition NODEV : Z := 4.
Definition NOEXEC : Z := 8.
Definition SYNCHRONOUS : Z := 16.
Definition REMOUNT : Z := 32.
Definition MANDLOCK : Z := 64.
Definition DIRSYNC : Z := 128.
Definition NOATIME : Z := 1024.
Definition NODIRATIME : Z := 2048.
Definition BIND : Z := 4096.
Definition MS_REC : Z := 16384.
Definition RBIND : Z := Z.lor BIND MS_REC.
Definition UNBINDABLE : Z := Z.shiftl 1 17.
Definition RUNBINDABLE : Z := Z.lor UNBINDABLE MS_REC.
Definition PRIVATE : Z := Z.shiftl 1 18.
Definition RPRIVATE : Z := Z.lor PRIVATE MS_REC.
Definition SLAVE : Z := Z.shiftl 1 19.
Definition RSLAVE : Z := Z.lor SLAVE MS_REC.
Definition SHARED : Z := Z.shiftl 1 20.
Definition RSHARED : Z := Z.lor SHARED MS_REC.
Definition RELATIME : Z := Z.shiftl 1 21.
Definition STRICTATIME : Z := Z.shiftl 1 24.

(** [flags]: whether the option clears, and which bits. *)
Definition flags : list (string * (bool * Z)) :=
  [("defaults", (false, 0%Z)); ("ro", (false, RDONLY)); ("rw", (true, RDONLY));
   ("suid", (true, NOSUID)); ("nosuid", (false, NOSUID)); ("dev", (true, NODEV));
   ("nodev", (false, NODEV)); ("exec", (true, NOEXEC)); ("noexec", (false, NOEXEC));
   ("sync", (false, SYNCHRONOUS)); ("async", (true, SYNCHRONOUS)); ("dirsync", (false, DIRSYNC));
   ("remount", (false, REMOUNT)); ("mand", (false, MANDLOCK)); ("nomand", (true, MANDLOCK));
   ("atime", (true, NOATIME)); ("noatime", (false, NOATIME)); ("diratime", (true, NODIRATIME));
   ("nodiratime", (false, NODIRATIME)); ("bind", (false, BIND)); ("rbind", (false, RBIND));
   ("unbindable", (false, UNBINDABLE)); ("runbindable", (false, RUNBINDABLE));
   ("private", (false, PRIVATE)); ("rprivate", (false, RPRIVATE)); ("shared", (false, SHARED));
   ("rshared", (false, RSHARED)); ("slave", (false, SLAVE)); ("rslave", (false, RSLAVE));
   ("relatime", (false, RELATIME)); ("norelatime", (true, RELATIME));
   ("strictatime", (false, STRICTATIME)); ("nostrictatime", (true, STRICTATIME))].

Definition find_flag (o : string) : option (bool * Z) :=
  snd <$> find (fun p => bool_decide (fst p = o)) flags.

(** One option: a flag of the table that is not zero, or a piece of data. *)
Definition parse_option (acc : Z * list string) (o : string) : Z * list string :=
  let '(flag, data) := acc in
  match find_flag o with
  | Some (clear, f) =>
      if negb (f =? 0)%Z then
        (if clear : bool then Z.land flag (Z.lnot f) else Z.lor flag f, data)
      else (flag, data ++ [o])
  | None => (flag, data ++ [o])
  end.

Definition parseOptions (options : string) : Z * string :=
  let '(flag, data) := fold_left parse_option (strings_Split options ",") (0%Z, []) in
  (flag, strings_Join data ",").

(** ** /proc/self/mountinfo (mount.go) *)

Record Info := {
  mi_ID : Z; mi_Parent : Z; mi_Major : Z; mi_Minor : Z;
  mi_Root : string; mi_Mountpoint : string; mi_Opts : string; mi_Optional : string;
  mi_Fstype : string; mi_Source : string; mi_VfsOpts : string;
}.

(** [fmt.Sscanf] with the verbs and literals of [mountinfoFormat], over the runes of one line. *)
Abbreviation input := (list (Z * string)).
Definition scan (A : Type) : Type := input -> option (A * input).

Definition scan_bind {A B} (p : scan A) (f : A -> scan B) : scan B :=
  fun l => match p l with Some (a, l') => f a l' | None => None end.
Definition scan_ret {A} (a : A) : scan A := fun l => Some (a, l).

(** The runes up to the first that fails the test. *)
Fixpoint span (f : Z -> bool) (l : input) : input * input :=
  match l with
  | (r, b) :: l' => if f r then let '(x, y) := span f l' in ((r, b) :: x, y) else ([], l)
  | [] => ([], [])
  end.

Definition rune_digit (r : Z) : bool := (48 <=? r)%Z && (r <=? 57)%Z.

(** "%d": blanks, a sign, digits. *)
Definition scan_int : scan Z := fun l =>
  let l := drop_space l in
  let '(sign, l) := match l with
                    | (r, b) :: l' => if (r =? 43)%Z || (r =? 45)%Z then (b, l') else ("", l)
                    | [] => ("", l)
                    end in
  let '(ds, rest) := span rune_digit l in
  match ds with
  | [] => None
  | _ => match strconv_ParseInt (sign +:+ concat_str (map snd ds)) 10 64 with
         | Ok n => Some (n, rest)
         | Err _ => None
         end
  end.

(** "%s": blanks, then everything up to the next blank. *)
Definition scan_word : scan string := fun l =>
  match drop_space l with
  | [] => None
  | l => let '(w, rest) := span (fun r => negb (unicode_IsSpace r)) l in
         Some (concat_str (map snd w), rest)
  end.

(** A blank of the format: at least one blank of the input, or its end. *)
Definition scan_blank : scan unit := fun l =>
  match l with
  | [] => Some (tt, [])
  | (r, _) :: _ => if unicode_IsSpace r then Some (tt, drop_space l) else None
  end.

(** The literal ':'. *)
Definition scan_colon : scan unit := fun l =>
  match l with
  | (r, _) :: l' => if (r =? 58)%Z then Some (tt, l') else None
  | [] => None
  end.

Notation "'let%' x ':=' p 'in' q" := (scan_bind p (fun x => q))
  (at level 10, x name, p at level 100, q at level 200) : go_scope.

(** The eight values of "%d %d %d:%d %s %s %s %s", the text after the separator still to come. *)
Definition scan_info : scan Info :=
  let% id := scan_int in
  let% _ := scan_blank in
  let% parent := scan_int in
  let% _ := scan_blank in
  let% major := scan_int in
  let% _ := scan_colon in
  let% minor := scan_int in
  let% _ := scan_blank in
  let% root := scan_word in
  let% _ := scan_blank in
  let% mountpoint := scan_word in
  let% _ := scan_blank in
  let% opts := scan_word in
  let% _ := scan_blank in
  let% optional := scan_word in
  scan_ret {| mi_ID := id; mi_Parent := parent; mi_Major := major; mi_Minor := minor;
              mi_Root := root; mi_Mountpoint := mountpoint; mi_Opts := opts;
              mi_Optional := optional; mi_Fstype := ""; mi_Source := ""; mi_VfsOpts := "" |}.

(** One line of [parseInfoFile]. *)
Definition parseInfoLine (text : string) : result Info :=
  match scan_info (runes text) with
  | None => Err (ErrFmt "scanning '%s' failed: %w" [text] None)
  | Some (p, _) =>
      let index := strings_Index text " - " in
      match strings_Fields (str_drop (Z.to_nat (index + 3)) text) with
      | fstype :: source :: vfs1 :: vfs =>
          Ok {| mi_ID := mi_ID p; mi_Parent := mi_Parent p; mi_Major := mi_Major p;
                mi_Minor := mi_Minor p; mi_Root := mi_Root p; mi_Mountpoint := mi_Mountpoint p;
                mi_Opts := mi_Opts p;
                mi_Optional := if bool_decide (mi_Optional p <> "-") then mi_Optional p else "";
                mi_Fstype := fstype; mi_Source := source;
                mi_VfsOpts := strings_Join (vfs1 :: vfs) " " |}
      | _ => Err (Errorf "error found less than 3 fields post '-' in %q" [text])
      end
  end.

Fixpoint parse_lines (lines : list string) : result (list Info) :=
  match lines with
  | [] => Ok []
  | l :: rest =>
      let? i := parseInfoLine l in
      let? infos := parse_lines rest in
      Ok (i :: infos)
  end.

(** [parseInfoFile]: the scanner's error is looked at only inside the loop, where there is none. *)
Definition parseInfoFile (content : string) (rerr : option error) : result (list Info) :=
  parse_lines (fst (bufio_Scan content rerr)).

Definition parseMountTable : M (list Info) :=
  let! f := sys (Open "/proc/self/mountinfo") in
  let* '(content, rerr) := sys (FileReadAll f) in
  let* _ := ignore (sys (FileClose f)) in
  Ret (parseInfoFile content rerr).

Definition isMounted (mountpoint : string) : M bool :=
  let! entries := parseMountTable in
  ret (existsb (fun e => bool_decide (mi_Mountpoint e = mountpoint)) entries).

(** [resolveDevice]. *)
Definition resolve_link (device linkPath : string) : io string :=
  let* target := sys (Readlink linkPath) in
  match target with
  | Err _ => Ret device
  | Ok target =>
      Ret (if path_IsAbs target then path_Clean target
           else path_Clean (path_Join [path_Dir linkPath; target]))
  end.

Definition resolveDevice (device : string) : io string :=
  if strings_HasPrefix device "LABEL=" then
    resolve_link device (path_Join ["/dev/disk/by-label"; str_drop 6 device])
  else if strings_HasPrefix device "UUID=" then
    resolve_link device (path_Join ["/dev/disk/by-uuid"; str_drop 5 device])
  else Ret device.

(** [mount]: a read-only bind mount takes a second call. *)
Definition has_flags (flag f : Z) : bool := (Z.land flag f =? f)%Z.

Definition mount (device target mType : string) (flag : Z) (data : string) : M unit :=
  let* device := resolveDevice device in
  let! _ := sys (SysMount device target mType flag data) in
  if has_flags flag BIND && has_flags flag RDONLY
  then sys (SysMount device target mType (Z.lor flag REMOUNT) data)
  else ret tt.

(** The package's exported [ForceMount] and [Mount] (the names are taken by the calls). *)
Definition doForceMount (device target mType options : string) : M unit :=
  let '(flag, data) := parseOptions options in
  mount device target mType flag data.

Definition doMount (device target mType options : string) : M unit :=
  let '(flag, _) := parseOptions options in
  if negb (has_flags flag REMOUNT) then
    let! mounted := isMounted target in
    if mounted : bool then ret tt else doForceMount device target mType options
  else doForceMount device target mType options.

(** ** The pool of mounts (pool.go), under its lock: each method is one step *)

Record Point := { pt_Source : string; pt_Target : string; pt_FSType : string; pt_Flags : Z; pt_Data : string }.

Definition Pool : Type := list Point.
Definition Pool_Add (p : Pool) (mp : Point) : Pool := p ++ [mp].
Definition Pool_Len (p : Pool) : nat := List.length p.
Definition Pool_Entries (p : Pool) : list Point := p.

(** [errors.Join]: nil for no errors. *)
Definition errors_Join (errs : list error) : result unit :=
  match errs with [] => Ok tt | _ => Err (ErrJoin errs) end.

Definition UnmountAll (unmount : string -> Z -> M unit) (flags : Z) (p : Pool)
  : io (result unit * Pool) :=
  let* errs := for_fold (rev p) [] (fun mp errs =>
    let* r := unmount (pt_Target mp) flags in
    Ret (match r with Ok _ => errs | Err e => errs ++ [e] end)) in
  Ret (errors_Join errs, []).

(** [Unmount] (unmount_linux.go). *)
Definition doUnmount (target : string) (flags : Z) : M unit := sys (SysUnmount target flags).

(** ** Namespace elements (namespace.go, write.go) *)

Inductive Creator :=
| CDir (Name : string) (Mode : Z)
| CMount (Source Target FSType : string) (Flags : Z) (Data : string) (Silent : bool)
| CDev (Name : string) (Mode Major Minor : Z)
| CSymlink (Target NewPath : string)
| CWrite (Path Content : string).

Definition S_IFCHR : Z := 8192.
Definition S_IFBLK : Z := 24576.

(** Device numbers are packed by [unix.Mkdev], a parameter. *)
Section Namespace.
Context (Mkdev : Z -> Z -> Z).

(** The [Create] of each kind of element. *)
Definition Dir_Create (Name : string) (Mode : Z) : M unit := sys (MkdirAll Name Mode).

Definition Mount_Create (Source Target FSType : string) (Flags : Z) (Data : string) (Silent : bool) : M unit :=
  let* r := sys (MkdirAll Target (oct 755)) in
  match r with
  | Err e => if Silent then fail ErrSilentSkip else fail (Errorf_w "mount mkdir %s: %w" [Target] e)
  | Ok _ =>
      let* r := sys (SysMount Source Target FSType Flags Data) in
      match r with
      | Err e => if Silent then fail ErrSilentSkip
                 else fail (Errorf_w "mount %s on %s: %w" [Source; Target] e)
      | Ok _ => ret tt
      end
  end.

Definition Dev_Create (Name : string) (Mode Major Minor : Z) : M unit :=
  let* r := sys (SysMknod Name (Z.lor S_IFCHR Mode) (Mkdev Major Minor)) in
  match r with
  | Err e => if os_IsExist e then ret tt else fail (Errorf_w "mknod %s: %w" [Name] e)
  | Ok _ => ret tt
  end.

Definition Symlink_Create (Target NewPath : string) : M unit :=
  let* r := sys (Symlink Target NewPath) in
  match r with
  | Err e => if os_IsExist e then ret tt
             else fail (Errorf_w "symlink %s -> %s: %w" [NewPath; Target] e)
  | Ok _ => ret tt
  end.

Definition Write_Create (Path Content : string) : M unit :=
  wrapf "write %s: %w" [Path] (sys (WriteFile Path Content (oct 600))).

(** [Creator.Create]. *)
Definition CreateNS (c : Creator) : M unit :=
  match c with
  | CDir name mode => Dir_Create name mode
  | CMount source target fstype flags data silent => Mount_Create source target fstype flags data silent
  | CDev name mode major minor => Dev_Create name mode major minor
  | CSymlink target newPath => Symlink_Create target newPath
  | CWrite path content => Write_Create path content
  end.

(** [Apply]: failures are logged, none stops the loop. *)
Definition ApplyNS (creators : list Creator) : M unit :=
  let* _ := for_fold creators tt (fun c _ => ignore (CreateNS c)) in ret tt.

(** [AsMountPoint] of a mount; the other elements are not [Trackable]. *)
Definition AsMountPoint (c : Creator) : option Point :=
  match c with
  | CMount source target fstype flags data _ =>
      Some {| pt_Source := source; pt_Target := target; pt_FSType := fstype; pt_Flags := flags;
              pt_Data := data |}
  | _ => None
  end.

(** [ApplyTracked] with a pool: a mount that succeeded is recorded. *)
Definition ApplyTracked (creators : list Creator) (pool : Pool) : io (result unit * Pool) :=
  let* pool := for_fold creators pool (fun c pool =>
    let* r := CreateNS c in
    Ret (match r with
         | Err _ => pool
         | Ok _ => match AsMountPoint c with Some mp => Pool_Add pool mp | None => pool end
         end)) in
  Ret (Ok tt, pool).

End Namespace.

Example parse_line_1 :
  result_map mi_Mountpoint
    (parseInfoLine "36 35 98:0 /mnt1 /mnt2 rw,noatime master:1 - ext3 /dev/root rw,errors=continue")
  = Ok "/mnt2".
Proof. vm_compute. reflexivity. Qed.
