(* ===== verification/MountSpec.v ===== *)
(** * MountSpec: what mounting, tracking mounts and taking them down guarantee. *)

From S2P Require Import Prelude GoStrings GoPath Effects OS FinalizeSpec MountPkg.
Open Scope string_scope.
Open Scope list_scope.
Open Scope go_scope.

(** ** Options *)

(** What an option says about one bit of the flags: set it, clear it, or nothing. *)
Definition says (b : Z) (o : string) : option bool :=
  match find_flag o with
  | Some (clear, f) => if Z.testbit f b then Some (negb clear) else None
  | None => None
  end.

(** An option that goes to the file system as data. *)
Definition is_data (o : string) : Prop :=
  match find_flag o with Some (_, f) => f = 0%Z | None => True end.

#[export] Instance is_data_dec o : Decision (is_data o).
Proof. unfold is_data. destruct (find_flag o) as [[]|]; apply _. Defined.

Lemma parse_options_fold opts flag data b :
  (0 <= b)%Z ->
  Z.testbit (fst (fold_left parse_option opts (flag, data))) b =
    default (Z.testbit flag b) (last (omap (says b) opts)) /\
  snd (fold_left parse_option opts (flag, data)) = data ++ filter is_data opts.
Proof.
  intros Hb. revert flag data. induction opts as [|o opts IH]; intros flag data.
  - simpl. by rewrite app_nil_r.
  - cbn [fold_left]. destruct (parse_option (flag, data) o) as [flag' data'] eqn:Ho.
    destruct (IH flag' data') as [Hbit Hdata]. rewrite Hbit, Hdata.
    unfold parse_option in Ho. rewrite filter_cons. cbn [omap list_omap]. unfold says at 2.
    destruct (decide (is_data o)) as [Hd|Hd]; unfold is_data in Hd;
      destruct (find_flag o) as [[clear f]|]; try done.
    + subst f. simpl in Ho. simplify_eq. rewrite Z.testbit_0_l. by rewrite <- (assoc_L app).
    + simplify_eq. by rewrite <- (assoc_L app).
    + rewrite (proj2 (Z.eqb_neq f 0)) in Ho by done. simpl in Ho. simplify_eq. split; [|done].
      assert (Z.testbit (if clear then Z.land flag (Z.lnot f) else Z.lor flag f) b =
        if Z.testbit f b then negb clear else Z.testbit flag b) as ->.
      { destruct clear; rewrite ?Z.land_spec, ?Z.lor_spec, ?Z.lnot_spec by done;
          destruct (Z.testbit f b), (Z.testbit flag b); done. }
      destruct (Z.testbit f b); [|done]. rewrite last_cons. by destruct (last _).
Qed.

(** ** Mounting *)

(** The mount system calls of a history, oldest first. *)
Definition is_mount (c : call) : Prop :=
  match c with SysMount _ _ _ _ _ => True | _ => False end.

#[export] Instance is_mount_dec c : Decision (is_mount c).
Proof. destruct c; apply _. Defined.

Definition mounts_of (h : list ev) : list call := filter is_mount (calls_of h).

Lemma mounts_cons e h :
  mounts_of (e :: h) = mounts_of h ++ (if decide (is_mount (ev_call e)) then [ev_call e] else []).
Proof.
  unfold mounts_of. by rewrite calls_cons, filter_app.
Qed.

(** A program without mount calls leaves the mounts as they were. *)
Lemma mounts_frame {A} (p : io A) h h' a :
  wp any_resp (fun _ c => ~ is_mount c) p (fun _ _ => True) h ->
  exec any_resp p h h' (Done a) -> mounts_of h' = mounts_of h.
Proof.
  intros Hwp Hex.
  assert (wp any_resp any_call p (fun _ h' => mounts_of h' = mounts_of h) h) as H.
  { eapply (wp_frame mounts_of); [|done|exact Hwp]. intros h0 c r Hc _.
    rewrite mounts_cons, decide_False by done. by rewrite app_nil_r. }
  by destruct (wp_sound _ _ _ _ _ _ _ H Hex) as [_ Ho]; apply Ho.
Qed.

Lemma isMounted_looks target h :
  wp any_resp (fun _ c => ~ is_mount c) (isMounted target) (fun _ _ => True) h.
Proof. unfold isMounted, parseMountTable. wp_calls; auto. Qed.

Lemma resolveDevice_looks d h :
  wp any_resp (fun _ c => ~ is_mount c) (resolveDevice d) (fun _ _ => True) h.
Proof. unfold resolveDevice, resolve_link. wp_calls; auto. Qed.

(** The table a run has read. *)
Definition table_read (h : list ev) (infos : list Info) : Prop :=
  exists f content rerr, Ev (FileReadAll f) (content, rerr) ∈ h /\
    parseInfoFile content rerr = Ok infos.

Lemma isMounted_reads target h h' b :
  exec any_resp (isMounted target) h h' (Done (Ok b)) ->
  exists infos, table_read h' infos /\ b = bool_decide (target ∈ map mi_Mountpoint infos).
Proof.
  intros Hex. apply exec_bind_inv in Hex as (t & h1 & Ht & Hex).
  destruct t as [infos|e]; apply exec_inv in Hex as [Heq ->]; simplify_eq.
  unfold parseMountTable in Ht. apply exec_bind_inv in Ht as (f & h2 & Hf & Ht).
  destruct f as [f|e]; [|by apply exec_inv in Ht as [[=] _]].
  apply exec_inv in Ht as ([content rerr] & _ & Ht). cbn in Ht.
  apply exec_inv in Ht as (r & _ & Ht). apply exec_inv in Ht as [Heq ->].
  exists infos. split.
  - exists f, content, rerr. split; [|done]. by right; left.
  - clear. induction infos as [|i infos IH]; [done|]. simpl. rewrite IH.
    by rewrite (bool_decide_ext (target ∈ _ :: _) _ (elem_of_cons _ _ _)), bool_decide_or,
      (bool_decide_ext (target = _) (mi_Mountpoint i = target)) by (split; congruence).
Qed.

Definition mount_calls (dev target mType : string) (flag : Z) (data : string) : list call :=
  SysMount dev target mType flag data
  :: (if has_flags flag BIND && has_flags flag RDONLY
      then [SysMount dev target mType (Z.lor flag REMOUNT) data] else []).

Lemma mount_exec device target mType flag data h h' :
  exec any_resp (mount device target mType flag data) h h' (Done (Ok tt)) ->
  exists dev, mounts_of h' = mounts_of h ++ mount_calls dev target mType flag data.
Proof.
  intros Hex. apply exec_bind_inv in Hex as (dev & h1 & Hd & Hex).
  apply mounts_frame in Hd; [|apply resolveDevice_looks]. exists dev.
  apply exec_inv in Hex as (r & _ & Hex).
  destruct r as [[]|e]; [|by apply exec_inv in Hex as [[=] _]]. cbn [bind] in Hex.
  unfold mount_calls. destruct (has_flags flag BIND && has_flags flag RDONLY).
  - apply exec_inv in Hex as (r & _ & Hex). apply exec_inv in Hex as [_ ->].
    rewrite !mounts_cons, Hd, !decide_True by done. by rewrite <- (assoc_L app).
  - apply exec_inv in Hex as [_ ->]. by rewrite mounts_cons, Hd, decide_True by done.
Qed.

Lemma doForceMount_exec device target mType options h h' :
  exec any_resp (doForceMount device target mType options) h h' (Done (Ok tt)) ->
  exists dev, mounts_of h' = mounts_of h ++
    mount_calls dev target mType (fst (parseOptions options)) (snd (parseOptions options)).
Proof. unfold doForceMount. destruct (parseOptions options). apply mount_exec. Qed.

Lemma table_read_extends h new infos : table_read h infos -> table_read (new ++ h) infos.
Proof.
  intros (f & c & e & Hin & Hp). exists f, c, e. split; [|done]. apply elem_of_app. by right.
Qed.

Lemma doMount_exec device target mType options h :
  exec any_resp (doMount device target mType options) [] h (Done (Ok tt)) ->
  let '(flag, data) := parseOptions options in
  (has_flags flag REMOUNT = false /\ mounts_of h = [] /\
     exists infos, table_read h infos /\ target ∈ map mi_Mountpoint infos) \/
  (exists dev, mounts_of h = mount_calls dev target mType flag data /\
     (has_flags flag REMOUNT = true \/
      exists infos, table_read h infos /\ target ∉ map mi_Mountpoint infos)).
Proof.
  intros Hex. unfold doMount in Hex. destruct (parseOptions options) as [flag data] eqn:Hopt.
  assert (fst (parseOptions options) = flag /\ snd (parseOptions options) = data) as [Hfl Hda]
    by (by rewrite Hopt).
  destruct (has_flags flag REMOUNT) eqn:Hre; simpl in Hex.
  - right. apply doForceMount_exec in Hex as [dev Hm]. rewrite Hfl, Hda in Hm.
    exists dev. split; [done|by left].
  - apply exec_bind_inv in Hex as (m & h1 & Hm & Hex).
    pose proof (mounts_frame _ _ _ _ (isMounted_looks target []) Hm) as Hno.
    destruct m as [b|e]; [|by apply exec_inv in Hex as [[=] _]].
    apply isMounted_reads in Hm as (infos & Hread & ->).
    destruct (exec_extends _ _ _ _ _ Hex) as [new Hnew].
    case_bool_decide as Hin.
    + left. apply exec_inv in Hex as [_ ->]. eauto.
    + right. apply doForceMount_exec in Hex as [dev Hm]. rewrite Hfl, Hda, Hno in Hm.
      exists dev. split; [done|]. right. exists infos. split; [|done].
      rewrite Hnew. by apply table_read_extends.
Qed.

(** ** Tracking and teardown *)

(** The targets of the mount system calls that succeeded, oldest first. *)
Definition succeeded (e : ev) : option string :=
  match e with
  | Ev c r =>
      match c return resp c -> option string with
      | SysMount _ t _ _ _ => fun r => if is_ok r then Some t else None
      | _ => fun _ => None
      end r
  end.

Definition mounted_targets (h : list ev) : list string := omap succeeded (rev h).

Lemma mounted_targets_cons e h :
  mounted_targets (e :: h) =
  mounted_targets h ++ match succeeded e with Some t => [t] | None => [] end.
Proof.
  unfold mounted_targets. simpl. rewrite omap_app. simpl. by destruct (succeeded e).
Qed.

Section Namespace.
Context (Mkdev : Z -> Z -> Z).

(** A successful element mounts exactly the point it is tracked as. *)
Lemma CreateNS_exec c h h' r :
  exec any_resp (CreateNS Mkdev c) h h' (Done r) ->
  mounted_targets h' = mounted_targets h ++
    (if is_ok r then match AsMountPoint c with Some mp => [pt_Target mp] | None => [] end else []).
Proof using Type.
  destruct c as [n m|s t f fl d sil|n m ma mi|t n|p c]; simpl; intros Hex.
  - apply exec_inv in Hex as (x & _ & [<- ->]%exec_inv).
    rewrite mounted_targets_cons. by destruct (is_ok x).
  - apply exec_inv in Hex as (x & _ & Hex). destruct x as [[]|e].
    + apply exec_inv in Hex as (y & _ & Hex). destruct y as [[]|e].
      * apply exec_inv in Hex as [<- ->]. by rewrite !mounted_targets_cons, app_nil_r.
      * cbn in Hex. destruct sil; apply exec_inv in Hex as [<- ->];
          by rewrite !mounted_targets_cons, !app_nil_r.
    + cbn in Hex. destruct sil; apply exec_inv in Hex as [<- ->];
        by rewrite !mounted_targets_cons.
  - apply exec_inv in Hex as (x & _ & Hex). destruct x as [[]|e]; cbn in Hex;
      [|destruct (os_IsExist e)]; apply exec_inv in Hex as [<- ->]; by rewrite mounted_targets_cons.
  - apply exec_inv in Hex as (x & _ & Hex). destruct x as [[]|e]; cbn in Hex;
      [|destruct (os_IsExist e)]; apply exec_inv in Hex as [<- ->]; by rewrite mounted_targets_cons.
  - apply exec_inv in Hex as (x & _ & Hex). destruct x as [[]|e]; cbn in Hex;
      apply exec_inv in Hex as [<- ->]; by rewrite mounted_targets_cons.
Qed.

Lemma tracked_exec cs pool h h' pool' :
  exec any_resp (for_fold cs pool (fun c pool =>
    let* r := CreateNS Mkdev c in
    Ret (match r with
         | Err _ => pool
         | Ok _ => match AsMountPoint c with Some mp => Pool_Add pool mp | None => pool end
         end))) h h' (Done pool') ->
  map pt_Target pool = mounted_targets h -> map pt_Target pool' = mounted_targets h'.
Proof using Type.
  revert pool h. induction cs as [|c cs IH]; intros pool h Hex Hp; simpl in Hex.
  - by apply exec_inv in Hex as [<- ->].
  - apply exec_bind_inv in Hex as (pool1 & h1 & Hc & Hex). apply (IH _ _ Hex).
    apply exec_bind_inv in Hc as (r & h2 & Hc & Hr). apply exec_inv in Hr as [<- ->].
    apply CreateNS_exec in Hc as ->. rewrite <- Hp. destruct r as [[]|e]; simpl; [|by rewrite app_nil_r].
    destruct (AsMountPoint c) as [mp|]; [|by rewrite app_nil_r]. unfold Pool_Add. by rewrite map_app.
Qed.
End Namespace.

Definition unmount_event (flags : Z) (mp : Point) (r : result unit) : ev :=
  Ev (SysUnmount (pt_Target mp) flags) r.

Definition the_error (r : result unit) : option error :=
  match r with Ok _ => None | Err e => Some e end.

Lemma unmount_loop flags ps errs h h' errs' :
  exec any_resp (for_fold ps errs (fun mp errs =>
    let* r := sys (SysUnmount (pt_Target mp) flags) in
    Ret (match r with Ok _ => errs | Err e => errs ++ [e] end))) h h' (Done errs') ->
  exists answers, List.length answers = List.length ps /\
    h' = rev (zip_with (unmount_event flags) ps answers) ++ h /\
    errs' = errs ++ omap the_error answers.
Proof.
  revert errs h. induction ps as [|p ps IH]; intros errs h Hex; simpl in Hex.
  - apply exec_inv in Hex as [<- ->]. exists []. by rewrite app_nil_r.
  - apply exec_inv in Hex as (r & _ & Hex).
    apply IH in Hex as (answers & Hlen & -> & ->). exists (r :: answers). simpl. split_and!.
    + by rewrite Hlen.
    + by rewrite <- (assoc_L app).
    + destruct r as [[]|e]; simpl; [done|]. by rewrite <- (assoc_L app).
Qed.

(** ** A mount table cut short *)

Lemma Split_long sep a b :
  sep ∉ chars a -> exists rest, strings_Split (a +:+ String sep b) sep = a :: rest /\ rest <> [].
Proof.
  intros Ha. exists (strings_Split b sep). rewrite Split_app by done. split; [done|].
  apply Split_nonempty.
Qed.

Lemma scan_long line rest rerr :
  "010"%char ∉ chars line -> (65536 <= Z.of_nat (String.length line))%Z ->
  fst (bufio_Scan (line +:+ nl +:+ rest) rerr) = [].
Proof.
  intros Hl Hlen. unfold bufio_Scan, nl. rewrite sapp_one.
  destruct (Split_long "010" line rest Hl) as (ls & -> & Hne).
  destruct ls as [|x ls]; [done|]. cbn [scan_go]. unfold too_long.
  by rewrite (proj2 (Z.leb_le _ _)) by lia.
Qed.

(** ** Properties *)

(** Mount options are read as the last word on each flag: a bit of the flags is set exactly when
    the last option of the list that concerns it sets it, and the data handed to the file system is
    the options that are no flags, in order. *)
Theorem parseOptions_last_wins options b :
  (0 <= b)%Z ->
  Z.testbit (fst (parseOptions options)) b =
    default false (last (omap (says b) (strings_Split options ","))) /\
  snd (parseOptions options) = strings_Join (filter is_data (strings_Split options ",")) ",".
Proof.
  intros Hb. unfold parseOptions.
  destruct (fold_left parse_option (strings_Split options ",") (0%Z, [])) as [flag data] eqn:Hf.
  destruct (parse_options_fold (strings_Split options ",") 0 [] b Hb) as [Hbit Hdata].
  rewrite Hf in Hbit, Hdata. simpl in *. rewrite Hbit, Hdata, Z.testbit_0_l. done.
Qed.

(** [Mount] that returns nil has mounted at most what was asked.  Either the mount table it read
    lists the target, the options ask for no remount, and no mount system call was made; or it made
    one for the target with the parsed flags and data, followed for a read-only bind mount by one
    that remounts it, because a remount was asked for or the table did not list the target. *)
Theorem doMount_once device target mType options h :
  exec any_resp (doMount device target mType options) [] h (Done (Ok tt)) ->
  let '(flag, data) := parseOptions options in
  (has_flags flag REMOUNT = false /\ mounts_of h = [] /\
     exists infos, table_read h infos /\ target ∈ map mi_Mountpoint infos) \/
  (exists dev, mounts_of h = mount_calls dev target mType flag data /\
     (has_flags flag REMOUNT = true \/
      exists infos, table_read h infos /\ target ∉ map mi_Mountpoint infos)).
Proof. apply doMount_exec. Qed.

(** C34: tracking is exact: after [ApplyTracked] from an empty pool, whatever failed on the way, the
    pool holds the targets of the mount system calls that succeeded, in the order they were made. *)
Theorem ApplyTracked_tracks_mounts Mkdev cs h r pool :
  exec any_resp (ApplyTracked Mkdev cs []) [] h (Done (r, pool)) ->
  r = Ok tt /\ map pt_Target pool = mounted_targets h.
Proof.
  intros Hex. apply exec_bind_inv in Hex as (p & h1 & Hl & Hex).
  apply exec_inv in Hex as [[= <- <-] ->]. split; [done|]. by eapply tracked_exec.
Qed.

(** [UnmountAll] unmounts every tracked target once, in reverse order, whatever fails, leaves
    the pool empty, and returns the errors met, joined in order: nil exactly when there were none. *)
Theorem UnmountAll_reverse flags pool h r pool' :
  exec any_resp (UnmountAll (fun t f => sys (SysUnmount t f)) flags pool) [] h (Done (r, pool')) ->
  pool' = [] /\
  exists answers, List.length answers = List.length pool /\
    rev h = zip_with (unmount_event flags) (rev pool) answers /\
    r = errors_Join (omap the_error answers).
Proof.
  intros Hex. apply exec_bind_inv in Hex as (errs & h1 & Hl & Hex).
  apply exec_inv in Hex as [[= <- <-] ->]. split; [done|].
  apply unmount_loop in Hl as (answers & Hlen & -> & ->). exists answers.
  rewrite length_rev in Hlen. by rewrite app_nil_r, rev_involutive.
Qed.

(** The scan of the mount table stops without an error at a line that does not fit its buffer:
    whatever mounts are listed from such a line on, the table parsed is empty. *)
Theorem parseInfoFile_drops_long_table line rest rerr :
  "010"%char ∉ chars line -> (65536 <= Z.of_nat (String.length line))%Z ->
  parseInfoFile (line +:+ nl +:+ rest) rerr = Ok [].
Proof. intros Hl Hlen. unfold parseInfoFile. by rewrite scan_long. Qed.

(** ** Concrete mounts *)

Lemma parseOptions_last_wins_witness :
  (0 <= 0)%Z /\ Z.testbit (fst (parseOptions "ro,size=1,rw,nodev")) 0 = false.
Proof.
  split; [lia|].
  rewrite (proj1 (parseOptions_last_wins "ro,size=1,rw,nodev" 0 ltac:(lia))). reflexivity.
Defined.

Definition demo_table (c : call) : option (resp c) :=
  match c return option (resp c) with
  | FileReadAll _ => Some ("36 35 98:0 / /mnt rw - ext4 /dev/sda1 rw" +:+ nl, None)
  | _ => None
  end.

Lemma doMount_once_witness :
  exec any_resp (doMount "/dev/sda2" "/data" "ext4" "ro,bind") []
    (history demo_table (doMount "/dev/sda2" "/data" "ext4" "ro,bind")) (Done (Ok tt)) /\
  exists dev, mounts_of (history demo_table (doMount "/dev/sda2" "/data" "ext4" "ro,bind")) =
    mount_calls dev "/data" "ext4" 4097 "".
Proof.
  pose proof (world_exec demo_table (doMount "/dev/sda2" "/data" "ext4" "ro,bind")) as H.
  assert (final demo_table (doMount "/dev/sda2" "/data" "ext4" "ro,bind") = Done (Ok tt)) as Hf
    by (vm_compute; reflexivity).
  rewrite Hf in H.
  split; [exact H|].
  pose proof (doMount_once _ _ _ _ _ H) as Hm.
  destruct (parseOptions "ro,bind") as [flag data] eqn:Ho. vm_compute in Ho.
  injection Ho as <- <-. destruct Hm as [(_ & Hm & _)|(dev & Hm & _)]; [|by exists dev].
  vm_compute in Hm. discriminate.
Defined.

Definition demo_elements : list Creator :=
  [CDir "/x" 493; CMount "proc" "/proc" "proc" 0 "" false; CMount "sys" "/sys" "sysfs" 0 "" true].

Definition demo_refuse (c : call) : option (resp c) :=
  match c return option (resp c) with
  | SysMount _ t _ _ _ => if bool_decide (t = "/sys") then Some (Err ErrSilentSkip) else None
  | _ => None
  end.

Lemma ApplyTracked_tracks_mounts_witness :
  exists pool, exec any_resp (ApplyTracked (fun _ _ => 0%Z) demo_elements []) []
      (history demo_refuse (ApplyTracked (fun _ _ => 0%Z) demo_elements [])) (Done (Ok tt, pool)) /\
    map pt_Target pool = ["/proc"].
Proof.
  pose proof (world_exec demo_refuse (ApplyTracked (fun _ _ => 0%Z) demo_elements [])) as H.
  destruct (final demo_refuse (ApplyTracked (fun _ _ => 0%Z) demo_elements [])) as [[r pool]|s|] eqn:Hf;
    [|vm_compute in Hf; discriminate|vm_compute in Hf; discriminate].
  destruct (ApplyTracked_tracks_mounts _ _ _ _ _ H) as [Hr Hp]. exists pool.
  split; [by rewrite <- Hr|]. rewrite Hp. vm_compute. reflexivity.
Defined.

Definition demo_pool : Pool :=
  [ {| pt_Source := "proc"; pt_Target := "/proc"; pt_FSType := "proc"; pt_Flags := 0; pt_Data := "" |};
    {| pt_Source := "dev"; pt_Target := "/dev"; pt_FSType := "devtmpfs"; pt_Flags := 0; pt_Data := "" |} ].

Lemma UnmountAll_reverse_witness :
  exists r pool', exec any_resp (UnmountAll (fun t f => sys (SysUnmount t f)) 0 demo_pool) []
      (history (fun _ => None) (UnmountAll (fun t f => sys (SysUnmount t f)) 0 demo_pool))
      (Done (r, pool')) /\ pool' = [].
Proof.
  pose proof (world_exec (fun _ => None) (UnmountAll (fun t f => sys (SysUnmount t f)) 0 demo_pool)) as H.
  destruct (final (fun _ => None) (UnmountAll _ 0 demo_pool)) as [[r pool']|s|] eqn:Hf;
    [|vm_compute in Hf; discriminate|vm_compute in Hf; discriminate].
  exists r, pool'. split; [exact H|]. exact (proj1 (UnmountAll_reverse _ _ _ _ _ H)).
Defined.

Definition long_line : string := of_chars (replicate (Z.to_nat 65536) "x"%char).

Lemma parseInfoFile_drops_long_table_witness :
  (65536 <= Z.of_nat (String.length long_line))%Z /\
  parseInfoFile (long_line +:+ nl +:+ "36 35 98:0 / /mnt rw - ext4 /dev/sda1 rw") None = Ok [].
Proof.
  assert (65536 <= Z.of_nat (String.length long_line))%Z as Hl
    by (apply Z.leb_le; vm_compute; reflexivity).
  split; [exact Hl|]. apply parseInfoFile_drops_long_table; [|exact Hl].
  unfold long_line. rewrite chars_of_chars. intros [Heq _]%elem_of_replicate. discriminate.
Defined.
