(* ===== verification/Shadow.v ===== *)
(** * Shadow: package [internal/shadow], setting a password in /etc/shadow. *)

From S2P Require Import Prelude GoStrings GoPath Effects OS.
Open Scope string_scope.
Open Scope list_scope.
Open Scope go_scope.

Definition shadowPath : string := "/etc/shadow".

(** The loop over the lines: the hash field of the first entry of the user is replaced; [None] when
    there is no entry. *)
Fixpoint set_hash (username hash : string) (lines : list string) : option (list string) :=
  match lines with
  | [] => None
  | line :: rest =>
      let next := (fun l => line :: l) <$> set_hash username hash rest in
      match strings_SplitN line ":" 3 with
      | [user; _] =>
          if bool_decide (user = username) then Some ((user +:+ ":" +:+ hash +:+ "") :: rest) else next
      | [user; _; tail] =>
          if bool_decide (user = username)
          then Some ((user +:+ ":" +:+ hash +:+ ":" +:+ tail) :: rest) else next
      | _ => next
      end
  end.

Section Setter.
(** The [shacrypt] package: building the hasher, and the encoded digest of a password. *)
Context (shacrypt_New : result unit) (shacrypt_Hash : string -> result string).

Definition HashPassword (plaintext : string) : result string :=
  match shacrypt_New with
  | Err e => Err (Errorf_w "creating SHA-512 crypt hasher: %w" [] e)
  | Ok _ =>
      match shacrypt_Hash plaintext with
      | Err e => Err (Errorf_w "generating SHA-512 crypt hash: %w" [] e)
      | Ok digest => Ok digest
      end
  end.

(** The hash to store: a password that starts with '$' is one already. *)
Definition hash_for (username password : string) : result string :=
  if strings_HasPrefix password "$" then Ok password
  else match HashPassword password with
       | Ok h => Ok h
       | Err e => Err (Errorf_w "hashing password for %s: %w" [username] e)
       end.

(** Remove the temporary file and report. *)
Definition abandon (tmpName : string) (e : error) : M unit :=
  let* _ := ignore (sys (Remove tmpName)) in fail e.

Definition SetPassword (username password : string) : M unit :=
  if bool_decide (password = "") then ret tt
  else
    match hash_for username password with
    | Err e => fail e
    | Ok hash =>
        let! data := wrapf "reading %s: %w" [shadowPath] (sys (ReadFile shadowPath)) in
        match set_hash username hash (strings_Split data "010") with
        | None => fail (Errorf "user %s not found in %s" [username; shadowPath])
        | Some lines =>
            let output := strings_Join lines nl in
            let! tmp := wrapf "creating temp file for %s: %w" [shadowPath]
                          (sys (CreateTemp (path_Dir shadowPath) "shadow.*")) in
            let tmpName := file_name tmp in
            let* w := sys (FileWrite tmp output) in
            match w with
            | Err e =>
                let* _ := ignore (sys (FileClose tmp)) in
                abandon tmpName (Errorf_w "writing temp shadow file: %w" [] e)
            | Ok _ =>
                let* c := sys (FileClose tmp) in
                match c with
                | Err e => abandon tmpName (Errorf_w "closing temp shadow file: %w" [] e)
                | Ok _ =>
                    let* m := sys (Chmod tmpName (oct 640)) in
                    match m with
                    | Err e =>
                        abandon tmpName (Errorf_w "setting permissions on temp shadow file: %w" [] e)
                    | Ok _ =>
                        let* r := sys (Rename tmpName shadowPath) in
                        match r with
                        | Err e =>
                            abandon tmpName (Errorf_w "renaming temp file to %s: %w" [shadowPath] e)
                        | Ok _ => ret tt
                        end
                    end
                end
            end
        end
    end.
End Setter.
