(* ===== verification/ShadowSpec.v ===== *)
(** * ShadowSpec: setting a password changes one field, atomically. *)

From S2P Require Import Prelude GoStrings GoPath Effects OS FileWorld Shadow.
Open Scope string_scope.
Open Scope list_scope.
Open Scope go_scope.

(** ** The line that changes *)

(** A line is an entry of the user: the name, a colon, the hash, and the other fields if any. *)
Definition entry_of (username old rest line : string) : Prop :=
  line = username +:+ ":" +:+ old +:+ rest /\ (":"%char ∉ chars username) /\ (":"%char ∉ chars old) /\
  (rest = "" \/ exists r, rest = ":" +:+ r).

Definition no_entry (username line : string) : Prop :=
  forall old rest, ~ entry_of username old rest line.

Lemma SplitN_entry username old rest :
  ":"%char ∉ chars username -> ":"%char ∉ chars old ->
  (rest = "" \/ exists r, rest = ":" +:+ r) ->
  strings_SplitN (username +:+ ":" +:+ old +:+ rest) ":" 3 =
  username :: old :: match rest with String _ r => [r] | EmptyString => [] end.
Proof.
  intros Hu Ho Hr. rewrite sapp_one, SplitN_app by done. f_equal.
  destruct Hr as [->|[r ->]].
  - rewrite sapp_nil_r. by apply SplitN_no_sep.
  - rewrite sapp_one, SplitN_app by done. done.
Qed.

(** Every line is an entry of exactly the name before its first colon, or of nobody. *)
Lemma line_cases line :
  (exists username old rest, entry_of username old rest line) \/
  (strings_SplitN line ":" 3 = [line] /\ forall u, no_entry u line).
Proof.
  destruct (first_sep ":" line) as [Hn|(u & b & -> & Hu)].
  - right. split; [by apply SplitN_no_sep|].
    intros u old rest (-> & _). apply Hn. rewrite !chars_app. simpl. set_solver.
  - left. destruct (first_sep ":" b) as [Hb|(o & r & -> & Ho)].
    + exists u, b, "". unfold entry_of. rewrite sapp_nil_r, sapp_one. auto.
    + exists u, o, (String ":" r). unfold entry_of. rewrite sapp_one. split_and!; auto.
      right. by exists r.
Qed.

(** The entry with its hash replaced. *)
Definition with_hash (username hash rest : string) : string := username +:+ ":" +:+ hash +:+ rest.

Lemma set_hash_entry username hash old rest line lines :
  entry_of username old rest line ->
  set_hash username hash (line :: lines) = Some (with_hash username hash rest :: lines).
Proof.
  intros (-> & Hu & Ho & Hr). cbn [set_hash]. rewrite SplitN_entry by done. unfold with_hash.
  destruct Hr as [->|[r ->]]; cbn; by rewrite bool_decide_true by done.
Qed.

Lemma set_hash_skip username hash line lines :
  no_entry username line ->
  set_hash username hash (line :: lines) = (fun l => line :: l) <$> set_hash username hash lines.
Proof.
  intros Hno. cbn [set_hash]. destruct (line_cases line) as [(u & old & rest & He)|[-> _]]; [|done].
  pose proof He as (-> & Hu & Ho & Hr). rewrite SplitN_entry by done.
  assert (u <> username) as Hne by (intros ->; by apply (Hno old rest)).
  destruct Hr as [->|[r ->]]; cbn; by rewrite bool_decide_false by done.
Qed.

Lemma entry_dec username line :
  (exists old rest, entry_of username old rest line) \/ no_entry username line.
Proof.
  destruct (line_cases line) as [(u & old & rest & He)|[_ Hn]]; [|right; apply Hn].
  destruct (decide (u = username)) as [->|Hne]; [left; eauto|right].
  intros old' rest' He'. apply Hne.
  destruct He as (-> & Hu & Ho & Hr), He' as (Heq & Hu' & Ho' & Hr').
  apply (f_equal (fun s => strings_SplitN s ":" 3)) in Heq.
  rewrite !SplitN_entry in Heq by done. congruence.
Qed.

(** What one replacement amounts to. *)
Definition replaced (username hash : string) (lines lines' : list string) : Prop :=
  exists before old rest line after,
    lines = before ++ line :: after /\ Forall (no_entry username) before /\
    entry_of username old rest line /\ lines' = before ++ with_hash username hash rest :: after.

Lemma set_hash_spec username hash lines :
  match set_hash username hash lines with
  | Some lines' => replaced username hash lines lines'
  | None => Forall (no_entry username) lines
  end.
Proof.
  induction lines as [|line lines IH]; [constructor|].
  destruct (entry_dec username line) as [(old & rest & He)|Hno].
  - erewrite set_hash_entry by done. exists [], old, rest, line, lines. done.
  - rewrite set_hash_skip by done. destruct (set_hash username hash lines) as [lines'|]; simpl.
    + destruct IH as (before & old & rest & l & after & -> & Hb & He & ->).
      exists (line :: before), old, rest, l, after. split_and!; try done. by constructor.
    + by constructor.
Qed.

(** ** The write *)

Section Setter.
Context (shacrypt_New : result unit) (shacrypt_Hash : string -> result string).
Context (username password : string).

(** The temporary file holds the new content: the history up to the rename. *)
Definition staged (f : File) (output : string) (h : list ev) : Prop :=
  exists data lines hash,
    h = Ev (Chmod (file_name f) (oct 640)) (Ok tt) :: Ev (FileClose f) (Ok tt)
        :: Ev (FileWrite f output) (Ok tt) :: Ev (CreateTemp "/etc" "shadow.*") (Ok f)
        :: [Ev (ReadFile shadowPath) (Ok data)] /\
    hash_for shacrypt_New shacrypt_Hash username password = Ok hash /\
    set_hash username hash (strings_Split data "010") = Some lines /\
    output = strings_Join lines nl.

Definition created (p : string) (h : list ev) : Prop :=
  exists f, file_name f = p /\ Ev (CreateTemp "/etc" "shadow.*") (Ok f) ∈ h.

(** /etc/shadow is read, and replaced by a rename of the staged file; everything else happens to the
    temporary file. *)
Definition shadow_guard : @guar call resp := fun h c =>
  match c with
  | ReadFile p => p = shadowPath
  | CreateTemp d _ => d = "/etc"
  | FileWrite f _ | FileClose f => created (file_name f) h
  | Chmod p m => created p h /\ m = oct 640
  | Remove p => created p h
  | Rename a b => b = shadowPath /\ exists f output, file_name f = a /\ staged f output h
  | _ => False
  end.

(** On success the rename has just been made, or there was nothing to do; on failure the temporary
    file, if it was created, has just been removed. *)
Definition shadow_post (o : outcome (result unit)) (h : list ev) : Prop :=
  match o with
  | Done (Ok _) => (password = "" /\ h = []) \/
      exists f output older, h = Ev (Rename (file_name f) shadowPath) (Ok tt) :: older /\
        staged f output older
  | Done (Err _) => (forall p, ~ created p h) \/
      exists f r older, created (file_name f) h /\ h = Ev (Remove (file_name f)) r :: older
  | Halted _ => False
  | Running => True
  end.

Lemma created_here f h new : created (file_name f) (new ++ Ev (CreateTemp "/etc" "shadow.*") (Ok f) :: h).
Proof using Type. exists f. split; [done|]. apply elem_of_app. right. left. Qed.

Lemma not_created h :
  Forall (fun e => match e with
                   | Ev c r => match c return resp c -> Prop with
                               | CreateTemp _ _ => fun r => is_ok r = false
                               | _ => fun _ => True end r
                   end) h ->
  forall p, ~ created p h.
Proof using Type.
  intros Hf p (f & _ & Hin). eapply Forall_forall in Hin; [|exact Hf]. done.
Qed.

Lemma SetPassword_wp :
  wp any_resp shadow_guard (SetPassword shacrypt_New shacrypt_Hash username password) shadow_post [].
Proof using Type.
  unfold SetPassword. destruct (bool_decide (password = "")) eqn:Hp.
  { apply bool_decide_eq_true in Hp. left. done. }
  destruct (hash_for shacrypt_New shacrypt_Hash username password) as [hash|e] eqn:Hh; wp_norm.
  2: { left. by apply not_created. }
  split; [done|]. wp_answer; wp_norm; [|left; by apply not_created; repeat constructor].
  destruct (set_hash username hash (strings_Split a "010")) as [lines|] eqn:Hs; wp_norm;
    [|left; by apply not_created; repeat constructor].
  change (path_Dir shadowPath) with "/etc".
  split; [done|]. wp_answer; wp_norm; [|left; by apply not_created; repeat constructor].
  rename a0 into f. unfold abandon.
  split; [apply (created_here f _ [])|]. wp_answer; wp_norm; cycle 1.
  { split; [apply (created_here f _ [_])|]. intros r _. wp_norm.
    split; [apply (created_here f _ [_; _])|]. intros r' _. wp_norm.
    right. exists f. do 2 eexists. split; [apply (created_here f _ [_; _; _])|done]. }
  split; [apply (created_here f _ [_])|]. wp_answer; wp_norm; cycle 1.
  { split; [apply (created_here f _ [_; _])|]. intros r' _. wp_norm.
    right. exists f. do 2 eexists. split; [apply (created_here f _ [_; _; _])|done]. }
  split; [split; [apply (created_here f _ [_; _])|done]|]. wp_answer; wp_norm; cycle 1.
  { split; [apply (created_here f _ [_; _; _])|]. intros r' _. wp_norm.
    right. exists f. do 2 eexists. split; [apply (created_here f _ [_; _; _; _])|done]. }
  assert (staged f (strings_Join lines nl)
    [Ev (Chmod (file_name f) (oct 640)) (Ok tt); Ev (FileClose f) (Ok tt);
     Ev (FileWrite f (strings_Join lines nl)) (Ok tt); Ev (CreateTemp "/etc" "shadow.*") (Ok f);
     Ev (ReadFile shadowPath) (Ok a)]) as Hst by (exists a, lines, hash; done).
  split; [split; [done|]; by exists f, (strings_Join lines nl)|]. wp_answer; wp_norm; cycle 1.
  { split; [apply (created_here f _ [_; _; _; _])|]. intros r' _. wp_norm.
    right. exists f. do 2 eexists. split; [apply (created_here f _ [_; _; _; _; _])|done]. }
  right. exists f, (strings_Join lines nl). by eexists.
Qed.
End Setter.

(** ** Properties *)

(** The new content, line by line. *)
Lemma replaced_lines username hash data lines :
  "010"%char ∉ chars hash -> replaced username hash (strings_Split data "010") lines ->
  strings_Split (strings_Join lines nl) "010" = lines.
Proof.
  intros Hh (before & old & rest & line & after & Heq & _ & He & ->).
  assert (Forall (fun e => "010"%char ∉ chars e) (strings_Split data "010")) as Hf by apply Split_parts.
  rewrite Heq in Hf. apply Forall_app in Hf as [Hb Hl]. inversion_clear Hl as [|? ? Hl1 Hl2].
  apply Split_Join; [by destruct before|]. apply Forall_app. split; [done|]. constructor; [|done].
  destruct He as (-> & _). unfold with_hash. rewrite !chars_app in *. set_solver.
Qed.


(** C14: every call of [SetPassword] is one of: reading /etc/shadow; creating a temporary file in
    /etc; writing, closing, chmod 0640 or removing that temporary file; renaming it over /etc/shadow,
    and that only directly after the file was completely written, closed and given mode 0640 with the
    new content.  So at no moment is /etc/shadow anything but the old or the whole new content.  When
    the function fails after creating the temporary file, its last call removes it. *)
Theorem SetPassword_atomic New Hash username password h o :
  exec any_resp (SetPassword New Hash username password) [] h o ->
  guaranteed (shadow_guard New Hash username password) [] h /\
  (o <> Running -> shadow_post New Hash username password o h).
Proof. apply wp_sound, SetPassword_wp. Qed.

Definition demo_shadow : string := "root:*:1:0:99999:7:::" +:+ nl +:+ "rancher:!:2:0::::" +:+ nl.


(** A run that fails at chmod and cleans up. *)
Definition chmod_fails (c : call) : option (resp c) :=
  match c return option (resp c) with
  | ReadFile _ => Some (Ok "rancher:!:::")
  | Chmod _ _ => Some (Err (ErrText "EIO"))
  | _ => None
  end.

Lemma SetPassword_atomic_witness :
  let p := SetPassword (Ok tt) Ok "rancher" "$x" in
  guaranteed (shadow_guard (Ok tt) Ok "rancher" "$x") [] (history chmod_fails p) /\
  (final chmod_fails p <> Running ->
     shadow_post (Ok tt) Ok "rancher" "$x" (final chmod_fails p) (history chmod_fails p)).
Proof. apply (SetPassword_atomic (Ok tt) Ok "rancher" "$x"). apply world_exec. Defined.
