(* ===== verification/LoopDev.v ===== *)
(** * LoopDev: package [internal/loopdev], attaching files to loop devices, and the detaching by path
    of [internal/iface/osimpl/loopdetach.go].

    A [Device] carries an atomic flag that concurrent callers share, so its methods are programs over
    the flag's operations and the system calls ([dcall]), and their runs are interleavings. *)

From stdpp Require Import gmultiset.
From S2P Require Import Prelude GoStrings GoPath Effects OS.
Open Scope string_scope.
Open Scope list_scope.
Open Scope go_scope.

Definition loopSetFd : Z := 19456.        (* 0x4C00 *)
Definition loopClrFd : Z := 19457.        (* 0x4C01 *)
Definition flagReadOnly : Z := 1.
Definition flagAutoclear : Z := 4.

Definition O_RDONLY : Z := 0.
Definition O_RDWR : Z := 2.

(** The information with other flags; with another offset. *)
Definition set_Flags (info : loopInfo64) (flags : Z) : loopInfo64 :=
  {| li_Device := li_Device info; li_INode := li_INode info; li_RDevice := li_RDevice info;
     li_Offset := li_Offset info; li_SizeLimit := li_SizeLimit info; li_Number := li_Number info;
     li_EncryptType := li_EncryptType info; li_EncryptKeySize := li_EncryptKeySize info;
     li_Flags := flags; li_FileName := li_FileName info; li_CryptName := li_CryptName info;
     li_EncryptKey := li_EncryptKey info; li_Init := li_Init info |}.
Definition set_Offset (info : loopInfo64) (offset : Z) : loopInfo64 :=
  {| li_Device := li_Device info; li_INode := li_INode info; li_RDevice := li_RDevice info;
     li_Offset := offset; li_SizeLimit := li_SizeLimit info; li_Number := li_Number info;
     li_EncryptType := li_EncryptType info; li_EncryptKeySize := li_EncryptKeySize info;
     li_Flags := li_Flags info; li_FileName := li_FileName info; li_CryptName := li_CryptName info;
     li_EncryptKey := li_EncryptKey info; li_Init := li_Init info |}.

(** [loopInfo64{Offset: offset}], with the read-only flag. *)
Definition attach_info (offset : Z) (readOnly : bool) : loopInfo64 :=
  let info := set_Offset loopInfo64_zero offset in
  if readOnly then set_Flags info (Z.lor (li_Flags info) flagReadOnly) else info.

(** [Attacher.Attach], after the backing file has been opened. *)
Definition attach_opened (backingFd offset : Z) (readOnly : bool) : M LoopDevice :=
  let! loopPath := wrapf "finding free loop device: %w" [] (sys FindLoopDevice) in
  if negb (strings_HasPrefix loopPath "/dev/loop")
  then fail (Errorf "unexpected loop device path %q from device finder" [loopPath])
  else
    let! loopFd := wrapf "opening loop device %s: %w" [loopPath] (sys (SysOpen loopPath O_RDWR)) in
    let* r := sys (IoctlSetInt loopFd loopSetFd backingFd) in
    match r with
    | Err e =>
        let* _ := ignore (sys (SysClose loopFd)) in
        fail (Errorf_w "LOOP_SET_FD: %w" [] e)
    | Ok _ =>
        let* s := sys (IoctlLoopSetStatus64 loopFd (attach_info offset readOnly)) in
        match s with
        | Err e =>
            let* _ := ignore (sys (IoctlSetInt loopFd loopClrFd 0)) in
            let* _ := ignore (sys (SysClose loopFd)) in
            fail (Errorf_w "LOOP_SET_STATUS64: %w" [] e)
        | Ok _ => ret {| ld_path := loopPath; ld_fd := loopFd |}
        end
    end.

(** [Attacher.Attach]; the deferred close of the backing file comes last. *)
Definition Attach (backingFile : string) (offset : Z) (readOnly : bool) : M LoopDevice :=
  let! backingFd := wrapf "opening backing file %s: %w" [backingFile]
                      (sys (SysOpen backingFile (if readOnly then O_RDONLY else O_RDWR))) in
  let* r := attach_opened backingFd offset readOnly in
  let* _ := ignore (sys (SysClose backingFd)) in
  Ret r.

(** [LoopPathDetacher.DetachPath]. *)
Definition DetachPath_impl (device : string) : M unit :=
  let! fd := wrapf "open %s: %w" [device] (sys (SysOpen device O_RDONLY)) in
  let* r := wrapf "LOOP_CLR_FD on %s: %w" [device] (sys (IoctlSetInt fd loopClrFd 0)) in
  let* _ := ignore (sys (SysClose fd)) in
  Ret r.

(** ** The device's methods *)

Inductive dcall :=
| Load
| CompareAndSwap (old new : bool)
| Store (b : bool)
| Sys (c : call).

Definition dresp (c : dcall) : Type :=
  match c with
  | Load | CompareAndSwap _ _ => bool
  | Store _ => unit
  | Sys c => resp c
  end.

Abbreviation dprog := (prog dcall dresp (result unit)).
Abbreviation dvis := (@Vis dcall dresp (result unit)).

Definition Detach (d : LoopDevice) : dprog :=
  let* swapped := perform (CompareAndSwap false true) in
  if negb swapped then Ret (Ok tt)
  else
    let* r := perform (Sys (IoctlSetInt (ld_fd d) loopClrFd 0)) in
    match r with
    | Err e =>
        let* _ := perform (Store false) in
        Ret (Err (Errorf_w "LOOP_CLR_FD on %s: %w" [ld_path d] e))
    | Ok _ =>
        let* c := perform (Sys (SysClose (ld_fd d))) in
        match c with
        | Err e => Ret (Err (Errorf_w "closing loop device fd %s: %w" [ld_path d] e))
        | Ok _ => Ret (Ok tt)
        end
    end.

(** [info.Flags |= flagAutoclear]. *)
Definition autoclear (info : loopInfo64) : loopInfo64 :=
  set_Flags info (Z.lor (li_Flags info) flagAutoclear).

Definition SetAutoclear (d : LoopDevice) : dprog :=
  let* closed := perform Load in
  if closed : bool then Ret (Ok tt)
  else
    let* r := perform (Sys (IoctlLoopGetStatus64 (ld_fd d))) in
    match r with
    | Err e => Ret (Err (Errorf_w "LOOP_GET_STATUS64 on %s: %w" [ld_path d] e))
    | Ok info =>
        let* s := perform (Sys (IoctlLoopSetStatus64 (ld_fd d) (autoclear info))) in
        match s with
        | Err e => Ret (Err (Errorf_w "LOOP_SET_STATUS64 on %s: %w" [ld_path d] e))
        | Ok _ => Ret (Ok tt)
        end
    end.

(** ** Interleavings: goroutines that share one device *)

(** The flag, the system calls made so far (newest first) and the goroutines. *)
Record dstate := { ds_closed : bool; ds_hist : list ev; ds_threads : list dprog }.

(** One goroutine makes its next call. *)
Inductive dstep : dstate -> dstate -> Prop :=
| step_load b h ts i k :
    ts !! i = Some (dvis Load k) ->
    dstep {| ds_closed := b; ds_hist := h; ds_threads := ts |}
          {| ds_closed := b; ds_hist := h; ds_threads := <[i := k b]> ts |}
| step_cas b h ts i old new k :
    ts !! i = Some (dvis (CompareAndSwap old new) k) ->
    dstep {| ds_closed := b; ds_hist := h; ds_threads := ts |}
          {| ds_closed := if bool_decide (b = old) then new else b; ds_hist := h;
             ds_threads := <[i := k (bool_decide (b = old))]> ts |}
| step_store b h ts i b' k :
    ts !! i = Some (dvis (Store b') k) ->
    dstep {| ds_closed := b; ds_hist := h; ds_threads := ts |}
          {| ds_closed := b'; ds_hist := h; ds_threads := <[i := k tt]> ts |}
| step_sys b h ts i c k r :
    ts !! i = Some (dvis (Sys c) k) ->
    dstep {| ds_closed := b; ds_hist := h; ds_threads := ts |}
          {| ds_closed := b; ds_hist := Ev c r :: h; ds_threads := <[i := k r]> ts |}.

(** Goroutines that call the device's methods, from a device just attached. *)
Definition method_calls (d : LoopDevice) (ts : list dprog) : Prop :=
  Forall (fun p => p = Detach d \/ p = SetAutoclear d) ts.

Definition fresh_device (ts : list dprog) : dstate :=
  {| ds_closed := false; ds_hist := []; ds_threads := ts |}.

(** ** Descriptors *)

(** The descriptors opened and not closed in a history, with multiplicity. *)
Fixpoint open_fds (h : list ev) : gmultiset Z :=
  match h with
  | [] => ∅
  | Ev c r :: h' =>
      match c return resp c -> gmultiset Z with
      | SysOpen _ _ => fun r => match r with Ok fd => {[+ fd +]} ⊎ open_fds h' | Err _ => open_fds h' end
      | SysClose fd => fun _ => open_fds h' ∖ {[+ fd +]}
      | _ => fun _ => open_fds h'
      end r
  end.

(** The descriptors of loop devices a backing file was bound to and not unbound from: what an
    attempt to clear follows is taken off whatever it answers. *)
Fixpoint bound_fds (h : list ev) : gmultiset Z :=
  match h with
  | [] => ∅
  | Ev c r :: h' =>
      match c return resp c -> gmultiset Z with
      | IoctlSetInt fd req _ => fun r =>
          if (req =? loopSetFd)%Z
          then match r with Ok _ => {[+ fd +]} ⊎ bound_fds h' | Err _ => bound_fds h' end
          else if (req =? loopClrFd)%Z then bound_fds h' ∖ {[+ fd +]} else bound_fds h'
      | _ => fun _ => bound_fds h'
      end r
  end.

Definition attach_post (offset : Z) (readOnly : bool) (o : outcome (result LoopDevice)) (h : list ev)
  : Prop :=
  match o with
  | Done (Ok d) => open_fds h = {[+ ld_fd d +]} /\ bound_fds h = {[+ ld_fd d +]} /\
      strings_HasPrefix (ld_path d) "/dev/loop" = true /\
      Ev (IoctlLoopSetStatus64 (ld_fd d) (attach_info offset readOnly)) (Ok tt) ∈ h
  | Done (Err _) => open_fds h = ∅ /\ bound_fds h = ∅
  | Halted _ => False
  | Running => True
  end.

Ltac fds := cbn [attach_post open_fds bound_fds ld_fd ld_path loopSetFd loopClrFd Z.eqb Pos.eqb].

Lemma Attach_wp file offset ro :
  wp any_resp (fun _ _ => True) (Attach file offset ro) (attach_post offset ro) [].
Proof.
  unfold Attach, attach_opened. wp_calls; fds; split_and?; try multiset_solver.
  by apply negb_false_iff.
Qed.

(** ** The discipline of the flag *)

(** Where a goroutine stands: it does not hold the flag; it set it; it cleared the device; it closed
    it. *)
Inductive stage := Out | In | Cleared | Gone.

(** What a goroutine may do next at each stage. *)
Definition obeys_call (d : LoopDevice) (s : stage) (c : dcall) : (dresp c -> stage -> Prop) -> Prop :=
  match c return (dresp c -> stage -> Prop) -> Prop with
  | Load => fun next => s = Out /\ forall b, next b Out
  | CompareAndSwap old new => fun next =>
      s = Out /\ old = false /\ new = true /\ next true In /\ next false Out
  | Store b => fun next => s = In /\ b = false /\ next tt Out
  | Sys c => match c return (resp c -> stage -> Prop) -> Prop with
      | IoctlLoopGetStatus64 fd | IoctlLoopSetStatus64 fd _ => fun next =>
          fd = ld_fd d /\ s = Out /\ forall r, next r Out
      | IoctlSetInt fd req _ => fun next =>
          fd = ld_fd d /\ req = loopClrFd /\ s = In /\
          next (Ok tt) Cleared /\ forall e, next (Err e) In
      | SysClose fd => fun next => fd = ld_fd d /\ s = Cleared /\ forall r, next r Gone
      | _ => fun _ => False
      end
  end.

Fixpoint obeys (d : LoopDevice) (p : dprog) (s : stage) : Prop :=
  match p with
  | Ret _ => s = Out \/ s = Gone
  | Halt _ => False
  | Vis c k => obeys_call d s c (fun r s' => obeys d (k r) s')
  end.

Lemma Detach_obeys d : obeys d (Detach d) Out.
Proof.
  cbn. do 3 (split; [done|]). split; [|by left]. do 3 (split; [done|]). split; cbn.
  - do 2 (split; [done|]). intros [[]|e]; by right.
  - intros e. do 2 (split; [done|]). by left.
Qed.

Lemma SetAutoclear_obeys d : obeys d (SetAutoclear d) Out.
Proof.
  cbn. split; [done|]. intros []; [by left|]. do 2 (split; [done|]). intros [info|e]; [|by left].
  do 2 (split; [done|]). intros [[]|e]; by left.
Qed.

Definition holding (s : stage) : nat := match s with In | Cleared => 1 | _ => 0 end.
Definition has_cleared (s : stage) : nat := match s with Cleared => 1 | _ => 0 end.

Lemma sum_insert {A} (f : A -> nat) (l : list A) i x y :
  l !! i = Some x -> sum_list_with f (<[i := y]> l) + f x = sum_list_with f l + f y.
Proof. revert i. induction l as [|z l IH]; intros [|i] H; simplify_eq/=; [lia|]. specialize (IH _ H). lia. Qed.

(** How often the device was closed, and cleared with success. *)
Definition is_close (e : ev) : bool := match ev_call e with SysClose _ => true | _ => false end.
Definition is_clear (e : ev) : bool :=
  match e with
  | Ev c r => match c return resp c -> bool with IoctlSetInt _ _ _ => is_ok | _ => fun _ => false end r
  end.
Definition count (f : ev -> bool) (h : list ev) : nat := List.length (filter (fun e => f e = true) h).

Lemma count_cons f e h : count f (e :: h) = (if f e then 1 else 0) + count f h.
Proof. unfold count. rewrite filter_cons. destruct (f e); [by rewrite decide_True|by rewrite decide_False]. Qed.

(** The device is cleared by one goroutine only, with success at most once, before it is closed; it
    is closed at most once, and only after it was cleared. *)
Definition device_guard (d : LoopDevice) : @guar call resp := fun h c =>
  match c with
  | IoctlSetInt fd req _ =>
      fd = ld_fd d /\ req = loopClrFd /\ count is_clear h = 0 /\ count is_close h = 0
  | SysClose fd => fd = ld_fd d /\ count is_clear h = 1 /\ count is_close h = 0
  | IoctlLoopGetStatus64 fd | IoctlLoopSetStatus64 fd _ => fd = ld_fd d
  | _ => False
  end.

(** The flag is set exactly while a goroutine holds it or after the device was closed. *)
Definition device_inv (d : LoopDevice) (s : dstate) : Prop :=
  exists ss, Forall2 (obeys d) (ds_threads s) ss /\
    sum_list_with holding ss + count is_close (ds_hist s) = (if ds_closed s then 1 else 0) /\
    sum_list_with has_cleared ss + count is_close (ds_hist s) = count is_clear (ds_hist s) /\
    guaranteed (device_guard d) [] (ds_hist s).

(** A step of a goroutine at stage [s] to stage [s']. *)
Lemma stage_change ss i s s' :
  ss !! i = Some s ->
  sum_list_with holding (<[i := s']> ss) + holding s = sum_list_with holding ss + holding s' /\
  sum_list_with has_cleared (<[i := s']> ss) + has_cleared s = sum_list_with has_cleared ss + has_cleared s'.
Proof. intros H. split; by apply sum_insert. Qed.

Lemma holding_le ss i s :
  ss !! i = Some s -> holding s <= sum_list_with holding ss /\
  sum_list_with has_cleared ss <= sum_list_with holding ss + has_cleared s - holding s.
Proof.
  assert (forall l, sum_list_with has_cleared l <= sum_list_with holding l) as Hle.
  { induction l as [|[] l IH]; simpl in *; lia. }
  revert i. induction ss as [|z ss IH]; intros [|i] H; simplify_eq/=.
  - specialize (Hle ss). destruct s; simpl; lia.
  - specialize (IH _ H). destruct z; simpl; lia.
Qed.

Lemma dstep_inv d s1 s2 : dstep s1 s2 -> device_inv d s1 -> device_inv d s2.
Proof.
  intros Hstep (ss & Hobs & Hheld & Hclr & Hg). destruct Hstep as [b h ts i k Hi|b h ts i old new k Hi
    |b h ts i b' k Hi|b h ts i c k r Hi]; simpl in *;
    destruct (Forall2_lookup_l _ _ _ _ _ Hobs Hi) as (s & Hs & Ho);
    pose proof (holding_le _ _ _ Hs) as Hle.
  - destruct Ho as [-> Ho]. exists (<[i := Out]> ss). destruct (stage_change _ _ _ Out Hs).
    split_and!; simpl in *; [by apply Forall2_insert|lia|lia|done].
  - destruct Ho as (-> & -> & -> & Ht & Hf).
    destruct b; simpl.
    + exists (<[i := Out]> ss). destruct (stage_change _ _ _ Out Hs).
      split_and!; simpl in *; [by apply Forall2_insert|lia|lia|done].
    + exists (<[i := In]> ss). destruct (stage_change _ _ _ In Hs).
      split_and!; simpl in *; [by apply Forall2_insert|lia|lia|done].
  - destruct Ho as (-> & -> & Ho). exists (<[i := Out]> ss). destruct (stage_change _ _ _ Out Hs).
    split_and!; simpl in *; [by apply Forall2_insert|destruct b; lia|lia|done].
  - destruct c; try done; cbn [obeys obeys_call] in Ho.
    + destruct Ho as (-> & -> & Ho). exists (<[i := Gone]> ss). destruct (stage_change _ _ _ Gone Hs).
      cbn [ds_hist]; rewrite !count_cons. simpl in *.
      split_and!; simpl in *; [by apply Forall2_insert|destruct b; lia|lia|].
      constructor; [done|]. simpl. split; [done|]. destruct b; lia.
    + destruct Ho as (-> & -> & -> & Hok & Herr).
      exists (<[i := if is_ok r then Cleared else In]> ss).
      destruct (stage_change _ _ _ (if is_ok r then Cleared else In) Hs).
      cbn [ds_hist]; rewrite !count_cons. simpl in *. destruct r as [[]|e]; simpl in *;
        (split_and!; [by apply Forall2_insert|destruct b; lia|lia|]);
        (constructor; [done|]); simpl; destruct b; (split_and!; [done|done|lia|lia]).
    + destruct Ho as (-> & -> & Ho). exists (<[i := Out]> ss). destruct (stage_change _ _ _ Out Hs).
      cbn [ds_hist]; rewrite !count_cons. split_and!; simpl in *; [by apply Forall2_insert|lia|lia|by constructor].
    + destruct Ho as (-> & -> & Ho). exists (<[i := Out]> ss). destruct (stage_change _ _ _ Out Hs).
      cbn [ds_hist]; rewrite !count_cons. split_and!; simpl in *; [by apply Forall2_insert|lia|lia|by constructor].
Qed.

Lemma fresh_inv d ts : method_calls d ts -> device_inv d (fresh_device ts).
Proof.
  intros Hts. exists (map (fun _ => Out) ts). split_and!; simpl.
  - induction Hts as [|p ts Hp _ IH]; constructor; try done; destruct Hp as [->| ->];
      [apply Detach_obeys|apply SetAutoclear_obeys].
  - induction ts; simpl; [done|]. inversion Hts; auto.
  - induction ts; simpl; [done|]. inversion Hts; auto.
  - constructor.
Qed.

Lemma reachable_inv d s1 s2 : rtc dstep s1 s2 -> device_inv d s1 -> device_inv d s2.
Proof. induction 1; eauto using dstep_inv. Qed.

(** ** Properties *)


(** C16: a device is detached once, however its methods race.  For any number of goroutines calling
    [Detach] and [SetAutoclear] on one device just attached, in every interleaving of their atomic
    operations and system calls: the device is cleared only while it is neither cleared nor closed,
    its descriptor is closed only once, after a clear succeeded, and a clear that fails leaves the
    device to be detached again (the flag is set exactly while a goroutine is detaching or after the
    close). *)
Theorem Detach_interleavings d ts s :
  method_calls d ts -> rtc dstep (fresh_device ts) s ->
  guaranteed (device_guard d) [] (ds_hist s) /\
  count is_close (ds_hist s) <= 1 /\
  (ds_closed s = false -> count is_close (ds_hist s) = 0 /\ count is_clear (ds_hist s) = 0).
Proof.
  intros Hts Hr. destruct (reachable_inv d _ _ Hr (fresh_inv d ts Hts)) as (ss & _ & Hh & Hc & Hg).
  split; [done|]. split; [destruct (ds_closed s); lia|]. intros Hf. rewrite Hf in Hh.
  assert (sum_list_with has_cleared ss <= sum_list_with holding ss) as Hle.
  { clear. induction ss as [|[] ss IH]; simpl in *; lia. }
  lia.
Qed.

(** The binding of the loop device fails. *)
Definition bind_fails (c : call) : option (resp c) :=
  match c return option (resp c) with
  | SysOpen p _ => Some (Ok (if bool_decide (p = "/dev/loop7") then 8 else 5))
  | FindLoopDevice => Some (Ok "/dev/loop7")
  | IoctlLoopSetStatus64 _ _ => Some (Err (ErrText "EBUSY"))
  | _ => None
  end%Z.


Definition loop7 : LoopDevice := {| ld_path := "/dev/loop7"; ld_fd := 8 |}.

(** Two goroutines detach at once: the second finds the flag set; then the first clears and closes. *)
Lemma two_detaches :
  rtc dstep (fresh_device [Detach loop7; Detach loop7])
    {| ds_closed := true;
       ds_hist := [Ev (SysClose 8) (Ok tt); Ev (IoctlSetInt 8 loopClrFd 0) (Ok tt)];
       ds_threads := [Ret (Ok tt); Ret (Ok tt)] |}.
Proof.
  eapply rtc_l; [by eapply step_cas with (i := 0)|].
  eapply rtc_l; [by eapply step_cas with (i := 1)|].
  eapply rtc_l; [by eapply (step_sys _ _ _ 0 (IoctlSetInt 8 loopClrFd 0) _ (Ok tt))|].
  eapply rtc_l; [by eapply (step_sys _ _ _ 0 (SysClose 8) _ (Ok tt))|]. apply rtc_refl.
Qed.

Lemma Detach_interleavings_witness :
  guaranteed (device_guard loop7) []
    [Ev (SysClose 8) (Ok tt); Ev (IoctlSetInt 8 loopClrFd 0) (Ok tt)].
Proof.
  refine (proj1 (Detach_interleavings loop7 _ _ _ two_detaches)). by repeat constructor.
Defined.

(** [SetAutoclear] is not serialized with [Detach]: it can reach the kernel with a descriptor that has
    been closed in between. *)
Lemma SetAutoclear_after_close :
  exists h, rtc dstep (fresh_device [Detach loop7; SetAutoclear loop7])
    {| ds_closed := true; ds_hist := h; ds_threads := [Ret (Ok tt); Ret (Err (Errorf_w
         "LOOP_GET_STATUS64 on %s: %w" ["/dev/loop7"] (ErrText "EBADF")))] |} /\
    exists r older, h = Ev (IoctlLoopGetStatus64 8) r :: Ev (SysClose 8) (Ok tt) :: older.
Proof.
  eexists. split.
  - eapply rtc_l; [by eapply step_load with (i := 1)|].
    eapply rtc_l; [by eapply step_cas with (i := 0)|].
    eapply rtc_l; [by eapply (step_sys _ _ _ 0 (IoctlSetInt 8 loopClrFd 0) _ (Ok tt))|].
    eapply rtc_l; [by eapply (step_sys _ _ _ 0 (SysClose 8) _ (Ok tt))|].
    eapply rtc_l; [by eapply (step_sys _ _ _ 1 (IoctlLoopGetStatus64 8) _ (Err (ErrText "EBADF")))|].
    apply rtc_refl.
  - by do 2 eexists.
Qed.
