(* ===== verification/LoopSyscall.v ===== *)
(** * LoopSyscall: the system calls of package [internal/loopdev], [realSyscaller].

    [Open], [Close] and [IoctlSetInt] are functions of package unix and stay calls.  The two ioctls on
    [loopInfo64] hand the kernel a pointer: the structure's bytes, as a little-endian machine lays
    them out. *)

From S2P Require Import Prelude GoStrings GoPath Effects OS LoopDev.
Open Scope string_scope.
Open Scope list_scope.
Open Scope go_scope.

Definition loopSetStatus64 : Z := 19460.  (* 0x4C04 *)
Definition loopGetStatus64 : Z := 19461.  (* 0x4C05 *)

(** ** The structure in memory *)

(** An integer of [n] bytes. *)
Fixpoint le_bytes (n : nat) (z : Z) : list Z :=
  match n with O => [] | S n => (z mod 256)%Z :: le_bytes n (z / 256)%Z end.
Definition le_value (bytes : list Z) : Z := foldr (fun b z => (b + 256 * z)%Z) 0%Z bytes.

(** What comes before the flags and after them, without padding. *)
Definition memory_before (i : loopInfo64) : list Z :=
  le_bytes 8 (li_Device i) ++ le_bytes 8 (li_INode i) ++ le_bytes 8 (li_RDevice i) ++
  le_bytes 8 (li_Offset i) ++ le_bytes 8 (li_SizeLimit i) ++ le_bytes 4 (li_Number i) ++
  le_bytes 4 (li_EncryptType i) ++ le_bytes 4 (li_EncryptKeySize i).
Definition memory_after (i : loopInfo64) : list Z :=
  li_FileName i ++ li_CryptName i ++ li_EncryptKey i ++ flat_map (le_bytes 8) (li_Init i).
Definition memory (i : loopInfo64) : list Z :=
  memory_before i ++ le_bytes 4 (li_Flags i) ++ memory_after i.

(** The bytes of a field, and the structure found in memory. *)
Definition slice (off n : nat) (m : list Z) : list Z := take n (drop off m).
Definition field (off n : nat) (m : list Z) : Z := le_value (slice off n m).
Definition of_memory (m : list Z) : loopInfo64 :=
  {| li_Device := field 0 8 m; li_INode := field 8 8 m; li_RDevice := field 16 8 m;
     li_Offset := field 24 8 m; li_SizeLimit := field 32 8 m; li_Number := field 40 4 m;
     li_EncryptType := field 44 4 m; li_EncryptKeySize := field 48 4 m; li_Flags := field 52 4 m;
     li_FileName := slice 56 64 m; li_CryptName := slice 120 64 m; li_EncryptKey := slice 184 32 m;
     li_Init := [field 216 8 m; field 224 8 m] |}.

(** ** The system calls *)

(** [syscall.Errno] as an error. *)
Definition errno_error (n : Z) : error :=
  ErrSys "" "" (if (n =? 2)%Z then ENOENT else if (n =? 17)%Z then EEXIST else EOTHER n).

Definition IoctlLoopGetStatus64_impl (fd : Z) (info : loopInfo64) : M loopInfo64 :=
  let* '(errno, after) := sys (SysIoctl fd loopGetStatus64 (memory info)) in
  if negb (errno =? 0)%Z then fail (errno_error errno) else ret (of_memory after).

Definition IoctlLoopSetStatus64_impl (fd : Z) (info : loopInfo64) : M unit :=
  let* '(errno, _) := sys (SysIoctl fd loopSetStatus64 (memory info)) in
  if negb (errno =? 0)%Z then fail (errno_error errno) else ret tt.

(** The methods of [syscaller]; the information that is read is the zero value before. *)
Definition realSyscaller (c : call) : io (resp c) :=
  match c return io (resp c) with
  | IoctlLoopGetStatus64 fd => IoctlLoopGetStatus64_impl fd loopInfo64_zero
  | IoctlLoopSetStatus64 fd info => IoctlLoopSetStatus64_impl fd info
  | c => sys c
  end.

(** [Attach] of the attacher that [NewAttacher] makes. *)
Definition real_Attach (backingFile : string) (offset : Z) (readOnly : bool) : M LoopDevice :=
  interp realSyscaller (Attach backingFile offset readOnly).

(** The methods of its devices, whose system calls are [realSyscaller]'s. *)
Definition lift_sys {A} (p : io A) : prog dcall dresp A :=
  interp (resp2 := dresp) (fun c : call => perform (Sys c)) p.
Definition real_dcall (c : dcall) : prog dcall dresp (dresp c) :=
  match c return prog dcall dresp (dresp c) with
  | Sys c => lift_sys (realSyscaller c)
  | c => perform c
  end.
Definition real_SetAutoclear (d : LoopDevice) : dprog := interp real_dcall (SetAutoclear d).

(** ** The layout *)

Definition is_byte (b : Z) : Prop := (0 <= b < 256)%Z.

Lemma le_bytes_length n z : List.length (le_bytes n z) = n.
Proof. revert z. induction n as [|n IH]; intros z; simpl; [done|]. by rewrite IH. Qed.

Lemma le_value_bytes n z : (0 <= z < 256 ^ Z.of_nat n)%Z -> le_value (le_bytes n z) = z.
Proof.
  unfold le_value. revert z. induction n as [|n IH]; intros z Hz; cbn [le_bytes foldr].
  { change (256 ^ Z.of_nat 0)%Z with 1%Z in Hz. lia. }
  rewrite Nat2Z.inj_succ, Z.pow_succ_r in Hz by lia.
  rewrite IH; [pose proof (Z.div_mod z 256); lia|].
  split; [apply Z.div_pos; lia|apply Z.div_lt_upper_bound; lia].
Qed.

Lemma le_bytes_value bs : Forall is_byte bs -> le_bytes (List.length bs) (le_value bs) = bs.
Proof.
  induction 1 as [|b bs Hb _ IH]; simpl; [done|]. unfold is_byte in Hb.
  rewrite (Z.mul_comm 256), Z.mod_add, Z.mod_small, Z.div_add, Z.div_small, Z.add_0_l by lia. by f_equal.
Qed.

Lemma le_bytes_field off n m :
  (off + n <= List.length m)%nat -> Forall is_byte m -> le_bytes n (field off n m) = slice off n m.
Proof.
  intros Hlen Hm. unfold field.
  assert (List.length (slice off n m) = n) as Hn.
  { unfold slice. rewrite length_take, length_drop. lia. }
  rewrite <- Hn at 1. apply le_bytes_value, Forall_take, Forall_drop, Hm.
Qed.

Lemma slice_app off a b m : slice off a m ++ slice (off + a) b m = slice off (a + b) m.
Proof. unfold slice. by rewrite <- drop_drop, take_take_drop. Qed.

(** The bytes are the structure's. *)
Lemma memory_of_memory m : List.length m = 232%nat -> Forall is_byte m -> memory (of_memory m) = m.
Proof.
  intros Hlen Hm. unfold memory, memory_before, memory_after, of_memory. cbn [li_Device li_INode
    li_RDevice li_Offset li_SizeLimit li_Number li_EncryptType li_EncryptKeySize li_Flags li_FileName
    li_CryptName li_EncryptKey li_Init flat_map].
  rewrite !le_bytes_field by (done || lia). rewrite app_nil_r, <- !(assoc_L app).
  repeat (rewrite (slice_app 216 8 8) || rewrite (slice_app 184 32 16) || rewrite (slice_app 120 64 48)
    || rewrite (slice_app 56 64 112) || rewrite (slice_app 52 4 176) || rewrite (slice_app 48 4 180)
    || rewrite (slice_app 44 4 184) || rewrite (slice_app 40 4 188) || rewrite (slice_app 32 8 192)
    || rewrite (slice_app 24 8 200) || rewrite (slice_app 16 8 208) || rewrite (slice_app 8 8 216)
    || rewrite (slice_app 0 8 224)).
  unfold slice. rewrite drop_0. cbn [Nat.add]. rewrite <- Hlen. apply firstn_all.
Qed.

Lemma memory_before_length i : List.length (memory_before i) = 52%nat.
Proof. unfold memory_before. by rewrite !length_app, !le_bytes_length. Qed.

(** Setting bit 2 of an integer sets it in its first byte. *)
Lemma le_bytes_bit n z : le_bytes (S n) (Z.lor z 4) = Z.lor (z mod 256) 4 :: le_bytes n (z / 256).
Proof.
  cbn [le_bytes]. change 256%Z with (2 ^ 8)%Z. f_equal.
  - rewrite <- !Z.land_ones by lia. by rewrite Z.land_lor_distr_l.
  - f_equal. rewrite <- !Z.shiftr_div_pow2 by lia. rewrite Z.shiftr_lor.
    change (Z.shiftr 4 8) with 0%Z. apply Z.lor_0_r.
Qed.

Lemma autoclear_memory i : memory (autoclear i) = alter (fun b => Z.lor b 4) 52%nat (memory i).
Proof.
  unfold memory. change (memory_before (autoclear i)) with (memory_before i).
  change (memory_after (autoclear i)) with (memory_after i).
  change (li_Flags (autoclear i)) with (Z.lor (li_Flags i) 4). rewrite le_bytes_bit.
  change (le_bytes 4 (li_Flags i)) with ((li_Flags i mod 256)%Z :: le_bytes 3 (li_Flags i / 256)).
  cbn [app]. replace 52%nat with (List.length (memory_before i) + 0)%nat
    by (rewrite memory_before_length; lia).
  by rewrite alter_app_r.
Qed.

(** ** What the kernel is handed *)

(** The structure of linux/loop.h for a device with this offset: the offset is at byte 24, the flags
    are at byte 52 and hold the read-only bit or nothing, all other of its 232 bytes are zero. *)
Definition status_of (offset : Z) (readOnly : bool) (m : list Z) : Prop :=
  List.length m = 232%nat /\ field 24 8 m = offset /\ field 52 4 m = (if readOnly then 1 else 0)%Z /\
  forall i, (i < 24 \/ 32 <= i < 52 \/ 56 <= i < 232)%nat -> m !! i = Some 0%Z.

Definition attach_memory (offset : Z) (readOnly : bool) : list Z :=
  replicate 24 0%Z ++ le_bytes 8 offset ++ replicate 20 0%Z ++
  [if readOnly then 1 else 0; 0; 0; 0]%Z ++ replicate 176 0%Z.

Lemma attach_info_memory offset readOnly :
  memory (attach_info offset readOnly) = attach_memory offset readOnly.
Proof. by destruct readOnly. Qed.

Lemma attach_info_status offset readOnly :
  (0 <= offset < 2 ^ 64)%Z -> status_of offset readOnly (memory (attach_info offset readOnly)).
Proof.
  intros Ho. rewrite attach_info_memory. unfold status_of, attach_memory. split_and!.
  - by rewrite !length_app, le_bytes_length.
  - unfold field, slice. rewrite drop_app_length' by done.
    rewrite take_app_length' by (by rewrite le_bytes_length). by apply le_value_bytes.
  - by destruct readOnly.
  - intros i Hi.
    destruct (decide (i < 24)%nat);
      [by rewrite lookup_app_l, lookup_replicate_2 by (rewrite ?length_replicate; lia)|].
    rewrite lookup_app_r, length_replicate by (rewrite length_replicate; lia).
    rewrite lookup_app_r, le_bytes_length by (rewrite le_bytes_length; lia).
    destruct (decide (i < 52)%nat);
      [by rewrite lookup_app_l, lookup_replicate_2 by (rewrite ?length_replicate; lia)|].
    rewrite lookup_app_r, length_replicate by (rewrite length_replicate; lia).
    rewrite lookup_app_r by (cbn; lia). apply lookup_replicate_2. cbn. lia.
Qed.

Definition attach_guard (offset : Z) (readOnly : bool) : @guar call resp := fun _ c =>
  match c with
  | SysIoctl _ req m => req = loopSetStatus64 /\ status_of offset readOnly m
  | _ => True
  end.

Definition attached_post (o : outcome (result LoopDevice)) (h : list ev) : Prop :=
  match o with
  | Done (Ok d) => exists m after, Ev (SysIoctl (ld_fd d) loopSetStatus64 m) (0%Z, after) ∈ h
  | _ => True
  end.

(** One call of a program that runs over [realSyscaller]. *)
Ltac sys_step :=
  cbn [interp bind bindE wrapf sys perform ignore realSyscaller wp fail ret]; split; [done|]; intros ? _.

Lemma real_Attach_wp file offset readOnly h :
  (0 <= offset < 2 ^ 64)%Z ->
  wp any_resp (attach_guard offset readOnly) (real_Attach file offset readOnly) attached_post h.
Proof.
  intros Ho. unfold real_Attach, Attach, attach_opened. sys_step.
  destruct r as [backingFd|e]; [|done]. sys_step. destruct r as [loopPath|e]; [|by sys_step].
  cbn [bind wrapf]. destruct (negb _); [by sys_step|]. sys_step.
  destruct r as [loopFd|e]; [|by sys_step]. sys_step. destruct r as [[]|e].
  2:{ sys_step. by sys_step. }
  cbn [interp bind sys perform realSyscaller IoctlLoopSetStatus64_impl wp].
  split; [split; [done|by apply attach_info_status]|]. intros [errno after] _.
  destruct (Z.eqb_spec errno 0) as [->|Hne]; cbn [negb].
  - sys_step. eexists _, _. right. left.
  - cbn [bind]. sys_step. sys_step. by sys_step.
Qed.

(** The write of [SetAutoclear] follows its read and differs from what was read in one bit. *)
Definition autoclear_guard (d : LoopDevice) : @guar dcall dresp := fun h c =>
  match c with
  | Sys (SysIoctl fd req m) =>
      fd = ld_fd d /\
      (req = loopGetStatus64 \/
       req = loopSetStatus64 /\ exists zero read older,
         h = Ev (Sys (SysIoctl fd loopGetStatus64 zero)) (0%Z, read) :: older /\
         (List.length read = 232%nat -> Forall is_byte read ->
          m = alter (fun b => Z.lor b 4) 52%nat read))
  | _ => True
  end.

Lemma real_SetAutoclear_wp d h :
  wp any_resp (autoclear_guard d) (real_SetAutoclear d) (fun _ _ => True) h.
Proof.
  unfold real_SetAutoclear, SetAutoclear. cbn -[memory of_memory autoclear]. split; [done|].
  intros closed _. destruct closed; [done|].
  cbn -[memory of_memory autoclear]. split; [by split; [|left]|]. intros [errno after] _.
  destruct (Z.eqb_spec errno 0) as [->|Hne]; [|done]. cbn -[memory of_memory autoclear]. split.
  - split; [done|]. right. split; [done|]. eexists _, after, _. split; [done|]. intros Hlen Hb.
    by rewrite autoclear_memory, memory_of_memory.
  - intros [errno after2] _. by destruct (errno =? 0)%Z.
Qed.

(** ** Properties *)

(** C18: the kernel is handed the structure of linux/loop.h.  Attaching a file, whatever fails, passes
    only a loop_info64 of 232 bytes with the offset asked for at byte 24, the read-only bit or nothing
    in the flags at byte 52 and zeroes everywhere else; and a device that is returned has been given
    it without an error.  [SetAutoclear] writes only right after it has read without an error, on
    the device's descriptor, and what it writes is what it read with bit 2 of byte 52 set. *)
Theorem loop_info_in_memory file offset readOnly d h o hd od :
  (0 <= offset < 2 ^ 64)%Z ->
  exec any_resp (real_Attach file offset readOnly) [] h o ->
  exec any_resp (real_SetAutoclear d) [] hd od ->
  (guaranteed (attach_guard offset readOnly) [] h /\ attached_post o h) /\
  guaranteed (autoclear_guard d) [] hd.
Proof.
  intros Ho Ha Hs. split.
  - destruct (wp_sound _ _ _ _ _ _ _ (real_Attach_wp file offset readOnly [] Ho) Ha) as [Hg Hp].
    split; [done|]. destruct o as [r|s|]; [by apply Hp|done..].
  - by destruct (wp_sound _ _ _ _ _ _ _ (real_SetAutoclear_wp d []) Hs).
Qed.

(** ** A device attached *)

Definition free_loop (c : call) : option (resp c) :=
  match c return option (resp c) with
  | FindLoopDevice => Some (Ok "/dev/loop0")
  | SysOpen p _ => Some (Ok (if bool_decide (p = "/dev/loop0") then 8 else 7)%Z)
  | _ => None
  end.

Definition image_offset : Z := 1048832.

Lemma loop_info_in_memory_witness :
  final free_loop (real_Attach "/k3os" image_offset true) =
    Done (Ok {| ld_path := "/dev/loop0"; ld_fd := 8 |}) /\
  attached_post (Done (Ok {| ld_path := "/dev/loop0"; ld_fd := 8 |}))
    (history free_loop (real_Attach "/k3os" image_offset true)) /\
  guaranteed (autoclear_guard {| ld_path := "/dev/loop0"; ld_fd := 8 |}) []
    [Ev (Sys (SysIoctl 8 loopGetStatus64 (memory loopInfo64_zero))) (22%Z, []); Ev Load false].
Proof.
  assert (0 <= image_offset < 2 ^ 64)%Z as Ho by (unfold image_offset; lia).
  assert (final free_loop (real_Attach "/k3os" image_offset true) =
    Done (Ok {| ld_path := "/dev/loop0"; ld_fd := 8 |})) as Hf by (vm_compute; reflexivity).
  pose proof (world_exec free_loop (real_Attach "/k3os" image_offset true)) as Ha. rewrite Hf in Ha.
  split; [exact Hf|].
  destruct (loop_info_in_memory "/k3os" image_offset true {| ld_path := "/dev/loop0"; ld_fd := 8 |}
    _ _ [Ev (Sys (SysIoctl 8 loopGetStatus64 (memory loopInfo64_zero))) (22%Z, []); Ev Load false]
    (Done (Err (Errorf_w "LOOP_GET_STATUS64 on %s: %w" ["/dev/loop0"] (errno_error 22)))) Ho Ha)
    as [[_ Hp] Hg].
  - eapply exec_vis with (r := (false : dresp Load)); [done|]. cbn -[memory of_memory].
    eapply exec_vis with
      (r := ((22%Z, []) : dresp (Sys (SysIoctl 8 loopGetStatus64 (memory loopInfo64_zero))))); [done|].
    constructor.
  - split; [exact Hp|exact Hg].
Defined.
