(* ===== verification/DiskUtil.v ===== *)
(** * DiskUtil: package [internal/diskutil], finding out the kind of a partition table and growing a
    partition of it.

    Reading and writing the tables is done by Go libraries; their operations are the calls [Mbr*] and
    [Gpt*] of [OS.v].  Lengths are uint64 and uint32, with their wrap-around. *)

From S2P Require Import Prelude GoStrings GoPath Effects OS.
Open Scope string_scope.
Open Scope list_scope.
Open Scope go_scope.

(** ** tabletype.go *)

Inductive PartitionTableType := PartitionTableGPT | PartitionTableMBR | PartitionTableUnknown.

Definition PartitionTableType_string (t : PartitionTableType) : string :=
  match t with
  | PartitionTableGPT => "gpt"
  | PartitionTableMBR => "dos"
  | PartitionTableUnknown => "unknown"
  end.

Definition mbrSignatureOffset : nat := 510.
Definition mbrPartitionTableOffset : nat := 446.
Definition mbrPartitionTypeOffset : nat := 4.
Definition mbrPartitionTypeGPTProtective : Z := 238.    (* 0xEE *)
Definition gptHeaderOffset : nat := 512.
Definition gptMagic : string := "EFI PART".
Definition minDeviceSize : nat := gptHeaderOffset + 8.

(** [buf[i]] of a buffer of [minDeviceSize] bytes. *)
Definition byte_at (buf : string) (i : nat) : Z := byte_of (nth i (chars buf) "000"%char).

(** What the first bytes of the device say. *)
Definition classify (buf : string) : PartitionTableType :=
  if (String.length buf <? minDeviceSize)%nat then PartitionTableUnknown
  else if negb (byte_at buf mbrSignatureOffset =? 85)%Z
          || negb (byte_at buf (mbrSignatureOffset + 1) =? 170)%Z then PartitionTableUnknown
  else
    let firstPartType := byte_at buf (mbrPartitionTableOffset + mbrPartitionTypeOffset) in
    let hasGPTMagic := bool_decide (str_take 8 (str_drop gptHeaderOffset buf) = gptMagic) in
    if (firstPartType =? mbrPartitionTypeGPTProtective)%Z && hasGPTMagic then PartitionTableGPT
    else PartitionTableMBR.

Definition ProbePartitionTableType (devicePath : string) : io PartitionTableType :=
  let* o := sys (Open devicePath) in
  match o with
  | Err _ => Ret PartitionTableUnknown
  | Ok f =>
      let* r := sys (SysRead (file_fd f) (Z.of_nat minDeviceSize)) in
      let* _ := ignore (sys (FileClose f)) in
      Ret (match r with Ok buf => classify buf | Err _ => PartitionTableUnknown end)
  end.

(** ** growmbr.go *)

Definition sectorSize : Z := 512.
Definition O_RDWR_CLOEXEC : Z := 524290.   (* os.O_RDWR|unix.O_CLOEXEC *)

Definition getBlockDeviceSize (fd : Z) : M Z :=
  let* st := sys (FileStat fd) in
  match st with
  | Err e => fail e
  | Ok (regular, size) =>
      if regular : bool then ret (u64 size)
      else wrapf "BLKGETSIZE64: %w" [] (sys (DeviceSize fd))
  end.

(** [table.GetPartition(num)]. *)
Definition GetPartition (table : list MbrPart) (num : Z) : option MbrPart :=
  if (num <? 1)%Z then None else table !! Z.to_nat (num - 1).

(** The length up to the end of a disk of [total] sectors, as far as the entry can say. *)
Definition max_len (total start : Z) : Z :=
  let maxLen := u64 (total - start) in
  if (4294967295 <? maxLen)%Z then 4294967295 else maxLen.

(** [part.SetLBALen] on the table's entry. *)
Definition set_len (table : list MbrPart) (num len : Z) : list MbrPart :=
  alter (fun p => {| mp_empty := mp_empty p; mp_start := mp_start p; mp_len := len |})
    (Z.to_nat (num - 1)) table.

(** After the table has been changed: write it, and have the kernel read it again. *)
Definition write_table (device : string) (fd : Z) (table : list MbrPart) : M unit :=
  let! _ := wrapf "seek to start of %s: %w" [device] (sys (SysSeek fd 0)) in
  let! _ := wrapf "write MBR to %s: %w" [device] (sys (MbrWrite fd table)) in
  let! _ := wrapf "sync %s: %w" [device] (sys (SysSync fd)) in
  let* info := sys (FileStat fd) in
  match info with
  | Ok (false, _) => wrapf "BLKRRPART on %s: %w" [device] (sys (IoctlRereadPartitions fd))
  | _ => ret tt
  end.

Definition grow_opened (device : string) (partNum fd : Z) : M unit :=
  let! diskSize := wrapf "get device size for %s: %w" [device] (getBlockDeviceSize fd) in
  let totalSectors := (diskSize / sectorSize)%Z in
  if (totalSectors =? 0)%Z then fail (Errorf "device %s has zero size" [device])
  else
    let! table := wrapf "read MBR from %s: %w" [device] (sys (MbrRead fd)) in
    match GetPartition table partNum with
    | None => fail (Errorf "partition %d not found in MBR on %s" [strconv_Itoa partNum; device])
    | Some part =>
        if mp_empty part
        then fail (Errorf "partition %d is empty on %s" [strconv_Itoa partNum; device])
        else
          let maxLen := max_len totalSectors (mp_start part) in
          if (maxLen <=? mp_len part)%Z then ret tt
          else write_table device fd (set_len table partNum (u32 maxLen))
    end.

Definition growMBR (device : string) (partNum : Z) : M unit :=
  if (partNum <? 1)%Z || (4 <? partNum)%Z
  then fail (Errorf "invalid MBR partition number %d: must be 1-4" [strconv_Itoa partNum])
  else
    let! fd := wrapf "open device %s: %w" [device] (sys (SysOpen device O_RDWR_CLOEXEC)) in
    let* r := grow_opened device partNum fd in
    let* _ := ignore (sys (SysClose fd)) in
    Ret r.

(** ** partition.go *)

Definition grow_table (device : string) (partNum h : Z) : M unit :=
  let! _ := wrapf "create gpt device for %s: %w" [device] (sys (GptDevice h)) in
  let! _ := wrapf "read GPT from %s: %w" [device] (sys (GptRead h)) in
  let idx := (partNum - 1)%Z in
  let! growth := wrapf "check available growth for partition %d on %s: %w"
                   [strconv_Itoa partNum; device] (sys (GptAvailableGrowth h idx)) in
  if (growth =? 0)%Z then ret tt
  else
    let! _ := wrapf "grow partition %d on %s: %w" [strconv_Itoa partNum; device]
                (sys (GptGrow h idx growth)) in
    let! _ := wrapf "write GPT to %s: %w" [device] (sys (GptWrite h)) in
    let* parts := sys (GptPartitions h) in
    if (idx <? Z.of_nat (List.length parts))%Z then
      match parts !! Z.to_nat idx with
      | Some (firstLBA, lastLBA) =>
          let* ss := sys (GptSectorSize h) in
          let start := u64 (firstLBA * ss) in
          let length := u64 (u64 (u64 (lastLBA - firstLBA) + 1) * ss) in
          let* _ := ignore (sys (KernelPartitionResize h partNum start length)) in
          ret tt
      | None => Halt (Panic "index out of range")
      end
    else ret tt.

(** The deferred close of the block device comes last. *)
Definition growGPT (device : string) (partNum : Z) : M unit :=
  let! h := wrapf "open block device %s: %w" [device] (sys (GptOpen device)) in
  let* r := grow_table device partNum h in
  let* _ := ignore (sys (GptClose h)) in
  Ret r.

Definition PartitionGrower_GrowPartition (device : string) (partNum : Z) : M unit :=
  if (partNum <? 1)%Z
  then fail (Errorf "invalid partition number %d: must be >= 1" [strconv_Itoa partNum])
  else
    let* tableType := ProbePartitionTableType device in
    match tableType with
    | PartitionTableGPT => growGPT device partNum
    | PartitionTableMBR => growMBR device partNum
    | PartitionTableUnknown =>
        fail (Errorf "unsupported partition table type on %s: %s"
                [device; PartitionTableType_string tableType])
    end.

(** ** Growing an MBR partition *)

(** Entries hold uint32 numbers, and a device's size is a uint64. *)
Definition entry_ok (p : MbrPart) : Prop := (0 <= mp_start p < 2 ^ 32)%Z /\ (0 <= mp_len p < 2 ^ 32)%Z.

Definition sane_disk : @rely call resp := fun _ c =>
  match c return resp c -> Prop with
  | MbrRead _ => fun r => match r with Ok t => Forall entry_ok t | Err _ => True end
  | DeviceSize _ => fun r => match r with Ok n => (0 <= n < 2 ^ 64)%Z | Err _ => True end
  | _ => fun _ => True
  end.

(** The size of the disk in bytes, as the program has found it out. *)
Definition size_found (h : list ev) (fd size : Z) : Prop :=
  (exists n, Ev (FileStat fd) (Ok (true, n)) ∈ h /\ size = u64 n) \/
  (exists n, Ev (FileStat fd) (Ok (false, n)) ∈ h /\ Ev (DeviceSize fd) (Ok size) ∈ h).

(** [t'] is [t] with partition [num] grown, within a disk of [total] sectors. *)
Definition grown (t t' : list MbrPart) (num total : Z) : Prop :=
  exists p len, t !! Z.to_nat (num - 1) = Some p /\ mp_empty p = false /\
    t' !! Z.to_nat (num - 1) = Some {| mp_empty := false; mp_start := mp_start p; mp_len := len |} /\
    (forall i, i <> Z.to_nat (num - 1) -> t' !! i = t !! i) /\
    (mp_len p < len < 2 ^ 32)%Z /\
    ((mp_start p <= total)%Z -> len = Z.min (total - mp_start p) (2 ^ 32 - 1)).

Definition mbr_guard (num : Z) : @guar call resp := fun h c =>
  match c with
  | MbrWrite fd t' => exists t size, Ev (MbrRead fd) (Ok t) ∈ h /\ size_found h fd size /\
                        grown t t' num (size / sectorSize)
  | _ => True
  end.

Lemma max_len_range total start : (0 <= max_len total start < 2 ^ 32)%Z.
Proof.
  unfold max_len, u64. pose proof (Z.mod_pos_bound (total - start) (2 ^ 64) eq_refl).
  destruct (Z.ltb_spec 4294967295 ((total - start) mod 2 ^ 64)); lia.
Qed.

Lemma max_len_within total start :
  (0 <= start <= total)%Z -> (total < 2 ^ 64)%Z ->
  max_len total start = Z.min (total - start) (2 ^ 32 - 1).
Proof.
  intros Hs Ht. unfold max_len, u64. rewrite Z.mod_small by lia.
  destruct (Z.ltb_spec 4294967295 (total - start)); lia.
Qed.

(** A start beyond the end of the disk makes the subtraction wrap around. *)
Lemma max_len_beyond total start :
  (0 <= total < start)%Z -> (start < 2 ^ 32)%Z -> max_len total start = (2 ^ 32 - 1)%Z.
Proof.
  intros Hs Hb. unfold max_len, u64.
  replace (total - start)%Z with (2 ^ 64 + total - start + (-1) * 2 ^ 64)%Z by lia.
  rewrite Z.mod_add, Z.mod_small by lia.
  destruct (Z.ltb_spec 4294967295 (2 ^ 64 + total - start)); lia.
Qed.

Lemma GetPartition_Some t num p :
  GetPartition t num = Some p -> t !! Z.to_nat (num - 1) = Some p.
Proof. unfold GetPartition. by case_step. Qed.

Lemma set_len_grown t num p size :
  Forall entry_ok t -> GetPartition t num = Some p -> mp_empty p = false -> (0 <= size < 2 ^ 64)%Z ->
  (mp_len p < max_len (size / sectorSize) (mp_start p))%Z ->
  grown t (set_len t num (u32 (max_len (size / sectorSize) (mp_start p)))) num (size / sectorSize).
Proof.
  intros Ht Hp He Hs Hl. apply GetPartition_Some in Hp.
  pose proof (max_len_range (size / sectorSize) (mp_start p)) as Hr.
  assert (entry_ok p) as [Hstart _] by (by eapply Forall_lookup_1).
  exists p, (max_len (size / sectorSize) (mp_start p)). unfold u32. rewrite Z.mod_small by done.
  split_and!; try done; try lia.
  - unfold set_len. by rewrite list_lookup_alter_eq, Hp, <- He.
  - intros i Hi. unfold set_len. by rewrite list_lookup_alter_ne.
  - intros Hle. apply max_len_within; [lia|]. apply Z.div_lt_upper_bound; unfold sectorSize; lia.
Qed.

Lemma getBlockDeviceSize_wp num fd h :
  wp sane_disk (mbr_guard num) (getBlockDeviceSize fd)
    (fun o h' => match o with
                 | Done (Ok size) => size_found h' fd size /\ (0 <= size < 2 ^ 64)%Z
                 | Halted _ => False
                 | _ => True
                 end) h.
Proof.
  unfold getBlockDeviceSize. wp_norm. split; [done|]. intros [[[] n]|e] _; wp_norm; [| |done].
  - split; [|apply Z.mod_pos_bound; lia]. left. exists n. split; [left|done].
  - split; [done|]. intros [size|e] Hr; wp_norm; [|done]. split; [|done]. right. exists n.
    split; [right; left|left].
Qed.

Lemma write_table_wp num device fd t' h :
  mbr_guard num h (MbrWrite fd t') ->
  wp sane_disk (mbr_guard num) (write_table device fd t') (fun _ _ => True) h.
Proof.
  intros (t & size & Ht & Hs & Hg). unfold write_table. wp_calls; try exact I.
  exists t, size. split_and!; [by right| |done].
  destruct Hs as [(n & H1 & ->)|(n & H1 & H2)]; [left|right]; exists n; split; try done; by right.
Qed.

Lemma grow_opened_wp device num fd h :
  wp sane_disk (mbr_guard num) (grow_opened device num fd) (fun _ _ => True) h.
Proof.
  unfold grow_opened. apply wp_bindE, wp_wrapf.
  eapply wp_mono; [|apply getBlockDeviceSize_wp].
  intros [[size|e]|s|] h'; try done. cbn. intros [Hsize Hb].
  wp_norm. destruct (Z.eqb_spec (size / sectorSize) 0) as [|Hz]; wp_norm; [done|].
  split; [done|]. intros [t|e] Ht; wp_norm; [|done]. cbn in Ht.
  destruct (GetPartition t num) as [p|] eqn:Hp; wp_norm; [|done].
  destruct (mp_empty p) eqn:He; wp_norm; [done|].
  destruct (Z.leb_spec (max_len (size / sectorSize) (mp_start p)) (mp_len p)) as [|Hl]; [done|].
  apply write_table_wp. exists t, size. split_and!; [left| |by apply set_len_grown].
  destruct Hsize as [(n & H1 & ->)|(n & H1 & H2)]; [left|right]; exists n; split; try done; by right.
Qed.

Lemma growMBR_wp device num h :
  wp sane_disk (mbr_guard num) (growMBR device num) (fun _ _ => True) h.
Proof.
  unfold growMBR. case_step; [done|]. wp_norm. split; [done|]. intros [fd|e] _; wp_norm; [|done].
  apply wp_bind. eapply wp_mono; [|apply grow_opened_wp].
  intros [r|s|] h' _; cbn; [|done|done]. split; [done|]. done.
Qed.

(** A run of [growMBR] on a disk of [sectors] sectors with table [t], all calls answered favourably. *)
Definition mbr_disk (sectors : Z) (t : list MbrPart) (c : call) : option (resp c) :=
  match c return option (resp c) with
  | SysOpen _ _ => Some (Ok 3%Z)
  | FileStat _ => Some (Ok (false, 0%Z))
  | DeviceSize _ => Some (Ok (sectors * sectorSize)%Z)
  | MbrRead _ => Some (Ok t)
  | _ => None
  end.

Lemma growMBR_run device num sectors t p :
  (1 <= num <= 4)%Z -> (0 < sectors)%Z -> t !! Z.to_nat (num - 1) = Some p -> mp_empty p = false ->
  (mp_len p < max_len sectors (mp_start p))%Z ->
  Ev (MbrWrite 3 (set_len t num (max_len sectors (mp_start p)))) (Ok tt)
    ∈ history (mbr_disk sectors t) (growMBR device num) /\
  final (mbr_disk sectors t) (growMBR device num) = Done (Ok tt).
Proof.
  intros Hn Hs Hp He Hl. unfold history, final, growMBR, grow_opened, getBlockDeviceSize.
  pose proof (max_len_range sectors (mp_start p)).
  assert (GetPartition t num = Some p) as Hgp.
  { unfold GetPartition. by rewrite (proj2 (Z.ltb_ge num 1)) by lia. }
  rewrite (proj2 (Z.ltb_ge num 1)), (proj2 (Z.ltb_ge 4 num)) by lia. cbn.
  rewrite Z.div_mul by done. rewrite (proj2 (Z.eqb_neq sectors 0)) by lia. cbn. rewrite Hgp, He.
  rewrite (proj2 (Z.leb_gt _ _)) by done. unfold u32. rewrite Z.mod_small by done. cbn.
  split; [|done]. do 4 right. left.
Qed.

(** ** Properties *)

(** C26: growing an MBR partition stays on the disk.  Whenever [growMBR] writes a partition table, it is
    the table it read with one change: the length of the entry asked for, which was not empty, is
    larger than before and still fits in 32 bits; and when the partition starts on the disk it ends
    exactly at the end of the disk, or has the largest length an entry can hold. *)
Theorem growMBR_within_disk device num h o newer fd t' r older :
  exec sane_disk (growMBR device num) [] h o ->
  h = newer ++ Ev (MbrWrite fd t') r :: older ->
  exists t size, Ev (MbrRead fd) (Ok t) ∈ older /\ size_found older fd size /\
    grown t t' num (size / sectorSize).
Proof. intros Hex Hh. exact (exec_guaranteed_at _ _ _ _ _ _ _ _ _ (growMBR_wp device num []) Hex Hh). Qed.

(** Growing does not look at the other partitions, nor at whether the partition starts on the disk.
    On any disk where the partition asked for is followed by another one that starts on the disk, it
    is grown over that one; and a partition that starts beyond the end of the disk, whose remaining
    space is computed as a negative uint64, gets the largest length.  The function returns nil. *)
Theorem growMBR_overlaps device num sectors t p :
  (1 <= num <= 4)%Z -> (0 < sectors < 2 ^ 32)%Z -> Forall entry_ok t ->
  t !! Z.to_nat (num - 1) = Some p -> mp_empty p = false ->
  (mp_len p < 2 ^ 32 - 1)%Z ->
  (mp_start p + mp_len p < sectors)%Z \/ (sectors < mp_start p)%Z ->
  exists h t' len, exec any_resp (growMBR device num) [] h (Done (Ok tt)) /\
    Ev (MbrWrite 3 t') (Ok tt) ∈ h /\
    t' !! Z.to_nat (num - 1) = Some {| mp_empty := false; mp_start := mp_start p; mp_len := len |} /\
    (forall j q, t !! j = Some q -> j <> Z.to_nat (num - 1) ->
       (mp_start p + mp_len p <= mp_start q < sectors)%Z ->
       t' !! j = Some q /\ (mp_start q < mp_start p + len)%Z) /\
    ((sectors < mp_start p)%Z -> len = 2 ^ 32 - 1)%Z.
Proof.
  intros Hn Hs Ht Hp He Hl Hor.
  assert (entry_ok p) as [Hst Hln] by (by eapply Forall_lookup_1).
  set (len := max_len sectors (mp_start p)).
  assert (mp_len p < len)%Z as Hlt.
  { destruct Hor; [unfold len; rewrite max_len_within by lia|unfold len; rewrite max_len_beyond by lia]; lia. }
  destruct (growMBR_run device num sectors t p) as [Hev Hfin]; try done; [lia|].
  exists (history (mbr_disk sectors t) (growMBR device num)), (set_len t num len), len. split_and!.
  - rewrite <- Hfin. apply world_exec.
  - done.
  - unfold set_len. by rewrite list_lookup_alter_eq, Hp, <- He.
  - intros j q Hj Hjn Hq. unfold set_len. rewrite list_lookup_alter_ne by done. split; [done|].
    unfold len. rewrite max_len_within by lia. lia.
  - intros. unfold len. by apply max_len_beyond; lia.
Qed.

(** Two partitions of 100 sectors on a disk of 1000. *)
Definition two_parts : list MbrPart :=
  [{| mp_empty := false; mp_start := 100; mp_len := 100 |};
   {| mp_empty := false; mp_start := 200; mp_len := 100 |};
   {| mp_empty := true; mp_start := 0; mp_len := 0 |};
   {| mp_empty := true; mp_start := 0; mp_len := 0 |}]%Z.

Lemma two_parts_ok : Forall entry_ok two_parts.
Proof. repeat constructor; simpl; lia. Qed.

Lemma growMBR_within_disk_witness :
  exists t size,
    grown t (set_len two_parts 2 800) 2 (size / sectorSize).
Proof.
  destruct (growMBR_within_disk "/dev/sda" 2 (history (mbr_disk 1000 two_parts) (growMBR "/dev/sda" 2))
    (final (mbr_disk 1000 two_parts) (growMBR "/dev/sda" 2))
    [Ev (SysClose 3) (Ok tt); Ev (IoctlRereadPartitions 3) (Ok tt); Ev (FileStat 3) (Ok (false, 0%Z));
     Ev (SysSync 3) (Ok tt)]
    3 (set_len two_parts 2 800) (Ok tt)
    [Ev (SysSeek 3 0) (Ok tt); Ev (MbrRead 3) (Ok two_parts); Ev (DeviceSize 3) (Ok 512000%Z);
     Ev (FileStat 3) (Ok (false, 0%Z)); Ev (SysOpen "/dev/sda" O_RDWR_CLOEXEC) (Ok 3%Z)])
    as (t & size & _ & _ & Hg).
  - apply world_exec_rely. intros h []; cbn; try done. apply two_parts_ok.
  - reflexivity.
  - by exists t, size.
Defined.

Lemma growMBR_overlaps_witness :
  exists h t' len, exec any_resp (growMBR "/dev/sda" 1) [] h (Done (Ok tt)) /\
    Ev (MbrWrite 3 t') (Ok tt) ∈ h /\ t' !! 0 = Some {| mp_empty := false; mp_start := 100; mp_len := len |} /\
    (200 < 100 + len)%Z.
Proof.
  destruct (growMBR_overlaps "/dev/sda" 1 1000 two_parts
    {| mp_empty := false; mp_start := 100; mp_len := 100 |} ltac:(lia) ltac:(lia) two_parts_ok eq_refl eq_refl
    eq_refl (or_introl eq_refl))
    as (h & t' & len & Hex & Hev & Hl & Ho & _).
  exists h, t', len. split_and!; try done.
  by apply (Ho 1 {| mp_empty := false; mp_start := 200; mp_len := 100 |}).
Defined.
