(* ===== verification/WriteFiles.v ===== *)
(** * WriteFiles: the write_files section of the configuration, package [internal/writefile], with the
    decoding of package [internal/util] (decode.go). *)

From S2P Require Import Prelude GoStrings GoPath GoEncoding Effects OS Config.
Open Scope string_scope.
Open Scope list_scope.
Open Scope go_scope.

Section Decode.
(** [compress/gzip]: opening a reader on the bytes, and reading it to the end. *)
Context (gzip_NewReader : string -> result unit) (gzip_ReadAll : string -> result string).

Definition DecodeBase64Content (content : string) : result string :=
  match base64_DecodeString content with
  | Ok output => Ok output
  | Err e => Err (Errorf_w "unable to decode base64: %w" [] e)
  end.

Definition DecompressGzip (content : string) : result string :=
  match gzip_NewReader content with
  | Err e => Err (Errorf_w "unable to decode gzip: %w" [] e)
  | Ok _ =>
      match gzip_ReadAll content with
      | Err e => Err (Errorf_w "unable to read gzip: %w" [] e)
      | Ok output => Ok output
      end
  end.

Definition DecodeGzipContent (content : string) : result string := DecompressGzip content.

Definition DecodeContent (content encoding : string) : result string :=
  if bool_decide (encoding = "") then Ok content
  else if bool_decide (encoding ∈ ["b64"; "base64"]) then DecodeBase64Content content
  else if bool_decide (encoding ∈ ["gz"; "gzip"]) then DecodeGzipContent content
  else if bool_decide (encoding ∈ ["gz+base64"; "gzip+base64"; "gz+b64"; "gzip+b64"]) then
    let? gz := DecodeBase64Content content in DecodeGzipContent gz
  else Err (Errorf "unsupported encoding %q" [encoding]).

(** ** writefile.go *)

Definition ensureDirectoryExists (dir : string) : M unit :=
  let* info := sys (Stat dir) in
  match info with
  | Ok i => if fi_IsDir i then ret tt else fail (Errorf "%s is not a directory" [dir])
  | Err _ => sys (MkdirAll dir (oct 755))
  end.

(** The temporary file's content is written and the file closed. *)
Definition fill_temp (tmp : File) (content : string) : M unit :=
  let* w := sys (FileWrite tmp content) in
  match w with
  | Err e => let* _ := ignore (sys (FileClose tmp)) in fail e
  | Ok _ => sys (FileClose tmp)
  end.

Definition WriteFile_impl (f : CFile) (root : string) : M string :=
  if negb (bool_decide (cf_Encoding f = ""))
  then fail (Errorf "unable to write file with encoding %s" [cf_Encoding f])
  else
    let p := path_Join [root; cf_Path f] in
    let d := path_Dir p in
    let! _ := ensureDirectoryExists d in
    let! perm := Ret (Permissions f) in
    let! tmp := sys (CreateTemp d "wfs-temp") in
    let! _ := fill_temp tmp (cf_Content f) in
    let! _ := sys (Chmod (file_name tmp) perm) in
    let! _ := if bool_decide (cf_Owner f = "") then ret tt
              else sys (Run "chown" [cf_Owner f; file_name tmp]) in
    let! _ := sys (Rename (file_name tmp) p) in
    ret p.

(** An entry with its content decoded. *)
Definition decoded (f : CFile) (content : string) : CFile :=
  {| cf_Encoding := ""; cf_Content := content; cf_Owner := cf_Owner f; cf_Path := cf_Path f;
     cf_RawFilePermissions := cf_RawFilePermissions f |}.

(** One pass of the loop of [WriteFiles]; failures are logged. *)
Definition write_entry (f : CFile) : io unit :=
  match DecodeContent (cf_Content f) (cf_Encoding f) with
  | Err _ => Ret tt
  | Ok c => ignore (WriteFile_impl (decoded f c) "/")
  end.

Definition WriteFiles (cfg : CloudConfig) : io unit :=
  for_fold (cc_WriteFiles cfg) tt (fun f _ => write_entry f).
End Decode.
