(* ===== verification/Ssh.v ===== *)
(** * Ssh: package [internal/ssh], the authorized keys of the rancher user. *)

From S2P Require Import Prelude GoStrings GoPath Effects OS Config.
Open Scope string_scope.
Open Scope list_scope.
Open Scope go_scope.

Definition sshDir : string := ".ssh".
Definition authorizedFile : string := "authorized_keys".

(** [findUserHomeDir]: the loop over the lines, with the results found so far. *)
Fixpoint find_home (username : string) (lines : list string) (acc : Z * Z * string)
  : result (Z * Z * string) :=
  match lines with
  | [] => Ok acc
  | line :: rest =>
      if strings_HasPrefix line username then
        match strings_Split line ":" with
        | _ :: _ :: u :: g :: _ :: home :: _ =>
            let? uid := strconv_Atoi u in
            let? gid := strconv_Atoi g in
            find_home username rest (uid, gid, home)
        | _ => Ok acc
        end
      else find_home username rest acc
  end.

Definition findUserHomeDir (bytes username : string) : result (Z * Z * string) :=
  find_home username (strings_Split bytes "010") (0, 0, "")%Z.

(** [writeFileAtomic] after the temporary file exists. *)
Definition replace_by (tempFile : File) (filename data : string) (perm : Z) : M unit :=
  let* w := sys (FileWrite tempFile data) in
  match w with
  | Err e => let* _ := ignore (sys (FileClose tempFile)) in fail e
  | Ok _ =>
      let! _ := sys (FileClose tempFile) in
      let! _ := sys (Chmod (file_name tempFile) perm) in
      sys (Rename (file_name tempFile) filename)
  end.

(** The deferred removal of the temporary file comes last. *)
Definition writeFileAtomic (filename data : string) (perm : Z) : M unit :=
  let '(dir, file) := path_Split filename in
  let! tempFile := sys (CreateTemp dir ("." +:+ file)) in
  let* r := replace_by tempFile filename data perm in
  let* _ := ignore (sys (Remove (file_name tempFile))) in
  Ret r.

Section Keys.
(** [net/url.Parse]: the scheme and the opaque part; and how an error reads. *)
Context (url_Parse : string -> result (string * string)) (err_text : error -> string).

(** The table of key providers, with the opaque part of the URL in the place of [%s]. *)
Definition provider_url (scheme opaque key : string) : string :=
  if bool_decide (scheme = "github") then "https://github.com/" +:+ opaque +:+ ".keys"
  else if bool_decide (scheme = "gitlab") then "https://gitlab.com/" +:+ opaque +:+ ".keys"
  else if bool_decide (scheme = "custom") then opaque
  else key.

(** Up to [n] attempts, a second after each that failed otherwise than by its protocol. *)
Fixpoint http_retry (n : nat) (url : string) (last : result HttpResponse) : M HttpResponse :=
  match n with
  | O => Ret last
  | S k =>
      let* r := sys (HttpGet url) in
      match r with
      | Ok resp => ret resp
      | Err e =>
          if strings_Contains (err_text e) "unsupported protocol scheme" then fail e
          else let* _ := sys (Sleep 1000000000%Z) in http_retry k url (Err e)
      end
  end.

Definition getKey (key : string) (withNet : bool) : M string :=
  match url_Parse key with
  | Err _ => ret key
  | Ok (scheme, opaque) =>
      if bool_decide (scheme = "") then ret key
      else if negb withNet then ret ""
      else
        let! resp := http_retry 10 (provider_url scheme opaque key) (Err (ErrText "")) in
        if (2 <? hr_code resp ÷ 100)%Z then fail (Errorf "%s %s" [hr_proto resp; hr_status resp])
        else match hr_err resp with Some e => fail e | None => ret (hr_body resp) end
  end.

(** The file's mode, after it has been created if it was missing. *)
Definition ensure_file (file : string) : M FileInfo :=
  let* st := sys (Stat file) in
  match st with
  | Ok info => ret info
  | Err e =>
      if os_IsNotExist e then
        let! f := sys (Create file) in
        let* m := sys (Chmod file (oct 600)) in
        match m with
        | Err e => let* _ := ignore (sys (FileClose f)) in fail e
        | Ok _ =>
            let! _ := sys (FileClose f) in
            sys (Stat file)
        end
      else fail e
  end.

(** The new content of the keys file. *)
Definition with_key (bytes key : string) : string :=
  if strings_Contains bytes key then bytes else bytes +:+ key +:+ nl.

Definition authorizeSSHKey (key file : string) (uid gid : Z) (withNet : bool) : M unit :=
  let! key := getKey key withNet in
  if bool_decide (key = "") then ret tt
  else
    let! info := ensure_file file in
    let! bytes := sys (ReadFile file) in
    let! _ := writeFileAtomic file (with_key bytes key) (Z.land (fi_mode info) ModePerm) in
    sys (Chown file uid gid).

Definition SetAuthorizedKeys (cfg : CloudConfig) (withNet : bool) : M unit :=
  let! bytes := sys (ReadFile "/etc/passwd") in
  let! '(uid, gid, homeDir) := Ret (findUserHomeDir bytes "rancher") in
  let userSSHDir := path_Join [homeDir; sshDir] in
  let* st := sys (Stat userSSHDir) in
  let! _ :=
    match st with
    | Ok _ => ret tt
    | Err e => if os_IsNotExist e then sys (MkdirAll userSSHDir (oct 700)) else fail e
    end in
  let! _ := sys (Chown userSSHDir uid gid) in
  let userAuthorizedFile := path_Join [userSSHDir; authorizedFile] in
  let* _ := for_fold (cc_SSHAuthorizedKeys cfg) tt (fun key _ =>
              ignore (authorizeSSHKey key userAuthorizedFile uid gid withNet)) in
  ret tt.
End Keys.
