(* ===== verification/WriteFilesSpec.v ===== *)
(** * WriteFilesSpec: files of the configuration are put in place whole, and binary content survives
    base64. *)

From S2P Require Import Prelude GoStrings GoPath GoEncoding GoQuote Effects OS FileWorld Config WriteFiles Ssh.
Open Scope string_scope.
Open Scope list_scope.
Open Scope go_scope.

(** ** Putting a file in place *)

Section Place.
Context (f : CFile) (root : string).

Definition place : string := path_Join [root; cf_Path f].

(** The temporary file [tmp] was made next to the place, has the whole content, and has been given
    the permissions and, if the entry names one, the owner; nothing has happened since. *)
Definition prepared (tmp : File) (perm : Z) (h : list ev) : Prop :=
  exists older, h =
    (if bool_decide (cf_Owner f = "") then []
     else [Ev (Run "chown" [cf_Owner f; file_name tmp]) (Ok tt)])
    ++ Ev (Chmod (file_name tmp) perm) (Ok tt) :: Ev (FileClose tmp) (Ok tt)
       :: Ev (FileWrite tmp (cf_Content f)) (Ok tt)
       :: Ev (CreateTemp (path_Dir place) "wfs-temp") (Ok tmp) :: older.

Definition temp_made (name : string) (h : list ev) : Prop :=
  exists tmp, file_name tmp = name /\ Ev (CreateTemp (path_Dir place) "wfs-temp") (Ok tmp) ∈ h.

Definition place_guard : @guar call resp := fun h c =>
  match c with
  | Stat d => d = path_Dir place
  | MkdirAll d m => d = path_Dir place /\ m = oct 755
  | CreateTemp d _ => d = path_Dir place
  | FileWrite t _ | FileClose t => temp_made (file_name t) h
  | Chmod n m => temp_made n h /\ Permissions f = Ok m
  | Run c args => c = "chown" /\ exists n, args = [cf_Owner f; n] /\ temp_made n h
  | Rename a b => b = place /\
      exists tmp perm, file_name tmp = a /\ Permissions f = Ok perm /\ prepared tmp perm h
  | _ => False
  end.

Definition place_post (o : outcome (result string)) (h : list ev) : Prop :=
  match o with
  | Done (Ok p) => p = place /\ exists tmp perm older, h = Ev (Rename (file_name tmp) place) (Ok tt) :: older /\
                     Permissions f = Ok perm /\ prepared tmp perm older
  | Done (Err _) => Forall (fun e => match e with
                                     | Ev c r => match c return resp c -> Prop with
                                                 | Rename _ _ => fun r => is_ok r = false
                                                 | _ => fun _ => True end r
                                     end) h
  | Halted _ => False
  | Running => True
  end.

Lemma made_here tmp h new :
  temp_made (file_name tmp) (new ++ Ev (CreateTemp (path_Dir place) "wfs-temp") (Ok tmp) :: h).
Proof using Type. exists tmp. split; [done|]. apply elem_of_app. right. left. Qed.

(** The events so far contain no rename. *)
Ltac no_rename := repeat (constructor; [exact I || reflexivity|]); constructor.

Lemma ensure_dir_wp h :
  Forall (fun e => match ev_call e with Rename _ _ => False | _ => True end) h ->
  wp any_resp place_guard (ensureDirectoryExists (path_Dir place))
    (fun o h' => match o with
                 | Halted _ => False
                 | _ => Forall (fun e => match ev_call e with Rename _ _ => False | _ => True end) h'
                 end) h.
Proof using Type.
  intros Hh. unfold ensureDirectoryExists. wp_norm. split; [done|]. intros [i|e] _; wp_norm.
  - destruct (fi_IsDir i); by constructor.
  - split; [done|]. intros r _. repeat (constructor; [done|]). done.
Qed.

Lemma post_err e (h : list ev) :
  Forall (fun e => match ev_call e with Rename _ _ => False | _ => True end) h ->
  place_post (Done (Err e)) h.
Proof using Type. intros H. eapply Forall_impl; [exact H|]. intros [[] r] He; simpl in *; done. Qed.

Ltac failed := apply post_err; repeat (constructor; [exact I|]); assumption.

Lemma WriteFile_wp : wp any_resp place_guard (WriteFile_impl f root) place_post [].
Proof using Type.
  unfold WriteFile_impl. destruct (negb _); wp_norm; [by constructor|].
  fold place. apply wp_bindE. eapply wp_mono; [|by apply ensure_dir_wp].
  intros [[[]|e]|s|] h Hh; [|by apply post_err|done|done]. wp_norm.
  destruct (Permissions f) as [perm|e] eqn:Hperm; wp_norm; [|failed].
  split; [done|]. intros [tmp|e] _; wp_norm; [|failed].
  unfold fill_temp. wp_norm. split; [apply (made_here tmp h [])|]. intros [[]|e] _; wp_norm.
  2: { split; [apply (made_here tmp h [_])|]. intros r _. wp_norm. failed. }
  split; [apply (made_here tmp h [_])|]. intros [[]|e] _; wp_norm; [|failed].
  split; [split; [apply (made_here tmp h [_; _])|done]|]. intros [[]|e] _; wp_norm; [|failed].
  destruct (bool_decide (cf_Owner f = "")) eqn:Ho; wp_norm.
  - assert (prepared tmp perm (Ev (Chmod (file_name tmp) perm) (Ok tt) :: Ev (FileClose tmp) (Ok tt)
       :: Ev (FileWrite tmp (cf_Content f)) (Ok tt)
       :: Ev (CreateTemp (path_Dir place) "wfs-temp") (Ok tmp) :: h)) as Hpre
      by (exists h; by rewrite Ho).
    split; [split; [done|]; by exists tmp, perm|].
    intros [[]|e] _; wp_norm.
    + split; [done|]. exists tmp, perm. by eexists.
    + constructor; [done|]. by apply (post_err e); repeat (constructor; [exact I|]).
  - split.
    { split; [done|]. eexists. split; [done|]. apply (made_here tmp h [_; _; _]). }
    intros [[]|e] _; wp_norm; [|failed].
    assert (prepared tmp perm (Ev (Run "chown" [cf_Owner f; file_name tmp]) (Ok tt)
       :: Ev (Chmod (file_name tmp) perm) (Ok tt) :: Ev (FileClose tmp) (Ok tt)
       :: Ev (FileWrite tmp (cf_Content f)) (Ok tt)
       :: Ev (CreateTemp (path_Dir place) "wfs-temp") (Ok tmp) :: h)) as Hpre
      by (exists h; by rewrite Ho).
    split; [split; [done|]; by exists tmp, perm|].
    intros [[]|e] _; wp_norm.
    + split; [done|]. exists tmp, perm. by eexists.
    + constructor; [done|]. by apply (post_err e); repeat (constructor; [exact I|]).
Qed.
End Place.

(** ** base64 *)

Lemma b64_val_char n : (0 <= n < 64)%Z -> b64_val (b64_char n) = Some n.
Proof.
  intros Hn. assert (Forall (fun n => b64_val (b64_char n) = Some n) (seqZ 0 64)) as Hall.
  { refine (bool_decide_unpack _ _). by vm_compute. }
  eapply Forall_forall in Hall; [exact Hall|]. apply elem_of_seqZ. lia.
Qed.

(** An encoded character is none of those that mean something else. *)
Lemma b64_char_plain n :
  (0 <= n < 64)%Z -> b64_char n <> "="%char /\ b64_char n <> "010"%char /\ b64_char n <> "013"%char.
Proof.
  intros Hn. assert (Forall (fun n => b64_char n <> "="%char /\ b64_char n <> "010"%char /\
                                      b64_char n <> "013"%char) (seqZ 0 64)) as Hall.
  { refine (bool_decide_unpack _ _). by vm_compute. }
  eapply Forall_forall in Hall; [exact Hall|]. apply elem_of_seqZ. lia.
Qed.

Lemma list_ind3 {A} (P : list A -> Prop) :
  P [] -> (forall a, P [a]) -> (forall a b, P [a; b]) ->
  (forall a b c l, P l -> P (a :: b :: c :: l)) -> forall l, P l.
Proof.
  intros H0 H1 H2 H3. assert (forall n l, List.length l <= n -> P l) as H; [|by eauto].
  induction n as [|n IH]; intros [|a [|b [|c l]]] Hl; simpl in Hl; try lia; auto.
  apply H3, IH. lia.
Qed.

Ltac sextets := Z.to_euclidean_division_equations; lia.

Lemma decode_encode l : b64_decode (b64_encode l) = Some l.
Proof.
  induction l as [|a|a b|a b c l IH] using list_ind3; [done|..]; cbn [b64_encode].
  - pose proof (byte_range a). cbn [b64_decode]. rewrite !b64_val_char by sextets.
    cbn. do 2 f_equal. rewrite <- (of_byte_of a) at 3. f_equal. sextets.
  - pose proof (byte_range a). pose proof (byte_range b).
    set (x := (byte_of a * 1024 + byte_of b * 4)%Z). cbn [b64_decode].
    rewrite !b64_val_char by (subst x; sextets).
    destruct (b64_char_plain (x mod 64)) as (Hne & _); [subst x; sextets|].
    destruct (Ascii.eqb_spec (b64_char (x mod 64)) "="); [done|]. cbn.
    rewrite <- (of_byte_of a), <- (of_byte_of b). do 2 f_equal; [|f_equal]; f_equal; subst x; rewrite ?of_byte_of; sextets.
  - pose proof (byte_range a). pose proof (byte_range b). pose proof (byte_range c).
    set (x := (byte_of a * 65536 + byte_of b * 256 + byte_of c)%Z). cbn [b64_decode].
    rewrite !b64_val_char by (subst x; sextets).
    destruct (b64_char_plain (x / 64 mod 64)) as (Hne & _); [subst x; sextets|].
    destruct (b64_char_plain (x mod 64)) as (Hne' & _); [subst x; sextets|].
    destruct (Ascii.eqb_spec (b64_char (x / 64 mod 64)) "="); [done|].
    destruct (Ascii.eqb_spec (b64_char (x mod 64)) "="); [done|]. rewrite IH.
    f_equal. rewrite <- (of_byte_of a), <- (of_byte_of b), <- (of_byte_of c).
    f_equal; [|f_equal; [|f_equal]]; f_equal; subst x; rewrite ?of_byte_of; sextets.
Qed.

Lemma b64_encode_plain l : Forall (fun c => c <> "010"%char /\ c <> "013"%char) (b64_encode l).
Proof.
  induction l as [|a|a b|a b c l IH] using list_ind3; [constructor|..]; cbn [b64_encode].
  - pose proof (byte_range a). repeat constructor; try done; apply b64_char_plain; sextets.
  - pose proof (byte_range a). pose proof (byte_range b).
    repeat constructor; try done; apply b64_char_plain; sextets.
  - pose proof (byte_range a). pose proof (byte_range b). pose proof (byte_range c).
    repeat (constructor; [split; apply b64_char_plain; sextets|]). exact IH.
Qed.

Lemma filter_Forall {A} (P : A -> Prop) `{forall x, Decision (P x)} l : Forall P l -> filter P l = l.
Proof. induction 1 as [|x l Hx _ IH]; [done|]. by rewrite filter_cons_True, IH. Qed.

Lemma base64_roundtrip s : base64_DecodeString (base64_EncodeToString s) = Ok s.
Proof.
  unfold base64_DecodeString, base64_EncodeToString. rewrite chars_of_chars.
  rewrite filter_Forall by apply b64_encode_plain.
  by rewrite decode_encode, of_chars_chars.
Qed.

(** ** The user's line of /etc/passwd *)

(** A line of an account whose name starts with [username], with its user, group and home. *)
Definition account_line (username line : string) (acc : Z * Z * string) : Prop :=
  strings_HasPrefix line username = true /\
  exists name pw u g gecos home rest,
    strings_Split line ":" = name :: pw :: u :: g :: gecos :: home :: rest /\
    strconv_Atoi u = Ok acc.1.1 /\ strconv_Atoi g = Ok acc.1.2 /\ home = acc.2.

Lemma find_home_skip username l lines acc :
  Forall (fun line => strings_HasPrefix line username = false) l ->
  find_home username (l ++ lines) acc = find_home username lines acc.
Proof. induction 1 as [|line l Hl _ IH]; [done|]. cbn [app find_home]. by rewrite Hl. Qed.

Lemma find_home_account username line lines found acc :
  account_line username line found ->
  find_home username (line :: lines) acc = find_home username lines found.
Proof.
  intros (Hp & name & pw & u & g & gecos & home & rest & Hs & Hu & Hg & ->).
  cbn [find_home]. rewrite Hp, Hs, Hu, Hg. by destruct found as [[u' g'] h'].
Qed.

(** ** Properties *)


(** A user-data script reaches its place byte for byte.  Applying the configuration that is built
    for a script, in either of its forms (as it is, or as base64 when it holds zero bytes), on a
    machine where the path is free writes exactly the script to /run/k3os/userdata and leaves every
    other file as it was. *)
Theorem userdata_script_installed gzip_NewReader gzip_ReadAll d f (w : files) :
  f = script_file "b64" (base64_EncodeToString d) \/ f = script_file "" d ->
  w !! "/run/k3os" = None -> w !! "/run/k3os/wfs-temp" = None ->
  fs_run (WriteFiles gzip_NewReader gzip_ReadAll (userdata_config f)) w [] =
  (Done tt, <["/run/k3os/userdata" := d]> w).
Proof.
  intros Hf Hdir Htmp. unfold WriteFiles, userdata_config. cbn [cc_WriteFiles for_fold].
  assert (write_entry gzip_NewReader gzip_ReadAll f = ignore (WriteFile_impl (script_file "" d) "/")) as ->.
  { unfold write_entry, DecodeContent.
    destruct Hf as [-> | ->]; cbn [cf_Content cf_Encoding script_file decoded cf_Owner cf_Path cf_RawFilePermissions].
    - rewrite bool_decide_false, bool_decide_true by (done || left).
      unfold DecodeBase64Content. by rewrite base64_roundtrip.
    - by rewrite bool_decide_true. }
  unfold WriteFile_impl. change (Permissions (script_file "" d)) with (@Ok Z 448%Z).
  cbn [cf_Encoding script_file cf_Path cf_Owner cf_Content].
  change (path_Join ["/"; "/run/k3os/userdata"]) with "/run/k3os/userdata".
  change (path_Dir "/run/k3os/userdata") with "/run/k3os".
  unfold fs_run. simpl. rewrite Hdir. simpl. rewrite !lookup_insert_eq. simpl.
  rewrite insert_insert_eq. change ("/run/k3os" +:+ "/" +:+ "wfs-temp") with "/run/k3os/wfs-temp".
  change ("" +:+ d) with d. by rewrite delete_insert_eq, delete_id.
Qed.

(** The account found is the last one whose name begins with the name asked for.  Where every such
    line of /etc/passwd is well formed, [findUserHomeDir] returns the numbers and home of the last
    of them, and the root user with an empty home when there is none; a line "rancher2:..." after
    that of rancher is one of them. *)
Theorem findUserHomeDir_last username before line after found bytes :
  strings_Split bytes "010" = before ++ line :: after ->
  Forall (fun l => strings_HasPrefix l username = true -> exists acc, account_line username l acc) before ->
  account_line username line found ->
  Forall (fun l => strings_HasPrefix l username = false) after ->
  findUserHomeDir bytes username = Ok found.
Proof.
  intros Hb Hbefore Hline Hafter. unfold findUserHomeDir. rewrite Hb. generalize (0, 0, "")%Z.
  clear Hb. induction Hbefore as [|l before Hl _ IH]; intros acc.
  - cbn [app]. erewrite find_home_account by exact Hline.
    by rewrite <- (app_nil_r after), find_home_skip.
  - destruct (strings_HasPrefix l username) eqn:Hp.
    + destruct (Hl eq_refl) as [acc' Ha]. cbn [app]. by erewrite find_home_account by exact Ha.
    + cbn [app find_home]. by rewrite Hp.
Qed.

Definition demo_file : CFile :=
  {| cf_Encoding := ""; cf_Content := "x"; cf_Owner := "root"; cf_Path := "/etc/demo";
     cf_RawFilePermissions := "0600" |}.


Lemma userdata_script_installed_witness :
  fs_run (WriteFiles (fun _ => Ok tt) Ok (userdata_config (script_file "b64" "IyEAAQ=="))) ∅ [] =
  (Done tt, {["/run/k3os/userdata" := of_chars ["#"; "!"; "000"; "001"]%char]}).
Proof.
  apply (userdata_script_installed (fun _ => Ok tt) Ok (of_chars ["#"; "!"; "000"; "001"]%char)); [by left|done|done].
Defined.

Lemma findUserHomeDir_last_witness :
  let passwd := "root:x:0:0:root:/root:/bin/bash" +:+ nl +:+ "rancher:x:1000:1000::/home/rancher:/bin/bash"
                +:+ nl +:+ "rancher2:x:1001:1001::/home/r2:/bin/bash" in
  findUserHomeDir passwd "rancher" = Ok (1001, 1001, "/home/r2")%Z.
Proof.
  refine (findUserHomeDir_last "rancher"
    ["root:x:0:0:root:/root:/bin/bash"; "rancher:x:1000:1000::/home/rancher:/bin/bash"]
    "rancher2:x:1001:1001::/home/r2:/bin/bash" [] _ _ _ _ _ _).
  - reflexivity.
  - repeat constructor; [done|]. intros _. exists (1000, 1000, "/home/rancher")%Z. split; [done|].
    by repeat eexists.
  - split; [done|]. by repeat eexists.
  - constructor.
Defined.
