(* ===== verification/CC.v ===== *)
(** * CC: applying the cloud configuration, package [internal/cc], with the host name of package
    [internal/hostname].

    Maps are visited in an order the runtime chooses ([range_order]).  [append] to the slice of
    arguments of the configuration may write behind its end; nothing reads there, so slices are
    lists. *)

From stdpp Require Import sorting.
From S2P Require Import Prelude GoStrings GoPath GoEncoding Effects OS Config ModeDetect MountPkg Shadow WriteFiles Ssh.
Open Scope string_scope.
Open Scope list_scope.
Open Scope go_scope.

(** ** hostname.go *)

Definition persistedHostnamePath : string := "/var/lib/rancher/k3os/hostname".

Definition readPersistedHostname : io string :=
  let* data := sys (ReadFile persistedHostnamePath) in
  Ret (match data with Ok d => strings_TrimSpace d | Err _ => "" end).

(** One line of /etc/hosts as written back. *)
Definition hosts_line (hostname line : string) : string :=
  let line := strings_TrimSpace line in
  match strings_Fields line with
  | "127.0.1.1" :: _ => "127.0.1.1 " +:+ hostname +:+ nl
  | _ => line +:+ nl
  end.

(** The scanner's error is not looked at. *)
Definition hosts_content (hostname data : string) (rerr : option error) : string :=
  fold_left (fun content line => content +:+ hosts_line hostname line)
    (fst (bufio_Scan data rerr)) "".

Definition syncHostname : M unit :=
  let! hostname := sys Hostname in
  if bool_decide (hostname = "") then ret tt
  else
    let! _ := sys (WriteFile "/etc/hostname" (hostname +:+ nl) (oct 644)) in
    let! hosts := sys (Open "/etc/hosts") in
    let* '(data, rerr) := sys (FileReadAll hosts) in
    let* r := sys (WriteFile "/etc/hosts" (hosts_content hostname data rerr) (oct 600)) in
    let* _ := ignore (sys (FileClose hosts)) in
    Ret r.

Definition SetHostname_cfg (c : CloudConfig) : M unit :=
  let* hostname := if bool_decide (cc_Hostname c = "") then readPersistedHostname
                   else Ret (cc_Hostname c) in
  if bool_decide (hostname = "") then ret tt
  else
    let! _ := sys (SetHostname hostname) in
    syncHostname.

(** ** funcs.go *)

(** A range over a map of strings: its entries in the order visited. *)
Definition range_map (m : gmap string string) : io (list (string * string)) :=
  let* keys := range_order (map fst (map_to_list m)) in
  Ret (omap (fun k => pair k <$> m !! k) keys).

(** [sort.Strings]. *)
Definition string_le (a b : string) : Prop := String.leb a b = true.
#[export] Instance string_le_dec a b : Decision (string_le a b) := decide (String.leb a b = true).
Definition sort_Strings (l : list string) : list string := merge_sort string_le l.

Section Applier.
Context `{UnicodeTables}.
(** The parameters of the components below, the build's version, and the prefix of the mode file. *)
Context (gzip_NewReader : string -> result unit) (gzip_ReadAll : string -> result string)
  (url_Parse : string -> result (string * string)) (err_text : error -> string)
  (shacrypt_New : result unit) (shacrypt_Hash : string -> result string)
  (Version : string) (modePrefix : list string).

Definition ApplyModules (cfg : CloudConfig) : M unit :=
  let! loaded := sys LoadedModules in
  for_each (k_Modules (cc_K3OS cfg)) (fun m =>
    if bool_decide (m ∈ loaded) then ret tt
    else
      let params := strings_Split m " " in
      let* r := sys (LoadModule (hd "" params) (strings_Join (tl params) " ")) in
      match r with
      | Ok _ => ret tt
      | Err e => fail (Errorf_w "could not load module %s with parameters [%s], err %w"
                         [m; "[" +:+ strings_Join params " " +:+ "]"] e)
      end).

Definition ApplySysctls (cfg : CloudConfig) : M unit :=
  let* kvs := range_map (k_Sysctls (cc_K3OS cfg)) in
  for_each kvs (fun '(k, v) => sys (SysctlSet k v)).

Definition ApplyHostname (cfg : CloudConfig) : M unit := SetHostname_cfg cfg.

Definition ApplyPassword (cfg : CloudConfig) : M unit :=
  if bool_decide (k_Password (cc_K3OS cfg) = "") then ret tt
  else SetPassword shacrypt_New shacrypt_Hash "rancher" (k_Password (cc_K3OS cfg)).

Definition ApplyRuncmd (cfg : CloudConfig) : M unit :=
  for_each (cc_Runcmd cfg) (fun cmd => sys (RunShell cmd)).
Definition ApplyBootcmd (cfg : CloudConfig) : M unit :=
  for_each (cc_Bootcmd cfg) (fun cmd => sys (RunShell cmd)).
Definition ApplyInitcmd (cfg : CloudConfig) : M unit :=
  for_each (cc_Initcmd cfg) (fun cmd => sys (RunShell cmd)).

Definition ApplyWriteFiles (cfg : CloudConfig) : M unit :=
  let* _ := WriteFiles gzip_NewReader gzip_ReadAll cfg in ret tt.

Definition ApplySSHKeys (cfg : CloudConfig) : M unit := SetAuthorizedKeys url_Parse err_text cfg false.
Definition ApplySSHKeysWithNet (cfg : CloudConfig) : M unit :=
  SetAuthorizedKeys url_Parse err_text cfg true.

(** The parts of the command line and environment of [ApplyK3S]. *)
Definition k3s_vars (k3sExists k3sLocalExists restart : bool) (k : K3OS) : list string :=
  ["INSTALL_K3S_NAME=service"]
  ++ (if k3sExists then
        ["INSTALL_K3S_SKIP_DOWNLOAD=true"; "INSTALL_K3S_BIN_DIR=/sbin";
         "INSTALL_K3S_BIN_DIR_READ_ONLY=true"]
      else if k3sLocalExists then ["INSTALL_K3S_SKIP_DOWNLOAD=true"] else [])
  ++ (if restart then [] else ["INSTALL_K3S_SKIP_START=true"])
  ++ (if bool_decide (k_ServerURL k = "") then [] else ["K3S_URL=" +:+ k_ServerURL k])
  ++ (if bool_decide (k_Token k = "") then [] else ["K3S_TOKEN=" +:+ k_Token k]).

Definition k3s_role (k : K3OS) : list string :=
  match k_K3sArgs k with
  | [] => [if bool_decide (k_ServerURL k = "") then "server" else "agent"]
  | args => args
  end.

Definition k3s_labels (labels : list (string * string)) (mode : string) : list string :=
  sort_Strings
    (map (fun '(k, v) => k +:+ "=" +:+ v) labels
     ++ (if bool_decide (mode = "") then [] else ["k3os.io/mode=" +:+ mode])
     ++ ["k3os.io/version=" +:+ Version]).

Definition k3s_args (k : K3OS) (labels : list (string * string)) (mode : string) : list string :=
  k3s_role k
  ++ concat (map (fun l => ["--node-label"; l]) (k3s_labels labels mode))
  ++ concat (map (fun t => ["--kubelet-arg"; "register-with-taints=" +:+ t]) (k_Taints k)).

Definition ApplyK3S (cfg : CloudConfig) (restart install : bool) : M unit :=
  let! mode := mode_Get modePrefix in
  if bool_decide (mode = "install") then ret tt
  else
    let* s := sys (Stat "/sbin/k3s") in
    let* l := sys (Stat "/usr/local/bin/k3s") in
    let k3sExists := is_ok s in
    let k3sLocalExists := is_ok l in
    if negb k3sExists && negb restart then ret tt
    else if negb k3sExists && negb k3sLocalExists && negb install then ret tt
    else
      let k := cc_K3OS cfg in
      let* labels := range_map (k_Labels k) in
      sys (RunWithEnv (k3s_vars k3sExists k3sLocalExists restart k)
             "/usr/libexec/k3os/k3s-install.sh" (k3s_args k labels mode)).

Definition ApplyK3SWithRestart (cfg : CloudConfig) : M unit := ApplyK3S cfg true false.
Definition ApplyK3SInstall (cfg : CloudConfig) : M unit := ApplyK3S cfg true true.
Definition ApplyK3SNoRestart (cfg : CloudConfig) : M unit := ApplyK3S cfg false false.

Definition ApplyInstall (_ : CloudConfig) : M unit :=
  let! mode := mode_Get modePrefix in
  if bool_decide (mode = "install") then sys (Run "k3os" ["install"]) else ret tt.

Definition dns_text (k : K3OS) : string :=
  "[General]" +:+ nl +:+ "NetworkInterfaceBlacklist=veth" +:+ nl
  +:+ "PreferredTechnologies=ethernet,wifi" +:+ nl
  +:+ match k_DNSNameservers k with
      | [] => "FallbackNameservers=8.8.8.8" +:+ nl
      | l => "FallbackNameservers=" +:+ strings_Join l "," +:+ nl
      end
  +:+ match k_NTPServers k with
      | [] => ""
      | l => "FallbackTimeservers=" +:+ strings_Join l "," +:+ nl
      end.

Definition ApplyDNS (cfg : CloudConfig) : M unit :=
  wrapf "failed to write /etc/connman/main.conf: %w" []
    (sys (WriteFile "/etc/connman/main.conf" (dns_text (cc_K3OS cfg)) (oct 644))).

Fixpoint wifi_services (i : Z) (l : list Wifi) : string :=
  match l with
  | [] => ""
  | w :: rest =>
      ("[service_" +:+ "wifi" +:+ strconv_Itoa i +:+ "]" +:+ nl +:+ "Type=wifi" +:+ nl
       +:+ "Passphrase=" +:+ wf_Passphrase w +:+ nl +:+ "Name=" +:+ wf_Name w +:+ nl)
      +:+ wifi_services (i + 1)%Z rest
  end.

Definition ApplyWifi (cfg : CloudConfig) : M unit :=
  match k_Wifi (cc_K3OS cfg) with
  | [] => ret tt
  | l =>
      let! _ := wrapf "failed to mkdir /var/lib/connman: %w" []
                  (sys (MkdirAll "/var/lib/connman" (oct 755))) in
      let! _ := wrapf "failed to write to /var/lib/connman/settings: %w" []
                  (sys (WriteFile "/var/lib/connman/settings"
                          ("[WiFi]" +:+ nl +:+ "Enable=true" +:+ nl +:+ "Tethering=false" +:+ nl)
                          (oct 644))) in
      sys (WriteFile "/var/lib/connman/cloud-config.config"
             ("[global]" +:+ nl +:+ "Name=cloud-config" +:+ nl
              +:+ "Description=Services defined in the cloud-config" +:+ nl
              +:+ wifi_services 0 l) (oct 644))
  end.

Definition ApplyDataSource (cfg : CloudConfig) : M unit :=
  match k_DataSources (cc_K3OS cfg) with
  | [] => ret tt
  | l => wrapf "failed to write to /etc/conf.d/cloud-config: %w" []
           (sys (WriteFile "/etc/conf.d/cloud-config"
                   ("command_args=" +:+ dq +:+ strings_Join l " " +:+ dq +:+ nl) (oct 644)))
  end.

(** The variable a line of /etc/environment sets. *)
Definition env_line (line : string) : option (string * string) :=
  let line := strings_TrimSpace line in
  if strings_HasPrefix line "#" then None
  else
    let line := strings_TrimSpace (strings_TrimPrefix line "export") in
    if (1 <? Z.of_nat (String.length line))%Z then
      match strings_SplitN line "=" 2 with
      | [key; v] => Some (key, match strconv_Unquote v with Ok val => val | Err _ => v end)
      | key :: _ => Some (key, "")
      | [] => None
      end
    else None.

Definition env_add (env : gmap string string) (line : string) : gmap string string :=
  match env_line line with Some (k, v) => <[k := v]> env | None => env end.

Definition read_environment (data : string) : gmap string string :=
  fold_left env_add (fst (bufio_Scan data None)) ∅.

Definition env_text (kvs : list (string * string)) : string :=
  concat_str (map (fun '(k, v) => k +:+ "=" +:+ strconv_Quote v +:+ nl) kvs).

Definition ApplyEnvironment (cfg : CloudConfig) : M unit :=
  let E := k_Environment (cc_K3OS cfg) in
  if bool_decide (E = ∅) then ret tt
  else
    let* r := sys (ReadFile "/etc/environment") in
    let env := match r with Ok buf => read_environment buf | Err _ => ∅ end in
    let* kvs := range_map (E ∪ env) in
    wrapf "failed to write to /etc/environment: %w" []
      (sys (WriteFile "/etc/environment" (env_text kvs) (oct 644))).

(** ** apply.go *)

(** Every applier runs; the errors are collected. *)
Definition runApplies (cfg : CloudConfig) (appliers : list (CloudConfig -> M unit)) : M unit :=
  let* errs := for_fold appliers [] (fun app errs =>
    let* r := app cfg in
    Ret (match r with Ok _ => errs | Err e => errs ++ [e] end)) in
  Ret (errors_Join errs).

Definition RunApply_list : list (CloudConfig -> M unit) :=
  [ApplyModules; ApplySysctls; ApplyHostname; ApplyDNS; ApplyWifi; ApplyPassword;
   ApplySSHKeysWithNet; ApplyWriteFiles; ApplyEnvironment; ApplyRuncmd; ApplyInstall;
   ApplyK3SInstall].
Definition BootApply_list : list (CloudConfig -> M unit) :=
  [ApplyDataSource; ApplyModules; ApplySysctls; ApplyHostname; ApplyDNS; ApplyWifi; ApplyPassword;
   ApplySSHKeys; ApplyK3SNoRestart; ApplyWriteFiles; ApplyEnvironment; ApplyBootcmd].
Definition InitApply_list : list (CloudConfig -> M unit) :=
  [ApplyModules; ApplySysctls; ApplyHostname; ApplyWriteFiles; ApplyEnvironment; ApplyInitcmd].

Definition RunApply (cfg : CloudConfig) : M unit := runApplies cfg RunApply_list.
Definition InstallApply (cfg : CloudConfig) : M unit := runApplies cfg [ApplyK3SWithRestart].
Definition BootApply (cfg : CloudConfig) : M unit := runApplies cfg BootApply_list.
Definition InitApply (cfg : CloudConfig) : M unit := runApplies cfg InitApply_list.
End Applier.
