(* ===== verification/CCSpec.v ===== *)
(** * CCSpec: what applying the cloud configuration does. *)

From stdpp Require Import sorting.
From S2P Require Import Prelude GoStrings GoPath GoEncoding GoQuote Effects OS Config ModeDetect MountPkg WriteFiles CC.
Open Scope string_scope.
Open Scope list_scope.
Open Scope go_scope.

(** ** Sorting *)

Lemma Ascii_compare_spec a b :
  Ascii.compare a b = N.compare (N_of_ascii a) (N_of_ascii b).
Proof. done. Qed.

#[export] Instance string_le_trans : Transitive string_le.
Proof.
  unfold string_le, String.leb. intros a. induction a as [|x a IH]; intros [|y b] [|z c]; simpl; try done.
  rewrite !Ascii_compare_spec.
  destruct (N.compare_spec (N_of_ascii x) (N_of_ascii y)) as [Hxy|Hxy|Hxy],
    (N.compare_spec (N_of_ascii y) (N_of_ascii z)) as [Hyz|Hyz|Hyz],
    (N.compare_spec (N_of_ascii x) (N_of_ascii z)) as [Hxz|Hxz|Hxz]; try done; try lia.
  apply IH.
Qed.

#[export] Instance string_le_total : Total string_le.
Proof. intros a b. apply String.leb_total. Qed.

#[export] Instance string_le_antisym : AntiSymm eq string_le.
Proof. intros a b. apply String.leb_antisym. Qed.

(** Sorting forgets the order. *)
#[export] Instance sort_Strings_proper : Proper ((≡ₚ) ==> eq) sort_Strings.
Proof.
  intros l l' Hl. unfold sort_Strings. apply (StronglySorted_unique string_le);
    [by apply StronglySorted_merge_sort; apply _..|]. by rewrite !merge_sort_Permutation.
Qed.

Lemma sort_Strings_perm l : sort_Strings l ≡ₚ l.
Proof. apply merge_sort_Permutation. Qed.

(** ** Ranging over a map *)

Lemma omap_lookup (m : gmap string string) l :
  (forall p, p ∈ l -> m !! p.1 = Some p.2) ->
  omap (fun k => pair k <$> m !! k) (map fst l) = l.
Proof.
  induction l as [|[k v] l IH]; intros Hl; [done|].
  pose proof (Hl (k, v) ltac:(left)) as Hk. cbn in *. rewrite Hk. cbn. f_equal.
  apply IH. intros p Hp. apply Hl. by right.
Qed.

(** A visit sees every entry once, in some order. *)
Lemma range_map_exec R (m : gmap string string) h h' kvs :
  exec R (range_map m) h h' (Done kvs) ->
  kvs ≡ₚ map_to_list m /\ exists keys o, h' = Ev (RangeOrder keys) o :: h.
Proof.
  unfold range_map, range_order. cbn [bind sys perform]. intros H%exec_inv. destruct H as (o & _ & H).
  apply exec_inv in H as [<- ->]. split; [|by do 2 eexists].
  rewrite range_order_perm, omap_lookup; [done|]. by intros [k v] Hp%elem_of_map_to_list.
Qed.

(** ** The appliers *)

(** The appliers have run in order, each to its end, with these results. *)
Inductive applied (cfg : CloudConfig) :
  list (CloudConfig -> M unit) -> list ev -> list ev -> list (result unit) -> Prop :=
| applied_nil h : applied cfg [] h h []
| applied_cons app apps h h1 h2 r rs :
    exec any_resp (app cfg) h h1 (Done r) -> applied cfg apps h1 h2 rs ->
    applied cfg (app :: apps) h h2 (r :: rs).

Definition error_of (r : result unit) : option error :=
  match r with Ok _ => None | Err e => Some e end.

Lemma collect_exec cfg apps errs h h' out :
  exec any_resp (for_fold apps errs (fun app errs =>
      bind (app cfg) (fun r => Ret (match r with Ok _ => errs | Err e => errs ++ [e] end)))) h h' (Done out) <->
  exists rs, applied cfg apps h h' rs /\ out = errs ++ omap error_of rs.
Proof.
  revert errs h. induction apps as [|f apps IH]; intros errs h; simpl.
  - split.
    + intros [<- ->]%exec_inv. exists []. split; [constructor|]. by rewrite app_nil_r.
    + intros (rs & Ha & ->). inversion Ha; subst. simpl. rewrite app_nil_r. constructor.
  - split.
    + intros (errs' & h1 & (r & h2 & Hr & Hk)%exec_bind_inv & Hrest)%exec_bind_inv.
      apply exec_inv in Hk as [<- ->]. apply IH in Hrest as (rs & Ha & ->).
      exists (r :: rs). split; [by econstructor|]. destruct r; simpl; [done|by rewrite <- (assoc_L app)].
    + intros (rs & Ha & ->). inversion Ha as [|? ? ? h1 ? r rs' Hr Hrest]; subst.
      eapply exec_bind; [eapply exec_bind; [exact Hr|constructor]|]. apply IH.
      exists rs'. split; [done|]. destruct r; simpl; [done|by rewrite <- (assoc_L app)].
Qed.

(** ** /etc/environment *)

Definition name_char (c : ascii) : Prop :=
  is_digit c = true \/ (65 <= byte_of c <= 90)%Z \/ (97 <= byte_of c <= 122)%Z \/ c = "_"%char.

(** A variable that survives being written and read: its name is a POSIX name that does not start
    with "export", and its line fits the scanner's buffer. *)
Definition writable `{UnicodeTables} (k v : string) : Prop :=
  k <> "" /\ Forall name_char (chars k) /\ strings_HasPrefix k "export" = false /\
  too_long (k +:+ "=" +:+ strconv_Quote v) = false.

Lemma name_char_range c : name_char c -> (47 < byte_of c < 123)%Z /\ c <> "="%char.
Proof.
  unfold name_char, is_digit. intros H. split.
  - destruct H as [H|[H|[H| ->]]]; [lia..|]. by vm_compute.
  - intros ->. destruct H as [H|[H|[H|H]]]; vm_compute in H; try done; by destruct H.
Qed.

Lemma prefix_app_sep pre k c t :
  c ∉ chars pre -> strings_HasPrefix (k +:+ String c t) pre = true -> strings_HasPrefix k pre = true.
Proof.
  unfold strings_HasPrefix. revert k. induction pre as [|x pre IH]; intros [|y k] Hc; simpl in *; try done.
  - destruct (ascii_dec x c) as [->|]; [|done]. set_solver.
  - destruct (ascii_dec x y); [|done]. intros Hp. apply (IH k); [set_solver|done].
Qed.

Section Environment.
Context `{UnicodeTables}.

Lemma env_line_entry k v : writable k v -> env_line (k +:+ "=" +:+ strconv_Quote v) = Some (k, v).
Proof.
  intros (Hk & Hchars & Hexp & _). unfold env_line.
  assert (exists c m, k +:+ "=" +:+ strconv_Quote v = String c (m +:+ String DQ "") /\ name_char c)
    as (c & m & Heq & Hc).
  { destruct k as [|c k]; [done|]. inversion_clear Hchars as [|? ? Hc _]. 
    exists c, (k +:+ "=" +:+ of_chars (DQ :: quote_body v)). split; [|done].
    unfold strconv_Quote. rewrite sapp_cons. f_equal. apply chars_inj.
    rewrite !chars_app, !chars_of_chars. simpl. by rewrite <- (assoc_L app). }
  apply name_char_range in Hc as [Hr _].
  assert (strings_TrimSpace (k +:+ "=" +:+ strconv_Quote v) = k +:+ "=" +:+ strconv_Quote v) as Htrim.
  { rewrite Heq. apply TrimSpace_id; [lia|split; reflexivity]. }
  rewrite Htrim.
  assert (strings_HasPrefix (k +:+ "=" +:+ strconv_Quote v) "#" = false) as ->.
  { rewrite Heq. unfold strings_HasPrefix. cbn [String.prefix]. destruct (ascii_dec "#" c) as [<-|]; [|done].
    by destruct Hr as [Hr _]; vm_compute in Hr. }
  assert (strings_TrimPrefix (k +:+ "=" +:+ strconv_Quote v) "export" = k +:+ "=" +:+ strconv_Quote v) as ->.
  { unfold strings_TrimPrefix.
    destruct (strings_HasPrefix (k +:+ "=" +:+ strconv_Quote v) "export") eqn:Hp; [|done].
    apply prefix_app_sep in Hp; [congruence|]. refine (bool_decide_unpack _ _). by vm_compute. }
  rewrite Htrim. rewrite (proj2 (Z.ltb_lt _ _)).
  2: { rewrite Heq, <- length_chars. simpl. rewrite chars_app, length_app. simpl. lia. }
  rewrite sapp_one, SplitN_app.
  2: { intros Hin. eapply Forall_forall in Hchars; [|exact Hin]. by apply name_char_range in Hchars as []. }
  cbn [strings_SplitN]. by rewrite Unquote_Quote.
Qed.

Lemma writable_scannable k v : writable k v -> scannable (k +:+ "=" +:+ strconv_Quote v).
Proof.
  intros (Hk & Hchars & _ & Hlong). split_and!; [|done|].
  - rewrite !chars_app, !not_elem_of_app. split_and!.
    + intros Hin. eapply Forall_forall in Hchars; [|exact Hin].
      apply name_char_range in Hchars as [Hr _]. by destruct Hr as [Hr _]; vm_compute in Hr.
    + refine (bool_decide_unpack _ _). by vm_compute.
    + apply Quote_no_newline.
  - unfold drop_cr. rewrite !chars_app. unfold strconv_Quote. rewrite chars_of_chars.
    rewrite !rev_app_distr. cbn [rev]. rewrite rev_app_distr. done.
Qed.

Lemma fold_env kvs m :
  NoDup (map fst kvs) -> (forall k, k ∈ map fst kvs -> m !! k = None) -> Forall (fun '(k, v) => writable k v) kvs ->
  fold_left env_add (map (fun '(k, v) => k +:+ "=" +:+ strconv_Quote v) kvs) m =
  list_to_map kvs ∪ m.
Proof.
  revert m. induction kvs as [|[k v] kvs IH]; intros m Hnd Hm Hw; cbn [map fold_left].
  - rewrite list_to_map_nil. by rewrite (left_id_L ∅ (∪)).
  - inversion_clear Hnd as [|? ? Hk Hnd']. inversion_clear Hw as [|? ? Hkv Hw'].
    unfold env_add at 2. rewrite env_line_entry by done. rewrite IH; try done.
    + simpl. rewrite <- insert_union_l. apply map_eq. intros i.
      destruct (decide (i = k)) as [->|Hi].
      * rewrite lookup_insert_eq. rewrite lookup_union_r; [by rewrite lookup_insert_eq|].
        apply not_elem_of_list_to_map_1. done.
      * rewrite lookup_insert_ne by done. by rewrite !lookup_union, lookup_insert_ne.
    + intros i Hi. cbn in Hk. rewrite lookup_insert_ne by (intros ->; done). apply Hm. by right.
Qed.

Lemma read_env_text kvs :
  NoDup (map fst kvs) -> Forall (fun '(k, v) => writable k v) kvs ->
  read_environment (env_text kvs) = list_to_map kvs.
Proof.
  intros Hnd Hw. unfold read_environment, env_text.
  replace (map _ kvs) with (map (fun l => l +:+ nl) (map (fun '(k, v) => k +:+ "=" +:+ strconv_Quote v) kvs)).
  - rewrite scan_lines.
    + cbn [fst]. rewrite fold_env; [by rewrite (right_id_L ∅ (∪))|done| |done]. intros. apply lookup_empty.
    + apply Forall_map. eapply Forall_impl; [exact Hw|]. intros [k v]. apply writable_scannable.
  - rewrite map_map. apply map_ext. intros [k v]. by rewrite !sapp_assoc.
Qed.

(** The variables a read of the file yields. *)
Definition environment_of (r : result string) : gmap string string :=
  match r with Ok buf => read_environment buf | Err _ => ∅ end.

Lemma ApplyEnvironment_exec cfg h :
  k_Environment (cc_K3OS cfg) <> ∅ ->
  exec any_resp (ApplyEnvironment cfg) [] h (Done (Ok tt)) ->
  exists r kvs keys o, kvs ≡ₚ map_to_list (k_Environment (cc_K3OS cfg) ∪ environment_of r) /\
    h = [Ev (WriteFile "/etc/environment" (env_text kvs) (oct 644)) (Ok tt);
         Ev (RangeOrder keys) o; Ev (ReadFile "/etc/environment") r].
Proof.
  intros Hne. unfold ApplyEnvironment. rewrite bool_decide_false by done.
  cbn [bind sys perform]. intros Hex%exec_inv. destruct Hex as (r & _ & Hex).
  apply exec_bind_inv in Hex as (kvs & h1 & Hrange & Hex).
  apply range_map_exec in Hrange as (Hkvs & keys & o & ->).
  apply exec_wrapf in Hex as [([] & _ & Hex)|(e & [=] & _)].
  apply exec_inv in Hex as (r' & _ & Hex). apply exec_inv in Hex as [-> ->].
  by exists r, kvs, keys, o.
Qed.
End Environment.

(** ** The k3s installer *)

(** What reading the mode file gave. *)
Definition mode_answer (m : result string) (mode : string) : Prop :=
  match m with
  | Ok bytes => mode = strings_TrimSpace bytes
  | Err e => os_IsNotExist e = true /\ mode = ""
  end.

(** Whether the installer is run, from the two k3s binaries found and the flags of the phase. *)
Definition runs_k3s (sbin local restart install : bool) : bool :=
  (sbin || restart) && (sbin || local || install).

Section K3S.
Context (Version : string) (modePrefix : list string).

(** The order in which the labels were visited does not show. *)
Lemma k3s_args_perm k labels labels' mode :
  labels ≡ₚ labels' -> k3s_args Version k labels mode = k3s_args Version k labels' mode.
Proof.
  intros Hl. unfold k3s_args, k3s_labels. do 4 f_equal. apply sort_Strings_proper.
  by rewrite Hl.
Qed.

Definition mode_file : string := path_Join [path_Join modePrefix; System.StatePath ["mode"]].

Lemma mode_Get_exec h h' r :
  exec any_resp (mode_Get modePrefix) h h' (Done r) ->
  exists m, h' = Ev (ReadFile mode_file) m :: h /\
    ((exists mode, r = Ok mode /\ mode_answer m mode) \/
     (exists e, r = Err e /\ m = Err e /\ os_IsNotExist e = false)).
Proof.
  unfold mode_Get. cbn [bind sys perform]. intros (m & _ & H)%exec_inv. exists m.
  destruct m as [bytes|e]; [|destruct (os_IsNotExist e) eqn:He]; apply exec_inv in H as [<- ->];
    (split; [done|]); [left; by eexists|left; by eexists|right; eauto].
Qed.

(** A finished behaviour of [ApplyK3S]: the mode could not be read; or it is "install"; or the k3s
    binaries were looked for and the installer was run, or not. *)
Definition k3s_behaviour (cfg : CloudConfig) (restart install : bool) (h : list ev) (r : result unit)
  : Prop :=
  exists m,
    (exists e, m = Err e /\ os_IsNotExist e = false /\ r = Err e /\ h = [Ev (ReadFile mode_file) m]) \/
    (mode_answer m "install" /\ r = Ok tt /\ h = [Ev (ReadFile mode_file) m]) \/
    (exists mode s l, mode_answer m mode /\ mode <> "install" /\
       let older := [Ev (Stat "/usr/local/bin/k3s") l; Ev (Stat "/sbin/k3s") s; Ev (ReadFile mode_file) m] in
       let k := cc_K3OS cfg in
       if runs_k3s (is_ok s) (is_ok l) restart install then
         exists keys o, h = Ev (RunWithEnv (k3s_vars (is_ok s) (is_ok l) restart k)
                                  "/usr/libexec/k3os/k3s-install.sh"
                                  (k3s_args Version k (map_to_list (k_Labels k)) mode)) r
                            :: Ev (RangeOrder keys) o :: older
       else r = Ok tt /\ h = older).

Lemma ApplyK3S_exec cfg restart install h r :
  exec any_resp (ApplyK3S Version modePrefix cfg restart install) [] h (Done r) ->
  k3s_behaviour cfg restart install h r.
Proof.
  unfold ApplyK3S, bindE. intros (m & h1 & Hm & H)%exec_bind_inv.
  apply mode_Get_exec in Hm as (a & -> & [(mode & -> & Ha)|(e & -> & -> & He)]).
  2: { apply exec_inv in H as [<- ->]. exists (Err e). left. eauto. }
  exists a. right. destruct (decide (mode = "install")) as [->|Hmode].
  { apply exec_inv in H as [<- ->]. left. eauto. }
  right. rewrite bool_decide_false in H by done. cbn [bind sys perform] in H.
  apply exec_inv in H as (s & _ & H). apply exec_inv in H as (l & _ & H).
  exists mode, s, l. split; [done|]. split; [done|]. unfold runs_k3s.
  destruct (is_ok s) eqn:Hs, (is_ok l) eqn:Hl, restart, install; cbn [negb andb orb] in *;
    try (apply exec_inv in H as [<- ->]; done);
    (apply exec_bind_inv in H as (kvs & h2 & (Hkvs & keys & o & ->)%range_map_exec & H);
     apply exec_inv in H as (r' & _ & H); apply exec_inv in H as [-> ->];
     exists keys, o; by rewrite <- (k3s_args_perm _ _ _ mode Hkvs)).
Qed.
End K3S.

(** ** Properties *)

(** C25: a phase of the cloud configuration does not stop at an error.  The finished behaviours of
    [runApplies] are exactly: every applier ran to its end, one after the other in order, and the
    result is nil if all of them succeeded and otherwise the join of exactly the errors returned, in
    order.  ([RunApply], [BootApply], [InitApply] and [InstallApply] are this over their lists.) *)
Theorem runApplies_runs_all cfg apps h r :
  exec any_resp (runApplies cfg apps) [] h (Done r) <->
  exists rs, applied cfg apps [] h rs /\ r = errors_Join (omap error_of rs).
Proof.
  unfold runApplies. split.
  - intros (out & h1 & (rs & Ha & ->)%collect_exec & H)%exec_bind_inv.
    apply exec_inv in H as [<- ->]. by exists rs.
  - intros (rs & Ha & ->). eapply exec_bind; [apply collect_exec; by exists rs|constructor].
Qed.



Definition demo_k3os (env labels : gmap string string) : CloudConfig :=
  {| cc_SSHAuthorizedKeys := []; cc_WriteFiles := []; cc_Hostname := "";
     cc_K3OS := {| k_DataSources := []; k_Modules := []; k_Sysctls := ∅; k_NTPServers := [];
       k_DNSNameservers := []; k_Wifi := []; k_Password := ""; k_ServerURL := "https://s:6443";
       k_Token := ""; k_Labels := labels; k_K3sArgs := []; k_Environment := env; k_Taints := [];
       k_Install := None |};
     cc_Runcmd := []; cc_Bootcmd := []; cc_Initcmd := [] |}.

(** A value with a quote, a backslash, a newline and a byte that is no UTF-8. *)
Definition odd_value : string := "a" +:+ dq +:+ "\" +:+ nl +:+ String "200" "".

Example odd_value_writable : writable "A_1" odd_value.
Proof.
  split_and!; [done| |done|done]. repeat (constructor; [unfold name_char; vm_compute; intuition congruence|]).
  constructor.
Qed.



(** Two of the phases, one applier of the first failing. *)
Lemma runApplies_runs_all_witness :
  let failing := (fun _ : CloudConfig => fail (ErrText "no") : M unit) in
  let works := (fun _ : CloudConfig => sys (SysctlSet "a" "1") : M unit) in
  exists h r, exec any_resp (runApplies (demo_k3os ∅ ∅) [failing; works]) [] h (Done r) /\
    exists rs, applied (demo_k3os ∅ ∅) [failing; works] [] h rs /\ r = errors_Join (omap error_of rs).
Proof.
  intros failing works. exists [Ev (SysctlSet "a" "1") (Ok tt)], (Err (ErrJoin [ErrText "no"])).
  assert (exec any_resp (runApplies (demo_k3os ∅ ∅) [failing; works]) []
            [Ev (SysctlSet "a" "1") (Ok tt)] (Done (Err (ErrJoin [ErrText "no"])))) as Hex.
  { exact (world_exec (fun _ => None) (runApplies (demo_k3os ∅ ∅) [failing; works])). }
  split; [exact Hex|]. by apply (proj1 (runApplies_runs_all _ _ _ _)).
Defined.
