(* ===== verification/Component.v ===== *)
(** * Component: package [internal/system], component.go: the versions of a component on disk, and
    copying the current one to another root.

    [CopyDir] is the call of the third-party [copy.Copy]. *)

From S2P Require Import Prelude GoStrings GoPath Effects OS.
Open Scope string_scope.
Open Scope list_scope.
Open Scope go_scope.

Definition VersionCurrent : string := "current".
Definition VersionPrevious : string := "previous".

(** [StatComponentVersion]: the info of the version an alias points to, and the error; a version that
    is no directory is returned with an error. *)
Definition StatComponentVersion (root key alias : string) : io (option FileInfo * option error) :=
  let aliasPath := path_Join [root; key; alias] in
  let* aliasInfo := sys (Stat aliasPath) in
  match aliasInfo with
  | Err e => Ret (None, Some e)
  | Ok i =>
      if negb (fi_IsDir i) then Ret (None, Some (Errorf "stat %s: not a directory" [aliasPath]))
      else
        let* version := sys (Readlink aliasPath) in
        match version with
        | Err e => Ret (None, Some e)
        | Ok version =>
            let versionPath := path_Join [root; key; version] in
            let* versionInfo := sys (Stat versionPath) in
            match versionInfo with
            | Err e => Ret (None, Some e)
            | Ok i =>
                Ret (Some i, if fi_IsDir i then None
                             else Some (Errorf "stat %s: not a directory" [versionPath]))
            end
        end
  end.

Section Copy.
Context (src dst key : string) (srcInfo : FileInfo).

Definition srcPath : string := path_Join [src; key; fi_name srcInfo].
Definition dstPath : string := path_Join [dst; key; fi_name srcInfo].
Definition dstPrevPath : string := path_Join [dst; key; VersionPrevious].
Definition dstCurrPath : string := path_Join [dst; key; VersionCurrent].
Definition dstCurrTemp : string := dstCurrPath +:+ ".tmp".
Definition dstExist : string := dstPath +:+ ".old".

(** The copied version takes its place, and the aliases follow. *)
Definition switch_version (dstTemp : string) : M bool :=
  let! _ := sys (Rename dstTemp dstPath) in
  let* _ := ignore (sys (Chmod dstPath (fi_mode srcInfo))) in
  let* _ := ignore (sys (Remove dstPrevPath)) in
  let* _ := ignore (sys (CopyDir dstCurrPath dstPrevPath)) in
  let! _ := sys (Rename dstCurrTemp dstCurrPath) in
  ret true.

(** The same, after a version of that name was moved out of the way; it is moved back in the end,
    which fails when it has been replaced. *)
Definition replace_version (dstTemp : string) : M bool :=
  let! _ := sys (CopyDir srcPath dstTemp) in
  let* dstInfo := sys (Stat dstPath) in
  match dstInfo with
  | Ok i =>
      if fi_IsDir i then
        let! _ := sys (Rename dstPath dstExist) in
        let* r := switch_version dstTemp in
        let* _ := ignore (sys (Rename dstExist dstPath)) in
        Ret r
      else
        let* _ := ignore (sys (Remove dstPath)) in
        switch_version dstTemp
  | Err _ => switch_version dstTemp
  end.

(** From the new alias on; the deferred removals come last. *)
Definition install_version : M bool :=
  let! _ := sys (Symlink (path_Base dstPath) dstCurrTemp) in
  let* r :=
    (let '(dir, pattern) := path_Split dstPath in
     let! dstTemp := sys (MkdirTemp dir pattern) in
     let* r := replace_version dstTemp in
     let* _ := ignore (sys (RemoveAll dstTemp)) in
     Ret r) in
  let* _ := ignore (sys (Remove dstCurrTemp)) in
  Ret r.
End Copy.

Definition CopyComponent (src dst : string) (remount : bool) (key : string) : M bool :=
  let* s := StatComponentVersion src key VersionCurrent in
  match s with
  | (Some srcInfo, None) =>
      let* '(dstInfo, _) := StatComponentVersion dst key VersionCurrent in
      if match dstInfo with
         | Some d => bool_decide (fi_name d = fi_name srcInfo)
         | None => false
         end
      then ret false
      else
        let! _ := if remount then sys (ForceMount "" dst "none" "remount,rw") else ret tt in
        install_version src dst key srcInfo
  | (_, Some e) => fail e
  | (None, None) => Halt (Panic "nil pointer")
  end.

(** ** The order of the switch *)

Section Order.
Context (src dst key : string) (i : FileInfo).

(** The events since the new version was complete: it was copied to a fresh directory, renamed to its
    place, perhaps after a version of that name had been moved away ([moved]), and since then only
    the mode of the new version and the alias "previous" were touched. *)
Definition complete (h : list ev) : Prop :=
  exists tmp moved r1 r2 r3 older,
    h = Ev (CopyDir (dstCurrPath dst key) (dstPrevPath dst key)) r3
        :: Ev (Remove (dstPrevPath dst key)) r2
        :: Ev (Chmod (dstPath dst key i) (fi_mode i)) r1
        :: Ev (Rename tmp (dstPath dst key i)) (Ok tt)
        :: moved ++ Ev (CopyDir (srcPath src key i) tmp) (Ok tt)
        :: Ev (MkdirTemp (path_Split (dstPath dst key i)).1 (path_Split (dstPath dst key i)).2) (Ok tmp)
        :: Ev (Symlink (path_Base (dstPath dst key i)) (dstCurrTemp dst key)) (Ok tt) :: older.

(** A directory [MkdirTemp] made next to the version's place. *)
Definition fresh_dir (p : string) (h : list ev) : Prop :=
  Ev (MkdirTemp (path_Split (dstPath dst key i)).1 (path_Split (dstPath dst key i)).2) (Ok p) ∈ h.

Definition install_guard : @guar call resp := fun h c =>
  match c with
  | Stat p => p = dstPath dst key i
  | Symlink o p => o = path_Base (dstPath dst key i) /\ p = dstCurrTemp dst key
  | MkdirTemp d pat => (d, pat) = path_Split (dstPath dst key i)
  | CopyDir a b => (a = srcPath src key i /\ fresh_dir b h) \/
                   (a = dstCurrPath dst key /\ b = dstPrevPath dst key)
  | Chmod p m => p = dstPath dst key i /\ m = fi_mode i
  | Remove p => p = dstPrevPath dst key \/ p = dstCurrTemp dst key \/
                (p = dstPath dst key i /\
                 exists j older, h = Ev (Stat (dstPath dst key i)) (Ok j) :: older /\ fi_IsDir j = false)
  | RemoveAll p => fresh_dir p h
  | Rename a b =>
      (a = dstCurrTemp dst key /\ b = dstCurrPath dst key /\ complete h) \/
      (b = dstPath dst key i /\ fresh_dir a h /\ Ev (CopyDir (srcPath src key i) a) (Ok tt) ∈ h) \/
      (a = dstPath dst key i /\ b = dstExist dst key i) \/
      (a = dstExist dst key i /\ b = dstPath dst key i /\
       Ev (Rename (dstPath dst key i) (dstExist dst key i)) (Ok tt) ∈ h)
  | _ => False
  end.

(** The alias "current" was renamed to its place with success. *)
Definition switched (h : list ev) : Prop :=
  Ev (Rename (dstCurrTemp dst key) (dstCurrPath dst key)) (Ok tt) ∈ h.

Definition install_post (o : outcome (result bool)) (h : list ev) : Prop :=
  match o with
  | Done (Ok b) => b = true /\ switched h
  | Halted _ => False
  | _ => True
  end.

Ltac here := repeat first [by left|right].

(** From the moment the new version is in its temporary directory. *)
Lemma switch_wp tmp moved older :
  let h0 := Ev (CopyDir (srcPath src key i) tmp) (Ok tt)
    :: Ev (MkdirTemp (path_Split (dstPath dst key i)).1 (path_Split (dstPath dst key i)).2) (Ok tmp)
    :: Ev (Symlink (path_Base (dstPath dst key i)) (dstCurrTemp dst key)) (Ok tt) :: older in
  wp any_resp install_guard (switch_version dst key i tmp)
    (fun o h => install_post o h /\ forall e, e ∈ moved ++ h0 -> e ∈ h) (moved ++ h0).
Proof using Type.
  intros h0. unfold switch_version. wp_norm.
  assert (fresh_dir tmp (moved ++ h0)) as Hf by (apply elem_of_app; right; right; left).
  assert (Ev (CopyDir (srcPath src key i) tmp) (Ok tt) ∈ moved ++ h0) as Hc
    by (apply elem_of_app; right; left).
  split; [right; left; done|]. intros [[]|e] _; wp_norm; [|by split; [|right]].
  split; [done|]. intros r1 _. wp_norm. split; [by left|]. intros r2 _. wp_norm.
  split; [by right|]. intros r3 _. wp_norm.
  split; [left; split_and!; [done|done|]; by exists tmp, moved, r1, r2, r3, older|].
  intros [[]|e] _; wp_norm.
  - split; [split; [done|left]|]. intros e He. by do 5 right.
  - split; [done|]. intros e' He. by do 5 right.
Qed.

Lemma replace_wp tmp older :
  let h0 := Ev (MkdirTemp (path_Split (dstPath dst key i)).1 (path_Split (dstPath dst key i)).2) (Ok tmp)
    :: Ev (Symlink (path_Base (dstPath dst key i)) (dstCurrTemp dst key)) (Ok tt) :: older in
  wp any_resp install_guard (replace_version src dst key i tmp)
    (fun o h => install_post o h /\ fresh_dir tmp h) h0.
Proof using Type.
  intros h0. unfold replace_version. wp_norm.
  split; [left; split; [done|left]|]. intros [[]|e] _; wp_norm; [|split; [done|right; left]].
  split; [done|]. set (h1 := Ev (CopyDir (srcPath src key i) tmp) (Ok tt) :: h0).
  assert (forall moved o h, install_post o h /\ (forall e, e ∈ moved ++ h1 -> e ∈ h) ->
            install_post o h /\ fresh_dir tmp h) as Hpost.
  { intros moved o h [Ho Hin]. split; [done|]. apply Hin, elem_of_app. right. right. left. }
  intros [j|e] _; wp_norm.
  2: { eapply wp_mono; [|apply (switch_wp tmp [_] older)]. apply Hpost. }
  destruct (fi_IsDir j) eqn:Hj; wp_norm.
  - split; [right; right; left; done|]. intros [[]|e] _; wp_norm; [|split; [done|here]].
    apply wp_bind. eapply wp_mono; [|apply (switch_wp tmp [_; _] older)].
    intros [r|s|] h [Ho Hin]; [|by destruct Ho|done].
    cbn. split; [right; right; right; split_and!; [done|done|apply Hin; left]|]. intros r' _. wp_norm.
    split; [|right; apply Hin; here]. destruct r as [b|e]; [|done]. destruct Ho as [-> Ho]. split; [done|by right].
  - split; [right; right; split; [done|]; by eexists _, _|]. intros r _. wp_norm.
    eapply wp_mono; [|apply (switch_wp tmp [_; _] older)]. apply Hpost.
Qed.

Lemma install_wp h :
  wp any_resp install_guard (install_version src dst key i) install_post h.
Proof using Type.
  unfold install_version. wp_norm. split; [done|]. intros [[]|e] _; wp_norm; [|done].
  pose proof (replace_wp) as Hrep. destruct (path_Split (dstPath dst key i)) as [dir pat] eqn:Hs. wp_norm.
  split; [done|]. intros [tmp|e] _; wp_norm; cycle 1.
  { split; [by right; left|]. done. }
  apply wp_bind, wp_bind. eapply wp_mono; [|apply Hrep].
  intros [r|s|] h' [Ho Hf]; [|done|done]. cbn.
  split; [done|]. intros r1 _. cbn. split; [by right; left|]. intros r2 _. cbn.
  destruct r as [b|e]; [|done]. destruct Ho as [-> Ho]. split; [done|]. by do 2 right.
Qed.
End Order.

(** ** The whole copy *)

Section CopyComponent.
Context (src dst key : string) (remount : bool).

(** The current version of the source, as it was looked up. *)
Definition found (i : FileInfo) (h : list ev) : Prop :=
  exists v, Ev (Readlink (path_Join [src; key; VersionCurrent])) (Ok v) ∈ h /\
    Ev (Stat (path_Join [src; key; v])) (Ok i) ∈ h /\ fi_IsDir i = true.

Definition copy_guard : @guar call resp := fun h c =>
  match c with
  | Stat _ | Readlink _ => True
  | ForceMount dev p t o => remount = true /\ (dev, p, t, o) = ("", dst, "none", "remount,rw")
  | c => exists i, found i h /\ install_guard src dst key i h c
  end.

(** Since [h0], nothing was changed. *)
Definition only_looks (h0 h : list ev) : Prop :=
  exists new, h = new ++ h0 /\
    Forall (fun e => match ev_call e with Stat _ | Readlink _ => True | _ => False end) new.

Definition copy_post (h0 : list ev) (o : outcome (result bool)) (h : list ev) : Prop :=
  match o with
  | Done (Ok true) => switched dst key h
  | Done (Ok false) => only_looks h0 h
  | Halted _ => False
  | _ => True
  end.

(** Looking up a version makes no change; an answer without an error is a directory it has seen. *)
Lemma only_looks_cons h0 e h :
  match ev_call e with Stat _ | Readlink _ => True | _ => False end ->
  only_looks h0 h -> only_looks h0 (e :: h).
Proof using Type. intros He (new & -> & Hn). exists (e :: new). split; [done|]. by constructor. Qed.

Lemma stat_version_wp root h0 h :
  only_looks h0 h ->
  wp any_resp copy_guard (StatComponentVersion root key VersionCurrent)
    (fun o h' => only_looks h0 h' /\ (forall e, e ∈ h -> e ∈ h') /\
       match o with
       | Done (Some i, None) => exists v,
           Ev (Readlink (path_Join [root; key; VersionCurrent])) (Ok v) ∈ h' /\
           Ev (Stat (path_Join [root; key; v])) (Ok i) ∈ h' /\ fi_IsDir i = true
       | Done (None, None) | Halted _ => False
       | _ => True
       end) h.
Proof using Type.
  intros Hh. unfold StatComponentVersion. wp_norm. split; [done|].
  intros [a|e] _; wp_norm; [|split_and!; [by apply only_looks_cons|by right|done]].
  destruct (negb (fi_IsDir a)); wp_norm; [split_and!; [by apply only_looks_cons|by right|done]|].
  split; [done|]. intros [v|e] _; wp_norm; [|split_and!; [by repeat apply only_looks_cons|by do 2 right|done]].
  split; [done|]. intros [i|e] _; wp_norm; (split_and!; [by repeat apply only_looks_cons|by do 3 right|]); [|done].
  destruct (fi_IsDir i) eqn:Hi; [|done]. exists v. split_and!; [right; left|left|done].
Qed.

Lemma CopyComponent_wp h0 :
  wp any_resp copy_guard (CopyComponent src dst remount key) (copy_post h0) h0.
Proof using Type.
  unfold CopyComponent. apply wp_bind. eapply wp_mono; [|apply (stat_version_wp src h0); by exists []].
  intros [[[i|] [e|]]|s|] h (Hl & _ & Hfound); try done. cbn [bind_post].
  apply wp_bind. eapply wp_mono; [|by apply stat_version_wp].
  intros [[d e]|s|] h' (Hl' & Hin & Hd); try done. cbn [bind_post].
  assert (found i h') as Hf.
  { destruct Hfound as (v & Hr & Hs & Hi). exists v. split_and!; [by apply Hin|by apply Hin|done]. }
  assert (forall h, found i h ->
    wp any_resp copy_guard (install_version src dst key i) (copy_post h0) h) as Hinstall.
  { intros h2 Hf0. eapply wp_weaken; [done| | |apply (wp_always any_resp (install_guard src dst key i) _ (install_post dst key) (found i));
      [|exact Hf0|apply install_wp]].
    - intros h1 c [Hg Hf1]. destruct c; try done; by exists i.
    - intros [[b|e']|s|] h1 [Ho _]; try done. by destruct Ho as [-> Ho].
    - intros e' h1 (v & ? & ? & ?). exists v. split_and!; [by right|by right|done]. }
  destruct d as [d|]; [destruct (bool_decide (fi_name d = fi_name i)); [done|]|];
    (destruct remount eqn:Hrm; cbn [bindE bind sys perform ret wp]; [|by apply Hinstall]);
    (split; [done|]; intros [[]|e'] _; [|done];
     apply Hinstall; destruct Hf as (v & ? & ? & ?); exists v; split_and!; [by right|by right|done]).
Qed.
End CopyComponent.

(** ** Property *)

(** C22: copying a component never leaves its "current" alias pointing at an incomplete version.  In
    every behaviour of [CopyComponent], cut off anywhere and whatever fails: what changes "current"
    is one rename of a prepared alias over it, made only after the version found in the source was
    copied with success to a fresh directory and that was renamed to its place, with nothing but the
    version's mode and the alias "previous" touched in between; every removal is of a temporary, of
    "previous", or of a non-directory in the place of the version.  It returns true only after the
    switch, and false only when it has changed nothing. *)
Theorem CopyComponent_switches_last src dst key remount h o :
  exec any_resp (CopyComponent src dst remount key) [] h o ->
  guaranteed (copy_guard src dst key remount) [] h /\ (o <> Running -> copy_post dst key [] o h).
Proof. apply wp_sound, CopyComponent_wp. Qed.

(** A machine with version v2 in the source and v1 in the destination. *)
Definition two_roots (c : call) : option (resp c) :=
  match c return option (resp c) with
  | Stat p => Some (if bool_decide (p = "/dst/k3s/v2") then Err (ErrSys "stat" p ENOENT)
                    else Ok {| fi_name := path_Base p; fi_mode := ModeDir |})
  | Readlink p => Some (Ok (if bool_decide (p = "/src/k3s/current") then "v2" else "v1"))
  | MkdirTemp d p => Some (Ok (d +:+ p +:+ "123"))
  | _ => None
  end.

Lemma CopyComponent_switches_last_witness :
  let p := CopyComponent "/src" "/dst" false "k3s" in
  final two_roots p = Done (Ok true) /\
  guaranteed (copy_guard "/src" "/dst" "k3s" false) [] (history two_roots p) /\
  switched "/dst" "k3s" (history two_roots p).
Proof.
  split; [by vm_compute|].
  destruct (CopyComponent_switches_last "/src" "/dst" "k3s" false _ _
    (world_exec two_roots (CopyComponent "/src" "/dst" false "k3s"))) as [Hg Hp].
  split; [exact Hg|]. by apply Hp.
Defined.
