(* ===== verification/DevPopulate.v ===== *)
(** * DevPopulate: package [internal/devpopulate], making the device nodes and the links under
    /dev/disk at boot.

    The prober is the interface [Prober], whose method is the call [BlkidProbe]; [BlkidProber_Probe] is
    its implementation over the blkid library.  [unix.Mkdev] is a parameter. *)

From S2P Require Import Prelude GoStrings GoPath Effects OS MountPkg.
Open Scope string_scope.
Open Scope list_scope.
Open Scope go_scope.

(** [Options], without the prober. *)
Record Options := { o_DevDir : string; o_SysBlockDir : string; o_CreateNodes : bool }.

Definition DefaultOptions : Options :=
  {| o_DevDir := "/dev"; o_SysBlockDir := "/sys/class/block"; o_CreateNodes := true |}.

Definition parseMajorMinor (s : string) : result (Z * Z) :=
  match strings_SplitN s ":" 2 with
  | [a; b] =>
      match strconv_ParseUint a 10 32 with
      | Err e => Err (Errorf_w "parse major %q: %w" [a] e)
      | Ok major =>
          match strconv_ParseUint b 10 32 with
          | Err e => Err (Errorf_w "parse minor %q: %w" [b] e)
          | Ok minor => Ok (major, minor)
          end
      end
  | _ => Err (Errorf "invalid dev format: %q" [s])
  end.

Definition isPartition (parentName childName : string) : bool :=
  if (String.length childName <=? String.length parentName)%nat then false
  else if negb (bool_decide (str_take (String.length parentName) childName = parentName)) then false
  else
    match chars (str_drop (String.length parentName) childName) with
    | [] => false
    | c :: l =>
        if is_digit c then true
        else Ascii.eqb c "p" && match l with d :: _ => is_digit d | [] => false end
    end.

(** The loop of [Probe] over the partitions: up to the first that has a label or a UUID. *)
Fixpoint probe_parts (parts : list (option string * option string)) : string * string :=
  match parts with
  | [] => ("", "")
  | (l, u) :: parts' =>
      let label := default "" l in
      let uuid := default "" u in
      if bool_decide (label <> "") || bool_decide (uuid <> "") then (label, uuid) else probe_parts parts'
  end.

(** [BlkidProber.Probe]. *)
Definition BlkidProber_Probe (devPath : string) : M (string * string) :=
  let! info := wrapf "probe %s: %w" [devPath] (sys (BlkidProbePath devPath)) in
  let label := default "" (bi_Label info) in
  let uuid := default "" (bi_UUID info) in
  ret (if bool_decide (label = "") && bool_decide (uuid = "") then probe_parts (bi_Parts info)
       else (label, uuid)).

(** [createSymlink]. *)
Definition createSymlink (devDir subdir name devName : string) : M unit :=
  let dir := path_Join [devDir; "disk"; subdir] in
  let! _ := wrapf "mkdir %s: %w" [dir] (sys (MkdirAll dir (oct 755))) in
  let linkPath := path_Join [dir; name] in
  let target := path_Join [".."; ".."; devName] in
  let* _ := ignore (sys (Remove linkPath)) in
  wrapf "symlink %s -> %s: %w" [linkPath; target] (sys (Symlink target linkPath)).

Section Populate.
Context (Mkdev : Z -> Z -> Z) (opts : Options).

Definition ensureDeviceNode (sysBlockDir devDir name : string) : io unit :=
  let devPath := path_Join [devDir; name] in
  let* st := sys (Stat devPath) in
  if is_ok st then Ret tt
  else
    let* data := sys (ReadFile (path_Join [sysBlockDir; name; "dev"])) in
    match data with
    | Err _ => Ret tt
    | Ok data =>
        match parseMajorMinor (strings_TrimSpace data) with
        | Err _ => Ret tt
        | Ok (major, minor) =>
            ignore (sys (SysMknod devPath (Z.lor S_IFBLK (oct 660)) (Mkdev major minor)))
        end
    end.

(** The names to probe: every entry, followed by those of its subdirectories that are partitions. *)
Definition collect_names (entries : list DirEntry) : io (list string) :=
  for_fold entries [] (fun entry devNames =>
    let devNames := devNames ++ [de_name entry] in
    let* parts := sys (ReadDir (path_Join [o_SysBlockDir opts; de_name entry])) in
    Ret (match parts with
         | Err _ => devNames
         | Ok partEntries =>
             devNames ++ map de_name
               (filter (fun pe => de_is_dir pe && isPartition (de_name entry) (de_name pe) = true)
                  partEntries)
         end)).

(** One device: its node, then the links for its label and UUID. *)
Definition populate_device (name : string) : io unit :=
  let devPath := path_Join [o_DevDir opts; name] in
  let* _ := if o_CreateNodes opts
            then ensureDeviceNode (o_SysBlockDir opts) (o_DevDir opts) name else Ret tt in
  let* st := sys (Stat devPath) in
  if negb (is_ok st) then Ret tt
  else
    let* p := sys (BlkidProbe devPath) in
    match p with
    | Err _ => Ret tt
    | Ok (label, uuid) =>
        let* _ := if bool_decide (label = "") then Ret tt
                  else ignore (createSymlink (o_DevDir opts) "by-label" label name) in
        if bool_decide (uuid = "") then Ret tt
        else ignore (createSymlink (o_DevDir opts) "by-uuid" uuid name)
    end.

Definition PopulateDev : M unit :=
  let! entries := wrapf "read sysfs block dir %s: %w" [o_SysBlockDir opts]
                    (sys (ReadDir (o_SysBlockDir opts))) in
  let* devNames := collect_names entries in
  let* _ := for_fold devNames tt (fun name _ => populate_device name) in
  ret tt.
End Populate.

(** A label is not looked at: one with dots and slashes makes the link, and removes what is in its
    place, outside /dev. *)
Example label_escapes :
  map ev_call (history (fun _ => None) (createSymlink "/dev" "by-label" "../../../etc/passwd" "sda1")) =
  [Symlink "../../sda1" "/etc/passwd"; Remove "/etc/passwd"; MkdirAll "/dev/disk/by-label" (oct 755)].
Proof. by vm_compute. Qed.

(** ** Reading the device numbers *)

Lemma parseMajorMinor_Itoa a b :
  (0 <= a < 2 ^ 32)%Z -> (0 <= b < 2 ^ 32)%Z ->
  parseMajorMinor (strconv_Itoa a +:+ ":" +:+ strconv_Itoa b) = Ok (a, b).
Proof.
  intros Ha Hb. unfold parseMajorMinor. rewrite sapp_one, SplitN_app.
  - cbn [strings_SplitN]. by rewrite !ParseUint_Itoa.
  - unfold strconv_Itoa. rewrite (proj2 (Z.ltb_ge _ _)) by lia. rewrite chars_of_chars.
    assert (Forall (fun c => is_digit c = true) (dec_nat a)) as Hd by (apply dec_go_digits; by constructor || lia).
    intros Hin. eapply Forall_forall in Hd; [|exact Hin]. done.
Qed.

(** ** What is changed *)

(** Directory entries, labels and UUIDs are plain names, or absent. *)
Definition plain_labels : @rely call resp := fun h c =>
  match c return resp c -> Prop with
  | BlkidProbe _ => fun r =>
      match r with
      | Ok (label, uuid) => (label = "" \/ plain_name label) /\ (uuid = "" \/ plain_name uuid)
      | Err _ => True
      end
  | c => plain_entries h c
  end.

Definition link_dirs : list (list string) := [["dev"; "disk"; "by-label"]; ["dev"; "disk"; "by-uuid"]].

(** Lists of literal and known plain names. *)
Ltac plain_list :=
  lazymatch goal with
  | |- Forall plain_name _ => repeat (constructor; [first [assumption | plain_names]|]); constructor
  | |- plain_name _ => first [assumption | plain_names]
  | |- _ => done
  end.

Section Guard.
Context (Mkdev : Z -> Z -> Z).

Definition dev_guard : @guar call resp := fun h c =>
  match c with
  | ReadDir _ | Stat _ | ReadFile _ | BlkidProbe _ => True
  | SysMknod p mode dev => exists n data major minor,
      plain_name n /\ p = abs_path ["dev"; n] /\ mode = Z.lor S_IFBLK (oct 660) /\
      head h = Some (Ev (ReadFile (abs_path ["sys"; "class"; "block"; n; "dev"])) (Ok data)) /\
      parseMajorMinor (strings_TrimSpace data) = Ok (major, minor) /\ dev = Mkdev major minor
  | MkdirAll d _ => exists l, l ∈ link_dirs /\ d = abs_path l
  | Remove p => exists l n, l ∈ link_dirs /\ plain_name n /\ p = abs_path (l ++ [n])
  | Symlink t p => exists l n dev r, l ∈ link_dirs /\ plain_name n /\ plain_name dev /\
      p = abs_path (l ++ [n]) /\ t = "../../" +:+ dev /\ head h = Some (Ev (Remove p) r)
  | _ => False
  end.

Lemma path_Join_up n : plain_name n -> path_Join [".."; ".."; n] = "../../" +:+ n.
Proof using Type.
  intros Hn. unfold path_Join. rewrite !filter_cons_True by (done || apply Hn). rewrite filter_nil.
  unfold path_Clean. change (path_rooted _) with false. cbn beta iota.
  rewrite Split_Join; [|done|].
  - unfold clean_elems. cbn [fold_left]. rewrite clean_step_plain by done. done.
  - repeat constructor; try (refine (bool_decide_unpack _ _); by vm_compute). apply Hn.
Qed.

Lemma createSymlink_wp sub label dev h :
  ["dev"; "disk"; sub] ∈ link_dirs -> plain_name sub -> plain_name label -> plain_name dev ->
  wp plain_labels dev_guard (createSymlink "/dev" sub label dev) (fun o _ => forall s, o <> Halted s) h.
Proof using Type.
  intros Hin Hsub Hlabel Hdev. unfold createSymlink.
  assert (path_Join ["/dev"; "disk"; sub] = abs_path ["dev"; "disk"; sub]) as ->.
  { unfold link_dirs in Hin. rewrite !elem_of_cons in Hin.
    destruct Hin as [[= ->]|[[= ->]|Hin%elem_of_nil]]; [reflexivity|reflexivity|done]. }
  rewrite path_Join_abs by plain_list.
  rewrite path_Join_up by done. wp_norm.
  split; [by eexists|]. intros [[]|e] _; wp_norm; [|done].
  split; [by exists ["dev"; "disk"; sub], label|]. intros r _. wp_norm.
  split; [by exists ["dev"; "disk"; sub], label, dev, r|]. intros [[]|e] _; wp_norm; done.
Qed.

Lemma node_wp n h :
  plain_name n ->
  wp plain_labels dev_guard (ensureDeviceNode Mkdev "/sys/class/block" "/dev" n) (fun o _ => o = Done tt) h.
Proof using Type.
  intros Hn. unfold ensureDeviceNode.
  change "/dev" with (abs_path ["dev"]). rewrite path_Join_abs by plain_list.
  wp_norm. split; [done|]. intros [i|e0] _; wp_norm; [done|].
  assert (path_Join ["/sys/class/block"; n; "dev"] = abs_path ["sys"; "class"; "block"; n; "dev"]) as ->
    by (apply (path_Join_below ["sys"; "class"; "block"] [n; "dev"]); plain_list).
  split; [done|]. intros [data|e] _; wp_norm; [|done].
  destruct (parseMajorMinor (strings_TrimSpace data)) as [[major minor]|e'] eqn:Hp; wp_norm; [|done].
  split; [by exists n, data, major, minor|]. done.
Qed.

Lemma collect_wp entries h :
  Forall (fun e => plain_name (de_name e)) entries ->
  wp plain_labels dev_guard (collect_names DefaultOptions entries)
    (fun o _ => exists l, o = Done l /\ Forall plain_name l) h.
Proof using Type.
  intros Hes. unfold collect_names.
  eapply (wp_for_fold _ _ _ _ _ (fun rest names _ =>
    Forall plain_name names /\ Forall (fun e => plain_name (de_name e)) rest)).
  - by split.
  - intros names h' [Hn _]. by exists names.
  - intros e rest names h' [Hn [He Hrest]%Forall_cons]. wp_norm. split; [done|].
    assert (Forall plain_name (names ++ [de_name e])) as Hn' by (apply Forall_app; split; [done|by constructor]).
    intros [parts|err] Hparts; wp_norm; [|done]. split; [|done].
    apply Forall_app. split; [done|]. apply Forall_map.
    assert (Forall (fun e => plain_name (de_name e)) parts) as Hp by exact Hparts.
    rewrite Forall_forall in Hp |- *. intros pe [_ Hpe]%list_elem_of_filter. by apply Hp.
Qed.

Lemma device_wp n h :
  plain_name n ->
  wp plain_labels dev_guard (populate_device Mkdev DefaultOptions n) (fun o _ => o = Done tt) h.
Proof using Type.
  intros Hn. unfold populate_device. cbn [o_CreateNodes o_DevDir o_SysBlockDir DefaultOptions].
  apply wp_bind. eapply wp_mono; [|by apply node_wp]. intros o h1 ->. cbn [bind_post].
  wp_norm. split; [done|]. intros [i|e] _; wp_norm; [|done].
  split; [done|]. intros [[label uuid]|e] Hr; wp_norm; [|done]. destruct Hr as [Hlabel Huuid].
  assert (forall sub v h, (v = "" \/ plain_name v) -> ["dev"; "disk"; sub] ∈ link_dirs -> plain_name sub ->
    wp plain_labels dev_guard (if bool_decide (v = "") then Ret tt
      else ignore (createSymlink "/dev" sub v n)) (fun o _ => o = Done tt) h) as Hlink.
  { intros sub v h2 Hv Hin Hsub. case_bool_decide as He; [done|]. destruct Hv as [|Hv]; [done|].
    unfold ignore. apply wp_bind. eapply wp_mono; [|by apply createSymlink_wp].
    intros [r|s|] h3 Ho; [done| |done]. by destruct (Ho s). }
  apply wp_bind. eapply wp_mono; [|apply Hlink; [done|left|plain_names]].
  intros o h2 ->. cbn [bind_post]. apply Hlink; [done|by right; left|plain_names].
Qed.

(** From [h0], it fails exactly when the directory of block devices cannot be read. *)
Definition populate_post (h0 : list ev) (o : outcome (result unit)) (h : list ev) : Prop :=
  match o with
  | Done (Ok _) => exists l, Ev (ReadDir "/sys/class/block") (Ok l) :: h0 `suffix_of` h
  | Done (Err e) => exists e0, h = Ev (ReadDir "/sys/class/block") (Err e0) :: h0 /\
      e = Errorf_w "read sysfs block dir %s: %w" ["/sys/class/block"] e0
  | Halted _ => False
  | Running => True
  end.

Lemma PopulateDev_wp h0 :
  wp plain_labels dev_guard (PopulateDev Mkdev DefaultOptions) (populate_post h0) h0.
Proof using Type.
  unfold PopulateDev. cbn [o_SysBlockDir DefaultOptions]. wp_norm. split; [done|].
  intros [entries|e] Hes; wp_norm; [|by exists e].
  set (h := _ :: h0). assert (forall (e : ev) h', h `suffix_of` h' -> h `suffix_of` e :: h') as Hlater
    by (intros e h' Hh; by apply suffix_cons_r).
  apply wp_bind. eapply wp_mono; [|eapply (wp_also _ _ _ _ (suffix h)); [exact Hlater|done|by apply collect_wp]].
  intros o h1 [(l & -> & Hl) H1]. cbn [bind_post]. apply wp_bind.
  eapply (wp_for_fold _ _ _ _ _ (fun rest _ h' => Forall plain_name rest /\ h `suffix_of` h')); [done| |].
  - intros [] h2 [_ H2]. cbn. by exists entries.
  - intros x rest [] h2 [[Hx Hrest]%Forall_cons H2].
    eapply wp_mono; [|eapply (wp_also _ _ _ _ (suffix h)); [exact Hlater|done|by apply device_wp]].
    by intros o h3 [-> H3].
Qed.
End Guard.

(** ** Property *)


(** A disk that has no node yet, with one partition, labelled K3OS_STATE, that has one. *)
Definition one_disk (c : call) : option (resp c) :=
  let dir n := {| de_name := n; de_is_dir := true; de_info := Err (ErrSys "lstat" n ENOENT) |} in
  match c return option (resp c) with
  | ReadDir p => Some (Ok (if bool_decide (p = "/sys/class/block") then [dir "sda"] else [dir "sda1"; dir "queue"]))
  | Stat p => if bool_decide (p = "/dev/sda") then Some (Err (ErrSys "stat" p ENOENT)) else None
  | ReadFile p => Some (Ok ("8:0" +:+ nl))
  | BlkidProbe p => Some (Ok ("K3OS_STATE", ""))
  | _ => None
  end.

Lemma one_disk_plain h c : plain_labels h c (default (all_ok c) (one_disk c)).
Proof.
  destruct c; try done; cbn -[plain_name].
  - case_bool_decide; repeat (constructor; [plain_names|]); constructor.
  - split; [right; plain_names|by left].
Qed.

