(* ===== verification/EnterChroot.v ===== *)
(** * EnterChroot: package [internal/enterchroot], from the initramfs into the root file system.

    [Mount] finds the image of the root (a directory, a file, or the tail of the binary itself after
    a magic string), attaches it, and starts enter-root; [Enter] runs there, mounts the image, pivots
    into it and executes the binary again as /init.  What the third-party [reexec.Self] returns is a
    parameter, and so is [os.Args]. *)

From S2P Require Import Prelude GoStrings GoPath GoEncoding Effects OS MountPkg.
Open Scope string_scope.
Open Scope list_scope.
Open Scope go_scope.

(** [err == io.EOF]. *)
Definition is_EOF (e : error) : bool :=
  match e with ErrText m => bool_decide (m = "EOF") | _ => false end.

(** ** ensureloop.go *)

Definition mountProc : M unit :=
  let* r := sys (Mounted "/proc") in
  if match r with Ok ok => ok | Err _ => false end then ret tt
  else
    let! _ := sys (MkdirAll "/proc" (oct 755)) in
    sys (ForceMount "proc" "/proc" "proc" "").

Definition mountDev : M unit :=
  let* r := sys (ReadDir "/dev") in
  if match r with Ok files => (2 <? List.length files)%nat | Err _ => false end then ret tt
  else
    let! _ := sys (MkdirAll "/dev" (oct 755)) in
    sys (ForceMount "none" "/dev" "devtmpfs" "").

(** The device number is packed by hand. *)
Definition mknod_dev (major minor : Z) : Z :=
  Z.lor (Z.lor (Z.shiftl major 8) (Z.land minor 255)) (Z.shiftl (Z.land minor 1048320) 12).

Definition mknod (path : string) (mode major minor : Z) : M unit :=
  let* r := sys (Stat path) in
  if is_ok r then ret tt
  else sys (SysMknod path mode (mknod_dev major minor)).

Definition ensureloop : M unit :=
  let! _ := wrapf "failed to mount proc: %w" [] mountProc in
  let! _ := wrapf "failed to mount dev: %w" [] mountDev in
  let! _ := mknod "/dev/loop-control" (Z.lor (oct 700) S_IFCHR) 10 237 in
  for_each [0; 1; 2; 3; 4; 5; 6]%Z (fun i =>
    mknod ("/dev/loop" +:+ strconv_Itoa i) (Z.lor (oct 700) S_IFBLK) 7 i).

(** ** enter.go: finding the image *)

Definition magic : string := "_SQMAGIC_".
Definition symlinks : list string := ["lib"; "bin"; "sbin"].
Definition procFilesystemsPath : string := "/proc/filesystems".

Section Find.
Context (Self Args0 : string).

(** [test], the magic in lower case: the binary does not contain it but at the image. *)
Definition test : list ascii := chars (strings_ToLower magic).
Definition testLength : nat := List.length test.

(** The loop over the bytes of one read: the offset after the magic, or the offset and how much of
    the magic the text ends with. *)
Fixpoint scan_buf (buf : list ascii) (offset : Z) (found : nat) : Z + (Z * nat) :=
  match buf with
  | [] => inr (offset, found)
  | b :: buf' =>
      if bool_decide (test !! found = Some b) then
        if (S found =? testLength)%nat then inl (u64 (offset + 1))
        else scan_buf buf' (u64 (offset + 1)) (S found)
      else scan_buf buf' (u64 (offset + 1)) 0
  end.

(** The loop over the reads; [fuel] bounds their number. *)
Fixpoint inFile_loop (fuel : nat) (f : File) (offset : Z) (found : nat) : M (string * Z) :=
  match fuel with
  | O => Halt OutOfFuel
  | S fuel =>
      let* '(data, err) := sys (FileRead f 8192) in
      match err with
      | Some e =>
          if is_EOF e && bool_decide (data = "")
          then fail (Errorf "failed to find image in file %s" [Args0])
          else fail e
      | None =>
          match scan_buf (chars data) offset found with
          | inl offset => ret (Self, offset)
          | inr (offset, found) => inFile_loop fuel f offset found
          end
      end
  end.

Definition inFile (fuel : nat) : M (string * Z) :=
  let! f := sys (Open Self) in
  let* r := inFile_loop fuel f 0 0 in
  let* _ := ignore (sys (FileClose f)) in
  Ret r.

(** The first of the files beside the binary that exists. *)
Fixpoint find_beside (suffixes : list string) (otherwise : M (string * Z)) : M (string * Z) :=
  match suffixes with
  | [] => otherwise
  | suffix :: suffixes' =>
      let test := Args0 +:+ suffix in
      let* r := sys (Stat test) in
      if is_ok r then ret (test, 0%Z) else find_beside suffixes' otherwise
  end.

Definition findRoot (fuel : nat) : M (string * Z) :=
  let* root := sys (Getenv "ENTER_ROOT") in
  if negb (bool_decide (root = "")) then ret (root, 0%Z)
  else find_beside [".root"; ".squashfs"] (inFile fuel).
End Find.

(** ** enter.go: Mount *)

(** The goroutine that [GoAutoclear] starts. *)
Definition autoclear_goroutine (dev : LoopDevice) : io unit :=
  let* _ := sys (Sleep 3000000000) in
  ignore (sys (LoopSetAutoclear dev)).

(** [cmdlineParser] tells that the parser is not nil. *)
Definition isDebug (DebugCmdline : string) (cmdlineParser : bool) : io bool :=
  let* debug := sys (Getenv "ENTER_DEBUG") in
  if bool_decide (debug = "true") then Ret true
  else if bool_decide (DebugCmdline = "") then Ret false
  else if negb cmdlineParser then Ret false
  else sys (CmdlineContains DebugCmdline).

(** From [os.Getpid] on; process 1 is replaced, another one starts a child in its own namespaces. *)
Definition start_enter_root (Args0 : string) (args : list string) : M unit :=
  let* pid := sys Getpid in
  let run_child :=
    match args with
    | [] => Halt (Panic "slice bounds out of range")
    | _ :: rest =>
        let* env := sys Environ in
        sys (ExecNamespaced Args0 ("enter-root" :: rest) env)
    end in
  if bool_decide (pid = 1)%Z then
    match args with
    | [] => Halt (Panic "slice bounds out of range")
    | _ :: rest =>
        let* env := sys Environ in
        let* r := sys (SysExec Args0 ("enter-root" :: rest) env) in
        match r with
        | Err e => fail (Errorf_w "failed to exec enter-root: %w" [] e)
        | Ok _ => run_child
        end
    end
  else run_child.

Definition Mount (Self Args0 DebugCmdline : string) (cmdlineParser : bool)
  (fuel : nat) (dataDir : string) (args : list string) : M unit :=
  let! _ := ensureloop in
  let* debug := isDebug DebugCmdline cmdlineParser in
  let* _ := if debug : bool then ignore (sys (Setenv "ENTER_DEBUG" "true")) else Ret tt in
  let! '(root, offset) := findRoot Self Args0 fuel in
  let* _ := ignore (sys (Setenv "ENTER_DATA" dataDir)) in
  let* _ := ignore (sys (Setenv "ENTER_ROOT" root)) in
  let! stat := wrapf "failed to find %s: %w" [root] (sys (Stat root)) in
  if fi_IsDir stat then start_enter_root Args0 args
  else
    let! dev := wrapf "creating loopback device: %w" [] (sys (LoopAttach root offset true)) in
    let* _ := ignore (sys (Setenv "ENTER_DEVICE" (ld_path dev))) in
    let* _ := sys (GoAutoclear dev) in
    let* r := start_enter_root Args0 args in
    let* _ := ignore (sys (LoopDetach dev)) in
    Ret r.

(** ** enter.go: Enter *)

Definition RLIMIT_NPROC : Z := 6.
Definition RLIMIT_NOFILE : Z := 7.
Definition RLIMIT_MEMLOCK : Z := 8.
Definition RLIM_INFINITY : Z := 2 ^ 64 - 1.

Definition setResourceLimit (resource current maximum : Z) : io unit :=
  ignore (sys (Setrlimit resource current maximum)).

Definition inProcFS : io bool :=
  let* r := sys (ReadFile procFilesystemsPath) in
  Ret (match r with Ok bytes => strings_Contains bytes "squashfs" | Err _ => false end).

Definition squashfs_msg : string :=
  "this kernel does not support squashfs, please enable. " +:+
  "On Fedora you may need to run " +:+ dq +:+ "dnf install kernel-modules-$(uname -r)" +:+ dq.

Definition checkSquashfs : M unit :=
  let* ok := inProcFS in
  if ok : bool then ret tt else fail (ErrText squashfs_msg).

(** What is mounted over usr: the directory, or the image on its device. *)
Definition mount_usr (root device usr : string) : M unit :=
  if bool_decide (device = "") then
    wrapf "failed to bind mount: %w" [] (sys (OS.Mount root usr "none" "bind"))
  else
    let* squashErr := checkSquashfs in
    let* r := sys (OS.Mount device usr "squashfs" "ro") in
    match r with
    | Ok _ => ret tt
    | Err e =>
        let err := Errorf_w "mounting squashfs: %w" [] e in
        fail (match squashErr with
              | Err _ => Errorf_w "%s: %w" [squashfs_msg] err
              | Ok _ => err
              end)
    end.

(** From the pivot on. *)
Definition enter_new_root (data self : string) : M unit :=
  let! _ := wrapf "pivot_root failed: %w" [] (sys (SysPivotRoot "." ".base")) in
  let! _ := wrapf "making . private %s: %w" [data] (sys (ForceMount "" "." "none" "rprivate")) in
  let! _ := sys (SysChroot "/") in
  let! _ := sys (Chdir "/") in
  let* _ := ignore (sys (Unsetenv "ENTER_ROOT")) in
  let* _ := ignore (sys (Unsetenv "ENTER_DATA")) in
  let* _ := ignore (sys (Unsetenv "ENTER_DEVICE")) in
  let* env := sys Environ in
  sys (SysExec self ["/init"] env).

Definition run (Self data : string) : M unit :=
  let! mounted := wrapf "checking %s mounted: %w" [data] (sys (Mounted data)) in
  let! _ :=
    if mounted : bool then ret tt
    else
      let! _ := wrapf "mkdir %s: %w" [data] (sys (MkdirAll data (oct 755))) in
      wrapf "remounting data %s: %w" [data] (sys (OS.Mount data data "none" "rbind")) in
  let* root := sys (Getenv "ENTER_ROOT") in
  let* device := sys (Getenv "ENTER_DEVICE") in
  let usr := path_Join [data; "usr"] in
  let dotRoot := path_Join [data; ".base"] in
  let! _ := for_each [usr; dotRoot] (fun d =>
              wrapf "failed to make dir %s: %w" [data] (sys (MkdirAll d (oct 755)))) in
  let! _ := mount_usr root device usr in
  let! _ := sys (Chdir data) in
  let! _ := for_each symlinks (fun p =>
              let* r := sys (Lstat p) in
              match r with
              | Err e =>
                  if os_IsNotExist e
                  then wrapf "failed to symlink %s: %w" [p] (sys (Symlink (path_Join ["usr"; p]) p))
                  else ret tt
              | Ok _ => ret tt
              end) in
  let* resolved := sys (Readlink Self) in
  let self := match resolved with
              | Err _ => "/.base/k3os/system/k3os/current/k3os"
              | Ok resolved => "/.base" +:+ resolved
              end in
  enter_new_root data self.

Definition Enter (Self : string) : io unit :=
  let* _ := ignore (sys (Getenv "ENTER_DEBUG")) in
  let* _ := setResourceLimit RLIMIT_NOFILE 1048576 1048576 in
  let* _ := setResourceLimit RLIMIT_NPROC RLIM_INFINITY RLIM_INFINITY in
  let* _ := setResourceLimit RLIMIT_MEMLOCK 67108864 67108864 in
  let* data := sys (Getenv "ENTER_DATA") in
  let* err := run Self data in
  match err with Err _ => Halt (ExitWith 1) | Ok _ => Ret tt end.
