(* ===== verification/EnterChrootSpec.v ===== *)
(** * EnterChrootSpec: finding the image of the root in the binary, and the order of the entry. *)

From S2P Require Import Prelude GoStrings GoPath GoEncoding Effects OS MountPkg EnterChroot.
Open Scope string_scope.
Open Scope list_scope.
Open Scope go_scope.

(** ** The scan *)

(** [k] bytes into the text an occurrence of the magic ends. *)
Definition follows_magic (content : list ascii) (k : Z) : Prop :=
  exists pre post, content = pre ++ test ++ post /\ k = Z.of_nat (List.length (pre ++ test)).

(** The text ends with a beginning of the magic, but not with all of it. *)
Definition ends_begun (pre : list ascii) : Prop :=
  exists x j, (0 < j < testLength)%nat /\ pre = x ++ take j test.

Lemma test_eq : test = chars "_sqmagic_".
Proof. vm_compute. reflexivity. Qed.

Lemma testLength_9 : testLength = 9%nat.
Proof. vm_compute. reflexivity. Qed.

Lemma length_test : List.length test = 9%nat.
Proof. exact testLength_9. Qed.

Lemma scan_app a b o f :
  scan_buf (a ++ b) o f =
  match scan_buf a o f with inl k => inl k | inr (o', f') => scan_buf b o' f' end.
Proof.
  revert o f. induction a as [|x a IH]; intros o f; simpl; [done|].
  case_bool_decide; [|apply IH]. destruct (_ =? _)%nat; [done|apply IH].
Qed.

Lemma take_S_test f b : test !! f = Some b -> take (S f) test = take f test ++ [b].
Proof. apply take_S_r. Qed.

Lemma u64_succ o n : (0 <= o)%Z -> (o + Z.of_nat (S n) < 2 ^ 64)%Z ->
  u64 (o + 1) = (o + 1)%Z /\ (0 <= o + 1)%Z /\ (o + 1 + Z.of_nat n < 2 ^ 64)%Z.
Proof. intros. rewrite u64_small by lia. lia. Qed.

(** What stopping inside the text means, [f] bytes of the magic having been read before it. *)
Lemma scan_found s o f k :
  (0 <= o)%Z -> (o + Z.of_nat (List.length s) < 2 ^ 64)%Z -> (f < testLength)%nat ->
  scan_buf s o f = inl k ->
  exists pre post, take f test ++ s = pre ++ test ++ post /\
    k = (o - Z.of_nat f + Z.of_nat (List.length (pre ++ test)))%Z.
Proof.
  revert o f. induction s as [|b s IH]; intros o f Ho Hlen Hf; cbn [scan_buf]; [done|].
  destruct (u64_succ o _ Ho Hlen) as (-> & Ho' & Hlen').
  case_bool_decide as Hb; [destruct (Nat.eqb_spec (S f) testLength) as [Heq|Hne]|]; intros Hs.
  - injection Hs as <-. exists [], s. rewrite testLength_9 in Heq. injection Heq as ->.
    assert (test = take 8 test ++ [b]) as Ht.
    { rewrite <- take_S_test by done. by rewrite take_ge by (rewrite length_test; lia). }
    rewrite !app_nil_l, length_test. split; [|lia]. rewrite Ht at 2. by rewrite <- (assoc_L app).
  - destruct (IH (o + 1)%Z (S f)) as (pre & post & Heq & Hk); [done|done|lia|done|].
    exists pre, post. split; [|lia]. rewrite <- Heq, (take_S_test f b) by done. by rewrite <- (assoc_L app).
  - destruct (IH (o + 1)%Z 0%nat) as (pre & post & Heq & Hk); [done|done|lia|done|].
    exists (take f test ++ b :: pre), post. rewrite take_0, app_nil_l in Heq. subst s. rewrite <- (assoc_L app). split; [done|].
    rewrite !length_app in *. cbn [List.length]. rewrite length_take. rewrite testLength_9 in Hf.
    pose proof length_test. lia.
Qed.

(** What coming to the end of the text means. *)
Lemma scan_open s o f o' f' :
  (0 <= o)%Z -> (o + Z.of_nat (List.length s) < 2 ^ 64)%Z -> (f < testLength)%nat ->
  scan_buf s o f = inr (o', f') ->
  (f' < testLength)%nat /\ o' = (o + Z.of_nat (List.length s))%Z /\
  exists x, take f test ++ s = x ++ take f' test.
Proof.
  revert o f. induction s as [|b s IH]; intros o f Ho Hlen Hf; cbn [scan_buf].
  - intros [= <- <-]. split_and!; [done|cbn; lia|]. exists []. by rewrite app_nil_r.
  - destruct (u64_succ o _ Ho Hlen) as (-> & Ho' & Hlen').
    case_bool_decide as Hb; [destruct (Nat.eqb_spec (S f) testLength) as [Heq|Hne]|]; intros Hs; [done| |].
    + destruct (IH (o + 1)%Z (S f)) as (? & ? & x & Hx); [done|done|lia|done|].
      split_and!; [done|cbn [List.length]; lia|]. exists x. rewrite <- Hx, (take_S_test f b) by done.
      by rewrite <- (assoc_L app).
    + destruct (IH (o + 1)%Z 0%nat) as (? & ? & x & Hx); [done|done|lia|done|].
      split_and!; [done|cbn [List.length]; lia|]. exists (take f test ++ b :: x). rewrite take_0, app_nil_l in Hx. subst s.
      by rewrite <- (assoc_L app).
Qed.

(** From the start of an occurrence, with nothing of the magic read before it. *)
Lemma scan_test post o :
  (0 <= o)%Z -> (o + 9 < 2 ^ 64)%Z -> scan_buf (test ++ post) o 0 = inl (o + 9)%Z.
Proof.
  intros Ho Hlen. assert (forall c, test !! c = chars "_sqmagic_" !! c) as Ht by (by rewrite test_eq).
  rewrite test_eq at 1. cbn [chars app scan_buf]. rewrite testLength_9, !Ht. cbn -[u64 test].
  rewrite (u64_small (o + 1)), (u64_small (o + 1 + 1)), (u64_small (o + 1 + 1 + 1)),
    (u64_small (o + 1 + 1 + 1 + 1)), (u64_small (o + 1 + 1 + 1 + 1 + 1)),
    (u64_small (o + 1 + 1 + 1 + 1 + 1 + 1)), (u64_small (o + 1 + 1 + 1 + 1 + 1 + 1 + 1)),
    (u64_small (o + 1 + 1 + 1 + 1 + 1 + 1 + 1 + 1)),
    (u64_small (o + 1 + 1 + 1 + 1 + 1 + 1 + 1 + 1 + 1)) by lia.
  f_equal. lia.
Qed.

(** The whole text: what is found, and what is not. *)
Lemma scan_whole content :
  (Z.of_nat (List.length content) < 2 ^ 64)%Z ->
  match scan_buf content 0 0 with
  | inl k => follows_magic content k /\
      forall pre post, content = pre ++ test ++ post -> ~ ends_begun pre ->
        (k <= Z.of_nat (List.length (pre ++ test)))%Z
  | inr (o, f) => (f < testLength)%nat /\ o = Z.of_nat (List.length content) /\
      forall pre post, content = pre ++ test ++ post -> ends_begun pre
  end.
Proof.
  intros Hlen.
  assert (forall pre post, content = pre ++ test ++ post ->
    ends_begun pre \/
    exists k, scan_buf content 0 0 = inl k /\ (k <= Z.of_nat (List.length (pre ++ test)))%Z) as Hclean.
  { intros pre post ->. rewrite !length_app, length_test in *. rewrite scan_app.
    destruct (scan_buf pre 0 0) as [k|[o f]] eqn:Hs.
    - apply scan_found in Hs as (x & y & Heq & ->); [|lia|lia|rewrite testLength_9; lia].
      right. eexists. split; [done|]. rewrite take_0, app_nil_l in Heq. subst pre. rewrite !length_app. lia.
    - apply scan_open in Hs as (Hf & -> & x & Heq); [|lia|lia|rewrite testLength_9; lia].
      rewrite take_0, app_nil_l in Heq. destruct f as [|f].
      + right. rewrite scan_test by lia. eexists. split; [done|]. lia.
      + left. exists x, (S f). split; [lia|done]. }
  destruct (scan_buf content 0 0) as [k|[o f]] eqn:Hs.
  - split.
    + apply scan_found in Hs as (x & y & Heq & ->); [|lia|lia|rewrite testLength_9; lia].
      rewrite take_0, app_nil_l in Heq. exists x, y. split; [done|]. lia.
    + intros pre post Hc Hpre. by destruct (Hclean pre post Hc) as [?|(k' & [= ->] & Hk)].
  - apply scan_open in Hs as (Hf & -> & _); [|lia|lia|rewrite testLength_9; lia].
    split_and!; [done|lia|]. intros pre post Hc.
    by destruct (Hclean pre post Hc) as [?|(k' & [=] & _)].
Qed.

(** ** Reading the file *)

Definition read_len (e : ev) : nat :=
  match ev_call e as c return resp c -> nat with
  | FileRead _ _ => fun r => List.length (chars (fst r))
  | _ => fun _ => 0%nat
  end (ev_resp e).

(** How much was read so far. *)
Definition consumed (h : list ev) : nat := foldr (fun e n => (read_len e + n)%nat) 0%nat h.

(** [os.File.Read] on a file with this content: a read delivers a non-empty piece of what is left, no
    longer than the buffer, or nothing and an error, which is [io.EOF] only at the end. *)
Definition file_reads (content : list ascii) : @rely call resp := fun h c =>
  match c return resp c -> Prop with
  | FileRead _ n => fun r =>
      match r with
      | (d, None) => d <> "" /\ (Z.of_nat (String.length d) <= n)%Z /\
          exists rest, drop (consumed h) content = chars d ++ rest
      | (d, Some e) => d = "" /\ (is_EOF e = true -> drop (consumed h) content = [])
      end
  | _ => fun _ => True
  end.

Section InFile.
Context (Self Args0 : string) (content : list ascii).

(** What [inFile] may return. *)
Definition inFile_result (r : result (string * Z)) (h : list ev) : Prop :=
  match r with
  | Ok (path, k) =>
      path = Self /\ follows_magic content k /\
      forall pre post, content = pre ++ test ++ post -> ~ ends_begun pre ->
        (k <= Z.of_nat (List.length (pre ++ test)))%Z
  | Err e =>
      (e = Errorf "failed to find image in file %s" [Args0] /\
       forall pre post, content = pre ++ test ++ post -> ends_begun pre) \/
      Ev (Open Self) (Err e) ∈ h \/ (exists f n, Ev (FileRead f n) ("", Some e) ∈ h)
  end.

Lemma inFile_result_later r e h : inFile_result r h -> inFile_result r (e :: h).
Proof using Type.
  destruct r as [[p k]|err]; [done|]. intros [H|[H|(f & n & H)]]; [by left|by right; left; right|].
  right. right. exists f, n. by right.
Qed.

Lemma inFile_loop_wp fuel f o found h :
  (Z.of_nat (List.length content) < 2 ^ 64)%Z ->
  (List.length content - consumed h < fuel)%nat ->
  scan_buf (take (consumed h) content) 0 0 = inr (o, found) ->
  wp (file_reads content) any_call (inFile_loop Self Args0 fuel f o found)
    (fun out h' => exists r, out = Done r /\ inFile_result r h') h.
Proof using Type.
  intros Hlen. revert o found h. induction fuel as [|fuel IH]; intros o found h Hfuel Hs; [lia|].
  cbn [inFile_loop]. wp_norm. split; [done|]. intros [d [e|]] Hr; cbn beta iota.
  - destruct Hr as [-> Heof]. rewrite bool_decide_true, andb_true_r by done. destruct (is_EOF e) eqn:He.
    + wp_norm. eexists. split; [done|]. left. split; [done|].
      pose proof (scan_whole content Hlen) as Hw.
      assert (take (consumed h) content = content) as Hall.
      { rewrite <- (take_drop (consumed h) content) at 2. by rewrite Heof, app_nil_r. }
      rewrite Hall in Hs. rewrite Hs in Hw. apply Hw.
    + wp_norm. eexists. split; [done|]. right. right. exists f, 8192%Z. left.
  - destruct Hr as (Hd & _ & rest & Hrest).
    assert (content = take (consumed h) content ++ chars d ++ rest) as Hc
      by (by rewrite <- Hrest, take_drop).
    assert (0 < List.length (chars d))%nat as Hpos by (destruct d; [done|cbn; lia]).
    set (h' := Ev (FileRead f 8192) (d, None) :: h).
    assert (consumed h' = (List.length (chars d) + consumed h)%nat) as Hcons by done.
    assert (consumed h < List.length content)%nat as Hin.
    { apply (f_equal List.length) in Hrest. rewrite length_drop, length_app in Hrest. lia. }
    assert (take (consumed h') content = take (consumed h) content ++ chars d) as Htake.
    { rewrite Hc at 1. rewrite Hcons, (assoc_L app), take_app_length'; [done|].
      rewrite length_app, length_take. lia. }
    pose proof (scan_app (take (consumed h) content) (chars d) 0 0) as Happ. rewrite Hs in Happ.
    destruct (scan_buf (chars d) o found) as [k|[o' found']] eqn:Hb.
    + wp_norm. eexists. split; [done|]. pose proof (scan_whole content Hlen) as Hw.
      assert (scan_buf content 0 0 = inl k) as Hk by (by rewrite Hc, (assoc_L app), scan_app, Happ).
      rewrite Hk in Hw. split; [done|exact Hw].
    + apply IH; [rewrite Hcons; lia|]. by rewrite Htake, Happ.
Qed.

Lemma inFile_wp fuel h :
  (Z.of_nat (List.length content) < 2 ^ 64)%Z -> (List.length content < fuel)%nat -> consumed h = 0%nat ->
  wp (file_reads content) any_call (inFile Self Args0 fuel)
    (fun out h => exists r, out = Done r /\ inFile_result r h) h.
Proof using Type.
  intros Hlen Hfuel Hh. unfold inFile. wp_norm. split; [done|]. intros [f|e] _; wp_norm.
  - apply wp_bind. eapply wp_mono; [|apply inFile_loop_wp; [done|lia|]].
    2: { change (consumed (_ :: h)) with (consumed h). by rewrite Hh. }
    intros out h' (r & -> & Hr). cbn [bind_post]. wp_norm. split; [done|]. intros r' _. wp_norm.
    exists r. split; [done|]. by apply inFile_result_later.
  - eexists. split; [done|]. right. left. left.
Qed.
End InFile.

(** ** Entering the new root *)

Section Entry.
Context (Self data : string).

Definition usr : string := path_Join [data; "usr"].

Definition data_mounted (h : list ev) : Prop :=
  Ev (Mounted data) (Ok true) ∈ h \/ Ev (OS.Mount data data "none" "rbind") (Ok tt) ∈ h.

(** The image is over usr: the directory that was found, or the device it was attached to. *)
Definition usr_mounted (h : list ev) : Prop :=
  (exists root, Ev (Getenv "ENTER_ROOT") root ∈ h /\ Ev (Getenv "ENTER_DEVICE") "" ∈ h /\
     Ev (OS.Mount root usr "none" "bind") (Ok tt) ∈ h) \/
  (exists device, device <> "" /\ Ev (Getenv "ENTER_DEVICE") device ∈ h /\
     Ev (OS.Mount device usr "squashfs" "ro") (Ok tt) ∈ h).

(** The binary's path after the pivot: where it was, under /.base. *)
Definition new_self (resolved : result string) : string :=
  match resolved with
  | Err _ => "/.base/k3os/system/k3os/current/k3os"
  | Ok resolved => "/.base" +:+ resolved
  end.

(** The binary's path was just read, everything is mounted and the process is in the data directory. *)
Definition prepared (resolved : result string) (h : list ev) : Prop :=
  exists older, h = Ev (Readlink Self) resolved :: older /\
    data_mounted older /\ usr_mounted older /\ Ev (Chdir data) (Ok tt) ∈ older.

(** Pivoted, made private, and confined to the new root, one right after the other. *)
Definition confined (resolved : result string) (h : list ev) : Prop :=
  exists older, prepared resolved older /\
    h = Ev (Chdir "/") (Ok tt) :: Ev (SysChroot "/") (Ok tt) ::
        Ev (ForceMount "" "." "none" "rprivate") (Ok tt) :: Ev (SysPivotRoot "." ".base") (Ok tt) :: older.

Definition enter_guard : @guar call resp := fun h c =>
  match c with
  | Mounted _ | Getenv _ | ReadFile _ | Lstat _ | Readlink _ | Environ | Chdir _ | Unsetenv _
  | Setrlimit _ _ _ => True
  | MkdirAll p _ => p = data \/ p = usr \/ p = path_Join [data; ".base"]
  | OS.Mount _ p _ _ => p = data \/ p = usr
  | Symlink t p => p ∈ symlinks /\ t = path_Join ["usr"; p] /\
      exists e older, h = Ev (Lstat p) (Err e) :: older /\ os_IsNotExist e = true
  | SysPivotRoot a b => a = "." /\ b = ".base" /\ exists r, prepared r h
  | ForceMount s p t o => s = "" /\ p = "." /\ t = "none" /\ o = "rprivate" /\
      exists older, h = Ev (SysPivotRoot "." ".base") (Ok tt) :: older
  | SysChroot p => p = "/" /\
      exists older, h = Ev (ForceMount "" "." "none" "rprivate") (Ok tt) :: older
  | SysExec p args env => args = ["/init"] /\ exists resolved r1 r2 r3 older,
      confined resolved older /\ p = new_self resolved /\
      h = Ev Environ env :: Ev (Unsetenv "ENTER_DEVICE") r1 :: Ev (Unsetenv "ENTER_DATA") r2 ::
          Ev (Unsetenv "ENTER_ROOT") r3 :: older
  | _ => False
  end.

(** It returns without an error only from the execution of /init, which replaces the process. *)
Definition enter_post (o : outcome (result unit)) (h : list ev) : Prop :=
  match o with
  | Done (Ok _) => exists p env older, h = Ev (SysExec p ["/init"] env) (Ok tt) :: older
  | Halted _ => False
  | _ => True
  end.

Lemma enter_new_root_wp resolved h :
  prepared resolved h ->
  wp any_resp enter_guard (enter_new_root data (new_self resolved)) enter_post h.
Proof using Type.
  intros Hp. unfold enter_new_root. wp_norm. split; [split_and!; [done|done|by exists resolved]|].
  intros [[]|e] _; wp_norm; [|done]. split; [split_and!; try done; by eexists|].
  intros [[]|e] _; wp_norm; [|done]. split; [split; [done|by eexists]|].
  intros [[]|e] _; wp_norm; [|done]. split; [done|].
  intros [[]|e] _; wp_norm; [|done]. split; [done|]. intros r3 _. wp_norm.
  split; [done|]. intros r2 _. wp_norm. split; [done|]. intros r1 _. wp_norm.
  split; [done|]. intros env _. wp_norm. split.
  - split; [done|]. eexists resolved, r1, r2, r3, _. split_and!; [|done|done]. by exists h.
  - intros [[]|e] _; wp_norm; [|done]. by eexists _, _, _.
Qed.

Lemma mount_usr_wp root device h :
  Ev (Getenv "ENTER_ROOT") root ∈ h -> Ev (Getenv "ENTER_DEVICE") device ∈ h ->
  wp any_resp enter_guard (mount_usr root device usr)
    (fun o h' => (forall e, e ∈ h -> e ∈ h') /\ match o with
                 | Done (Ok _) => usr_mounted h'
                 | Halted _ => False
                 | _ => True
                 end) h.
Proof using Type.
  intros Hroot Hdev. unfold mount_usr, checkSquashfs, inProcFS. case_bool_decide as Hd.
  - subst device. wp_norm. split; [by right|]. intros [[]|e] _; wp_norm; (split; [by right|]); [|done].
    left. exists root. split_and!; [by right|by right|left].
  - wp_norm. split; [done|]. intros [bytes|e] _; wp_norm.
    + destruct (strings_Contains bytes "squashfs"); wp_norm; (split; [by right|]);
        (intros [[]|e] _; wp_norm; (split; [by do 2 right|]); [|done];
         right; exists device; split_and!; [done|by do 2 right|left]).
    + split; [by right|]. intros [[]|e'] _; wp_norm; (split; [by do 2 right|]); [|done].
      right; exists device; split_and!; [done|by do 2 right|left].
Qed.

(** What [prepared] needs, which later calls do not undo. *)
Definition in_place (h : list ev) : Prop :=
  data_mounted h /\ usr_mounted h /\ Ev (Chdir data) (Ok tt) ∈ h.

Lemma data_mounted_incl h h' : (forall e, e ∈ h -> e ∈ h') -> data_mounted h -> data_mounted h'.
Proof using Type. intros Hi [H|H]; [left|right]; by apply Hi. Qed.

Lemma usr_mounted_incl h h' : (forall e, e ∈ h -> e ∈ h') -> usr_mounted h -> usr_mounted h'.
Proof using Type.
  intros Hi [(root & H1 & H2 & H3)|(device & H1 & H2 & H3)]; [left; exists root|right; exists device];
    split_and!; auto.
Qed.

Lemma in_place_incl h h' : (forall e, e ∈ h -> e ∈ h') -> in_place h -> in_place h'.
Proof using Type.
  intros Hi (H1 & H2 & H3). split_and!; [by apply (data_mounted_incl h)|by apply (usr_mounted_incl h)|by apply Hi].
Qed.

(** The links into usr, then the rest. *)
Lemma symlinks_wp (rest : M unit) h :
  in_place h ->
  (forall h', in_place h' -> wp any_resp enter_guard rest enter_post h') ->
  wp any_resp enter_guard
    (let! _ := for_each symlinks (fun p =>
       let* r := sys (Lstat p) in
       match r with
       | Err e =>
           if os_IsNotExist e
           then wrapf "failed to symlink %s: %w" [p] (sys (Symlink (path_Join ["usr"; p]) p))
           else ret tt
       | Ok _ => ret tt
       end) in rest) enter_post h.
Proof using Type.
  intros Hh Hrest. apply wp_bindE.
  eapply (wp_for_each _ _ _ _ (fun l h => in_place h /\ Forall (fun p => p ∈ symlinks) l)).
  - split; [done|]. by apply Forall_forall.
  - intros h' [H' _]. by apply Hrest.
  - intros p l h' [H' [Hp Hl]%Forall_cons]. wp_norm. split; [done|].
    assert (forall e1, in_place (e1 :: h')) as H1 by (intros; apply (in_place_incl h'); [by right|done]).
    intros [i|e] _; wp_norm; [by split|]. destruct (os_IsNotExist e) eqn:He; wp_norm; [|by split].
    split; [split_and!; [done|done|by eexists _, _]|]. intros [[]|e'] _; wp_norm; [|done].
    split; [|done]. by apply (in_place_incl h'); [do 2 right|].
Qed.

(** From the lookup of the root on. *)
Lemma run_mounted_wp h :
  data_mounted h ->
  wp any_resp enter_guard
    (let* root := sys (Getenv "ENTER_ROOT") in
     let* device := sys (Getenv "ENTER_DEVICE") in
     let usr := path_Join [data; "usr"] in
     let dotRoot := path_Join [data; ".base"] in
     let! _ := for_each [usr; dotRoot] (fun d =>
                 wrapf "failed to make dir %s: %w" [data] (sys (MkdirAll d (oct 755)))) in
     let! _ := mount_usr root device usr in
     let! _ := sys (Chdir data) in
     let! _ := for_each symlinks (fun p =>
                 let* r := sys (Lstat p) in
                 match r with
                 | Err e =>
                     if os_IsNotExist e
                     then wrapf "failed to symlink %s: %w" [p] (sys (Symlink (path_Join ["usr"; p]) p))
                     else ret tt
                 | Ok _ => ret tt
                 end) in
     let* resolved := sys (Readlink Self) in
     let self := new_self resolved in
     enter_new_root data self) enter_post h.
Proof using Type.
  intros Hdata. wp_norm. split; [done|]. intros root _. split; [done|]. intros device _. wp_norm.
  split; [by right; left|]. intros [[]|e] _; wp_norm; [|done].
  split; [by right; right|]. intros [[]|e] _; wp_norm; [|done].
  set (h1 := Ev (MkdirAll _ _) _ :: Ev (MkdirAll _ _) _ :: _).
  apply wp_bind. eapply wp_mono; [|apply (mount_usr_wp root device h1); repeat first [by left|right]].
  intros [[[]|e]|s|] h2 [Hin Ho]; try done. cbn [bind_post]. wp_norm. split; [done|].
  intros [[]|e] _; wp_norm; [|done].
  apply symlinks_wp.
  - split_and!; [|by apply (usr_mounted_incl h2); [right|]|left].
    apply (data_mounted_incl h); [|done]. intros e He. right. apply Hin. by do 4 right.
  - intros h3 (Hd & Hu & Hc). wp_norm. split; [done|]. intros resolved _. cbn beta.
    apply enter_new_root_wp. by exists h3.
Qed.

Lemma run_wp h : wp any_resp enter_guard (run Self data) enter_post h.
Proof using Type.
  unfold run. wp_norm. split; [done|]. intros [mounted|e] _; wp_norm; [|done].
  destruct mounted; wp_norm.
  - apply run_mounted_wp. left. left.
  - split; [by left|]. intros [[]|e] _; wp_norm; [|done].
    split; [by left|]. intros [[]|e] _; wp_norm; [|done].
    apply run_mounted_wp. right. left.
Qed.
End Entry.

(** ** The whole of Enter *)

Section Enter.
Context (Self : string).

Definition Enter_guard : @guar call resp := fun h c =>
  match c with
  | Setrlimit _ _ _ | Getenv _ => True
  | c => exists data, Ev (Getenv "ENTER_DATA") data ∈ h /\ enter_guard Self data h c
  end.

(** The process ends with status 1, or by being replaced. *)
Definition Enter_post (o : outcome unit) (h : list ev) : Prop :=
  match o with
  | Done _ => exists p env older, h = Ev (SysExec p ["/init"] env) (Ok tt) :: older
  | Halted s => s = ExitWith 1
  | Running => True
  end.

Lemma Enter_wp : wp any_resp Enter_guard (Enter Self) Enter_post [].
Proof using Type.
  unfold Enter, setResourceLimit. do 4 (wp_norm; split; [done|]; intros ? _). wp_norm.
  split; [done|]. intros data _. cbn beta. set (h := Ev (Getenv "ENTER_DATA") data :: _).
  apply wp_bind. eapply wp_weaken;
    [| | |apply (wp_always any_resp (enter_guard Self data) _ enter_post
                   (fun h => Ev (Getenv "ENTER_DATA") data ∈ h) h)]; [done| | |by right|left|apply run_wp].
  - intros h' c [Hg Hd]. destruct c; try done; by exists data.
  - intros [[[]|e]|s|] h' [Ho _]; try done.
Qed.
End Enter.

(** ** Starting enter-root *)

Section Mount.
Context (Self Args0 DebugCmdline : string) (cmdlineParser : bool).
Context (dataDir arg0 : string) (rest : list string) (content : list ascii).

(** The devices that were attached, with what to. *)
Definition attachment (e : ev) : option (string * Z * LoopDevice) :=
  match ev_call e as c return resp c -> option (string * Z * LoopDevice) with
  | LoopAttach root offset _ => fun r =>
      match r with Ok dev => Some (root, offset, dev) | Err _ => None end
  | _ => fun _ => None
  end (ev_resp e).
Definition attached (h : list ev) : list (string * Z * LoopDevice) := omap attachment h.

(** The root is known to enter-root, and it is a directory or attached to a device it knows too. *)
Definition root_ready (h : list ev) : Prop :=
  exists root r, Ev (Setenv "ENTER_ROOT" root) r ∈ h /\
    ((exists i, Ev (Stat root) (Ok i) ∈ h /\ fi_IsDir i = true /\ attached h = []) \/
     (exists dev offset r', attached h = [(root, offset, dev)] /\
        Ev (Setenv "ENTER_DEVICE" (ld_path dev)) r' ∈ h)).

Definition start_ok (h : list ev) (path : string) (args env : list string) : Prop :=
  path = Args0 /\ args = "enter-root" :: rest /\ Ev Environ env ∈ h /\ root_ready h.

(** Where in a file the image can start. *)
Definition offset_ok (root : string) (offset : Z) : Prop :=
  offset = 0%Z \/ (root = Self /\ follows_magic content offset).

Definition mount_guard : @guar call resp := fun h c =>
  match c with
  | Mounted _ | ReadDir _ | Stat _ | Getenv _ | Setenv _ _ | Open _ | FileRead _ _ | FileClose _
  | Getpid | Environ | CmdlineContains _ => True
  | MkdirAll p _ => p = "/proc" \/ p = "/dev"
  | ForceMount s p t o => (s, p, t, o) = ("proc", "/proc", "proc", "") \/
                          (s, p, t, o) = ("none", "/dev", "devtmpfs", "")
  | SysMknod p _ _ => exists e older, h = Ev (Stat p) (Err e) :: older
  | LoopAttach root offset ro => ro = true /\ attached h = [] /\ offset_ok root offset /\
      exists i older, h = Ev (Stat root) (Ok i) :: older /\ fi_IsDir i = false
  | GoAutoclear d | LoopDetach d => exists root offset, attached h = [(root, offset, d)]
  | SysExec path args env | ExecNamespaced path args env => start_ok h path args env
  | _ => False
  end.

(** On return, the device that was attached, if any, was just detached. *)
Definition mount_post (o : outcome (result unit)) (h : list ev) : Prop :=
  match o with
  | Done _ => attached h = [] \/
      exists root offset dev r older, h = Ev (LoopDetach dev) r :: older /\
        attached h = [(root, offset, dev)]
  | Halted _ => False
  | Running => True
  end.

Abbreviation R := (file_reads content).
Definition view (h : list ev) : list (string * Z * LoopDevice) * nat := (attached h, consumed h).

(** A program that ends and leaves the view as it is. *)
Definition quiet {A} (h : list ev) (o : outcome A) (h' : list ev) : Prop :=
  view h' = view h /\ forall s, o <> Halted s.

Lemma mknod_quiet path mode major minor h :
  wp R mount_guard (mknod path mode major minor) (quiet h) h.
Proof using Type.
  unfold mknod. wp_norm. split; [done|]. intros [i|e] _; wp_norm; [done|].
  split; [by eexists _, _|]. intros r _. wp_norm. done.
Qed.

Lemma mountProc_quiet h : wp R mount_guard mountProc (quiet h) h.
Proof using Type.
  unfold mountProc. wp_norm. split; [done|].
  assert (forall h', view h' = view h ->
    wp R mount_guard (let! _ := sys (MkdirAll "/proc" (oct 755)) in
                      sys (ForceMount "proc" "/proc" "proc" "")) (quiet h) h') as Hm.
  { intros h' Hv. wp_norm. split; [by left|]. intros [[]|e] _; wp_norm; [|by split].
    split; [by left|]. intros r _. by split. }
  intros [[]|e] _; [wp_norm; done|by apply Hm..].
Qed.

Lemma mountDev_quiet h : wp R mount_guard mountDev (quiet h) h.
Proof using Type.
  unfold mountDev. wp_norm. split; [done|].
  assert (forall h', view h' = view h ->
    wp R mount_guard (let! _ := sys (MkdirAll "/dev" (oct 755)) in
                      sys (ForceMount "none" "/dev" "devtmpfs" "")) (quiet h) h') as Hm.
  { intros h' Hv. wp_norm. split; [by right|]. intros [[]|e] _; wp_norm; [|by split].
    split; [by right|]. intros r _. by split. }
  intros [files|e] _; [|by apply Hm]. destruct (2 <? _)%nat; [wp_norm; done|by apply Hm].
Qed.

Lemma ensureloop_quiet h : wp R mount_guard ensureloop (quiet h) h.
Proof using Type.
  unfold ensureloop. apply wp_bindE, wp_wrapf. eapply wp_mono; [|apply mountProc_quiet].
  intros [[[]|e]|s|] h1 [Hv Hn]; [|by split|by destruct (Hn s)|done].
  apply wp_bindE, wp_wrapf. eapply wp_mono; [|apply mountDev_quiet].
  intros [[[]|e]|s|] h2 [Hv2 Hn2]; [|split; [by rewrite Hv2|done]|by destruct (Hn2 s)|done].
  apply wp_bindE. eapply wp_mono; [|apply mknod_quiet].
  intros [[[]|e]|s|] h3 [Hv3 Hn3]; [|split; [by rewrite Hv3, Hv2|done]|by destruct (Hn3 s)|done].
  eapply (wp_for_each _ _ _ _ (fun _ h' => view h' = view h)).
  - by rewrite Hv3, Hv2.
  - intros h' Hh'. by split.
  - intros i l h' Hh'. eapply wp_mono; [|apply mknod_quiet].
    intros [[[]|e]|s|] h4 [Hv4 Hn4]; [by rewrite Hv4|split; [by rewrite Hv4|done]|by destruct (Hn4 s)|done].
Qed.

Lemma inFile_loop_calls fuel f o found h :
  wp R (fun _ c => match c with FileRead _ _ => True | _ => False end)
    (inFile_loop Self Args0 fuel f o found) (fun _ _ => True) h.
Proof using Type.
  revert o found h. induction fuel as [|fuel IH]; intros o found h; [done|].
  cbn [inFile_loop]. wp_norm. split; [done|]. intros [d [e|]] _; cbn beta iota.
  - by destruct (is_EOF e && _).
  - by destruct (scan_buf (chars d) o found) as [k|[o' f']].
Qed.

Definition inFile_call (c : call) : Prop :=
  match c with Open _ | FileRead _ _ | FileClose _ => True | _ => False end.

Lemma inFile_calls fuel h :
  wp R (fun _ c => inFile_call c) (inFile Self Args0 fuel) (fun _ _ => True) h.
Proof using Type.
  unfold inFile. wp_norm. split; [done|]. intros [f|e] _; wp_norm; [|done].
  apply wp_bind. eapply wp_weaken; [| | |apply inFile_loop_calls]; [done|by intros ? []|].
  intros [r|s|] h' _; cbn; done.
Qed.

(** [findRoot] when the binary has this content. *)
Lemma findRoot_wp fuel h :
  (Z.of_nat (List.length content) < 2 ^ 64)%Z -> (List.length content < fuel)%nat ->
  view h = ([], 0%nat) ->
  wp R mount_guard (findRoot Self Args0 fuel)
    (fun o h' => attached h' = [] /\ match o with
                 | Done (Ok (root, offset)) => offset_ok root offset
                 | Halted _ => False
                 | _ => True
                 end) h.
Proof using Type.
  intros Hlen Hfuel [= Ha Hc]. unfold findRoot. wp_norm. split; [done|]. intros root _.
  destruct (negb (bool_decide (root = ""))); wp_norm; [by split; [|left]|].
  cbn [find_beside]. wp_norm. split; [done|]. intros [i|e] _; wp_norm; [by split; [|left]|].
  split; [done|]. intros [i|e'] _; wp_norm; [by split; [|left]|].
  set (h1 := _ :: _ :: _ :: h).
  assert (attached h1 = []) as Ha1 by exact Ha.
  pose proof (inFile_wp Self Args0 content fuel h1 Hlen Hfuel Hc) as Hin.
  pose proof (wp_frame attached R mount_guard inFile_call (inFile Self Args0 fuel) h1
    ltac:(intros ? [] ? ? ?; done) ltac:(intros ? [] ?; done) (inFile_calls fuel h1)) as Hfr.
  pose proof (wp_conj _ _ _ _ _ _ _ Hin Hfr) as Hboth.
  eapply wp_weaken; [| | |exact Hboth]; [done|by intros ?? [_ ?]|].
  intros o h' [(r & -> & Hr) Hv]. split; [by rewrite Hv|].
  destruct r as [[p k]|err]; [|done]. destruct Hr as (-> & Hk & _). by right.
Qed.

(** From the pid on: it returns the answer of the call that starts enter-root. *)
Lemma start_wp h :
  root_ready h ->
  wp R mount_guard (start_enter_root Args0 (arg0 :: rest)) (quiet h) h.
Proof using Type.
  assert (forall h' e, root_ready h' -> attachment e = None -> root_ready (e :: h')) as Hlater.
  { intros h' e (root & r & Hr & Hd) He. exists root, r. split; [by right|].
    assert (attached (e :: h') = attached h') as Ha by (unfold attached; cbn; by rewrite He).
    destruct Hd as [(i & H1 & H2 & H3)|(dev & off & r' & H1 & H2)]; [left; exists i|right; exists dev, off, r'];
      rewrite Ha; split_and!; try done; by right. }
  intros Hr. unfold start_enter_root. wp_norm. split; [done|]. intros pid _. cbn beta zeta.
  assert (forall h', root_ready h' -> view h' = view h ->
    wp R mount_guard (let* env := sys Environ in sys (ExecNamespaced Args0 ("enter-root" :: rest) env))
      (quiet h) h') as Hchild.
  { intros h' Hr' Hv. wp_norm. split; [done|]. intros env _. split.
    - split_and!; [done|done|left|by apply Hlater].
    - intros r _. by split. }
  destruct (bool_decide (pid = 1%Z)); [|apply Hchild; [by apply Hlater|done]].
  wp_norm. split; [done|]. intros env _. split.
  - split_and!; [done|done|left|by do 2 (apply Hlater; [|done])].
  - intros [[]|e] _; [|by wp_norm]. apply Hchild; [by do 3 (apply Hlater; [|done])|done].
Qed.

(** From the search for the root on. *)
Lemma attach_start_wp fuel h' :
  (Z.of_nat (List.length content) < 2 ^ 64)%Z -> (List.length content < fuel)%nat ->
  view h' = ([], 0%nat) ->
  wp R mount_guard
    (let! '(root, offset) := findRoot Self Args0 fuel in
     let* _ := ignore (sys (Setenv "ENTER_DATA" dataDir)) in
     let* _ := ignore (sys (Setenv "ENTER_ROOT" root)) in
     let! stat := wrapf "failed to find %s: %w" [root] (sys (Stat root)) in
     if fi_IsDir stat then start_enter_root Args0 (arg0 :: rest)
     else
       let! dev := wrapf "creating loopback device: %w" [] (sys (LoopAttach root offset true)) in
       let* _ := ignore (sys (Setenv "ENTER_DEVICE" (ld_path dev))) in
       let* _ := sys (GoAutoclear dev) in
       let* r := start_enter_root Args0 (arg0 :: rest) in
       let* _ := ignore (sys (LoopDetach dev)) in
       Ret r) mount_post h'.
Proof using Type.
  intros Hlen Hfuel Hv'. apply wp_bindE. eapply wp_mono; [|by apply findRoot_wp].
  intros [[[root offset]|e]|s|] h2 [Ha Ho]; try done; [|by left]. wp_norm.
  split; [done|]. intros rd _. split; [done|]. intros rr _. split; [done|].
  intros [i|e] _; wp_norm; [|by left]. destruct (fi_IsDir i) eqn:Hi.
  - eapply wp_mono; [|apply start_wp].
    + intros [r|s|] h3 [Hv3 Hn3]; [|by destruct (Hn3 s)|done]. left. injection Hv3 as ->. exact Ha.
    + exists root, rr. split; [by right; left|]. left. exists i. split_and!; [left|done|exact Ha].
  - wp_norm. split; [split_and!; [done|exact Ha|done|by eexists _, _]|].
    intros [dev|e] _; wp_norm; [|by left]. split; [done|]. intros re _. wp_norm.
    split; [exists root, offset; by rewrite <- Ha|]. intros rg _. apply wp_bind.
    set (h3 := Ev (GoAutoclear dev) _ :: _).
    assert (attached h3 = [(root, offset, dev)]) as Ha3 by (by rewrite <- Ha).
    eapply wp_mono; [|apply (start_wp h3)].
    + intros [r|s|] h4 [Hv4 Hn4]; [|by destruct (Hn4 s)|done]. cbn [bind_post]. wp_norm.
      apply (f_equal fst) in Hv4. change (attached h4 = attached h3) in Hv4. rewrite Ha3 in Hv4. split; [by exists root, offset|]. intros rl _.
      right. eexists root, offset, dev, rl, h4. split; [done|exact Hv4].
    + exists root, rr. split; [repeat first [by left|right]|]. right. exists dev, offset, re.
      split; [done|]. right. left.
Qed.

Lemma isDebug_quiet h : wp R mount_guard (isDebug DebugCmdline cmdlineParser) (quiet h) h.
Proof using Type.
  unfold isDebug. wp_norm. split; [done|]. intros debug _. cbn beta.
  repeat (case_match; [by wp_norm|]). wp_norm. split; [done|]. intros b _. by wp_norm.
Qed.

Lemma Mount_wp fuel :
  (Z.of_nat (List.length content) < 2 ^ 64)%Z -> (List.length content < fuel)%nat ->
  wp R mount_guard (Mount Self Args0 DebugCmdline cmdlineParser fuel dataDir (arg0 :: rest)) mount_post [].
Proof using Type.
  intros Hlen Hfuel. unfold Mount. apply wp_bindE. eapply wp_mono; [|apply ensureloop_quiet].
  intros [[[]|e]|s|] h1 [Hv Hn]; [|by left; injection Hv|by destruct (Hn s)|done].
  apply wp_bind. eapply wp_mono; [|apply isDebug_quiet].
  intros [debug|s|] h2 [Hv2 Hn2]; [|by destruct (Hn2 s)|done]. rewrite Hv in Hv2.
  destruct debug; wp_norm; [split; [done|]; intros r _|]; by apply attach_start_wp.
Qed.
End Mount.

(** ** Properties *)

(** A magic right after its own first byte: the scan falls back to the start of the magic without
    looking at that byte again, and misses it. *)
Example scan_misses : scan_buf (chars "__sqmagic_image") 0 0 = inr (15%Z, 0%nat).
Proof. vm_compute. reflexivity. Qed.

(** C35: [inFile] always ends, whatever pieces the reads of the binary deliver, with as much fuel as
    the binary has bytes, and finds the image in it: an offset it returns follows an occurrence of the
    magic, none later than the first occurrence that is not preceded by a beginning of the magic; when
    it says that there is none, every occurrence is so preceded; any other error is the one that
    opening or reading the file returned.  The offset, a uint64, does not wrap. *)
Theorem inFile_finds_image Self Args0 content fuel h o :
  (Z.of_nat (List.length content) < 2 ^ 64)%Z -> (List.length content < fuel)%nat ->
  exec (file_reads content) (inFile Self Args0 fuel) [] h o -> o <> Running ->
  exists r, o = Done r /\ inFile_result Self Args0 content r h.
Proof.
  intros Hlen Hfuel Hex Ho.
  destruct (wp_sound _ _ _ _ _ _ _ (inFile_wp Self Args0 content fuel [] Hlen Hfuel eq_refl) Hex) as [_ H].
  by apply H.
Qed.

(** C29: entering the root.  In every behaviour of [Enter], cut off anywhere and whatever fails: the
    process pivots only from the data directory, itself a mount, after the image was mounted over its
    usr with success and the path of the binary was read; then the new root is made private, chrooted
    to and made the working directory, in this order and each only after the success of the one
    before; /init is executed only after all of that, with the variables of the entry unset, from the
    binary's path under /.base.  Nothing but the data directory and its links is changed before, and
    any failure ends the process with status 1. *)
Theorem Enter_in_order Self h o :
  exec any_resp (Enter Self) [] h o ->
  guaranteed (Enter_guard Self) [] h /\ (o <> Running -> Enter_post o h).
Proof. apply wp_sound, Enter_wp. Qed.


(** ** Witnesses *)

Definition demo_file : File := {| file_name := "/proc/self/exe"; file_fd := 3 |}.

Lemma inFile_finds_image_witness :
  exists h, exec (file_reads (chars "elf_sqmagic_image")) (inFile "/proc/self/exe" "/init" 18) [] h
              (Done (Ok ("/proc/self/exe", 12%Z))) /\
    follows_magic (chars "elf_sqmagic_image") 12.
Proof.
  assert (exec (file_reads (chars "elf_sqmagic_image")) (inFile "/proc/self/exe" "/init" 18) []
    [Ev (FileClose demo_file) (Ok tt); Ev (FileRead demo_file 8192) ("gic_image", None);
     Ev (FileRead demo_file 8192) ("elf_sqma", None); Ev (Open "/proc/self/exe") (Ok demo_file)]
    (Done (Ok ("/proc/self/exe", 12%Z)))) as H.
  { apply (exec_vis _ (Open "/proc/self/exe") _ (Ok demo_file)); [done|].
    apply (exec_vis _ (FileRead demo_file 8192) _ ("elf_sqma", None)).
    { split_and!; [done|vm_compute; discriminate|by exists (chars "gic_image")]. }
    apply (exec_vis _ (FileRead demo_file 8192) _ ("gic_image", None)).
    { split_and!; [done|vm_compute; discriminate|by exists []]. }
    apply (exec_vis _ (FileClose demo_file) _ (Ok tt)); [done|]. apply exec_ret. }
  assert (Z.of_nat (List.length (chars "elf_sqmagic_image")) < 2 ^ 64)%Z as Hlen by (vm_compute; reflexivity).
  assert (List.length (chars "elf_sqmagic_image") < 18)%nat as Hfuel by (apply Nat.ltb_lt; reflexivity).
  eexists. split; [exact H|].
  destruct (inFile_finds_image "/proc/self/exe" "/init" (chars "elf_sqmagic_image") 18 _ _
    Hlen Hfuel H ltac:(discriminate))
    as (r & Hr & Hres).
  injection Hr as <-. exact (proj1 (proj2 Hres)).
Defined.

(** A machine whose data directory is not yet a mount, with the image on a loop device. *)
Definition entering (c : call) : option (resp c) :=
  match c return option (resp c) with
  | Getenv "ENTER_DATA" => Some "/data"
  | Getenv "ENTER_ROOT" => Some "/k3os.squashfs"
  | Getenv "ENTER_DEVICE" => Some "/dev/loop0"
  | Readlink _ => Some (Ok "/k3os/system/k3os/current/k3os")
  | Lstat p => Some (Err (ErrSys "lstat" p ENOENT))
  | _ => None
  end.

Lemma Enter_in_order_witness :
  let h := history entering (Enter "/proc/self/exe") in
  guaranteed (Enter_guard "/proc/self/exe") [] h /\
  (exists older, h = Ev (SysExec "/.base/k3os/system/k3os/current/k3os" ["/init"] []) (Ok tt) :: older) /\
  Ev (OS.Mount "/dev/loop0" "/data/usr" "squashfs" "ro") (Ok tt) ∈ h.
Proof.
  split; [exact (proj1 (Enter_in_order "/proc/self/exe" _ _ (world_exec entering (Enter "/proc/self/exe"))))|].
  vm_compute. split; [by eexists|]. repeat first [by left|right].
Defined.

(** A machine with the image in a file beside the binary. *)
Definition image_beside (c : call) : option (resp c) :=
  match c return option (resp c) with
  | ReadDir _ => Some (Err (ErrSys "open" "/dev" ENOENT))
  | FileRead _ _ => Some ("", Some EOF)
  | Getpid => Some 1%Z
  | SysExec p _ _ => Some (Err (ErrSys "exec" p ENOENT))
  | _ => None
  end.

Lemma image_beside_reads h c : file_reads [] h c (default (all_ok c) (image_beside c)).
Proof. destruct c; try done. split; [done|]. intros _. apply drop_nil. Qed.

