(* ===== verification/Upgrade.v ===== *)
(** * Upgrade: package [internal/cli/upgrade], the upgrade of the components under a lock.

    The command line library fills [upgradeOpts] from flags and environment; what the command checks
    before it runs is [Before]. *)

From S2P Require Import Prelude GoStrings GoPath Effects OS System Component.
Open Scope string_scope.
Open Scope list_scope.
Open Scope go_scope.

Record upgradeOpts := {
  upgradeK3OS : bool;
  upgradeK3S : bool;
  upgradeKernel : bool;
  upgradeRootFS : bool;
  doRemount : bool;
  doSync : bool;
  doReboot : bool;
  sourceDir : string;
  destinationDir : string;
  lockFile : string;
}.

(** [os.O_RDWR|os.O_CREATE|os.O_TRUNC], and the operations of [flock]. *)
Definition lock_flags : Z := Z.lor 2 (Z.lor 64 512).
Definition LOCK_EX_NB : Z := Z.lor 2 4.
Definition LOCK_UN : Z := 8.

(** The check before the command: the options it leaves, or why it does not run. *)
Definition Before (opts : upgradeOpts) : result upgradeOpts :=
  if bool_decide (destinationDir opts = sourceDir opts)
  then Err (Errorf "the `destination` cannot be the `source`: %s" [destinationDir opts])
  else
    let opts := if upgradeRootFS opts
                then {| upgradeK3OS := true; upgradeK3S := true; upgradeKernel := upgradeKernel opts;
                        upgradeRootFS := upgradeRootFS opts; doRemount := doRemount opts;
                        doSync := doSync opts; doReboot := doReboot opts; sourceDir := sourceDir opts;
                        destinationDir := destinationDir opts; lockFile := lockFile opts |}
                else opts in
    if negb (upgradeK3OS opts) && negb (upgradeK3S opts) && negb (upgradeKernel opts)
    then Err (Errorf "must specify components to upgrade, e.g. `rootfs`, `kernel`" [])
    else Ok opts.

Definition validateSystemRoot (root : string) : M unit :=
  let! info := sys (Stat root) in
  if fi_IsDir info then ret tt else fail (Errorf "stat %s: not a directory" [root]).

Section Run.
Context (opts : upgradeOpts).

(** One component; the state is [opts.doRemount] and [atLeastOneComponentCopied].  A failure is
    logged and leaves both. *)
Definition upgrade_component (chosen : bool) (key : string) (st : bool * bool) : io (bool * bool) :=
  let '(remount, atLeastOne) := st in
  if chosen then
    let* r := CopyComponent (sourceDir opts) (destinationDir opts) remount key in
    Ret (match r with
         | Err _ => (remount, atLeastOne)
         | Ok copied => if copied : bool then (false, true) else (remount, atLeastOne)
         end)
  else Ret (remount, atLeastOne).

(** The reboot of the host; without nsenter the destination's root is entered first. *)
Definition reboot : M unit :=
  let* found := sys (LookPath "nsenter") in
  let! _ :=
    if is_ok found || bool_decide (destinationDir opts = RootPath []) then ret tt
    else
      let root := path_Clean (path_Join [destinationDir opts; ".."; ".."]) in
      let! _ := sys (SysChroot root) in
      sys (Chdir "/") in
  sys (ExecRun "nsenter" ["-m"; "-u"; "-i"; "-n"; "-p"; "-t"; "1"; "reboot"]).

(** What is done while the lock is held. *)
Definition upgrade_locked : M unit :=
  let* st := upgrade_component (upgradeK3OS opts) "k3os" (doRemount opts, false) in
  let* st := upgrade_component (upgradeK3S opts) "k3s" st in
  let* '(_, atLeastOne) := upgrade_component (upgradeKernel opts) "kernel" st in
  let* _ := if atLeastOne && doSync opts then sys SysSyncAll else Ret tt in
  if atLeastOne && doReboot opts then reboot else ret tt.

Definition Run : M unit :=
  let! _ := validateSystemRoot (sourceDir opts) in
  let! _ := validateSystemRoot (destinationDir opts) in
  let! lf := sys (OpenFile (lockFile opts) lock_flags (oct 644)) in
  let* r :=
    (let! _ := sys (SysFlock (file_fd lf) LOCK_EX_NB) in
     let* r := upgrade_locked in
     let* _ := ignore (sys (SysFlock (file_fd lf) LOCK_UN)) in
     Ret r) in
  let* _ := ignore (sys (FileClose lf)) in
  Ret r.
End Run.

(** ** What happens under the lock *)

Section Locked.
Context (opts : upgradeOpts).

(** The locking so far, newest first. *)
Definition flock_of (e : ev) : option (Z * Z * result unit) :=
  match ev_call e as c return resp c -> option (Z * Z * result unit) with
  | SysFlock fd op => fun r => Some (fd, op, r)
  | _ => fun _ => None
  end (ev_resp e).
Definition flocks (h : list ev) : list (Z * Z * result unit) := omap flock_of h.

Definition locked (h : list ev) : Prop := exists fd, flocks h = [(fd, LOCK_EX_NB, Ok tt)].

(** The components asked for. *)
Definition chosen (key : string) : Prop :=
  (key = "k3os" /\ upgradeK3OS opts = true) \/ (key = "k3s" /\ upgradeK3S opts = true) \/
  (key = "kernel" /\ upgradeKernel opts = true).

(** A component asked for was switched to a new version. *)
Definition some_copied (h : list ev) : Prop :=
  exists key, chosen key /\ switched (destinationDir opts) key h.

Definition may_reboot (h : list ev) : Prop :=
  doReboot opts = true /\ some_copied h /\ (doSync opts = true -> Ev SysSyncAll tt ∈ h).

(** A step of copying a component asked for. *)
Definition copy_step (h : list ev) (c : call) : Prop :=
  exists key rm, chosen key /\ (rm = true -> doRemount opts = true) /\
    copy_guard (sourceDir opts) (destinationDir opts) key rm h c.

Definition locked_guard : @guar call resp := fun h c =>
  match c with
  | SysFlock _ _ => False
  | SysSyncAll => doSync opts = true /\ some_copied h
  | LookPath _ => may_reboot h
  | SysChroot p => may_reboot h /\ destinationDir opts <> RootPath [] /\
      p = path_Clean (path_Join [destinationDir opts; ".."; ".."])
  | Chdir p => may_reboot h /\ p = "/"
  | ExecRun name args => may_reboot h /\ name = "nsenter" /\
      args = ["-m"; "-u"; "-i"; "-n"; "-p"; "-t"; "1"; "reboot"]
  | c => copy_step h c
  end.

Definition upgrade_guard : @guar call resp := fun h c =>
  match c with
  | OpenFile n f p => n = lockFile opts /\ f = lock_flags /\ p = oct 644
  | SysFlock fd op => (op = LOCK_EX_NB /\ flocks h = []) \/
                      (op = LOCK_UN /\ flocks h = [(fd, LOCK_EX_NB, Ok tt)])
  | FileClose _ => ~ locked h
  | Stat p => flocks h = [] \/ locked h
  | c => locked h /\ locked_guard h c
  end.

(** An error of the reboot. *)
Definition reboot_error (e : error) (h : list ev) : Prop :=
  (exists p, Ev (SysChroot p) (Err e) ∈ h) \/ (exists p, Ev (Chdir p) (Err e) ∈ h) \/
  (exists n a, Ev (ExecRun n a) (Err e) ∈ h).

Definition upgrade_post (o : outcome (result unit)) (h : list ev) : Prop :=
  match o with
  | Done r => (flocks h = [] /\ is_ok r = false) \/
      (exists fd e, flocks h = [(fd, LOCK_EX_NB, Err e)] /\ r = Err e) \/
      (exists fd u, flocks h = [(fd, LOCK_UN, u); (fd, LOCK_EX_NB, Ok tt)] /\
         match r with Ok _ => True | Err e => reboot_error e h end)
  | Halted _ => False
  | Running => True
  end.

Lemma some_copied_incl h h' : (forall e, e ∈ h -> e ∈ h') -> some_copied h -> some_copied h'.
Proof using Type. intros Hi (key & Hk & Hs). exists key. split; [done|]. by apply Hi. Qed.

(** Between two components: at least one was copied if the flag says so. *)
Definition copied_state (st : bool * bool) (h : list ev) : Prop :=
  (st.1 = true -> doRemount opts = true) /\ (st.2 = true -> some_copied h).

Lemma component_wp b key st h :
  (b = true -> chosen key) -> copied_state st h ->
  wp any_resp locked_guard (upgrade_component opts b key st)
    (fun o h' => match o with Done st' => copied_state st' h' | Halted _ => False | _ => True end) h.
Proof using Type.
  intros Hb [Hrm Hst]. unfold upgrade_component. destruct st as [rm one]. destruct b; [|done].
  specialize (Hb eq_refl). apply wp_bind.
  assert (forall e h, (one = true -> some_copied h) -> one = true -> some_copied (e :: h)) as Hmono.
  { intros e h' Hh' Ho. eapply some_copied_incl; [by right|auto]. }
  eapply wp_weaken; [| | |apply (wp_always any_resp (copy_guard (sourceDir opts) (destinationDir opts) key rm)
    (CopyComponent (sourceDir opts) (destinationDir opts) rm key) _ (fun h => one = true -> some_copied h) h Hmono Hst
    (CopyComponent_wp _ _ _ _ h))]; [done| |].
  - intros h' c [Hg _].
    assert (copy_step h' c) as Hc by (by exists key, rm).
    destruct c; try exact Hc; by destruct Hg as (i & _ & ?).
  - intros [[[]|e]|s|] h' [Hp Hh']; cbn [bind_post copy_post wp] in *; try done.
    split; [done|]. intros _. by exists key.
Qed.

Definition locked_post (o : outcome (result unit)) (h : list ev) : Prop :=
  match o with
  | Done (Err e) => reboot_error e h
  | Halted _ => False
  | _ => True
  end.

Lemma may_reboot_later e h : may_reboot h -> may_reboot (e :: h).
Proof using Type.
  intros (Hr & Hc & Hs). split_and!; [done|eapply some_copied_incl; [by right|done]|].
  intros H. right. auto.
Qed.

Lemma reboot_wp h :
  may_reboot h -> wp any_resp locked_guard (reboot opts) locked_post h.
Proof using Type.
  intros Hr. unfold reboot. wp_norm. split; [done|]. intros found _. wp_norm.
  assert (forall h', may_reboot h' -> wp any_resp locked_guard
    (sys (ExecRun "nsenter" ["-m"; "-u"; "-i"; "-n"; "-p"; "-t"; "1"; "reboot"])) locked_post h') as Hexec.
  { intros h' H'. wp_norm. split; [done|]. intros [[]|e] _; wp_norm; [done|].
    right. right. by eexists _, _; left. }
  destruct (is_ok found); cbn [orb]; [by apply Hexec, may_reboot_later|].
  case_bool_decide as Hd; [by apply Hexec, may_reboot_later|]. wp_norm.
  split; [split_and!; [by apply may_reboot_later|done|done]|]. intros [[]|e] _; wp_norm.
  - split; [split; [by do 2 apply may_reboot_later|done]|]. intros [[]|e] _.
    + by apply Hexec; do 3 apply may_reboot_later.
    + right. left. eexists. left.
  - left. eexists. left.
Qed.

Lemma upgrade_locked_wp h : wp any_resp locked_guard (upgrade_locked opts) locked_post h.
Proof using Type.
  unfold upgrade_locked. apply wp_bind. eapply wp_mono; [|apply component_wp; [by left|done]].
  intros [st1|s|] h1 H1; [|done|done]. apply wp_bind.
  eapply wp_mono; [|apply component_wp; [by right; left|exact H1]].
  intros [st2|s|] h2 H2; [|done|done]. apply wp_bind.
  eapply wp_mono; [|apply component_wp; [by right; right|exact H2]].
  intros [[rm one]|s|] h3 H3; [|done|done]. destruct H3 as [_ H3]. cbn [bind_post]. cbn [snd] in H3.
  destruct one; cbn [andb]; [|by wp_norm].
  assert (forall h', some_copied h' -> (doSync opts = true -> Ev SysSyncAll tt ∈ h') ->
    wp any_resp locked_guard (if doReboot opts then reboot opts else ret tt) locked_post h') as Hend.
  { intros h' Hc Hs. destruct (doReboot opts) eqn:Hr; [|done]. by apply reboot_wp. }
  specialize (H3 eq_refl). destruct (doSync opts) eqn:Hsync; wp_norm.
  - split; [done|]. intros [] _. apply Hend; [|by left]. eapply some_copied_incl; [by right|done].
  - by apply Hend.
Qed.

Lemma locked_guard_no_flock h c r : locked_guard h c -> flocks (Ev c r :: h) = flocks h.
Proof using Type. by destruct c. Qed.

(** With the lock held. *)
Lemma upgrade_held_wp fd h :
  flocks h = [(fd, LOCK_EX_NB, Ok tt)] ->
  wp any_resp upgrade_guard (upgrade_locked opts)
    (fun o h' => locked_post o h' /\ flocks h' = [(fd, LOCK_EX_NB, Ok tt)]) h.
Proof using Type.
  intros Hh. eapply wp_weaken; [| | |apply (wp_keep flocks any_resp locked_guard _ locked_post h);
    [exact locked_guard_no_flock|apply upgrade_locked_wp]]; [done| |].
  - intros h' c [Hg Hk]. assert (locked h') as Hl by (exists fd; by rewrite Hk).
    destruct c; first [done|by split|by right|by destruct Hg as (key & rm & _ & _ & i & _ & Hi)].
  - intros o h' [Ho Hk]. by rewrite Hk.
Qed.

Lemma validate_wp root h :
  flocks h = [] ->
  wp any_resp upgrade_guard (validateSystemRoot root)
    (fun o h' => flocks h' = [] /\ forall s, o <> Halted s) h.
Proof using Type.
  intros Hh. unfold validateSystemRoot. wp_norm. split; [by left|]. intros [i|e] _; wp_norm; [|done].
  by destruct (fi_IsDir i).
Qed.

Lemma Upgrade_Run_wp : wp any_resp upgrade_guard (Run opts) upgrade_post [].
Proof using Type.
  unfold Run. apply wp_bindE. eapply wp_mono; [|by apply validate_wp].
  intros [[[]|e]|s|] h1 [H1 Hn]; [|by left|by destruct (Hn s)|done].
  apply wp_bindE. eapply wp_mono; [|by apply validate_wp].
  intros [[[]|e]|s|] h2 [H2 Hn2]; [|by left|by destruct (Hn2 s)|done].
  wp_norm. split; [done|]. intros [lf|e] _; wp_norm; [|by left].
  split; [by left|]. intros [[]|e] _; wp_norm.
  - apply wp_bind, wp_bind. set (h3 := _ :: _ :: h2).
    assert (flocks h3 = [(file_fd lf, LOCK_EX_NB, Ok tt)]) as H3 by (by rewrite <- H2).
    eapply wp_mono; [|apply (upgrade_held_wp _ h3 H3)].
    intros [r|s|] h4 [Ho H4]; [|done|done]. cbn [bind_post]. wp_norm.
    split; [by right|]. intros u _. wp_norm.
    assert (flocks (Ev (SysFlock (file_fd lf) LOCK_UN) u :: h4) =
      [(file_fd lf, LOCK_UN, u); (file_fd lf, LOCK_EX_NB, Ok tt)]) as H5 by (by rewrite <- H4).
    split; [intros (fd & Hfd); by rewrite H5 in Hfd|]. intros cl _. right. right.
    exists (file_fd lf), u. split; [exact H5|]. destruct r as [[]|e]; [done|].
    destruct Ho as [(p & Hp)|[(p & Hp)|(n & a & Hp)]]; [left; exists p|right; left; exists p|right; right; exists n, a];
      by do 2 right.
  - split; [intros (fd & Hfd); by rewrite <- H2 in Hfd|]. intros cl _. right. left.
    exists (file_fd lf), e. split; [|done]. by rewrite <- H2.
Qed.
End Locked.

(** ** Properties *)

(** C31: an upgrade is exclusive.  In every behaviour of [Run], cut off anywhere and whatever fails:
    apart from looking at the two roots and opening the lock file, everything is done while this
    process holds the lock, which it asked for without waiting; what is done is copying the components
    asked for (remounting only if told to), then a sync, only if one was switched to a new version,
    then a reboot, only if one was and after the sync that was asked for.  The lock is always released
    before its file is closed; the failure of a component is no error of the upgrade: with the lock
    held, it returns only errors of the reboot. *)
Theorem Upgrade_Run_exclusive opts h o :
  exec any_resp (Run opts) [] h o ->
  guaranteed (upgrade_guard opts) [] h /\ (o <> Running -> upgrade_post o h).
Proof. apply wp_sound, Upgrade_Run_wp. Qed.

(** What the command lets through: two different roots and at least one component, both parts of the
    root file system if it was asked for. *)
Lemma Before_ok opts opts' :
  Before opts = Ok opts' ->
  destinationDir opts' <> sourceDir opts' /\ (exists key, chosen opts' key) /\
  (upgradeRootFS opts = true -> chosen opts' "k3os" /\ chosen opts' "k3s").
Proof.
  unfold Before. case_bool_decide as Hd; [done|].
  destruct opts as [a b c d e f g src dst lock]; cbn in *.
  destruct d; cbn.
  - intros [= <-]; cbn. split_and!; [done|by exists "k3os"; left|]. intros _. split; [by left|by right; left].
  - destruct a, b, c; cbn; intros [= <-]; cbn; (split_and!; [done| |done]).
    all: first [by exists "k3os"; left|by exists "k3s"; right; left|by exists "kernel"; right; right].
Qed.

(** ** Witness *)

Definition demo_opts : upgradeOpts :=
  {| upgradeK3OS := false; upgradeK3S := true; upgradeKernel := false; upgradeRootFS := false;
     doRemount := true; doSync := true; doReboot := true; sourceDir := "/src";
     destinationDir := "/dst"; lockFile := "/run/k3os/upgrade.lock" |}.

(** Both roots are directories; nsenter is missing. *)
Definition upgrading (c : call) : option (resp c) :=
  match c return option (resp c) with
  | LookPath n => Some (Err (ErrSys "exec" n ENOENT))
  | Stat "/src" | Stat "/dst" => Some (Ok {| fi_name := ""; fi_mode := ModeDir |})
  | c => two_roots c
  end.

Lemma Upgrade_Run_exclusive_witness :
  let h := history upgrading (Run demo_opts) in
  guaranteed (upgrade_guard demo_opts) [] h /\ upgrade_post (final upgrading (Run demo_opts)) h /\
  switched "/dst" "k3s" h /\
  Ev (ExecRun "nsenter" ["-m"; "-u"; "-i"; "-n"; "-p"; "-t"; "1"; "reboot"]) (Ok tt) ∈ h.
Proof.
  destruct (Upgrade_Run_exclusive demo_opts _ _ (world_exec upgrading (Run demo_opts))) as [Hg Hp].
  split; [exact Hg|]. split; [by apply Hp|]. vm_compute. split; repeat first [by left|right].
Defined.
