(* ===== verification/GoMatch.v ===== *)
(** * GoMatch: [path.Match], the shell patterns in which the kernel writes the aliases of modules. *)

From S2P Require Import Prelude GoStrings GoPath.
Open Scope string_scope.
Open Scope list_scope.

Definition ErrBadPattern : error := ErrText "syntax error in pattern".

(** What matching a chunk against the start of a text gives: the pattern is malformed, it does not
    match, or it does and leaves a rest. *)
Inductive chunk_match := MBad | MFail | MOk (rest : list ascii).

(** [utf8.DecodeRuneInString]: the rune and its width. *)
Definition decode_rune (l : list ascii) : Z * nat :=
  match runes (of_chars l) with
  | (r, b) :: _ => (r, String.length b)
  | [] => (rune_error, 0%nat)
  end.

(** [scanChunk]: leading stars, then everything up to a star outside brackets. *)
Fixpoint drop_stars (p : list ascii) (star : bool) : bool * list ascii :=
  match p with
  | c :: p' => if Ascii.eqb c "*" then drop_stars p' true else (star, p)
  | [] => (star, p)
  end.
Fixpoint scan_chunk (p : list ascii) (inrange skip : bool) : list ascii * list ascii :=
  match p with
  | [] => ([], [])
  | c :: p' =>
      let go inrange skip := let '(chunk, rest) := scan_chunk p' inrange skip in (c :: chunk, rest) in
      if skip then go inrange false
      else if Ascii.eqb c "\" then go inrange true
      else if Ascii.eqb c "[" then go true false
      else if Ascii.eqb c "]" then go false false
      else if Ascii.eqb c "*" && negb inrange then ([], p)
      else go inrange false
  end.
Definition scanChunk (p : list ascii) : bool * list ascii * list ascii :=
  let '(star, p) := drop_stars p false in
  let '(chunk, rest) := scan_chunk p false false in (star, chunk, rest).

(** [getEsc]: one possibly escaped rune of a class; something must follow it. *)
Definition getEsc (chunk : list ascii) : option (Z * list ascii) :=
  match chunk with
  | [] => None
  | c :: chunk' =>
      if Ascii.eqb c "-" || Ascii.eqb c "]" then None
      else
        let chunk := if Ascii.eqb c "\" then chunk' else chunk in
        let '(r, n) := decode_rune chunk in
        if (r =? rune_error)%Z && (n =? 1)%nat then None
        else match drop n chunk with
             | [] => None
             | _ :: _ => if (n =? 0)%nat then None else Some (r, drop n chunk)
             end
  end.

(** The ranges of a class up to its bracket: whether one holds the rune, and what follows.  Each
    pass takes at least one byte, so the length of the chunk is enough fuel. *)
Fixpoint match_class (fuel : nat) (chunk : list ascii) (r : Z) (mt : bool) (nrange : nat)
  : option (bool * list ascii) :=
  match fuel with
  | O => None
  | S fuel =>
      match chunk with
      | "]"%char :: rest =>
          if (0 <? nrange)%nat then Some (mt, rest)
          else None
      | _ =>
          match getEsc chunk with
          | None => None
          | Some (lo, chunk) =>
              let range hi chunk :=
                match_class fuel chunk r (mt || ((lo <=? r)%Z && (r <=? hi)%Z)) (S nrange) in
              match chunk with
              | "-"%char :: chunk' =>
                  match getEsc chunk' with
                  | None => None
                  | Some (hi, chunk) => range hi chunk
                  end
              | _ => range lo chunk
              end
          end
      end
  end.

(** [matchChunk]; after a failure the chunk is only checked. *)
Fixpoint match_chunk (fuel : nat) (chunk s : list ascii) (failed : bool) : chunk_match :=
  match fuel with
  | O => MBad
  | S fuel =>
      match chunk with
      | [] => if failed then MFail else MOk s
      | c :: chunk' =>
          let failed := failed || match s with [] => true | _ => false end in
          if Ascii.eqb c "[" then
            let '(r, n) := if failed then (0%Z, 0%nat) else decode_rune s in
            let '(negated, chunk) :=
              match chunk' with "^"%char :: l => (true, l) | _ => (false, chunk') end in
            match match_class (S (List.length chunk)) chunk r false 0 with
            | None => MBad
            | Some (mt, chunk) => match_chunk fuel chunk (drop n s) (failed || Bool.eqb mt negated)
            end
          else if Ascii.eqb c "?" then
            if failed then match_chunk fuel chunk' s true
            else match_chunk fuel chunk' (drop (snd (decode_rune s)) s)
                   (match s with d :: _ => Ascii.eqb d "/" | [] => true end)
          else
            let lit d chunk :=
              if failed then match_chunk fuel chunk s true
              else match s with
                   | [] => match_chunk fuel chunk s true
                   | x :: s' => match_chunk fuel chunk s' (negb (Ascii.eqb d x))
                   end in
            if Ascii.eqb c "\" then
              match chunk' with [] => MBad | d :: chunk'' => lit d chunk'' end
            else lit c chunk'
      end
  end.
Definition matchChunk (chunk s : list ascii) : chunk_match :=
  match_chunk (S (List.length chunk)) chunk s false.

(** After a star: the first place where the chunk matches, not past a slash; the last chunk has to
    match up to the end. *)
Fixpoint match_star (chunk : list ascii) (last : bool) (name : list ascii) : chunk_match :=
  match name with
  | [] => MFail
  | c :: name' =>
      if Ascii.eqb c "/" then MFail
      else match matchChunk chunk name' with
           | MOk t => if last && match t with [] => false | _ => true end
                      then match_star chunk last name' else MOk t
           | MBad => MBad
           | MFail => match_star chunk last name'
           end
  end.

Fixpoint check_rest (fuel : nat) (pattern : list ascii) : result bool :=
  match fuel with
  | O => Ok false
  | S fuel =>
      match pattern with
      | [] => Ok false
      | _ =>
          let '(_, chunk, pattern) := scanChunk pattern in
          match matchChunk chunk [] with
          | MBad => Err ErrBadPattern
          | _ => check_rest fuel pattern
          end
      end
  end.

(** Every pass takes a star or a byte of the pattern, so its length is enough fuel. *)
Fixpoint match_go (fuel : nat) (pattern name : list ascii) : result bool :=
  match pattern, fuel with
  | [], _ => Ok (match name with [] => true | _ => false end)
  | _, O => Ok false
  | _, S fuel =>
      let '(star, chunk, pattern) := scanChunk pattern in
      let last := match pattern with [] => true | _ => false end in
      if star && match chunk with [] => true | _ => false end
      then Ok (negb (existsb (fun c => Ascii.eqb c "/") name))
      else
        let after :=
          if star then
            match match_star chunk last name with
            | MOk t => match_go fuel pattern t
            | MBad => Err ErrBadPattern
            | MFail => check_rest fuel pattern
            end
          else check_rest fuel pattern in
        match matchChunk chunk name with
        | MOk t =>
            if match t with [] => true | _ => negb last end then match_go fuel pattern t
            else after
        | MBad => Err ErrBadPattern
        | MFail => after
        end
  end.

Definition path_Match (pattern name : string) : result bool :=
  match_go (String.length pattern) (chars pattern) (chars name).

Example match_1 : path_Match "pci:v00008086d*sv*sd*bc*sc*i*" "pci:v00008086d0000100Esv0sd0bc02sc00i00" = Ok true.
Proof. vm_compute. reflexivity. Qed.
Example match_2 : path_Match "usb:v*[0-9a-f]?i\*" "usb:v12ab3i*" = Ok true.
Proof. vm_compute. reflexivity. Qed.
Example match_3 : path_Match "a[b" "ab" = Err ErrBadPattern.
Proof. vm_compute. reflexivity. Qed.
Example match_4 : path_Match "*b" "a/b" = Ok false.
Proof. vm_compute. reflexivity. Qed.

(** ** Patterns without special characters *)

Definition plain_char (c : ascii) : bool :=
  negb (Ascii.eqb c "*" || Ascii.eqb c "?" || Ascii.eqb c "[" || Ascii.eqb c "]" || Ascii.eqb c "\").

(** No character is special: such a pattern matches itself and nothing else. *)
Lemma scan_plain p : Forall (fun c => plain_char c = true) p -> scan_chunk p false false = (p, []).
Proof.
  induction 1 as [|c p Hc _ IH]; [done|]. cbn [scan_chunk]. unfold plain_char in Hc.
  rewrite !negb_orb, !andb_true_iff, !negb_true_iff in Hc. destruct Hc as ((((H1 & H2) & H3) & H4) & H5).
  by rewrite H1, H3, H4, H5, IH.
Qed.

Lemma chunk_plain fuel p s failed :
  Forall (fun c => plain_char c = true) p -> (List.length p < fuel)%nat ->
  match_chunk fuel p s failed =
  if failed then MFail
  else if bool_decide (p `prefix_of` s) then MOk (drop (List.length p) s) else MFail.
Proof.
  revert p s failed. induction fuel as [|fuel IH]; intros p s failed Hp Hlen; [lia|].
  destruct Hp as [|c p Hc Hp].
  - cbn [match_chunk]. rewrite bool_decide_true by apply prefix_nil. done.
  - cbn [match_chunk List.length] in *. unfold plain_char in Hc.
    rewrite !negb_orb, !andb_true_iff, !negb_true_iff in Hc. destruct Hc as ((((H1 & H2) & H3) & H4) & H5).
    rewrite H2, H3, H5. destruct failed; cbn [orb]; [by rewrite IH by (done || lia)|].
    destruct s as [|x s]; [by rewrite IH, bool_decide_false by (first [done|lia|apply prefix_nil_not])|].
    rewrite IH by (done || lia). destruct (Ascii.eqb_spec c x) as [->|Hne]; cbn [negb].
    + by rewrite (bool_decide_ext _ _ (conj (prefix_cons_inv_2 x x p s) (prefix_cons x p s))).
    + rewrite bool_decide_false; [done|]. intros Hpre. by apply prefix_cons_inv_1 in Hpre.
Qed.

Lemma scanChunk_plain p :
  Forall (fun c => plain_char c = true) p -> scanChunk p = (false, p, []).
Proof.
  intros Hp. unfold scanChunk. assert (drop_stars p false = (false, p)) as ->.
  { destruct Hp as [|c p Hc _]; [done|]. cbn [drop_stars]. by destruct (Ascii.eqb_spec c "*") as [->|]. }
  by rewrite scan_plain.
Qed.

Lemma Match_plain p s :
  Forall (fun c => plain_char c = true) (chars p) -> path_Match p s = Ok (bool_decide (p = s)).
Proof.
  intros Hp. unfold path_Match.
  assert (bool_decide (p = s) = bool_decide (chars p = chars s)) as ->.
  { apply bool_decide_ext. split; [by intros ->|apply chars_inj]. }
  destruct p as [|c p]; [by destruct s|]. cbn [String.length match_go].
  change (match chars (String c p) with [] => _ | _ => ?x end) with x.
  rewrite scanChunk_plain by done. cbn [andb]. unfold matchChunk.
  rewrite chunk_plain by (done || lia). case_bool_decide as Hpre.
  - destruct Hpre as [rest Hs]. rewrite Hs, drop_app_length. destruct rest as [|x rest].
    + rewrite app_nil_r, bool_decide_true by done. by destruct (String.length p).
    + rewrite bool_decide_false; [by destruct (String.length p)|].
      intros H. apply (f_equal List.length) in H. rewrite length_app in H. cbn in H. lia.
  - rewrite bool_decide_false; [by destruct (String.length p)|]. intros Heq. apply Hpre. by rewrite Heq.
Qed.
