(* ===== verification/Modalias.v ===== *)
(** * Modalias: packages [internal/modalias] and [internal/kernel], the module that drives a device.

    [ModprobeLoad] is the call of the third-party [modprobe.Load]; [Uname] answers the release that
    [unix.ByteSliceToString] reads from the system call's structure. *)

From S2P Require Import Prelude GoStrings GoPath GoMatch Effects OS.
Open Scope string_scope.
Open Scope list_scope.
Open Scope go_scope.

Definition GetKernelVersion : M string := sys Uname.

(** [ModuleAliases]: alias patterns to module names. *)
Abbreviation ModuleAliases := (gmap string string).

Definition getAliasesFile : M string :=
  let! kernelVersion := wrapf "failed to get kernel version: %w" [] GetKernelVersion in
  let kernelDir := "/lib/modules/" +:+ kernelVersion in
  let* st := sys (Stat kernelDir) in
  if match st with Err e => errors_Is_NotExist e | Ok _ => false end
  then fail (Errorf "%s not found" [kernelDir])
  else ret (path_Join [kernelDir; "modules.alias"]).

(** One line of the table: "alias PATTERN MODULE"; a later line overrides. *)
Definition parse_alias (table : ModuleAliases) (line : string) : ModuleAliases :=
  let line := strings_TrimSpace line in
  if negb (strings_HasPrefix line "alias ") then table
  else match strings_Fields line with
       | _ :: aliasPattern :: moduleName :: _ => <[aliasPattern := moduleName]> table
       | _ => table
       end.

Definition Init : M ModuleAliases :=
  let! filename := getAliasesFile in
  let* st := sys (Stat filename) in
  if match st with Err e => errors_Is_NotExist e | Ok _ => false end then ret ∅
  else
    let! file := wrapf "could not open file: %w" [] (sys (Open filename)) in
    let* '(content, rerr) := sys (FileReadAll file) in
    let '(lines, err) := bufio_Scan content rerr in
    let* _ := ignore (sys (FileClose file)) in
    match err with
    | Some e => fail (Errorf_w "error reading file: %w" [] e)
    | None => ret (foldl parse_alias ∅ lines)
    end.

(** The first pattern, in the order the map is visited, that matches; a bad pattern is skipped. *)
Fixpoint lookup_go (mod_ : ModuleAliases) (patterns : list string) (name : string) : string :=
  match patterns with
  | [] => name
  | pattern :: patterns' =>
      match path_Match pattern name with
      | Ok true => default "" (mod_ !! pattern)
      | _ => lookup_go mod_ patterns' name
      end
  end.

Definition Lookup (mod_ : ModuleAliases) (name : string) : io string :=
  let* patterns := range_order (map fst (map_to_list mod_)) in
  Ret (lookup_go mod_ patterns name).

Definition Load (mod_ : ModuleAliases) (alias : string) : M unit :=
  let* name := Lookup mod_ alias in
  sys (ModprobeLoad name "").

(** ** Looking up *)

(** The name stands for itself or for the module of a pattern that matches it. *)
Definition resolves (mod_ : ModuleAliases) (name m : string) : Prop :=
  (exists pattern, mod_ !! pattern = Some m /\ path_Match pattern name = Ok true) \/
  (m = name /\ forall pattern m', mod_ !! pattern = Some m' -> path_Match pattern name <> Ok true).

Lemma lookup_resolves mod_ patterns name :
  (forall p, p ∈ patterns -> is_Some (mod_ !! p)) ->
  (exists pattern m, mod_ !! pattern = Some m /\ path_Match pattern name = Ok true /\
     lookup_go mod_ patterns name = m) \/
  (lookup_go mod_ patterns name = name /\
   forall p, p ∈ patterns -> path_Match p name <> Ok true).
Proof.
  induction patterns as [|p ps IH]; intros Hin; cbn [lookup_go].
  - right. split; [done|]. intros p Hp. by apply elem_of_nil in Hp.
  - destruct (path_Match p name) as [[]|e] eqn:Hm.
    + left. destruct (Hin p ltac:(left)) as [m Hp]. exists p, m. by rewrite Hp.
    + destruct IH as [H|[H Hno]]; [intros q Hq; apply Hin; by right|by left|].
      right. split; [done|]. intros q [->|Hq]%elem_of_cons; [by rewrite Hm|by apply Hno].
    + destruct IH as [H|[H Hno]]; [intros q Hq; apply Hin; by right|by left|].
      right. split; [done|]. intros q [->|Hq]%elem_of_cons; [by rewrite Hm|by apply Hno].
Qed.

Lemma keys_lookup (mod_ : ModuleAliases) (o : list string) :
  o ≡ₚ map fst (map_to_list mod_) -> forall p, p ∈ o <-> is_Some (mod_ !! p).
Proof.
  intros Ho p. rewrite Ho. split.
  - intros ([q m] & -> & Hq)%list_elem_of_fmap. apply elem_of_map_to_list in Hq. by exists m.
  - intros [m Hm]. apply list_elem_of_fmap. exists (p, m). split; [done|]. by apply elem_of_map_to_list.
Qed.

(** Whatever order the runtime chooses. *)
Lemma Lookup_wp G mod_ name h :
  (forall h keys, G h (RangeOrder keys)) ->
  wp any_resp G (Lookup mod_ name) (fun o h' => exists m o', o = Done m /\ resolves mod_ name m /\
    h' = Ev (RangeOrder (map fst (map_to_list mod_))) o' :: h) h.
Proof.
  intros HG. unfold Lookup, range_order. wp_norm. split; [apply HG|]. intros o _. wp_norm.
  eexists _, o. split; [done|]. split; [|done].
  pose proof (keys_lookup mod_ _ (range_order_perm (map fst (map_to_list mod_)) o)) as Hk.
  set (order := if decide _ then _ else _) in *.
  destruct (lookup_resolves mod_ order name) as [(p & m & Hm & Hp & ->)|[-> Hno]].
  - intros p. apply Hk.
  - left. by exists p.
  - right. split; [done|]. intros p m Hm. apply Hno, Hk. by exists m.
Qed.

(** Two patterns that match: the module depends on the order in which the map is visited. *)
Example lookup_depends_on_order :
  let table : ModuleAliases := {[ "pci:v*" := "generic"; "pci:v8086*" := "e1000" ]} in
  lookup_go table ["pci:v*"; "pci:v8086*"] "pci:v8086d100E" = "generic" /\
  lookup_go table ["pci:v8086*"; "pci:v*"] "pci:v8086d100E" = "e1000".
Proof. vm_compute. done. Qed.
