(* ===== verification/Rc.v ===== *)
(** * Rc: package [internal/cli/rc], the run control of early boot: the mounts, the drivers of the
    devices found, the clock, the network loopback, the host name and resolv.conf.

    The pool of mounts, a variable of the package, is passed and returned.  [unix.Mkdev] is a
    parameter; [libinit.NetInit] is a call. *)

From S2P Require Import Prelude GoStrings GoPath Effects OS MountPkg Modalias DevPopulate.
Open Scope string_scope.
Open Scope list_scope.
Open Scope go_scope.

Definition nodev : Z := 4.
Definition noexec : Z := 8.
Definition nosuid : Z := 2.
Definition rec : Z := 16384.
Definition relatime : Z := Z.shiftl 1 21.
Definition shared : Z := Z.shiftl 1 20.

Definition rcNamespace : list Creator :=
  [
   CMount "proc" "/proc" "proc" (Z.lor nodev (Z.lor nosuid (Z.lor noexec relatime))) "" true;
   CMount "tmpfs" "/run" "tmpfs" (Z.lor nodev (Z.lor nosuid (Z.lor noexec relatime))) "size=10%,mode=755" false;
   CMount "tmpfs" "/tmp" "tmpfs" (Z.lor nodev (Z.lor nosuid (Z.lor noexec relatime))) "size=10%,mode=1777" false;
   CDir "/var/cache" (oct 755);
   CDir "/var/empty" (oct 555);
   CDir "/var/lib" (oct 755);
   CDir "/var/local/bin" (oct 755);
   CDir "/var/lock" (oct 755);
   CDir "/var/log" (oct 755);
   CDir "/var/opt" (oct 755);
   CDir "/var/spool" (oct 755);
   CDir "/var/tmp" (oct 1777);
   CDir "/home" (oct 755);
   CSymlink "/run" "/var/run";
   CMount "dev" "/dev" "devtmpfs" (Z.lor nosuid (Z.lor noexec relatime)) "size=10m,nr_inodes=248418,mode=755" false;
   CDev "/dev/console" (oct 600) 5 1;
   CDev "/dev/tty1" (oct 620) 4 1;
   CDev "/dev/tty" (oct 666) 5 0;
   CDev "/dev/null" (oct 666) 1 3;
   CDev "/dev/kmsg" (oct 660) 1 11;
   CSymlink "/proc/self/fd" "/dev/fd";
   CSymlink "/proc/self/fd/0" "/dev/stdin";
   CSymlink "/proc/self/fd/1" "/dev/stdout";
   CSymlink "/proc/self/fd/2" "/dev/stderr";
   CSymlink "/proc/kcore" "/dev/kcore";
   CDir "/dev/mqueue" (oct 1777);
   CDir "/dev/shm" (oct 1777);
   CDir "/dev/pts" (oct 755);
   CMount "mqueue" "/dev/mqueue" "mqueue" (Z.lor noexec (Z.lor nosuid nodev)) "" false;
   CMount "shm" "/dev/shm" "tmpfs" (Z.lor noexec (Z.lor nosuid nodev)) "mode=1777" false;
   CMount "devpts" "/dev/pts" "devpts" (Z.lor noexec nosuid) "gid=5,mode=0620" false;
   CMount "sysfs" "/sys" "sysfs" (Z.lor noexec (Z.lor nosuid nodev)) "" false;
   CMount "securityfs" "/sys/kernel/security" "securityfs" (Z.lor noexec (Z.lor nosuid nodev)) "" true;
   CMount "debugfs" "/sys/kernel/debug" "debugfs" (Z.lor noexec (Z.lor nosuid nodev)) "" true;
   CMount "configfs" "/sys/kernel/config" "configfs" (Z.lor noexec (Z.lor nosuid nodev)) "" true;
   CMount "fusectl" "/sys/fs/fuse/connections" "fusectl" (Z.lor noexec (Z.lor nosuid nodev)) "" true;
   CMount "selinuxfs" "/sys/fs/selinux" "selinuxfs" (Z.lor noexec nosuid) "" true;
   CMount "pstore" "/sys/fs/pstore" "pstore" (Z.lor noexec (Z.lor nosuid nodev)) "" true;
   CMount "efivarfs" "/sys/firmware/efi/efivars" "efivarfs" (Z.lor noexec (Z.lor nosuid nodev)) "" true;
   CMount "binfmt_misc" "/proc/sys/fs/binfmt_misc" "binfmt_misc" (Z.lor noexec (Z.lor nosuid nodev)) "" true;
   CMount "cgroup2" "/sys/fs/cgroup" "cgroup2" (Z.lor nodev (Z.lor noexec nosuid)) "" false;
   CMount "" "/" "" (Z.lor rec shared) "" false
  ].

(** Reading and writing files of sysfs: failures are logged. *)
Definition write (path value : string) : io unit := ignore (sys (WriteFile path value (oct 600))).

Definition read (path : string) : io string :=
  let* data := sys (ReadFile path) in
  Ret (match data with Ok data => strings_TrimSpace data | Err _ => "" end).

Definition readdir (path : string) : io (list string) :=
  let* files := sys (ReadDir path) in
  Ret (match files with Ok files => map de_name files | Err _ => [] end).

Definition glob (pattern : string) : io (list string) :=
  let* files := sys (Glob pattern) in
  Ret (match files with Ok files => files | Err _ => [] end).

Definition exists_ (path : string) : io bool :=
  let* st := sys (Stat path) in Ret (is_ok st).

(** The drivers for the aliases in these files; only the log tells one failure from another. *)
Definition modaliases (paths : list string) : io unit :=
  let* ma := Init in
  match ma with
  | Err _ => Ret tt
  | Ok ma =>
      for_fold paths tt (fun path _ =>
        let* text := read path in
        for_fold (strings_Fields text) tt (fun alias _ => ignore (Load ma alias)))
  end.

Section Rc.
Context (Mkdev : Z -> Z -> Z).

Definition doMounts (pool : Pool) : io Pool :=
  let* '(_, pool) := ApplyTracked Mkdev rcNamespace pool in Ret pool.

Definition doHotplug : io unit :=
  let* paths := glob "/sys/bus/*/devices/*/modalias" in
  let* _ := modaliases paths in
  let* files := readdir "/sys/devices" in
  let* _ := for_fold files tt (fun f _ =>
    let uevent := path_Join ["/sys/devices"; f; "uevent"] in
    if strings_HasPrefix f "usb" then
      let* ok := exists_ uevent in
      if ok : bool then write uevent "add" else Ret tt
    else Ret tt) in
  ignore (PopulateDev Mkdev DefaultOptions).

Definition doClock : io unit := ignore (sys SyncRTC).

Definition doLoopback : io unit := sys NetInit.

Definition doHostname : io unit :=
  let* hostname := read "/etc/hostname" in
  let* _ := if bool_decide (hostname = "") then Ret tt else ignore (sys (SysSethostname hostname)) in
  let* r := sys Hostname in
  match r with
  | Err _ => Ret tt
  | Ok hostname =>
      if negb (bool_decide (hostname = "(none)")) && negb (bool_decide (hostname = "")) then Ret tt
      else
        let* mac := read "/sys/class/net/eth0/address" in
        if bool_decide (mac = "") then Ret tt
        else ignore (sys (SysSethostname ("k3os-" +:+ strings_ReplaceAll mac ":" "")))
  end.

Definition doResolvConf : io unit :=
  let* r := sys (Readlink "/etc/resolv.conf") in
  match r with
  | Err _ => Ret tt
  | Ok link =>
      let* _ := ignore (sys (MkdirAll (path_Dir link) (oct 755))) in
      write link ""
  end.

Definition Run (pool : Pool) : io (result unit * Pool) :=
  let* pool := doMounts pool in
  let* _ := doHotplug in
  let* _ := doClock in
  let* _ := doLoopback in
  let* _ := doHostname in
  let* _ := doResolvConf in
  Ret (Ok tt, pool).
End Rc.
