(* ===== verification/RcSpec.v ===== *)
(** * RcSpec: what run control does to the machine. *)

From S2P Require Import Prelude GoStrings GoPath Effects OS MountPkg MountSpec Modalias DevPopulate Rc.
Open Scope string_scope.
Open Scope list_scope.
Open Scope go_scope.

(** A result, and the targets mounted with it. *)
Ltac targets :=
  eexists; split; [reflexivity|]; rewrite !mounted_targets_cons; cbn; by rewrite ?app_nil_r.

Section Guard.
Context (Mkdev : Z -> Z -> Z).

(** The calls of an element of the table. *)
Definition element_call (e : Creator) (c : call) : Prop :=
  match e, c with
  | CDir n m, MkdirAll p perm => p = n /\ perm = m
  | CMount _ t _ _ _ _, MkdirAll p perm => p = t /\ perm = oct 755
  | CMount s t f fl d _, SysMount s' t' f' fl' d' => (s', t', f', fl', d') = (s, t, f, fl, d)
  | CDev n m ma mi, SysMknod p mode dev => p = n /\ mode = Z.lor S_IFCHR m /\ dev = Mkdev ma mi
  | CSymlink t n, Symlink t' n' => t' = t /\ n' = n
  | CWrite p v, WriteFile p' v' perm => p' = p /\ v' = v /\ perm = oct 600
  | _, _ => False
  end.

(** The table of aliases that was read, or none. *)
Definition known_aliases (ma : ModuleAliases) (h : list ev) : Prop :=
  ma = ∅ \/ exists f content,
    Ev (FileReadAll f) (content, None) ∈ h /\ ma = foldl parse_alias ∅ (fst (bufio_Scan content None)).

(** An alias that a file of sysfs lists. *)
Definition listed_alias (alias : string) (h : list ev) : Prop :=
  exists path text, Ev (ReadFile path) (Ok text) ∈ h /\ alias ∈ strings_Fields (strings_TrimSpace text).

(** The host name set: the configured one, or one made of a hardware address for a machine without. *)
Definition host_name_ok (name : string) (h : list ev) : Prop :=
  (exists text, Ev (ReadFile "/etc/hostname") (Ok text) ∈ h /\ name = strings_TrimSpace text /\ name <> "") \/
  (exists text current, Ev (ReadFile "/sys/class/net/eth0/address") (Ok text) ∈ h /\
     Ev Hostname (Ok current) ∈ h /\ (current = "" \/ current = "(none)") /\
     strings_TrimSpace text <> "" /\ name = "k3os-" +:+ strings_ReplaceAll (strings_TrimSpace text) ":" "").

(** A file written: a USB device's uevent that exists, or the empty target of resolv.conf. *)
Definition write_ok (p v : string) (h : list ev) : Prop :=
  (v = "add" /\ exists f i older, strings_HasPrefix f "usb" = true /\
     p = path_Join ["/sys/devices"; f; "uevent"] /\ h = Ev (Stat p) (Ok i) :: older) \/
  (v = "" /\ Ev (Readlink "/etc/resolv.conf") (Ok p) ∈ h).

(** What the phases after the mounts may do. *)
Definition later_guard : @guar call resp := fun h c =>
  match c with
  | Glob _ | Uname | Open _ | FileReadAll _ | FileClose _ | RangeOrder _ | SyncRTC | NetInit | Hostname
  | Readlink _ | Stat _ | ReadDir _ | ReadFile _ | BlkidProbe _ => True
  | ModprobeLoad name params => params = "" /\
      exists ma alias, known_aliases ma h /\ listed_alias alias h /\ resolves ma alias name
  | WriteFile p v perm => perm = oct 600 /\ write_ok p v h
  | SysSethostname name => host_name_ok name h
  | MkdirAll p perm => dev_guard Mkdev h c \/
      (perm = oct 755 /\ exists link, Ev (Readlink "/etc/resolv.conf") (Ok link) ∈ h /\ p = path_Dir link)
  | SysMknod _ _ _ | Remove _ | Symlink _ _ => dev_guard Mkdev h c
  | _ => False
  end.

(** A call of the table. *)
Definition table_call (c : call) : Prop := exists e, e ∈ rcNamespace /\ element_call e c.

(** The table comes first. *)
Definition rc_guard : @guar call resp := fun h c =>
  (table_call c /\ Forall (fun e => table_call (ev_call e)) h) \/ later_guard h c.

(** ** The mounts *)

Lemma CreateNS_wp e h :
  wp plain_labels (fun _ c => element_call e c) (CreateNS Mkdev e)
    (fun o h' => exists r, o = Done r /\ mounted_targets h' = mounted_targets h ++
       (if is_ok r then match AsMountPoint e with Some mp => [pt_Target mp] | None => [] end else [])) h.
Proof using Type.
  destruct e as [n m|s t f fl d sil|n m ma mi|t n|p v]; cbn [CreateNS Dir_Create Mount_Create Dev_Create Symlink_Create Write_Create AsMountPoint]; wp_norm;
    (split; [done|]); intros [[]|e] _; wp_norm.
  - targets.
  - targets.
  - split; [done|]. intros [[]|e] _; [|destruct sil]; wp_norm; targets.
  - destruct sil; wp_norm; targets.
  - targets.
  - destruct (os_IsExist e); wp_norm; targets.
  - targets.
  - destruct (os_IsExist e); wp_norm; targets.
  - targets.
  - targets.
Qed.

Lemma doMounts_calls pool h :
  map pt_Target pool = mounted_targets h ->
  wp plain_labels (fun _ c => table_call c) (doMounts Mkdev pool)
    (fun o h' => exists pool', o = Done pool' /\ map pt_Target pool' = mounted_targets h') h.
Proof using Type.
  intros Hpool. unfold doMounts, ApplyTracked. apply wp_bind, wp_bind.
  eapply (wp_for_fold _ _ _ _ _ (fun l pool h => Forall (fun e => e ∈ rcNamespace) l /\
    map pt_Target pool = mounted_targets h)).
  - split; [by apply Forall_forall|done].
  - intros pool' h' [_ H']. cbn. by exists pool'.
  - intros e l pool' h' [[He Hl]%Forall_cons H']. apply wp_bind.
    eapply wp_weaken; [| | |apply CreateNS_wp]; [done|by intros ? c Hc; exists e|].
    intros o h2 (r & -> & H2). cbn. split; [done|]. rewrite H2, <- H'.
    destruct r as [[]|err]; cbn; [|by rewrite app_nil_r].
    destruct (AsMountPoint e); [by unfold Pool_Add; rewrite map_app|by rewrite app_nil_r].
Qed.

Lemma doMounts_wp :
  wp plain_labels rc_guard (doMounts Mkdev [])
    (fun o h' => exists pool', o = Done pool' /\ map pt_Target pool' = mounted_targets h') [].
Proof using Type.
  eapply wp_weaken; [| | |apply (wp_so_far table_call); [constructor|by apply doMounts_calls]];
    [done|by left|done].
Qed.

(** ** The drivers *)

Definition ends {A} (o : outcome A) (_ : list ev) : Prop := forall s, o <> Halted s.

Lemma known_aliases_later ma e h : known_aliases ma h -> known_aliases ma (e :: h).
Proof using Type. intros [->|(f & c & Hc & ->)]; [by left|right]. exists f, c. split; [by right|done]. Qed.

Lemma listed_alias_later a e h : listed_alias a h -> listed_alias a (e :: h).
Proof using Type. intros (p & t & Ht & Ha). exists p, t. split; [by right|done]. Qed.

Lemma Init_wp h :
  wp plain_labels (later_guard) Init
    (fun o h' => match o with
                 | Done (Ok ma) => known_aliases ma h'
                 | Halted _ => False
                 | _ => True
                 end) h.
Proof using Type.
  unfold Init, getAliasesFile, GetKernelVersion. wp_norm. split; [done|]. intros [v|e] _; wp_norm; [|done].
  split; [done|]. intros st _. wp_norm.
  match goal with |- context [if ?b then _ else _] => destruct b end; wp_norm; [done|].
  split; [done|]. intros st' _. wp_norm.
  match goal with |- context [if ?b then _ else _] => destruct b end; wp_norm; [by left|].
  split; [done|]. intros [f|e] _; wp_norm; [|done]. split; [done|]. intros [content rerr] _. cbn beta iota.
  destruct (bufio_Scan content rerr) as [lines err] eqn:Hs. wp_norm. split; [done|]. intros r _. wp_norm.
  destruct err as [e|]; wp_norm; [done|]. right. exists f, content.
  assert (rerr = None) as -> by (apply (f_equal snd) in Hs; by apply scan_no_error in Hs).
  split; [by right; left|]. by rewrite Hs.
Qed.

Lemma Load_wp ma alias h :
  known_aliases ma h -> listed_alias alias h ->
  wp plain_labels later_guard (Load ma alias) ends h.
Proof using Type.
  intros Hma Ha. unfold Load. apply wp_bind.
  eapply wp_weaken; [| | |apply (Lookup_wp later_guard); done]; [done|done|].
  intros o h' (m & o' & -> & Hm & ->). cbn. split; [|done]. split; [done|].
  exists ma, alias. split_and!; [by apply known_aliases_later|by apply listed_alias_later|done].
Qed.

Lemma modaliases_wp paths h :
  wp plain_labels later_guard (modaliases paths) ends h.
Proof using Type.
  unfold modaliases. apply wp_bind. eapply wp_mono; [|apply Init_wp].
  intros [[ma|e]|s|] h1 H1; [|done|done|done]. cbn [bind_post].
  eapply (wp_for_fold _ _ _ _ _ (fun _ _ h => known_aliases ma h)); [done|done|].
  intros path rest [] h2 H2. unfold read. wp_norm. split; [done|]. intros [text|e] _; wp_norm; cycle 1.
  { by apply known_aliases_later. }
  eapply (wp_for_fold _ _ _ _ _ (fun l _ h => known_aliases ma h /\ Forall (fun a => listed_alias a h) l)).
  - split; [by apply known_aliases_later|]. apply Forall_forall. intros a Ha. exists path, text. by split; [left|].
  - by intros [] h3 [H3 _].
  - intros a l [] h3 [H3 [Ha Hl]%Forall_cons]. unfold ignore. apply wp_bind.
    eapply wp_mono; [|eapply (wp_also _ _ _ _ (fun h => known_aliases ma h /\ Forall (fun a => listed_alias a h) l));
      [|done|by apply Load_wp]].
    + intros [r|s|] h4 [He H4]; cbn; [done|by destruct (He s)|done].
    + intros e h4 [Hk Hf]. split; [by apply known_aliases_later|].
      eapply Forall_impl; [exact Hf|]. intros x. apply listed_alias_later.
Qed.

(** ** The other phases *)

Lemma doHotplug_wp h : wp plain_labels later_guard (doHotplug Mkdev) ends h.
Proof using Type.
  unfold doHotplug, glob, readdir. wp_norm. split; [done|]. intros paths _. wp_norm.
  apply wp_bind. eapply wp_mono; [|apply modaliases_wp].
  intros [[]|s|] h1 H1; [|by destruct (H1 s)|done]. wp_norm. split; [done|]. intros files _. wp_norm.
  apply wp_bind. eapply (wp_for_fold _ _ _ _ _ (fun _ _ _ => True)); [done| |].
  - intros [] h2 _. cbn [bind_post]. apply wp_bind.
    eapply wp_weaken; [| | |apply (PopulateDev_wp Mkdev)]; [done| |].
    + intros h' c Hc. destruct c; try done. by left.
    + intros [r|s|] h3 H3; done.
  - intros f l [] h2 _. destruct (strings_HasPrefix f "usb") eqn:Hf; [|done]. unfold exists_, write. wp_norm.
    split; [done|]. intros [i|e] _; wp_norm; [|done]. split; [|done]. split; [done|]. left. split; [done|].
    by exists f, i, h2.
Qed.

Lemma doHostname_wp h : wp plain_labels later_guard doHostname ends h.
Proof using Type.
  unfold doHostname, read. wp_norm. split; [done|]. intros data _. wp_norm.
  assert (forall h', wp plain_labels later_guard
    (let* r := sys Hostname in
     match r with
     | Err _ => Ret tt
     | Ok hostname =>
         if negb (bool_decide (hostname = "(none)")) && negb (bool_decide (hostname = "")) then Ret tt
         else
           let* mac := read "/sys/class/net/eth0/address" in
           if bool_decide (mac = "") then Ret tt
           else ignore (sys (SysSethostname ("k3os-" +:+ strings_ReplaceAll mac ":" "")))
     end) ends h') as Hrest.
  { intros h'. unfold read. wp_norm. split; [done|]. intros [current|e] _; wp_norm; [|done].
    do 2 case_bool_decide; cbn [negb andb]; try done.
    all: wp_norm; split; [done|]; intros [text|e] _; wp_norm; [|done]; case_bool_decide as Ht; [done|].
    all: wp_norm; split; [|done]; right; exists text, current; split_and!; try done; [left|by right; left|].
    all: subst; by (left + right). }
  destruct data as [text|e]; [|apply Hrest]. case_bool_decide as Ht; wp_norm; [apply Hrest|].
  split; [|intros ? _; apply Hrest]. left. exists text. split_and!; [left|done|done].
Qed.

Lemma doResolvConf_wp h : wp plain_labels later_guard doResolvConf ends h.
Proof using Type.
  unfold doResolvConf, write. wp_norm. split; [done|]. intros [link|e] _; wp_norm; [|done].
  split; [right; split; [done|]; exists link; by split; [left|]|]. intros r _. wp_norm.
  split; [|done]. split; [done|]. right. split; [done|]. by right; left.
Qed.

(** ** The whole *)

Lemma later_guard_no_mount h c r : later_guard h c -> mounted_targets (Ev c r :: h) = mounted_targets h.
Proof using Type. rewrite mounted_targets_cons. destruct c; try done; intros _; apply app_nil_r. Qed.

Definition rc_post (o : outcome (result unit * Pool)) (h : list ev) : Prop :=
  match o with
  | Done (r, pool) => r = Ok tt /\ map pt_Target pool = mounted_targets h
  | Halted _ => False
  | Running => True
  end.

(** A phase after the mounts. *)
Lemma rc_phase_wp (p : io unit) (k : io (result unit * Pool)) (targets : list string) h :
  mounted_targets h = targets ->
  (forall h, wp plain_labels later_guard p ends h) ->
  (forall h, mounted_targets h = targets -> wp plain_labels (rc_guard) k rc_post h) ->
  wp plain_labels (rc_guard) (bind p (fun _ => k)) rc_post h.
Proof using Type.
  intros Hh Hp Hk. apply wp_bind.
  eapply wp_weaken; [| | |apply (wp_keep mounted_targets plain_labels later_guard p ends h); [exact later_guard_no_mount|apply Hp]].
  - done.
  - intros h' c [Hc _]. by right.
  - intros [[]|s|] h' [He Hm]; cbn; [|by destruct (He s)|done]. apply Hk. by rewrite Hm.
Qed.

Lemma Rc_Run_wp : wp plain_labels (rc_guard) (Run Mkdev []) rc_post [].
Proof using Type.
  unfold Run. apply wp_bind. eapply wp_mono; [|by apply doMounts_wp].
  intros o h (pool & -> & Hpool). cbn [bind_post]. remember (mounted_targets h) as targets eqn:Ht.
  symmetry in Ht. revert h Ht.
  assert (forall h, mounted_targets h = targets -> wp plain_labels rc_guard (Ret (Ok tt, pool)) rc_post h) as H0
    by (intros h Ht; cbn; by rewrite Ht).
  intros h Ht. apply (rc_phase_wp _ _ targets); [done|apply doHotplug_wp|]. clear h Ht. intros h Ht.
  apply (rc_phase_wp _ _ targets); [done| |]. { intros h'. unfold doClock. by wp_norm. }
  clear h Ht. intros h Ht. apply (rc_phase_wp _ _ targets); [done| |]. { intros h'. unfold doLoopback. by wp_norm. }
  clear h Ht. intros h Ht. apply (rc_phase_wp _ _ targets); [done|apply doHostname_wp|].
  clear h Ht. intros h Ht. apply (rc_phase_wp _ _ targets); [done|apply doResolvConf_wp|done].
Qed.
End Guard.

(** ** The table *)

(** What an element makes. *)
Definition element_path (e : Creator) : string :=
  match e with
  | CDir n _ => n
  | CMount _ t _ _ _ _ => t
  | CDev n _ _ _ => n
  | CSymlink _ n => n
  | CWrite p _ => p
  end.

(** A mount hides what was made under its target before; changing the propagation of / hides nothing. *)
Definition hides (e : Creator) (p : string) : bool :=
  match e with
  | CMount s t _ _ _ _ =>
      negb (bool_decide (s = "")) && (bool_decide (p = t) || strings_HasPrefix p (t +:+ "/"))
  | _ => false
  end.

Fixpoint nothing_hidden (before after : list Creator) : bool :=
  match after with
  | [] => true
  | e :: after' =>
      forallb (fun e' =>
        negb (hides e (element_path e')) || match e' with CDir n _ => bool_decide (n = element_path e) | _ => false end)
        before && nothing_hidden (e :: before) after'
  end.

(** No element of the table is hidden by a later mount, but the directories made to mount on. *)
Lemma rcNamespace_nothing_hidden : nothing_hidden [] rcNamespace = true.
Proof. vm_compute. reflexivity. Qed.

(** The sticky bit of 0o1777 is not among those [os.FileMode] keeps ([os.ModeSticky] is bit 20, and the
    permission bits end at bit 8): /var/tmp is made without it. *)
Example var_tmp_not_sticky :
  CDir "/var/tmp" (oct 1777) ∈ rcNamespace /\
  Z.testbit (oct 1777) 20 = false /\ Z.land (oct 1777) ModePerm = oct 777.
Proof. split; [repeat first [by left|right]|by vm_compute]. Qed.

(** ** Property *)


(** A machine with one PCI device and without a host name. *)
Definition booting (c : call) : option (resp c) :=
  match c return option (resp c) with
  | Glob _ => Some (Ok ["/sys/bus/pci/devices/0/modalias"])
  | ReadFile "/sys/bus/pci/devices/0/modalias" => Some (Ok ("pci:v8086d100E" +:+ nl))
  | ReadFile "/sys/class/net/eth0/address" => Some (Ok ("52:54:00:12" +:+ nl))
  | FileReadAll _ => Some ("alias pci:v8086d* e1000" +:+ nl, None)
  | SysMount _ t _ _ _ => if bool_decide (t = "/sys/fs/selinux") then Some (Err (ErrSys "mount" t ENOENT)) else None
  | _ => None
  end.

Lemma booting_plain h c : plain_labels h c (default (all_ok c) (booting c)).
Proof.
  destruct c; try done; cbn.
  - constructor.
  - split; by left.
Qed.

