(* ===== verification/Virt.v ===== *)
(** * Virt: package [internal/virt], the virtualization the firmware tells of. *)

From S2P Require Import Prelude GoStrings GoPath Effects OS.
Open Scope string_scope.
Open Scope list_scope.
Open Scope go_scope.

Section Virt.
Context `{UnicodeTables}.

(** [DMIDetector]; its [ReadFile] is the call. *)
Record DMIDetector := { BasePath : string }.

Definition NewDMIDetector : DMIDetector := {| BasePath := "/sys/class/dmi/id/" |}.

Definition readDMIFile (d : DMIDetector) (name : string) : io string :=
  let* data := sys (ReadFile (BasePath d +:+ name)) in
  Ret (match data with Ok data => strings_TrimSpace data | Err _ => "" end).

Definition containsCI (s substr : string) : bool :=
  strings_Contains (strings_ToLower s) (strings_ToLower substr).

(** What the three texts say. *)
Definition detect_from (sysVendor productName boardVendor : string) : list string :=
  if containsCI sysVendor "QEMU" then ["kvm"]
  else if containsCI sysVendor "Microsoft" && containsCI productName "Virtual Machine" then ["hyperv"]
  else if containsCI sysVendor "VMware" then ["vmware"]
  else if containsCI sysVendor "innotek" || containsCI boardVendor "innotek" ||
          ((containsCI sysVendor "Oracle" || containsCI boardVendor "Oracle") &&
           containsCI productName "VirtualBox") then ["virtualbox"]
  else [].

Definition Detect (d : DMIDetector) : M (list string) :=
  let* sysVendor := readDMIFile d "sys_vendor" in
  let* productName := readDMIFile d "product_name" in
  let* boardVendor := readDMIFile d "board_vendor" in
  ret (detect_from sysVendor productName boardVendor).

(** At most one type is found. *)
Lemma detect_from_one a b c : (List.length (detect_from a b c) <= 1)%nat.
Proof using Type. unfold detect_from. repeat (case_match; [cbn; lia|]). cbn. lia. Qed.
End Virt.
