(* ===== verification/Command.v ===== *)
(** * Command: package [internal/command], running the configured commands and setting the password. *)

From S2P Require Import Prelude GoStrings GoPath Effects OS Shadow.
Open Scope string_scope.
Open Scope list_scope.
Open Scope go_scope.

Definition ExecuteCommand (commands : list string) : M unit :=
  for_each commands (fun cmd =>
    wrapf "failed to run %s: %w" [cmd] (sys (ExecRun "sh" ["-c"; cmd]))).

Definition SetPassword (shacrypt_New : result unit) (shacrypt_Hash : string -> result string)
  (password : string) : M unit :=
  if bool_decide (password = "") then ret tt
  else Shadow.SetPassword shacrypt_New shacrypt_Hash "rancher" password.

(** The commands run in order, each after the success of those before it, up to the first that
    fails, whose error is returned with the command. *)
Lemma ExecuteCommand_runs commands h h' r :
  exec any_resp (ExecuteCommand commands) h h' (Done r) <->
  exists ran rest,
    commands = ran ++ rest /\
    ((r = Ok tt /\ rest = [] /\
      h' = rev (map (fun c => Ev (ExecRun "sh" ["-c"; c]) (Ok tt)) ran) ++ h) \/
     (exists c rest' e, rest = c :: rest' /\ r = Err (Errorf_w "failed to run %s: %w" [c] e) /\
      h' = Ev (ExecRun "sh" ["-c"; c]) (Err e) ::
           rev (map (fun c => Ev (ExecRun "sh" ["-c"; c]) (Ok tt)) ran) ++ h)).
Proof.
  revert h. induction commands as [|c cs IH]; intros h.
  - split.
    + intros [<- ->]%exec_inv. exists [], []. split; [done|]. by left.
    + intros (ran & rest & Heq & [(-> & -> & ->)|(c & rest' & e & -> & _)]).
      * rewrite app_nil_r in Heq. subst ran. constructor.
      * by destruct ran.
  - split.
    + intros (u & h1 & Hc & Hk)%exec_bind_inv. apply exec_wrapf in Hc as [([] & -> & Hc)|(e & -> & Hc)].
      * apply exec_inv in Hc as (x & _ & [-> ->]%exec_inv). apply IH in Hk as (ran & rest & -> & Hk).
        exists (c :: ran), rest. split; [done|]. cbn [map rev]. rewrite <- !(assoc_L app). exact Hk.
      * apply exec_inv in Hc as (x & _ & [-> ->]%exec_inv). apply exec_inv in Hk as [<- ->].
        exists [], (c :: cs). split; [done|]. right. by exists c, cs, e.
    + intros (ran & rest & Heq & Hr). destruct ran as [|c' ran].
      * cbn in Heq. subst rest. destruct Hr as [(_ & [=] & _)|(c' & rest' & e & [= <- <-] & -> & ->)].
        eapply exec_bind; [apply exec_wrapf; right; exists e; split; [done|]|constructor].
        eapply (exec_vis _ (ExecRun "sh" ["-c"; c])); [done|constructor].
      * injection Heq as <- Heq. eapply exec_bind.
        -- apply exec_wrapf. left. exists tt. split; [done|].
           eapply (exec_vis _ (ExecRun "sh" ["-c"; c])); [done|constructor].
        -- apply IH. exists ran, rest. split; [done|]. cbn [map rev] in Hr.
           by rewrite <- !(assoc_L app) in Hr.
Qed.
