(* ===== verification/FlagSource.v ===== *)
(** * FlagSource: package [internal/flagsource], command-line arguments from the kernel command line,
    a file and the environment.

    [shlex.Argv] of u-root is a parameter. *)

From S2P Require Import Prelude GoStrings GoPath GoEncoding GoQuote Effects OS.
Open Scope string_scope.
Open Scope list_scope.
Open Scope go_scope.

(** The interface [Source]. *)
Class Source (S : Type) := Args : S -> M (list string).

Section Sources.
Context (shlex_Argv : string -> list string).

Record CmdlineSource := { FlagName : string }.

#[export] Instance CmdlineSource_Args : Source CmdlineSource := fun s =>
  let* val := sys (CmdlineFlag (FlagName s)) in
  match val with
  | None => ret []
  | Some val => if bool_decide (val = "") then ret [] else ret (shlex_Argv val)
  end.

Record EnvSource := { Name : string }.

#[export] Instance EnvSource_Args : Source EnvSource := fun s =>
  let* val := sys (LookupEnv (Name s)) in
  match val with
  | None => ret []
  | Some val => if bool_decide (val = "") then ret [] else ret (shlex_Argv val)
  end.
End Sources.

Record FileSource := { Path : string }.

(** The lines, numbered: each is blank, a comment, or one quoted argument. *)
Fixpoint parse_flag_lines (lines : list string) (lineNum : Z) : result (list string) :=
  match lines with
  | [] => Ok []
  | l :: lines' =>
      let line := strings_TrimSpace l in
      let lineNum := (lineNum + 1)%Z in
      if bool_decide (line = "") || strings_HasPrefix line "#" then parse_flag_lines lines' lineNum
      else match strconv_Unquote line with
           | Err e => Err (Errorf_w "line %d: %w" [strconv_Itoa lineNum] e)
           | Ok unquoted => result_map (cons unquoted) (parse_flag_lines lines' lineNum)
           end
  end.

#[export] Instance FileSource_Args : Source FileSource := fun s =>
  let* f := sys (Open (Path s)) in
  match f with
  | Err e => if errors_Is_NotExist e then ret [] else fail e
  | Ok f =>
      let* '(content, rerr) := sys (FileReadAll f) in
      let '(lines, err) := bufio_Scan content rerr in
      let* _ := ignore (sys (FileClose f)) in
      Ret (match parse_flag_lines lines 0 with
           | Err e => Err e
           | Ok args => match err with Some e => Err e | None => Ok args end
           end)
  end.

(** [Merge]: the sources in order, up to the first error. *)
Fixpoint Merge (sources : list (M (list string))) : M (list string) :=
  match sources with
  | [] => ret []
  | src :: sources' =>
      let! args := src in
      let! rest := Merge sources' in
      ret (args ++ rest)
  end.

(** ** The file *)

Section RoundTrip.
Context `{UnicodeTables}.

(** The file that holds these arguments. *)
Definition flags_text (args : list string) : string :=
  concat_str (map (fun a => strconv_Quote a +:+ nl) args).

Lemma quoted_shape a : exists m, strconv_Quote a = String DQ (m +:+ String DQ "").
Proof using Type.
  exists (of_chars (quote_body a)). unfold strconv_Quote. apply chars_inj.
  cbn [chars]. rewrite chars_of_chars, chars_app, chars_of_chars. done.
Qed.

Lemma quoted_scannable a : too_long (strconv_Quote a) = false -> scannable (strconv_Quote a).
Proof using Type.
  intros Hlong. split_and!; [apply Quote_no_newline|done|].
  unfold drop_cr, strconv_Quote. by rewrite chars_of_chars, app_comm_cons, rev_app_distr.
Qed.

Lemma parse_quoted args n :
  parse_flag_lines (map strconv_Quote args) n = Ok args.
Proof using Type.
  revert n. induction args as [|a args IH]; intros n; [done|]. cbn [map parse_flag_lines].
  assert (strings_TrimSpace (strconv_Quote a) = strconv_Quote a) as ->.
  { destruct (quoted_shape a) as [m ->]. apply TrimSpace_id; split; reflexivity. }
  assert (bool_decide (strconv_Quote a = "") || strings_HasPrefix (strconv_Quote a) "#" = false) as ->.
  { destruct (quoted_shape a) as [m ->]. done. }
  by rewrite Unquote_Quote, IH.
Qed.

Lemma file_args args :
  Forall (fun a => too_long (strconv_Quote a) = false) args ->
  (let '(lines, err) := bufio_Scan (flags_text args) None in
   match parse_flag_lines lines 0 with
   | Err e => Err e
   | Ok args => match err with Some e => Err e | None => Ok args end
   end) = Ok args.
Proof using Type.
  intros Hl. unfold flags_text.
  replace (map _ args) with (map (fun l => l +:+ nl) (map strconv_Quote args)) by (by rewrite map_map).
  rewrite scan_lines; [by rewrite parse_quoted|]. apply Forall_map.
  eapply Forall_impl; [exact Hl|]. intros a. apply quoted_scannable.
Qed.
End RoundTrip.

(** ** Merging *)

(** The sources ran one after the other with these results. *)
Inductive sources_ran : list (M (list string)) -> list (list string) -> list ev -> list ev -> Prop :=
| ran_nil h : sources_ran [] [] h h
| ran_cons src sources args argss h h1 h2 :
    exec any_resp src h h1 (Done (Ok args)) -> sources_ran sources argss h1 h2 ->
    sources_ran (src :: sources) (args :: argss) h h2.

(** The result of a merge: everything in order, or the error of the first source that fails, after
    which no other is asked. *)
Lemma Merge_runs sources h h' r :
  exec any_resp (Merge sources) h h' (Done r) ->
  (exists argss, sources_ran sources argss h h' /\ r = Ok (concat argss)) \/
  (exists before src after argss h1 e, sources = before ++ src :: after /\
     sources_ran before argss h h1 /\ exec any_resp src h1 h' (Done (Err e)) /\ r = Err e).
Proof.
  revert h h' r. induction sources as [|src sources IH]; intros h h' r.
  - intros [<- ->]%exec_inv. left. exists []. by split; [constructor|].
  - cbn [Merge]. unfold bindE. intros (x & h1 & Hsrc & Hk)%exec_bind_inv. destruct x as [args|e].
    + apply exec_bind_inv in Hk as (y & h2 & Hrest & Hk). apply IH in Hrest.
      destruct Hrest as [(argss & Hran & ->)|(before & src' & after & argss & h3 & e & -> & Hran & He & ->)];
        apply exec_inv in Hk as [<- ->].
      * left. exists (args :: argss). split; [by econstructor|done].
      * right. exists (src :: before), src', after, (args :: argss), h3, e.
        split_and!; [done|by econstructor|done|done].
    + apply exec_inv in Hk as [<- ->]. right. exists [], src, sources, [], h, e.
      split_and!; [done|constructor|done|done].
Qed.

(** ** Property *)

(** A flags file hands over its arguments unchanged.  When the file read holds, one per line, the
    arguments quoted (any bytes, and no quoted line over the buffer of the scanner), the source
    returns exactly these arguments, in order, having closed the file; a file that does not exist is
    no error and yields none. *)
Theorem FileSource_reads_back `{UnicodeTables} args path h r :
  Forall (fun a => too_long (strconv_Quote a) = false) args ->
  exec any_resp (Args {| Path := path |}) [] h (Done r) ->
  (exists e, h = [Ev (Open path) (Err e)] /\ r = if errors_Is_NotExist e then Ok [] else Err e) \/
  (exists f content rerr c,
     h = [Ev (FileClose f) c; Ev (FileReadAll f) (content, rerr); Ev (Open path) (Ok f)] /\
     (content = flags_text args -> rerr = None -> r = Ok args)).
Proof.
  intros Hl Hex. apply exec_inv in Hex as (f & _ & Hex). destruct f as [f|e].
  - apply exec_inv in Hex as ([content rerr] & _ & Hex). cbn [bind ignore sys perform] in Hex.
    destruct (bufio_Scan content rerr) as [lines err] eqn:Hs.
    apply exec_inv in Hex as (c & _ & [<- ->]%exec_inv). right. exists f, content, rerr, c.
    split; [done|]. intros -> ->. pose proof (file_args args Hl) as Hargs. by rewrite Hs in Hargs.
  - left. exists e. cbn in Hex. destruct (errors_Is_NotExist e) eqn:He; by apply exec_inv in Hex as [<- ->].
Qed.

(** A machine whose flags file holds three arguments, one of them empty and one with a newline. *)
Definition flags_file (c : call) : option (resp c) :=
  match c return option (resp c) with
  | FileReadAll _ => Some (flags_text ["-x"; ""; "a b" +:+ nl], None)
  | _ => None
  end.

Definition file_read (e : ev) : option (string * option error) :=
  match ev_call e as c return resp c -> option (string * option error) with
  | FileReadAll _ => fun r => Some r
  | _ => fun _ => None
  end (ev_resp e).

Lemma FileSource_reads_back_witness :
  final flags_file (Args {| Path := "/etc/flags" |}) = Done (Ok ["-x"; ""; "a b" +:+ nl]).
Proof.
  pose proof (world_exec flags_file (Args {| Path := "/etc/flags" |})) as H.
  destruct (final flags_file (Args {| Path := "/etc/flags" |})) as [r|s|] eqn:Hf;
    [|vm_compute in Hf; discriminate|vm_compute in Hf; discriminate].
  assert (Forall (fun a => too_long (strconv_Quote a) = false) ["-x"; ""; "a b" +:+ nl]) as Hl
    by (repeat constructor).
  destruct (FileSource_reads_back _ _ _ _ Hl H) as [(e & He & _)|(f & content & rerr & c & Hh & Hr)].
  - vm_compute in He. discriminate.
  - assert (content = flags_text ["-x"; ""; "a b" +:+ nl] /\ rerr = None) as [-> ->]
      by (apply (f_equal (omap file_read)) in Hh; vm_compute in Hh; injection Hh as <- <-; by vm_compute).
    by rewrite Hr.
Defined.
