(* ===== verification/Osimpl.v ===== *)
(** * Osimpl: package [internal/iface/osimpl], the production implementations of the interfaces.

    A call of [iface.FileSystem] stands for the function of package os of the same name too, to which
    [OSFileSystem] hands it.  [LoopPathDetacher] is in [LoopDev] and [PartitionGrower] in [DiskUtil].
    [Main] puts them together.  The module [Unsupported] is what is built for other platforms than
    Linux. *)

From S2P Require Import Prelude GoStrings GoPath Effects OS MountPkg DevPopulate.
Open Scope string_scope.
Open Scope list_scope.
Open Scope go_scope.

(** ** block.go *)

Definition FindByLabel (label : string) : M string :=
  if strings_Contains label "/" || strings_Contains label ".."
  then fail (Errorf "invalid label %q: must not contain '/' or '..'" [label])
  else
    let linkPath := path_Join ["/dev/disk/by-label"; label] in
    let! target := wrapf "readlink %s: %w" [linkPath] (sys (Readlink linkPath)) in
    if path_IsAbs target then ret (path_Clean target)
    else ret (path_Clean (path_Join ["/dev/disk/by-label"; target])).

Definition ProbeFS (device : string) : io string :=
  let* info := sys (BlkidProbePath device) in
  Ret (match info with Err _ => "" | Ok info => bi_Name info end).

Definition virtual_prefixes : list string := ["loop"; "ram"; "dm-"; "zram"; "nbd"; "sr"; "md"].

Definition ListDisks : M (list string) :=
  let! entries := wrapf "readdir /sys/block: %w" [] (sys (ReadDir "/sys/block")) in
  ret (filter (fun name => existsb (strings_HasPrefix name) virtual_prefixes = false) (map de_name entries)).

(** ** clocksync.go *)

Definition SyncRTC : M unit :=
  let! r := sys RtcOpen in
  let* res :=
    (let! t := sys (RtcRead r) in
     sys (SysSettimeofday t 0)) in
  let* _ := ignore (sys (RtcClose r)) in
  Ret res.

(** ** os.go *)

(** [ReadDir] copies the entries into a slice of the interface's type. *)
Definition OSFileSystem_ReadDir (name : string) : M (list DirEntry) :=
  let! entries := sys (ReadDir name) in
  ret (map id entries).

(** The methods of [iface.FileSystem], each by the function of package os. *)
Definition OSFileSystem (c : call) : io (resp c) :=
  match c return io (resp c) with
  | ReadDir name => OSFileSystem_ReadDir name
  | c => sys c
  end.

(** ** mount.go, hostname.go *)

Definition LinuxMounter_Mount (device target mType options : string) : M unit :=
  doMount device target mType options.
Definition LinuxMounter_ForceMount (device target mType options : string) : M unit :=
  doForceMount device target mType options.
Definition LinuxMounter_Mounted (target : string) : M bool := isMounted target.
Definition LinuxMounter_Unmount (target : string) (flags : Z) : M unit := doUnmount target flags.

Definition LinuxHostnameSetter_SetHostname (name : string) : M unit := sys (SysSethostname name).

(** ** command.go *)

Definition ShellRunner_Run (name : string) (args : list string) : M unit := sys (ExecRun name args).

Definition ShellRunner_RunOutput `{UnicodeTables} (name : string) (args : list string) : M string :=
  let! out := sys (ExecOutput name args) in ret (strings_TrimSpace out).

Definition ShellRunner_RunWithStdin (stdin name : string) (args : list string) : M unit :=
  sys (ExecRunStdin stdin name args).

Definition ShellRunner_RunShell (command : string) : M unit :=
  wrapf "failed to run %s: %w" [command] (sys (ExecRun "sh" ["-c"; command])).

Definition ShellRunner_RunWithEnv (env : list string) (name : string) (args : list string) : M unit :=
  let* environ := sys Environ in
  sys (ExecRunEnv name args (environ ++ env)).

(** ** module.go *)

(** The keys of the map: the first field of every line. *)
Definition LoadedModules : M (gset string) :=
  let! f := sys (Open "/proc/modules") in
  let* '(content, rerr) := sys (FileReadAll f) in
  let '(lines, err) := bufio_Scan content rerr in
  let loaded := list_to_set (map (fun l => default "" (head (strings_SplitN l " " 2))) lines) in
  let* _ := ignore (sys (FileClose f)) in
  Ret (match err with Some e => Err e | None => Ok loaded end).

Definition LoadModule_impl (name params : string) : M unit := sys (ModprobeLoad name params).

(** ** sysctl.go *)

Definition sysctl_path (root key : string) : string :=
  let root := if bool_decide (root = "") then "/proc/sys" else root in
  path_Join (root :: strings_Split key ".").

Definition SysctlSet (root key value : string) : M unit :=
  sys (WriteFile (sysctl_path root key) value (oct 644)).

(** ** unsupported.go, and those of packages mount and virt *)

Module Unsupported.

Definition unsupported {A} (operation : string) : M A :=
  fail (Errorf "%s is only supported on linux" [operation]).

Definition LoadedModules : M (list string) := unsupported "loaded modules".
Definition LoadModule (name params : string) : M unit := unsupported "load module".
Definition SysctlSet (key value : string) : M unit := unsupported "set sysctl".
Definition Mount (device target mType options : string) : M unit := unsupported "mount".
Definition ForceMount (device target mType options : string) : M unit := unsupported "force mount".
Definition Mounted (target : string) : M bool := unsupported "mounted".
Definition SetHostname (name : string) : M unit := unsupported "set hostname".
Definition VirtDetect : M (list string) := ret [].

(** The functions of package mount. *)
Definition mount_unsupported {A} (operation : string) : M A :=
  fail (Errorf "%s is only supported on linux" [operation]).

Definition mount_Mounted (target : string) : M bool := mount_unsupported "mounted".
Definition mount_Mount (device target mType options : string) : M unit := mount_unsupported "mount".
Definition mount_ForceMount (device target mType options : string) : M unit :=
  mount_unsupported "force mount".
Definition mount_Unmount (target : string) (flags : Z) : M unit := mount_unsupported "unmount".

(** What runs there behind each of these interfaces.  The mounter has no [Unmount] there; package
    mount has. *)
Definition adapter (c : call) : io (resp c) :=
  match c return io (resp c) with
  | OS.LoadedModules => LoadedModules
  | OS.LoadModule name params => LoadModule name params
  | OS.SysctlSet key value => SysctlSet key value
  | OS.Mount device target mType options => Mount device target mType options
  | OS.ForceMount device target mType options => ForceMount device target mType options
  | OS.Mounted target => Mounted target
  | OS.Unmount target flags => mount_Unmount target flags
  | OS.SetHostname name => SetHostname name
  | OS.VirtDetect => VirtDetect
  | c => sys c
  end.

(** None of them does anything, and each but the last returns an error. *)
Lemma adapter_stub c : (adapter c = sys c) \/ exists r, adapter c = Ret r.
Proof. destruct c; first [by left | right; by eexists]. Qed.
End Unsupported.

(** ** What a sysctl can write *)

Lemma Split_chars s sep e x : e ∈ strings_Split s sep -> x ∈ chars e -> x ∈ chars s.
Proof.
  revert e. induction s as [|c s IH]; intros e; cbn [strings_Split chars].
  - intros ->%list_elem_of_singleton. done.
  - destruct (Ascii.eqb c sep).
    + intros [->|He]%elem_of_cons Hx; [by apply elem_of_nil in Hx|]. right. by apply (IH e).
    + destruct (strings_Split s sep) as [|w ws].
      * intros ->%list_elem_of_singleton [->|Hx]%elem_of_cons; [left|by apply elem_of_nil in Hx].
      * intros [->|He]%elem_of_cons Hx; [|right; apply (IH e); [by right|done]].
        cbn [chars] in Hx. apply elem_of_cons in Hx as [->|Hx]; [left|right].
        by apply (IH w); [left|].
Qed.

Lemma Join_chars es sep x : x ∈ chars (strings_Join es sep) -> x ∈ chars sep \/ exists e, e ∈ es /\ x ∈ chars e.
Proof.
  induction es as [|e es IH]; cbn [strings_Join]; [by intros H%elem_of_nil|].
  destruct es as [|e' es]; [intros H; right; exists e; by split; [left|]|].
  rewrite !chars_app, !elem_of_app. intros [H|[H|H]]; [right; exists e; by split; [left|]|by left|].
  destruct (IH H) as [H'|(y & Hy & Hx)]; [by left|]. right. exists y. by split; [right|].
Qed.

(** Elements without a dot never lead up. *)
Lemma clean_fold_up rooted es out :
  Forall (fun e => e = "" \/ plain_name e) es ->
  fold_left (clean_step rooted) es out = rev (filter (fun e => e <> "") es) ++ out.
Proof.
  intros Hes. revert out. induction Hes as [|e es He Hes IH]; intros out; [done|]. cbn [fold_left].
  destruct He as [->|He].
  - rewrite filter_cons_False by (by intros []). by rewrite IH.
  - rewrite clean_step_plain by done. rewrite filter_cons_True by apply He. cbn [rev].
    by rewrite IH, <- (assoc_L app).
Qed.

Lemma sysctl_parts key :
  Forall (fun e => e = "" \/ plain_name e)
    (strings_Split (strings_Join (filter (fun e => e <> "") (strings_Split key ".")) "/") "/").
Proof.
  apply Forall_forall. intros e He. destruct (decide (e = "")) as [|Hne]; [by left|right].
  assert ("/"%char ∉ chars e) as Hslash by (by eapply Forall_forall in He; [|apply Split_parts]).
  assert ("."%char ∉ chars e) as Hdot.
  { intros Hin. pose proof (Split_chars _ _ _ _ He Hin) as Hj.
    apply Join_chars in Hj as [Hj|(y & Hy & Hx)]; [by apply list_elem_of_singleton in Hj|].
    apply list_elem_of_filter in Hy as [_ Hy]. revert Hx. by eapply Forall_forall in Hy; [|apply Split_parts]. }
  unfold plain_name. split_and!; try done; intros ->; apply Hdot; left.
Qed.

Lemma sysctl_path_confined key :
  exists es, Forall plain_name es /\ sysctl_path "" key = abs_path ("proc" :: "sys" :: es).
Proof.
  set (es := filter (fun e => e <> "") (strings_Split key ".")).
  set (parts := strings_Split (strings_Join es "/") "/").
  exists (filter (fun e => e <> "") parts). split.
  { apply Forall_forall. intros e [Hne He]%list_elem_of_filter.
    by destruct (proj1 (Forall_forall _ _) (sysctl_parts key) e He). }
  unfold sysctl_path. rewrite bool_decide_true by done. unfold path_Join.
  rewrite filter_cons_True by done. fold es.
  assert (strings_Split (strings_Join ("/proc/sys" :: es) "/") "/" = "" :: "proc" :: "sys" :: parts \/
    (es = [] /\ strings_Split (strings_Join ("/proc/sys" :: es) "/") "/" = ["";"proc";"sys"])) as Hsplit.
  { unfold parts. destruct es as [|e es']; [by right|left]. done. }
  unfold path_Clean. 
  assert (path_rooted (strings_Join ("/proc/sys" :: es) "/") = true) as -> by (by destruct es).
  unfold clean_elems, abs_path. do 2 f_equal.
  assert (forall l, Forall (fun e => e = "" \/ plain_name e) l ->
    fold_left (clean_step true) ("" :: "proc" :: "sys" :: l) [] = rev (filter (fun e => e <> "") l) ++ ["sys"; "proc"]) as Hc.
  { intros l Hl. cbn [fold_left]. change (clean_step true (clean_step true (clean_step true [] "") "proc") "sys")
      with ["sys"; "proc"]. by apply clean_fold_up. }
  destruct Hsplit as [->|[Hes ->]].
  - rewrite Hc by apply sysctl_parts. rewrite rev_app_distr, rev_involutive. done.
  - rewrite (Hc []) by constructor. unfold parts. by rewrite Hes.
Qed.

(** ** Finding a device by its label *)

(** A machine with symbolic links. *)
Abbreviation links := (gmap string string).

Definition link_world (c : call) (w : links) : resp c * links :=
  match c return resp c * links with
  | Symlink target p =>
      match w !! p with
      | Some _ => (Err (ErrSys "symlink" p EEXIST), w)
      | None => (Ok tt, <[p := target]> w)
      end
  | Remove p =>
      match w !! p with
      | Some _ => (Ok tt, delete p w)
      | None => (Err (ErrSys "remove" p ENOENT), w)
      end
  | Readlink p =>
      (match w !! p with Some t => Ok t | None => Err (ErrSys "readlink" p ENOENT) end, w)
  | c => (all_ok c, w)
  end.

Lemma Contains_char s c : c ∉ chars s -> strings_Contains s (String c "") = false.
Proof.
  induction s as [|x s IH]; intros Hc; [done|]. cbn [strings_Contains String.prefix].
  destruct (ascii_dec c x) as [->|]; [destruct Hc; left|]. cbn [orb]. apply IH. intros H. apply Hc. by right.
Qed.

Lemma label_path label : plain_name label ->
  path_Join ["/dev/disk/by-label"; label] = abs_path ["dev"; "disk"; "by-label"; label].
Proof. intros Hl. change "/dev/disk/by-label" with (abs_path ["dev"; "disk"; "by-label"]). by rewrite path_Join_abs by plain_list. Qed.

(** The target of a link in /dev/disk/by-label, from there. *)
Lemma target_path dev : plain_name dev ->
  path_Clean (path_Join ["/dev/disk/by-label"; "../../" +:+ dev]) = "/dev/" +:+ dev.
Proof.
  intros Hd. unfold path_Join. rewrite !filter_cons_True, filter_nil by done.
  assert (path_Clean (strings_Join ["/dev/disk/by-label"; "../../" +:+ dev] "/") = abs_path ["dev"; dev]) as ->.
  { change (strings_Join ["/dev/disk/by-label"; "../../" +:+ dev] "/")
      with (strings_Join ["";"dev";"disk";"by-label";"..";"..";dev] "/").
    unfold path_Clean. change (path_rooted _) with true. cbn beta iota.
    rewrite Split_Join; [|done|].
    - unfold clean_elems. cbn [fold_left].
      change (clean_step true (clean_step true (clean_step true (clean_step true (clean_step true
        (clean_step true [] "") "dev") "disk") "by-label") "..") "..") with ["dev"].
      by rewrite clean_step_plain.
    - repeat constructor; try (refine (bool_decide_unpack _ _); by vm_compute). apply Hd. }
  by rewrite path_Clean_abs by plain_list.
Qed.

Lemma FindByLabel_plain label dev (w : links) h :
  plain_name label -> strings_Contains label ".." = false -> plain_name dev ->
  w !! abs_path ["dev"; "disk"; "by-label"; label] = Some ("../../" +:+ dev) ->
  fst (run link_world (FindByLabel label) w h) = (Done (Ok ("/dev/" +:+ dev)), w).
Proof.
  intros Hl Hdots Hd Hw. unfold FindByLabel. rewrite Contains_char by apply Hl. rewrite Hdots. cbn [orb].
  rewrite label_path by done. cbn [bindE wrapf bind sys perform run link_world]. rewrite Hw.
  cbn [bind run]. change (path_IsAbs ("../../" +:+ dev)) with false. cbn iota.
  by rewrite target_path.
Qed.

(** ** Properties *)

(** No sysctl key reaches out of /proc/sys: whatever the key, the one file written is
    /proc/sys itself or lies below it, on a path of plain names. *)
Theorem SysctlSet_confined key value h o :
  exec any_resp (SysctlSet "" key value) [] h o ->
  Forall (fun e => exists es, Forall plain_name es /\
    ev_call e = WriteFile (abs_path ("proc" :: "sys" :: es)) value (oct 644)) h /\ (List.length h <= 1)%nat.
Proof.
  intros Hex. destruct (sysctl_path_confined key) as (es & Hes & Hp).
  assert (wp any_resp (fun h c => h = [] /\ c = WriteFile (abs_path ("proc" :: "sys" :: es)) value (oct 644))
    (SysctlSet "" key value) (fun _ _ => True) []) as Hwp.
  { unfold SysctlSet. rewrite Hp. by cbn. }
  destruct (wp_sound _ _ _ _ _ _ _ Hwp Hex) as [Hg _]. destruct Hg as [|e h' Hg [-> He]]; [by split; [constructor|cbn; lia]|].
  split; [|cbn; lia]. repeat constructor. by exists es.
Qed.

(** C36: what populating /dev links, the block prober finds.  Once [createSymlink] has linked a device
    under a label (a plain name without two dots in a row), whatever was linked before, it succeeds,
    changes no other link, and [FindByLabel] returns the device's path under /dev. *)
Theorem createSymlink_FindByLabel label dev (w : links) :
  plain_name label -> strings_Contains label ".." = false -> plain_name dev ->
  exists w', fst (run link_world (createSymlink "/dev" "by-label" label dev) w []) = (Done (Ok tt), w') /\
    (forall p, p <> abs_path ["dev"; "disk"; "by-label"; label] -> w' !! p = w !! p) /\
    fst (run link_world (FindByLabel label) w' []) = (Done (Ok ("/dev/" +:+ dev)), w').
Proof.
  intros Hl Hdots Hd. set (link := abs_path ["dev"; "disk"; "by-label"; label]).
  exists (<[link := "../../" +:+ dev]> (delete link w)). split_and!.
  - unfold createSymlink. change (path_Join ["/dev"; "disk"; "by-label"]) with "/dev/disk/by-label".
    rewrite label_path, path_Join_up by done. fold link.
    cbn [bindE wrapf bind sys perform run link_world all_ok ignore].
    destruct (w !! link) as [t|] eqn:Hw; cbn [run bind link_world].
    + by rewrite lookup_delete_eq.
    + rewrite Hw. cbn [bind run fst]. by rewrite delete_id.
  - intros p Hp. by rewrite lookup_insert_ne, lookup_delete_ne.
  - apply FindByLabel_plain; try done. apply lookup_insert_eq.
Qed.

Lemma SysctlSet_confined_witness :
  Forall (fun e => exists es, Forall plain_name es /\
    ev_call e = WriteFile (abs_path ("proc" :: "sys" :: es)) "1" (oct 644))
    (history (fun _ => None) (SysctlSet "" "../../../etc/shadow" "1")) /\
  map ev_call (history (fun _ => None) (SysctlSet "" "../../../etc/shadow" "1")) =
    [WriteFile "/proc/sys/etc/shadow" "1" (oct 644)].
Proof.
  split; [|vm_compute; reflexivity].
  exact (proj1 (SysctlSet_confined "../../../etc/shadow" "1" _ _
    (world_exec (fun _ => None) (SysctlSet "" "../../../etc/shadow" "1")))).
Defined.

Lemma createSymlink_FindByLabel_witness :
  exists w', fst (run link_world (FindByLabel "K3OS_STATE") w' []) = (Done (Ok "/dev/sda1"), w').
Proof.
  assert (plain_name "K3OS_STATE") as Hl by plain_names.
  assert (plain_name "sda1") as Hd by plain_names.
  destruct (createSymlink_FindByLabel "K3OS_STATE" "sda1" ∅ Hl eq_refl Hd) as (w' & _ & _ & H).
  exists w'. exact H.
Defined.
