(* ===== verification/Walk.v ===== *)
(** * Walk: [filepath.Walk] of Go's standard library, over the calls of [OS], with the rule to reason
    about a walk.

    [info.Sys().( *syscall.Stat_t)] of a [FileInfo] is the second component of what [Lstat] answers.
    The error a callback returns is [Stop], unless it is the value [filepath.SkipDir]. *)

From S2P Require Import Prelude GoStrings GoPath Effects OS.
Open Scope string_scope.
Open Scope list_scope.
Open Scope go_scope.

(** What a callback answers. *)
Inductive walked := Continue | SkipDir | Stop (e : error).

(** [filepath.WalkFunc]. *)
Abbreviation WalkFunc := (string -> option (FileInfo * SysStat) -> option error -> io walked).

(** The loop over the names of a directory; [walk_one] is the walk of one entry. *)
Fixpoint walk_names (fn : WalkFunc) (walk_one : string -> FileInfo * SysStat -> io walked)
  (path : string) (names : list string) : io walked :=
  match names with
  | [] => Ret Continue
  | name :: names' =>
      let filename := path_Join [path; name] in
      let* fileInfo := sys (LstatSys filename) in
      match fileInfo with
      | Err e =>
          let* r := fn filename None (Some e) in
          match r with Stop e => Ret (Stop e) | _ => walk_names fn walk_one path names' end
      | Ok fileInfo =>
          let* r := walk_one filename fileInfo in
          match r with
          | Continue => walk_names fn walk_one path names'
          | SkipDir => if fi_IsDir (fst fileInfo) then walk_names fn walk_one path names' else Ret SkipDir
          | Stop e => Ret (Stop e)
          end
      end
  end.

(** [fuel] bounds the depth. *)
Fixpoint walk (fuel : nat) (fn : WalkFunc) (path : string) (info : FileInfo * SysStat) : io walked :=
  match fuel with
  | O => Halt OutOfFuel
  | S fuel =>
      if negb (fi_IsDir (fst info)) then fn path (Some info) None
      else
        let* names := sys (ReadDirNames path) in
        let* err1 := fn path (Some info) (match names with Err e => Some e | Ok _ => None end) in
        match names, err1 with
        | Ok names, Continue => walk_names fn (walk fuel fn) path names
        | _, _ => Ret err1
        end
  end.

Definition filepath_Walk (fuel : nat) (root : string) (fn : WalkFunc) : M unit :=
  let* info := sys (LstatSys root) in
  let* err := match info with
              | Err e => fn root None (Some e)
              | Ok info => walk fuel fn root info
              end in
  match err with Stop e => fail e | _ => ret tt end.

(** A callback that starts with [if err != nil { return err }]: there is an [info] then. *)
Definition walk_fn (f : string -> FileInfo -> SysStat -> io walked) : WalkFunc := fun path info err =>
  match err, info with
  | Some e, _ => Ret (Stop e)
  | None, Some (info, stat) => f path info stat
  | None, None => Halt (Panic "nil pointer dereference")
  end.

(** ** Relies *)

(** Linux: a path of [PATH_MAX] = 4096 bytes, its final zero byte counted, or more is refused; the
    names of a directory are single path elements. *)
Definition walk_rely : @rely call resp := fun _ c =>
  match c return resp c -> Prop with
  | LstatSys p => fun r => match r with Ok _ => (String.length p < 4096)%nat | Err _ => True end
  | ReadDirNames _ => fun r => match r with Ok ns => Forall plain_name ns | Err _ => True end
  | _ => fun _ => True
  end.

(** A depth no walk from the root exceeds. *)
Definition PATH_MAX : nat := 4096.

Lemma abs_path_length es : Forall plain_name es -> (List.length es <= String.length (abs_path es))%nat.
Proof.
  intros Hes. unfold abs_path.
  enough (List.length es <= S (String.length (strings_Join es "/")))%nat
    by (change ("/" +:+ ?x) with (String "/" x); cbn [String.length]; lia).
  induction Hes as [|e es He _ IH]; [cbn; lia|].
  assert (1 <= String.length e)%nat by (destruct He as [He _]; destruct e; [done|cbn; lia]).
  destruct es as [|e' es]; [cbn; lia|]. cbn [strings_Join List.length] in *.
  rewrite <- length_chars, !chars_app, !length_app, !length_chars. cbn [chars List.length] in *. lia.
Qed.

Lemma path_Join_root n : plain_name n -> path_Join ["/"; n] = abs_path [n].
Proof.
  intros Hn. unfold path_Join. rewrite filter_cons_True by done. rewrite filter_cons_True by apply Hn.
  rewrite filter_nil. cbn [strings_Join].
  unfold path_Clean. change ("/" +:+ "/" +:+ n) with (String "/" (String "/" n)).
  replace (path_rooted _) with true by done. unfold abs_path, clean_elems. cbn [strings_Join]. f_equal.
  cbn [strings_Split]. rewrite Ascii.eqb_refl. rewrite Split_no_sep by apply Hn. cbn [fold_left].
  change (clean_step true [] "") with (@nil string). cbn [fold_left].
  change (clean_step true [] "") with (@nil string). rewrite clean_step_plain by done. done.
Qed.

Lemma abs_path_inj_all es es' :
  Forall plain_name es -> Forall plain_name es' -> abs_path es = abs_path es' -> es = es'.
Proof.
  intros H H' Heq. destruct es as [|e es], es' as [|e' es']; [done| | |by apply abs_path_inj].
  - apply Forall_cons in H' as [[He' _] _]. exfalso. apply sapp_inj_l in Heq. cbn [strings_Join] in Heq.
    destruct es' as [|x es']; destruct e' as [|c e']; done.
  - apply Forall_cons in H as [[He _] _]. exfalso. apply sapp_inj_l in Heq. cbn [strings_Join] in Heq.
    destruct es as [|x es]; destruct e as [|c e]; done.
Qed.

(** An entry of a directory with these elements; the root has none. *)
Lemma path_Join_entry es n :
  Forall plain_name es -> plain_name n -> path_Join [abs_path es; n] = abs_path (es ++ [n]).
Proof.
  intros Hes Hn. destruct es as [|e es]; [by apply path_Join_root|]. by apply path_Join_abs.
Qed.

(** ** The rule of a walk *)

(** Events that are not looks of the walk. *)
Definition no_look (e : ev) : Prop :=
  match ev_call e with LstatSys _ | ReadDirNames _ => False | _ => True end.

(** The entry a look found. *)
Definition look_of (e : ev) : option (string * (FileInfo * SysStat)) :=
  match ev_call e as c return resp c -> option (string * (FileInfo * SysStat)) with
  | LstatSys p => fun r => match r with Ok x => Some (p, x) | Err _ => None end
  | _ => fun _ => None
  end (ev_resp e).

Section Rule.
Context (R : @rely call resp) (G : @guar call resp) (f : string -> FileInfo -> SysStat -> io walked).
(** What is known all along, what a visit does to an entry, which directories are skipped. *)
Context (Base : list ev -> Prop) (T : list string -> FileInfo -> SysStat -> list ev -> Prop)
  (skip : list string -> FileInfo -> SysStat -> Prop).

(** An entry was visited and, unless it is a directory that is skipped, so was every name in it. *)
Definition visited_entry (es : list string) (info : FileInfo) (st : SysStat) (new : list ev) : Prop :=
  T es info st new /\
  (fi_IsDir info = true -> skip es info st \/
   exists names, Ev (ReadDirNames (abs_path es)) (Ok names) ∈ new /\
     forall n, n ∈ names -> exists x, Ev (LstatSys (abs_path (es ++ [n]))) (Ok x) ∈ new).

(** So was everything that was looked at. *)
Definition visited (new : list ev) : Prop :=
  forall es info st, Forall plain_name es -> Ev (LstatSys (abs_path es)) (Ok (info, st)) ∈ new ->
    visited_entry es info st new.

(** What a callback must do with an entry. *)
Definition visit_post (es : list string) (info : FileInfo) (st : SysStat) (h : list ev)
  (o : outcome walked) (h' : list ev) : Prop :=
  match o with
  | Done (Stop _) | Running => True
  | Halted _ => False
  | Done w => exists new, h' = new ++ h /\ Forall no_look new /\ T es info st new /\
                (w = SkipDir -> fi_IsDir info = true /\ skip es info st)
  end.

Context (HR : forall h c r, R h c r -> walk_rely h c r).
Context (Hbase : forall e h, Base h -> Base (e :: h)).
Context (Hmono : forall es info st new new', (forall e, e ∈ new -> e ∈ new') -> T es info st new -> T es info st new').
Context (Hlook : forall h p, Base h -> G h (LstatSys p)) (Hlist : forall h p, Base h -> G h (ReadDirNames p)).
Context (Hvisit : forall es info st names h0 h, Forall plain_name es -> Base h ->
  h = (if fi_IsDir info then [Ev (ReadDirNames (abs_path es)) (Ok names)] else []) ++
      Ev (LstatSys (abs_path es)) (Ok (info, st)) :: h0 ->
  wp R G (f (abs_path es) info st) (visit_post es info st h) h).

Lemma Base_app new h : Base h -> Base (new ++ h).
Proof using Hbase. induction new; [done|]. intros H. by apply Hbase, IHnew. Qed.

Lemma visited_entry_mono es info st new new' :
  (forall e, e ∈ new -> e ∈ new') -> visited_entry es info st new -> visited_entry es info st new'.
Proof using Hmono.
  intros Hin [HT Hn]. split; [by eapply Hmono|]. intros Hd.
  destruct (Hn Hd) as [|(names & Hr & Hall)]; [by left|right]. exists names. split; [auto|].
  intros n Hn'. destruct (Hall n Hn') as [x Hx]. eauto.
Qed.

Lemma visited_app a b : visited a -> visited b -> visited (a ++ b).
Proof using Hmono.
  intros Ha Hb es info st Hes [Hin|Hin]%elem_of_app.
  - eapply visited_entry_mono; [|by apply Ha]. intros e He. apply elem_of_app. by left.
  - eapply visited_entry_mono; [|by apply Hb]. intros e He. apply elem_of_app. by right.
Qed.

(** The events of one entry, those of its contents on top. *)
Lemma visited_here es info st kids fnew read :
  Forall plain_name es -> Forall no_look fnew -> Forall (fun e => look_of e = None) read ->
  visited kids ->
  (let all := kids ++ fnew ++ read ++ [Ev (LstatSys (abs_path es)) (Ok (info, st))] in
   visited_entry es info st all -> visited all).
Proof using Hmono.
  intros Hes Hf Hread Hkids all Hentry es' info' st' Hes' Hin.
  unfold all in Hin. apply elem_of_app in Hin as [Hin|Hin].
  { eapply visited_entry_mono; [|by apply Hkids]. intros e He. apply elem_of_app. by left. }
  assert (look_of (Ev (LstatSys (abs_path es')) (Ok (info', st'))) = Some (abs_path es', (info', st')))
    as Hlk by done.
  apply elem_of_app in Hin as [Hin|Hin].
  { by apply (Forall_forall (fun e => no_look e) fnew) in Hin. }
  apply elem_of_app in Hin as [Hin|Hin].
  { rewrite Forall_forall in Hread. by rewrite Hread in Hlk. }
  apply list_elem_of_singleton in Hin. rewrite Hin in Hlk. cbn in Hlk. assert (abs_path es = abs_path es' /\ info = info' /\ st = st') as (Hp & -> & ->) by (split_and!; congruence).
  apply abs_path_inj_all in Hp as ->; done.
Qed.

(** The walk of one entry: it adds its visits. *)
Definition walk_post (es : list string) (info : FileInfo) (st : SysStat) (h : list ev)
  (o : outcome walked) (h' : list ev) : Prop :=
  match o with
  | Done (Stop _) | Running => True
  | Halted _ => False
  | Done w => (w = SkipDir -> fi_IsDir info = true) /\ exists new,
      h' = new ++ h /\ visited (new ++ [Ev (LstatSys (abs_path es)) (Ok (info, st))])
  end.

(** The walk of the names of a directory. *)
Definition names_post (es names : list string) (h : list ev) (o : outcome walked) (h' : list ev) : Prop :=
  match o with
  | Done (Stop _) | Running => True
  | Done SkipDir | Halted _ => False
  | Done Continue => exists kids, h' = kids ++ h /\ visited kids /\
      forall n, n ∈ names -> exists x, Ev (LstatSys (abs_path (es ++ [n]))) (Ok x) ∈ kids
  end.

Lemma walk_names_wp walk_one es names h :
  (forall n info st h, plain_name n -> Base h -> R h (LstatSys (abs_path (es ++ [n]))) (Ok (info, st)) ->
     wp R G (walk_one (abs_path (es ++ [n])) (info, st))
       (walk_post (es ++ [n]) info st (Ev (LstatSys (abs_path (es ++ [n]))) (Ok (info, st)) :: h))
       (Ev (LstatSys (abs_path (es ++ [n]))) (Ok (info, st)) :: h)) ->
  Forall plain_name es -> Forall plain_name names -> Base h ->
  wp R G (walk_names (walk_fn f) walk_one (abs_path es) names) (names_post es names h) h.
Proof using Hlook Hbase Hmono.
  intros Hone Hes Hns. revert h. induction Hns as [|n ns Hn _ IH]; intros h HB; cbn [walk_names wp].
  { exists []. split; [done|]. split; [by intros ? ? ? _ ?%elem_of_nil|by intros ? ?%elem_of_nil]. }
  rewrite path_Join_entry by done. cbn [bind sys perform wp]. split; [by apply Hlook|].
  intros [[info st]|e] Hr; [|done].
  apply wp_bind. eapply wp_mono; [|by apply Hone].
  set (top := Ev (LstatSys _) _).
  assert (forall kids, visited (kids ++ [top]) ->
    wp R G (walk_names (walk_fn f) walk_one (abs_path es) ns) (names_post es (n :: ns) h)
      (kids ++ top :: h)) as Hrest.
  { intros kids Hk. eapply wp_mono; [|apply IH; by apply Base_app, Hbase].
    intros [[| |e]|s|] h2; try done. intros (kids2 & -> & Hk2 & Hall). exists (kids2 ++ kids ++ [top]).
    split; [by rewrite <- !(assoc_L app)|]. split; [by apply visited_app|].
    intros n' [->|Hn']%elem_of_cons.
    - exists (info, st). apply elem_of_app. right. apply elem_of_app. right. left.
    - destruct (Hall n' Hn') as [x Hx]. exists x. apply elem_of_app. by left. }
  intros [[| |e]|s|] h1 H1; cbn [bind_post walk_post wp fst] in *; try done.
  - destruct H1 as (_ & kids & -> & Hk). by apply Hrest.
  - destruct H1 as (Hd & kids & -> & Hk). rewrite Hd by done. by apply Hrest.
Qed.

Lemma walk_wp fuel es info st h :
  Forall plain_name es -> Base h -> (PATH_MAX <= fuel + List.length es)%nat ->
  R h (LstatSys (abs_path es)) (Ok (info, st)) ->
  wp R G (walk fuel (walk_fn f) (abs_path es) (info, st))
    (walk_post es info st (Ev (LstatSys (abs_path es)) (Ok (info, st)) :: h))
    (Ev (LstatSys (abs_path es)) (Ok (info, st)) :: h).
Proof using All.
  revert es info st h. induction fuel as [|fuel IH]; intros es info st h Hes HB Hfuel Hr.
  { apply HR in Hr. cbn in Hr. pose proof (abs_path_length es Hes). unfold PATH_MAX in *. cbn in Hfuel. lia. }
  cbn [walk fst]. set (top := Ev (LstatSys _) _) in *. destruct (fi_IsDir info) eqn:Hd; cbn [negb].
  - cbn [bind sys perform wp]. split; [by apply Hlist, Hbase|]. intros [names|e] Hnames; cbn [walk_fn]; [|done].
    set (rd := Ev (ReadDirNames _) _) in *.
    apply wp_bind. eapply wp_mono; [|apply (Hvisit es info st names h); [done|by do 2 apply Hbase|by rewrite Hd]].
    intros [[| |e]|s|] h1 H1; cbn [bind_post visit_post wp walk_post] in *; try done.
    + destruct H1 as (fnew & -> & Hq & HT & _).
      eapply wp_mono; [|apply (walk_names_wp (walk fuel (walk_fn f)) es names)].
      * intros [[| |e]|s|] h2; try done. intros (kids & -> & Hk & Hall). split; [done|].
        exists (kids ++ fnew ++ [rd]). split; [by rewrite <- !(assoc_L app)|].
        rewrite <- !(assoc_L app). apply (visited_here es info st kids fnew [rd]); try done; [by repeat constructor|].
        split.
        -- eapply Hmono; [|exact HT]. intros e He. apply elem_of_app. right. apply elem_of_app. by left.
        -- intros _. right. exists names. split.
           ++ apply elem_of_app. right. apply elem_of_app. right. left.
           ++ intros n Hn. destruct (Hall n Hn) as [x Hx]. exists x. apply elem_of_app. by left.
      * intros n info' st' h2 Hn HB2 Hr2. apply IH; try done.
        -- by apply Forall_app_2; [|constructor].
        -- rewrite length_app. cbn. lia.
      * done.
      * by apply HR in Hnames.
      * by apply Base_app; do 2 apply Hbase.
    + destruct H1 as (fnew & -> & Hq & HT & Hs). split; [done|]. exists (fnew ++ [rd]).
      split; [by rewrite <- !(assoc_L app)|]. rewrite <- !(assoc_L app).
      apply (visited_here es info st [] fnew [rd]); try done; [by repeat constructor|by intros ? ? ? _ ?%elem_of_nil|].
      split; [|intros _; left; by apply Hs].
      eapply Hmono; [|exact HT]. intros e He. apply elem_of_app. right. apply elem_of_app. by left.
  - cbn [walk_fn]. eapply wp_mono; [|apply (Hvisit es info st [] h); [done|by apply Hbase|by rewrite Hd]].
    intros [w|s|] h1 H1; [|done|done]. unfold visit_post, walk_post in *.
    destruct w as [| |e]; [| |done]; destruct H1 as (fnew & -> & Hq & HT & Hs);
      (split; [intros Hw; by destruct (Hs Hw) as [? _]|]); exists fnew;
      (split; [done|]);
      (apply (visited_here es info st [] fnew []); try done; [by intros ? ? ? _ ?%elem_of_nil|]);
      (split; [|by rewrite Hd]);
      (eapply Hmono; [|exact HT]; intros e He; apply elem_of_app; right; apply elem_of_app; by left).
Qed.

(** The walk from the root: the root was looked at, and everything below it visited. *)
Lemma filepath_Walk_wp h :
  Base h ->
  wp R G (filepath_Walk PATH_MAX "/" (walk_fn f))
    (fun o h' => match o with
                 | Done (Err _) | Running => True
                 | Halted _ => False
                 | Done (Ok _) => exists new x, h' = new ++ Ev (LstatSys "/") (Ok x) :: h /\
                                    visited (new ++ [Ev (LstatSys "/") (Ok x)])
                 end) h.
Proof using All.
  intros HB. unfold filepath_Walk. change "/" with (abs_path []).
  cbn [bind sys perform wp]. split; [by apply Hlook|]. intros [[info st]|e] Hr; [|done].
  apply wp_bind. eapply wp_mono; [|apply walk_wp; try done; cbn; lia].
  intros [[| |e]|s|] h1 H1; cbn [bind_post walk_post wp] in *; try done.
  - destruct H1 as (_ & new & -> & Hv). by exists new, (info, st).
  - destruct H1 as (_ & new & -> & Hv). by exists new, (info, st).
Qed.
End Rule.
