(* ===== verification/TransferRoot.v ===== *)
(** * TransferRoot: package [internal/transferroot], moving the root file system to a fresh tmpfs.

    [info.Sys()] of a [FileInfo] is the [SysStat] next to it.  The buffer of [io.CopyBuffer] is not
    modelled: copying is one call.  [UtimesNanoAt] is called with [AT_SYMLINK_NOFOLLOW]. *)

From S2P Require Import Prelude GoStrings GoPath Effects OS MountPkg Walk.
Open Scope string_scope.
Open Scope list_scope.
Open Scope go_scope.

Definition relocated : string := "K3OS_RELOCATED".
Definition nextInit : string := "/init".

(** The bits of [os.FileMode] that tell the type. *)
Definition ModeDevice : Z := Z.shiftl 1 26.
Definition ModeNamedPipe : Z := Z.shiftl 1 25.
Definition ModeSocket : Z := Z.shiftl 1 24.
Definition ModeCharDevice : Z := Z.shiftl 1 21.
Definition ModeIrregular : Z := Z.shiftl 1 19.
Definition ModeType : Z :=
  fold_right Z.lor 0%Z
    [ModeDir; ModeSymlink; ModeNamedPipe; ModeSocket; ModeDevice; ModeCharDevice; ModeIrregular].

Definition has_mode (i : FileInfo) (m : Z) : bool := (Z.land (fi_mode i) m =? m)%Z.
Definition fi_IsRegular (i : FileInfo) : bool := (Z.land (fi_mode i) ModeType =? 0)%Z.

Definition O_WRONLY_CREATE : Z := Z.lor 1 64.
Definition MS_MOVE : Z := 8192.

(** Ownership and timestamps. *)
Definition copyMetadata (info : FileInfo) (stat : SysStat) (path : string) : M unit :=
  let! _ := sys (Lchown path (st_uid stat) (st_gid stat)) in
  let! _ := sys (UtimesNanoAt path (st_atim stat) (st_mtim stat)) in
  if fi_IsSymlink info then ret tt else sys (Chmod path (fi_mode info)).

(** [if err := ...; err != nil { return err }] in a callback of a walk. *)
Definition or_stop {A} (p : M A) (k : A -> io walked) : io walked :=
  let* r := p in match r with Ok a => k a | Err e => Ret (Stop e) end.

Section CopyFS.
Context (newRoot : string) (rootDev : Z).

(** The first walk: the directories. *)
Definition copy_directory (path : string) (info : FileInfo) (stat : SysStat) : io walked :=
  if negb (fi_IsDir info) then Ret Continue
  else
    let dest := path_Join [newRoot; path] in
    or_stop (if bool_decide (path = "/") then sys (Chmod newRoot (fi_mode info))
             else sys (Mkdir dest (fi_mode info))) (fun _ =>
    or_stop (copyMetadata info stat dest) (fun _ =>
    Ret (if bool_decide (rootDev <> st_dev stat) then SkipDir else Continue))).

(** A regular file: copied, closed, and only then removed. *)
Definition move_regular (path dest : string) (info : FileInfo) : M unit :=
  let! newfile := sys (OpenFile dest O_WRONLY_CREATE (fi_mode info)) in
  let! old := sys (Open path) in
  let! _ := sys (CopyBuffer newfile old) in
  let! _ := sys (FileClose old) in
  let! _ := sys (FileClose newfile) in
  let* _ := ignore (sys (Remove path)) in
  ret tt.

Definition move_entry (path dest : string) (info : FileInfo) (stat : SysStat) : M unit :=
  if fi_IsRegular info then move_regular path dest info
  else if has_mode info ModeSymlink then
    let! link := sys (Readlink path) in
    sys (Symlink link dest)
  else if has_mode info ModeDevice then sys (SysMknod dest (fi_mode info) (st_rdev stat))
  else if has_mode info ModeNamedPipe then sys (SysMkfifo dest (fi_mode info))
  else if has_mode info ModeSocket then fail (ErrText "unsupported socket on rootfs")
  else fail (ErrText "unknown file type").

(** The second walk: everything else. *)
Definition move_file (path : string) (info : FileInfo) (stat : SysStat) : io walked :=
  if bool_decide (rootDev <> st_dev stat) && fi_IsDir info then Ret SkipDir
  else
    let dest := path_Join [newRoot; path] in
    if fi_IsDir info then Ret Continue
    else
      or_stop (move_entry path dest info stat) (fun _ =>
      or_stop (copyMetadata info stat dest) (fun _ => Ret Continue)).

(** The third walk: what is left of the old root. *)
Definition delete_entry (path : string) (info : FileInfo) (stat : SysStat) : io walked :=
  if bool_decide (path = "/") then Ret Continue
  else if fi_IsDir info then
    if bool_decide (rootDev <> st_dev stat) then Ret SkipDir
    else
      let* _ := ignore (sys (RemoveAll path)) in Ret SkipDir
  else
    let* _ := ignore (sys (Remove path)) in Ret Continue.

(** The walks, and the move of the new root over the old. *)
Definition copy_trees : M unit :=
  let! _ := filepath_Walk PATH_MAX "/" (walk_fn copy_directory) in
  filepath_Walk PATH_MAX "/" (walk_fn move_file).

Definition switch_root : M unit :=
  let! _ := sys (Chdir newRoot) in
  let! _ := filepath_Walk PATH_MAX "/" (walk_fn delete_entry) in
  let! _ := sys (SysMount "." "/" "" MS_MOVE "") in
  let! _ := sys (SysChroot ".") in
  sys (Chdir "/").
End CopyFS.

Definition copyFS (newRoot : string) : M unit :=
  let! '(_, stat) := sys (StatSys "/") in
  let! _ := sys (SysMount "rootfs" newRoot "tmpfs" 0 "") in
  let! _ := copy_trees newRoot (st_dev stat) in
  switch_root newRoot (st_dev stat).

(** File systems that live in memory, as [statfs] names them. *)
Definition ramfsMagic : Z := -2054924042.
Definition tmpfsMagic : Z := 16914836.

Definition Relocate : io unit :=
  let* env := sys (Getenv relocated) in
  if bool_decide (env = "true") then ignore (sys (Unsetenv relocated))
  else
    let* sfs := sys (SysStatfs ".") in
    match sfs with
    | Err _ => Halt (ExitWith 1)
    | Ok type =>
        if (type =? ramfsMagic)%Z || (type =? tmpfsMagic)%Z then
          let newRoot := "/mnt" in
          let* r := sys (MkdirAll newRoot (oct 755)) in
          if negb (is_ok r) then Halt (ExitWith 1)
          else
            let* r := copyFS newRoot in
            if negb (is_ok r) then Halt (ExitWith 1)
            else
              let* env := sys Environ in
              let* r := sys (SysExec nextInit [nextInit] (env ++ ["K3OS_RELOCATED=true"])) in
              if negb (is_ok r) then Halt (ExitWith 1) else Ret tt
        else Ret tt
    end.
