(* ===== verification/TransferRootSpec.v ===== *)
(** * TransferRootSpec: what moving the root file system does, and in which order. *)

From S2P Require Import Prelude GoStrings GoPath Effects OS MountPkg Walk TransferRoot.
Open Scope string_scope.
Open Scope list_scope.
Open Scope go_scope.

(** ** Names in the new root *)

Definition newRoot : string := "/mnt".

(** Where the entry with these path elements goes. *)
Definition dest (es : list string) : string := abs_path ("mnt" :: es).

Lemma plain_mnt : plain_name "mnt".
Proof. plain_names. Qed.

Lemma dest_join es : Forall plain_name es -> path_Join [newRoot; abs_path es] = dest es.
Proof.
  intros Hes. unfold path_Join. rewrite !filter_cons_True, filter_nil by done. cbn [strings_Join].
  unfold path_Clean, dest, abs_path.
  replace (path_rooted _) with true by done. f_equal. f_equal. unfold clean_elems.
  change (newRoot +:+ "/" +:+ "/" +:+ strings_Join es "/")
    with ("" +:+ String "/" ("mnt" +:+ String "/" ("" +:+ String "/" (strings_Join es "/")))).
  rewrite Split_app by apply not_elem_of_nil. rewrite Split_app by apply plain_mnt.
  rewrite Split_app by apply not_elem_of_nil. cbn [fold_left].
  change (clean_step true [] "") with (@nil string). rewrite (clean_step_plain _ _ "mnt") by apply plain_mnt.
  change (clean_step true ["mnt"] "") with ["mnt"].
  destruct es as [|e es]; [done|]. rewrite Split_Join by (done || by apply plain_no_slash).
  rewrite clean_fold_plain by done. by rewrite rev_app_distr, rev_involutive.
Qed.

(** ** What is promised of every call *)

Section Spec.

Definition tmpfs_mounted (h : list ev) : Prop :=
  Ev (SysMount "rootfs" newRoot "tmpfs" 0 "") (Ok tt) ∈ h.

(** A path in the new root, once that is mounted. *)
Definition in_new (p : string) (h : list ev) : Prop :=
  tmpfs_mounted h /\ exists es, Forall plain_name es /\ p = dest es.

(** The device of the root file system. *)
Definition root_device (dev : Z) (h : list ev) : Prop :=
  exists info st, Ev (StatSys "/") (Ok (info, st)) ∈ h /\ st_dev st = dev.

(** The file was copied and both files closed: these were the last calls. *)
Definition just_copied (p : string) (h : list ev) : Prop :=
  exists es newfile old mode older, Forall plain_name es /\ p = abs_path es /\
    h = Ev (FileClose newfile) (Ok tt) :: Ev (FileClose old) (Ok tt) ::
        Ev (CopyBuffer newfile old) (Ok tt) :: Ev (Open p) (Ok old) ::
        Ev (OpenFile (dest es) O_WRONLY_CREATE mode) (Ok newfile) :: older.

(** What copying an entry leaves behind. *)
Definition metadata_copied (es : list string) (info : FileInfo) (st : SysStat) (h : list ev) : Prop :=
  Ev (Lchown (dest es) (st_uid st) (st_gid st)) (Ok tt) ∈ h /\
  Ev (UtimesNanoAt (dest es) (st_atim st) (st_mtim st)) (Ok tt) ∈ h /\
  (fi_IsSymlink info = false -> Ev (Chmod (dest es) (fi_mode info)) (Ok tt) ∈ h).

Definition directory_made (es : list string) (info : FileInfo) (st : SysStat) (h : list ev) : Prop :=
  fi_IsDir info = true ->
  (es = [] \/ Ev (Mkdir (dest es) (fi_mode info)) (Ok tt) ∈ h) /\ metadata_copied es info st h.

Definition content_moved (es : list string) (info : FileInfo) (st : SysStat) (h : list ev) : Prop :=
  if fi_IsRegular info then exists newfile old r,
    Ev (OpenFile (dest es) O_WRONLY_CREATE (fi_mode info)) (Ok newfile) ∈ h /\
    Ev (Open (abs_path es)) (Ok old) ∈ h /\ Ev (CopyBuffer newfile old) (Ok tt) ∈ h /\
    Ev (FileClose newfile) (Ok tt) ∈ h /\ Ev (Remove (abs_path es)) r ∈ h
  else if has_mode info ModeSymlink then exists link,
    Ev (Readlink (abs_path es)) (Ok link) ∈ h /\ Ev (Symlink link (dest es)) (Ok tt) ∈ h
  else if has_mode info ModeDevice then
    Ev (SysMknod (dest es) (fi_mode info) (st_rdev st)) (Ok tt) ∈ h
  else has_mode info ModeNamedPipe = true /\ Ev (SysMkfifo (dest es) (fi_mode info)) (Ok tt) ∈ h.

Definition file_moved (es : list string) (info : FileInfo) (st : SysStat) (h : list ev) : Prop :=
  fi_IsDir info = false -> content_moved es info st h /\ metadata_copied es info st h.

(** Directories on other devices are not entered. *)
Definition foreign (dev : Z) (es : list string) (info : FileInfo) (st : SysStat) : Prop := dev <> st_dev st.

(** A walk over the whole old root that did this to every entry of it. *)
Definition whole_walk (T : list string -> FileInfo -> SysStat -> list ev -> Prop) (dev : Z)
  (new : list ev) : Prop :=
  exists body x, new = body ++ [Ev (LstatSys "/") (Ok x)] /\ visited T (foreign dev) new.

(** The directories were made in the new root, then everything else was moved there. *)
Definition all_moved (h : list ev) : Prop :=
  exists dev files dirs older, h = files ++ dirs ++ older /\ root_device dev older /\
    tmpfs_mounted older /\ whole_walk directory_made dev dirs /\ whole_walk file_moved dev files.

Definition entered (h : list ev) : Prop := Ev (Chdir newRoot) (Ok tt) ∈ h.

Definition relocate_guard : @guar call resp := fun h c =>
  match c with
  | Getenv _ | Unsetenv _ | SysStatfs _ | StatSys _ | Environ | LstatSys _ | ReadDirNames _
  | Readlink _ | Open _ | CopyBuffer _ _ | FileClose _ => True
  | MkdirAll p _ => p = newRoot
  | Mkdir p _ | Chmod p _ | Lchown p _ _ | UtimesNanoAt p _ _ | Symlink _ p | SysMknod p _ _
  | SysMkfifo p _ => in_new p h
  | OpenFile p flags _ => in_new p h /\ flags = O_WRONLY_CREATE
  | Remove p => just_copied p h \/ entered h
  | RemoveAll p => entered h /\ p <> "/" /\ exists dev info st names older,
      root_device dev h /\ st_dev st = dev /\
      h = Ev (ReadDirNames p) (Ok names) :: Ev (LstatSys p) (Ok (info, st)) :: older
  | SysMount s t fs fl d =>
      (s, t, fs, fl, d) = ("rootfs", newRoot, "tmpfs", 0%Z, "") \/
      (s, t, fs, fl, d) = (".", "/", "", MS_MOVE, "") /\ entered h
  | SysChroot p => p = "." /\ exists older, h = Ev (SysMount "." "/" "" MS_MOVE "") (Ok tt) :: older
  | Chdir p =>
      (p = newRoot /\ all_moved h) \/
      (p = "/" /\ exists older, h = Ev (SysChroot ".") (Ok tt) ::
                                    Ev (SysMount "." "/" "" MS_MOVE "") (Ok tt) :: older)
  | SysExec p args env => p = nextInit /\ args = [nextInit] /\ exists e older,
      env = e ++ ["K3OS_RELOCATED=true"] /\ entered older /\
      h = Ev Environ e :: Ev (Chdir "/") (Ok tt) :: Ev (SysChroot ".") (Ok tt) ::
          Ev (SysMount "." "/" "" MS_MOVE "") (Ok tt) :: older
  | _ => False
  end.

(** ** Steps *)

(** A step that, when it succeeds, has added events of which [P] holds, none of them a look. *)
Definition adds (P : list ev -> Prop) (h : list ev) (o : outcome (result unit)) (h' : list ev) : Prop :=
  match o with
  | Done (Ok _) => exists new, h' = new ++ h /\ Forall no_look new /\ P new
  | Done (Err _) | Running => True
  | Halted _ => False
  end.

Lemma or_stop_wp (p : M unit) (k : unit -> io walked) P Q h :
  wp walk_rely relocate_guard p (adds P h) h ->
  (forall e h', Q (Done (Stop e)) h') ->
  (forall new, Forall no_look new -> P new -> wp walk_rely relocate_guard (k tt) Q (new ++ h)) ->
  wp walk_rely relocate_guard (or_stop p k) Q h.
Proof using Type.
  intros Hp Hstop Hk. unfold or_stop. apply wp_bind. eapply wp_mono; [|exact Hp].
  intros [[[]|e]|s|] h'; cbn [bind_post adds]; [|intros _; by apply Hstop|done|done].
  intros (new & -> & Hq & HP). by apply Hk.
Qed.

Lemma in_new_later p h new : in_new p h -> in_new p (new ++ h).
Proof using Type. intros [Hm He]. split; [|done]. apply elem_of_app. by right. Qed.

Lemma in_new_here es h : Forall plain_name es -> tmpfs_mounted h -> in_new (dest es) h.
Proof using Type. intros Hes Hm. split; [done|]. by exists es. Qed.

Lemma mounted_later e h : tmpfs_mounted h -> tmpfs_mounted (e :: h).
Proof using Type. by right. Qed.

Lemma copyMetadata_wp es info st h :
  Forall plain_name es -> tmpfs_mounted h ->
  wp walk_rely relocate_guard (copyMetadata info st (dest es)) (adds (metadata_copied es info st) h) h.
Proof using Type.
  intros Hes Hm. unfold copyMetadata. wp_norm. split; [by apply in_new_here|].
  intros [[]|e] _; wp_norm; [|done]. split; [by apply in_new_here, mounted_later|].
  intros [[]|e] _; wp_norm; [|done]. destruct (fi_IsSymlink info) eqn:Hs; wp_norm.
  - eexists [_; _]. split; [done|]. split; [by repeat constructor|].
    split_and!; [right; left|left|by rewrite Hs].
  - split; [apply in_new_here; [done|by do 2 apply mounted_later]|]. intros [[]|e] _; wp_norm; [|done].
    eexists [_; _; _]. split; [done|]. split; [by repeat constructor|].
    split_and!; [right; right; left|right; left|intros _; left].
Qed.

(** ** The three walks *)

Section Walks.
Context (dev : Z).

(** What is known during the copy, and during the deletion. *)
Definition copying (h : list ev) : Prop := root_device dev h /\ tmpfs_mounted h.
Definition deleting (h : list ev) : Prop := root_device dev h /\ entered h.

Lemma root_device_later e h : root_device dev h -> root_device dev (e :: h).
Proof using Type. intros (i & st & H & Hd). exists i, st. split; [by right|done]. Qed.

Lemma copying_later e h : copying h -> copying (e :: h).
Proof using Type. intros [H1 H2]. split; [by apply root_device_later|by right]. Qed.

Lemma deleting_later e h : deleting h -> deleting (e :: h).
Proof using Type. intros [H1 H2]. split; [by apply root_device_later|by right]. Qed.

Lemma metadata_mono es info st new new' :
  (forall e, e ∈ new -> e ∈ new') -> metadata_copied es info st new -> metadata_copied es info st new'.
Proof using Type. intros Hi (H1 & H2 & H3). split_and!; auto. Qed.

Lemma directory_mono es info st new new' :
  (forall e, e ∈ new -> e ∈ new') -> directory_made es info st new -> directory_made es info st new'.
Proof using Type.
  intros Hi H Hd. destruct (H Hd) as [Hm Hc]. split; [|by eapply metadata_mono].
  destruct Hm as [|Hm]; [by left|right; auto].
Qed.

Lemma content_mono es info st new new' :
  (forall e, e ∈ new -> e ∈ new') -> content_moved es info st new -> content_moved es info st new'.
Proof using Type.
  intros Hi. unfold content_moved.
  destruct (fi_IsRegular info); [intros (f & o & r & H1 & H2 & H3 & H4 & H5); exists f, o, r; split_and!; auto|].
  destruct (has_mode info ModeSymlink); [intros (l & H1 & H2); exists l; split; auto|].
  destruct (has_mode info ModeDevice); [auto|]. intros [H1 H2]; split; auto.
Qed.

Lemma file_mono es info st new new' :
  (forall e, e ∈ new -> e ∈ new') -> file_moved es info st new -> file_moved es info st new'.
Proof using Type.
  intros Hi H Hd. destruct (H Hd) as [Hm Hc]. split; [by eapply content_mono|by eapply metadata_mono].
Qed.

Lemma copy_directory_wp es info st h :
  Forall plain_name es -> copying h ->
  wp walk_rely relocate_guard (copy_directory newRoot dev (abs_path es) info st)
    (visit_post directory_made (foreign dev) es info st h) h.
Proof using Type.
  intros Hes [Hr Hm]. unfold copy_directory.
  destruct (fi_IsDir info) eqn:Hd; cbn [negb]; [|by exists []; split_and!; [done|constructor|intros ?; congruence|]].
  rewrite dest_join by done.
  apply or_stop_wp with (P := fun new => es = [] \/ Ev (Mkdir (dest es) (fi_mode info)) (Ok tt) ∈ new); [|done|].
  - case_bool_decide as Hp; wp_norm.
    + assert (es = []) as -> by (by apply (abs_path_inj_all es [])).
      split; [by apply (in_new_here [])|]. intros [[]|e] _; wp_norm; [|done].
      eexists [_]. split; [done|]. split; [by repeat constructor|by left].
    + split; [by apply in_new_here|]. intros [[]|e] _; wp_norm; [|done].
      eexists [_]. split; [done|]. split; [by repeat constructor|right; left].
  - intros new Hq Hmk. apply or_stop_wp with (P := metadata_copied es info st); [|done|].
    + apply copyMetadata_wp; [done|]. apply elem_of_app. by right.
    + intros new' Hq' Hmd. cbn [wp]. assert (forall w, (w = SkipDir -> dev <> st_dev st) ->
        exists n, new' ++ new ++ h = n ++ h /\ Forall no_look n /\ directory_made es info st n /\
          (w = SkipDir -> fi_IsDir info = true /\ foreign dev es info st)) as Hend.
      { intros w Hw. exists (new' ++ new). split; [by rewrite (assoc_L app)|].
        split; [by apply Forall_app|]. split; [|by split; [|apply Hw]].
        intros _. split; [destruct Hmk as [|Hmk]; [by left|right; apply elem_of_app; by right]|].
        eapply metadata_mono; [|exact Hmd]. intros e He. apply elem_of_app. by left. }
      case_bool_decide as Hdev; [by apply (Hend SkipDir)|by apply (Hend Continue)].
Qed.

Lemma move_regular_wp es info h :
  Forall plain_name es -> tmpfs_mounted h -> fi_IsRegular info = true ->
  forall st, wp walk_rely relocate_guard (move_regular (abs_path es) (dest es) info)
    (adds (content_moved es info st) h) h.
Proof using Type.
  intros Hes Hm Hreg st. unfold move_regular. wp_norm. split; [by split; [apply in_new_here|]|].
  intros [newfile|e] _; wp_norm; [|done]. split; [done|]. intros [old|e] _; wp_norm; [|done].
  split; [done|]. intros [[]|e] _; wp_norm; [|done]. split; [done|]. intros [[]|e] _; wp_norm; [|done].
  split; [done|]. intros [[]|e] _; wp_norm; [|done]. split.
  { left. exists es, newfile, old, (fi_mode info). by eexists. }
  intros r _. wp_norm. eexists [_; _; _; _; _; _]. split; [done|]. split; [by repeat constructor|].
  unfold content_moved. rewrite Hreg. exists newfile, old, r.
  split_and!; repeat first [by left|right].
Qed.

Lemma move_entry_wp es info st h :
  Forall plain_name es -> tmpfs_mounted h ->
  wp walk_rely relocate_guard (move_entry (abs_path es) (dest es) info st)
    (adds (content_moved es info st) h) h.
Proof using Type.
  intros Hes Hm. unfold move_entry. destruct (fi_IsRegular info) eqn:Hreg; [by apply move_regular_wp|].
  assert (forall new, match new with [e] => no_look e | [e; e'] => no_look e /\ no_look e' | _ => False end ->
    (if has_mode info ModeSymlink then exists link,
       Ev (Readlink (abs_path es)) (Ok link) ∈ new /\ Ev (Symlink link (dest es)) (Ok tt) ∈ new
     else if has_mode info ModeDevice then
       Ev (SysMknod (dest es) (fi_mode info) (st_rdev st)) (Ok tt) ∈ new
     else has_mode info ModeNamedPipe = true /\ Ev (SysMkfifo (dest es) (fi_mode info)) (Ok tt) ∈ new) ->
    adds (content_moved es info st) h (Done (Ok tt)) (new ++ h)) as Hend.
  { intros new Hq Hnew. exists new. split; [done|]. split.
    - destruct new as [|? [|? []]]; try done; repeat constructor; by try apply Hq.
    - unfold content_moved. by rewrite Hreg. }
  destruct (has_mode info ModeSymlink).
  { wp_norm. split; [done|]. intros [link|e] _; wp_norm; [|done].
    split; [by apply in_new_here, mounted_later|]. intros [[]|e] _; [|done].
    apply (Hend [_; _]); [done|]. exists link. split; [right; left|left]. }
  destruct (has_mode info ModeDevice).
  { wp_norm. split; [by apply in_new_here|]. intros [[]|e] _; [|done]. apply (Hend [_]); [done|left]. }
  destruct (has_mode info ModeNamedPipe).
  { wp_norm. split; [by apply in_new_here|]. intros [[]|e] _; [|done]. apply (Hend [_]); [done|]. by split; [|left]. }
  by destruct (has_mode info ModeSocket).
Qed.

Lemma move_file_wp es info st h :
  Forall plain_name es -> copying h ->
  wp walk_rely relocate_guard (move_file newRoot dev (abs_path es) info st)
    (visit_post file_moved (foreign dev) es info st h) h.
Proof using Type.
  intros Hes [Hr Hm]. unfold move_file. rewrite dest_join by done.
  assert (forall w, (w = SkipDir -> fi_IsDir info = true /\ dev <> st_dev st) -> (forall e, w <> Stop e) ->
    fi_IsDir info = true ->
    visit_post file_moved (foreign dev) es info st h (Done w) h) as Hdir.
  { intros w Hw Hs Hd. destruct w as [| |e]; [| |by destruct (Hs e)];
      exists []; (split_and!; [done|constructor|intros ?; congruence|done]). }
  case_bool_decide as Hdev; cbn [andb]; destruct (fi_IsDir info) eqn:Hd; cbn [wp];
    [by apply Hdir|..| |]; try by apply Hdir.
  all: apply or_stop_wp with (P := content_moved es info st); [by apply move_entry_wp|done|].
  all: intros new Hq Hc; apply or_stop_wp with (P := metadata_copied es info st);
    [apply copyMetadata_wp; [done|apply elem_of_app; by right]|done|].
  all: intros new' Hq' Hmd; exists (new' ++ new); split_and!;
    [by rewrite (assoc_L app)|by apply Forall_app| |done].
  all: intros _; split; [eapply content_mono; [|exact Hc]; intros e He; apply elem_of_app; by right
                        |eapply metadata_mono; [|exact Hmd]; intros e He; apply elem_of_app; by left].
Qed.

(** Nothing is recorded of the deletion, whose directories may all be skipped. *)
Definition any_entry (es : list string) (info : FileInfo) (st : SysStat) (h : list ev) : Prop := True.
Definition any_dir (es : list string) (info : FileInfo) (st : SysStat) : Prop := True.

Lemma delete_entry_wp es info st names h0 h :
  Forall plain_name es -> deleting h ->
  h = (if fi_IsDir info then [Ev (ReadDirNames (abs_path es)) (Ok names)] else []) ++
      Ev (LstatSys (abs_path es)) (Ok (info, st)) :: h0 ->
  wp walk_rely relocate_guard (delete_entry dev (abs_path es) info st)
    (visit_post any_entry any_dir es info st h) h.
Proof using Type.
  intros Hes [Hr He] Hh. unfold delete_entry. case_bool_decide as Hp; [by exists []|].
  destruct (fi_IsDir info) eqn:Hd.
  - case_bool_decide as Hdev; [by exists []|]. wp_norm. split.
    + split; [done|]. split; [done|]. exists dev, info, st, names, h0. split; [done|].
      split; [by destruct (Z.eq_dec dev (st_dev st))|exact Hh].
    + intros r _. wp_norm. eexists [_]. split; [done|]. by split; [repeat constructor|].
  - wp_norm. split; [by right|]. intros r _. wp_norm. eexists [_]. split; [done|].
    by split; [repeat constructor|].
Qed.
End Walks.

(** ** The whole *)

Lemma whole_walk_intro T dev new x :
  visited T (foreign dev) (new ++ [Ev (LstatSys "/") (Ok x)]) ->
  whole_walk T dev (new ++ [Ev (LstatSys "/") (Ok x)]).
Proof using Type. by exists new, x. Qed.

(** When both walks succeed, everything was moved. *)
Lemma copy_trees_wp dev h :
  copying dev h ->
  wp walk_rely relocate_guard (copy_trees newRoot dev)
    (fun o h' => match o with
                 | Done (Ok _) => all_moved h' /\ exists new, h' = new ++ h
                 | Done (Err _) | Running => True
                 | Halted _ => False
                 end) h.
Proof using Type.
  intros Hc. unfold copy_trees. apply wp_bindE.
  eapply wp_mono; [|apply (filepath_Walk_wp walk_rely relocate_guard _ (copying dev) directory_made (foreign dev))];
    try done; [|by apply copying_later|by apply directory_mono
               |by intros es info st names h0 h1 Hes Hh _; apply copy_directory_wp].
  intros [[[]|e]|s|] h1 H1; try done. destruct H1 as (new1 & x1 & -> & Hv1).
  assert (copying dev (new1 ++ Ev (LstatSys "/") (Ok x1) :: h)) as Hc1.
  { apply (Base_app (copying dev)); [by apply copying_later|by apply copying_later]. }
  eapply wp_mono; [|apply (filepath_Walk_wp walk_rely relocate_guard _ (copying dev) file_moved (foreign dev))];
    try done; [|by apply copying_later|by apply file_mono
               |by intros es info st names h0 h1 Hes Hh _; apply move_file_wp].
  intros [[[]|e]|s|] h2 H2; try done. destruct H2 as (new2 & x2 & -> & Hv2). split.
  - exists dev, (new2 ++ [Ev (LstatSys "/") (Ok x2)]), (new1 ++ [Ev (LstatSys "/") (Ok x1)]), h.
    split; [by rewrite <- !(assoc_L app)|]. destruct Hc as [Hr Hm].
    split_and!; [done|done|by apply whole_walk_intro|by apply whole_walk_intro].
  - exists (new2 ++ Ev (LstatSys "/") (Ok x2) :: new1 ++ [Ev (LstatSys "/") (Ok x1)]).
    by rewrite <- !(assoc_L app), <- app_comm_cons, <- !(assoc_L app).
Qed.

Definition switched (h : list ev) : Prop :=
  exists older, entered older /\
    h = Ev (Chdir "/") (Ok tt) :: Ev (SysChroot ".") (Ok tt) ::
        Ev (SysMount "." "/" "" MS_MOVE "") (Ok tt) :: older.

Lemma switch_root_wp dev h :
  root_device dev h -> all_moved h ->
  wp walk_rely relocate_guard (switch_root newRoot dev)
    (fun o h' => match o with
                 | Done (Ok _) => switched h'
                 | Done (Err _) | Running => True
                 | Halted _ => False
                 end) h.
Proof using Type.
  intros Hr Hall. unfold switch_root. wp_norm. split; [by left|]. intros [[]|e] _; wp_norm; [|done].
  set (h0 := Ev (Chdir newRoot) (Ok tt) :: h).
  assert (deleting dev h0) as Hd by (split; [by apply root_device_later|left]).
  apply wp_bindE.
  eapply wp_mono; [|apply (filepath_Walk_wp walk_rely relocate_guard _ (deleting dev) any_entry any_dir)];
    try done; [|by apply deleting_later
               |by intros es info st names h1 h2 Hes Hh Heq; eapply delete_entry_wp].
  intros [[[]|e]|s|] h2 H2; try done. destruct H2 as (new & x & -> & _).
  assert (deleting dev (new ++ Ev (LstatSys "/") (Ok x) :: h0)) as [_ He].
  { by apply (Base_app (deleting dev)); [apply deleting_later|apply deleting_later]. }
  wp_norm. split; [by right|]. intros [[]|e] _; wp_norm; [|done].
  split; [by split; [|eexists]|]. intros [[]|e] _; wp_norm; [|done].
  split; [right; split; [done|by eexists]|]. intros [[]|e] _; wp_norm; [|done]. by eexists.
Qed.

Lemma copyFS_wp h :
  wp walk_rely relocate_guard (copyFS newRoot)
    (fun o h' => match o with
                 | Done (Ok _) => switched h'
                 | Done (Err _) | Running => True
                 | Halted _ => False
                 end) h.
Proof using Type.
  unfold copyFS. wp_norm. split; [done|]. intros [[info st]|e] _; wp_norm; [|done].
  split; [by left|]. intros [[]|e] _; wp_norm; [|done].
  set (h1 := Ev (SysMount _ _ _ _ _) _ :: _).
  assert (root_device (st_dev st) h1) as Hr by (exists info, st; split; [right; left|done]).
  apply wp_bindE. eapply wp_mono; [|apply copy_trees_wp; split; [done|left]].
  intros [[[]|e]|s|] h2 H2; try done. destruct H2 as [Hall [new ->]].
  apply switch_root_wp; [|done]. clear Hall. induction new as [|e new IH]; [done|]. by apply root_device_later.
Qed.

(** How [Relocate] ends: nothing to do, or the next init is executed, or the process exits. *)
Definition relocate_post (o : outcome unit) (h : list ev) : Prop :=
  match o with
  | Done _ =>
      (exists r, h = [Ev (Unsetenv relocated) r; Ev (Getenv relocated) "true"]) \/
      (exists v t, h = [Ev (SysStatfs ".") (Ok t); Ev (Getenv relocated) v] /\ v <> "true" /\
                   t <> ramfsMagic /\ t <> tmpfsMagic) \/
      (exists env older, h = Ev (SysExec nextInit [nextInit] env) (Ok tt) :: older)
  | Halted s => s = ExitWith 1
  | Running => True
  end.

Lemma Relocate_wp : wp walk_rely relocate_guard Relocate relocate_post [].
Proof using Type.
  unfold Relocate. wp_norm. split; [done|]. intros v _. case_bool_decide as Hv; wp_norm.
  { subst v. split; [done|]. intros r _. left. by exists r. }
  split; [done|]. intros [t|e] _; wp_norm; [|done].
  destruct ((t =? ramfsMagic)%Z || (t =? tmpfsMagic)%Z) eqn:Ht; wp_norm.
  2:{ right. left. exists v, t. apply orb_false_iff in Ht as [H1 H2].
      split_and!; [done|done|by apply Z.eqb_neq|by apply Z.eqb_neq]. }
  split; [done|]. intros [[]|e] _; wp_norm; [|done].
  apply wp_bind. eapply wp_mono; [|apply copyFS_wp].
  intros [[[]|e]|s|] h1 H1; cbn [bind_post]; wp_norm; try done. destruct H1 as (older & He & ->).
  split; [done|]. intros env _. wp_norm. split.
  - split; [done|]. split; [done|]. exists env, older. by split_and!.
  - intros [[]|e] _; wp_norm; [|done]. right. right. by eexists _, _.
Qed.
End Spec.

(** A device node is made with the bits of [os.FileMode] instead of those of the system call: its type
    bits are those of a regular file. *)
Example device_made_as_file perm :
  (0 <= perm < 512)%Z -> Z.land (Z.lor (Z.lor ModeDevice ModeCharDevice) perm) (oct 170000) = 0%Z.
Proof.
  intros Hp. apply Z.bits_inj_iff'. intros n Hn. rewrite Z.bits_0, Z.land_spec, !Z.lor_spec.
  destruct (Z.testbit perm n) eqn:Hb.
  - assert (n < 9)%Z as Hn9.
    { destruct (Z.lt_ge_cases n 9); [done|]. rewrite Z.bits_above_log2 in Hb; [done|lia|].
      destruct (Z.eq_dec perm 0) as [->|]; [cbn; lia|]. apply Z.log2_lt_pow2; [lia|].
      apply Z.lt_le_trans with (2 ^ 9)%Z; [lia|]. apply Z.pow_le_mono_r; lia. }
    assert (n ∈ [0; 1; 2; 3; 4; 5; 6; 7; 8])%Z as Hin by (rewrite !elem_of_cons; lia).
    rewrite !elem_of_cons, elem_of_nil in Hin.
    destruct_or? Hin; try done; subst n; by rewrite andb_false_r.
  - rewrite orb_false_r, <- Z.lor_spec, <- Z.land_spec.
    change (Z.land _ _) with 0%Z. apply Z.bits_0.
Qed.

(** The magic number of ramfs, as a 64-bit [statfs] reports it, is not the one compared with. *)
Example ramfs_not_recognised : (2240043254 =? ramfsMagic)%Z = false /\ (2240043254 - 2 ^ 32 = ramfsMagic)%Z.
Proof. done. Qed.

(** ** Property *)


(** A machine that runs from a tmpfs with one file in /etc; /mnt is another device. *)
Definition small_entry (mode dev : Z) : result (FileInfo * SysStat) :=
  Ok ({| fi_name := ""; fi_mode := mode |},
      {| st_dev := dev; st_uid := 0; st_gid := 0; st_rdev := 0; st_atim := 1; st_mtim := 2 |}).

Definition small_root (c : call) : option (resp c) :=
  match c return option (resp c) with
  | SysStatfs _ => Some (Ok tmpfsMagic)
  | StatSys _ => Some (small_entry (Z.lor ModeDir (oct 755)) 1)
  | LstatSys p => Some (
      if decide (p = "/etc/hosts") then small_entry (oct 644) 1
      else if decide (p = "/mnt") then small_entry (Z.lor ModeDir (oct 755)) 2
      else if decide (p ∈ ["/"; "/etc"]) then small_entry (Z.lor ModeDir (oct 755)) 1
      else Err (ErrSys "lstat" p ENOENT))
  | ReadDirNames p =>
      Some (Ok (if decide (p = "/") then ["etc"; "mnt"] else if decide (p = "/etc") then ["hosts"] else []))
  | _ => None
  end.

Lemma small_root_rely h c : walk_rely h c (default (all_ok c) (small_root c)).
Proof.
  destruct c; try done; cbn.
  - case_decide; [subst; cbn; lia|]. case_decide; [subst; cbn; lia|]. case_decide as Hp; [|done].
    rewrite !elem_of_cons, elem_of_nil in Hp. destruct_or? Hp; try done; subst; cbn; lia.
  - repeat case_decide; plain_names.
Qed.

