(* ===== verification/Questions.v ===== *)
(** * Questions: packages [internal/questions] and [internal/util] ([prompt.go]), asking at the terminal.

    [StdinReadString] reads a line with a buffered reader of its own, [StdinReadByte] one byte (reading
    none is [io.EOF]).  The loops that ask again until the answer is acceptable carry fuel: each pass
    reads a line, so more fuel than there are lines is enough. *)

From S2P Require Import Prelude GoStrings GoPath Effects OS.
Open Scope string_scope.
Open Scope list_scope.
Open Scope go_scope.

Section Questions.
Context `{UnicodeTables}.

(** ** questions.go *)

(** To standard error when standard output is no terminal. *)
Definition PrintToTerm (text : string) : io unit :=
  let* tty := sys (TermIsTerminal 1) in
  if tty : bool then sys (Print text) else sys (PrintErr text).

(** With blanks between the operands and a new line; of [PrintfToTerm] the text as formatted. *)
Definition PrintlnToTerm (text : list string) : io unit :=
  let* tty := sys (TermIsTerminal 1) in
  if tty : bool then sys (Print (strings_Join text " " +:+ nl))
  else sys (PrintErr (strings_Join text " " +:+ nl)).
Definition PrintfToTerm (formatted : string) : io unit :=
  let* tty := sys (TermIsTerminal 1) in
  if tty : bool then sys (Print formatted) else sys (PrintErr formatted).

Fixpoint Prompt (fuel : nat) (text def : string) : M string :=
  match fuel with
  | O => Halt OutOfFuel
  | S fuel =>
      let* _ := PrintToTerm text in
      let! answer := sys StdinReadString in
      let answer := strings_TrimSpace answer in
      let answer := if bool_decide (answer = "") then def else answer in
      if bool_decide (answer = "") then Prompt fuel text def else ret answer
  end.

Definition PromptOptional (text def : string) : M string :=
  let* _ := PrintToTerm text in
  let! answer := sys StdinReadString in
  let answer := strings_TrimSpace answer in
  ret (if bool_decide (answer = "") then def else answer).

(** The loop of [PromptOptions]; [count] is the number of options. *)
Fixpoint ask_number (fuel : nat) (defString : string) (count : Z) : M Z :=
  match fuel with
  | O => Halt OutOfFuel
  | S k =>
      let! answer := Prompt fuel ("Select Number [" +:+ defString +:+ "]: ") defString in
      match strconv_Atoi answer with
      | Err _ =>
          let* _ := PrintfToTerm ("Invalid number: " +:+ answer +:+ nl) in ask_number k defString count
      | Ok num =>
          let num := (num - 1)%Z in
          if (num <? 0)%Z || (count <=? num)%Z then
            let* _ := PrintlnToTerm ["Select a number between 1 and"; strconv_Itoa count] in
            ask_number k defString count
          else ret num
      end
  end.

Definition PromptOptions (fuel : nat) (text : string) (def : Z) (options : list string) : M Z :=
  if (List.length options =? 1)%nat then ret 0%Z
  else
    let* _ := PrintToTerm text in
    let* _ := for_fold options tt (fun option _ => PrintToTerm option) in
    let defString := if (0 <=? def)%Z then strconv_Itoa (def + 1) else "" in
    ask_number fuel defString (Z.of_nat (List.length options)).

(** The options numbered from [i + 1]. *)
Fixpoint number_options (i : Z) (options : list string) : list string :=
  match options with
  | [] => []
  | o :: options' => (strconv_Itoa (i + 1) +:+ ". " +:+ o +:+ nl) :: number_options (i + 1) options'
  end.

Definition PromptFormattedOptions (fuel : nat) (text : string) (def : Z) (options : list string) : M Z :=
  PromptOptions fuel (text +:+ nl) def (number_options 0 options).

(** The loop of [PromptBool]. *)
Fixpoint ask_yn (fuel : nat) (msg defStr : string) : M bool :=
  match fuel with
  | O => Halt OutOfFuel
  | S k =>
      let! yn := Prompt fuel msg defStr in
      let yn := strings_ToLower yn in
      if bool_decide (yn = "y") then ret true
      else if bool_decide (yn = "n") then ret false
      else let* _ := sys (Print ("Enter y or n" +:+ nl)) in ask_yn k msg defStr
  end.

Definition PromptBool (fuel : nat) (text : string) (def : bool) : M bool :=
  if def then ask_yn fuel (text +:+ " [Y/n]: ") "y" else ask_yn fuel (text +:+ " [y/N]: ") "n".
End Questions.

(** ** prompt.go *)

(** The text sent for an erased character: backspace, blank, backspace. *)
Definition bs : string := String "008" (String " " (String "008" "")).
Definition mask : string := "*".
Definition maxBytes : nat := 512.

(** [getCharacter]: the byte read, if there is one, and the error of [Read]. *)
Definition character (r : option Z * option error) : result Z :=
  match r with
  | (_, Some e) => Err e
  | (None, None) => Err EOF
  | (Some v, None) => Ok v
  end.
Definition getCharacter : M Z := let* r := sys StdinReadByte in Ret (character r).

(** The loop over the keys, [presses] of which may still be pressed: what was typed, with the error. *)
Fixpoint mask_loop (presses : nat) (p : list ascii) : io (list ascii * option error) :=
  match presses with
  | O => Ret (p, Some (Errorf "maximum password length is %v bytes" [strconv_Itoa (Z.of_nat maxBytes)]))
  | S presses =>
      let* v := getCharacter in
      match v with
      | Err e => Ret (p, Some e)
      | Ok v =>
          if (v =? 127)%Z || (v =? 8)%Z then
            match p with
            | [] => mask_loop presses p
            | _ => let* _ := sys (Print bs) in mask_loop presses (removelast p)
            end
          else if (v =? 13)%Z || (v =? 10)%Z then Ret (p, None)
          else if (v =? 3)%Z then Ret (p, Some (ErrText "interrupted"))
          else if (v =? 0)%Z then mask_loop presses p
          else let* _ := sys (Print mask) in mask_loop presses (p ++ [of_byte v])
      end
  end.

Definition MaskPassword : M (list ascii) :=
  let read :=
    let* '(p, err) := mask_loop (S maxBytes) [] in
    Ret (match err with Some e => Err e | None => Ok p end) in
  let* tty := sys (TermIsTerminal 0) in
  if tty : bool then
    let! _ := sys (TermMakeRaw 0) in
    let* r := read in
    let* _ := ignore (sys (TermRestore 0)) in
    let* _ := sys (Print nl) in
    Ret r
  else read.

(** The second password typed, and whether it is the first. *)
Definition PromptPassword : M (string * bool) :=
  let* _ := sys (Print "Please enter password for [rancher]: ") in
  let! p := wrapf "failed to set password: %w" [] MaskPassword in
  let* _ := sys (Print "Confirm password for [rancher]: ") in
  let! c := wrapf "failed to confirm password: %w" [] MaskPassword in
  ret (of_chars c, bool_decide (p = c)).
