(* ===== verification/QuestionsSpec.v ===== *)
(** * QuestionsSpec: what the questions answer, and that they come to an end. *)

From S2P Require Import Prelude GoStrings GoPath Effects OS Questions.
Open Scope string_scope.
Open Scope list_scope.
Open Scope go_scope.

(** ** The input *)

(** A line or a byte of standard input was read. *)
Definition is_read (e : ev) : bool :=
  match ev_call e as c return resp c -> bool with
  | StdinReadString => fun r => is_ok r
  | StdinReadByte => fun r => is_ok (character r)
  | _ => fun _ => false
  end (ev_resp e).

Definition reads (h : list ev) : nat := List.length (filter (fun e => is_read e = true) h).

(** Standard input holds no more than [n] lines and bytes. *)
Definition finite_input (n : nat) : @rely call resp := fun h c =>
  match c return resp c -> Prop with
  | StdinReadString => fun r => is_ok r = true -> (reads h < n)%nat
  | StdinReadByte => fun r => is_ok (character r) = true -> (reads h < n)%nat
  | _ => fun _ => True
  end.

(** The bytes read one at a time, the last one first. *)
Definition byte_read (e : ev) : option Z :=
  match ev_call e as c return resp c -> option Z with
  | StdinReadByte => fun r => match character r with Ok v => Some v | Err _ => None end
  | _ => fun _ => None
  end (ev_resp e).
Definition bytes_read (h : list ev) : list Z := omap byte_read h.

(** The calls of the questions. *)
Definition asks (c : call) : Prop :=
  match c with
  | Print _ | PrintErr _ | TermIsTerminal _ | TermMakeRaw _ | TermRestore _ | StdinReadString
  | StdinReadByte => True
  | _ => False
  end.

Definition extends (h h' : list ev) : Prop := exists new, h' = new ++ h.

#[export] Instance extends_preorder : PreOrder extends.
Proof.
  split; [by exists []|]. intros a b c [x ->] [y ->]. exists (y ++ x). by rewrite (assoc_L app).
Qed.

Lemma extends_cons e h : extends h (e :: h).
Proof. by exists [e]. Qed.

Lemma extends_elem h h' e : extends h h' -> e ∈ h -> e ∈ h'.
Proof. intros [new ->] He. apply elem_of_app. by right. Qed.

Lemma reads_cons e h : reads (e :: h) = ((if is_read e then 1 else 0) + reads h)%nat.
Proof. unfold reads. rewrite filter_cons. by destruct (is_read e). Qed.

Lemma reads_other e h : is_read e = false -> reads (e :: h) = reads h.
Proof. intros He. by rewrite reads_cons, He. Qed.

Lemma reads_read e h : is_read e = true -> reads (e :: h) = S (reads h).
Proof. intros He. by rewrite reads_cons, He. Qed.

Lemma reads_extends h h' : extends h h' -> (reads h <= reads h')%nat.
Proof. intros [new ->]. unfold reads. rewrite filter_app, length_app. lia. Qed.

(** ** Answers *)

(** The question was printed and this line was the answer; an empty line is the default. *)
Definition answered (text def answer : string) (h : list ev) : Prop :=
  exists s shown t older,
    h = Ev StdinReadString (Ok s) :: shown :: Ev (TermIsTerminal 1) t :: older /\
    (shown = Ev (Print text) tt \/ shown = Ev (PrintErr text) tt) /\
    answer = (if bool_decide (strings_TrimSpace s = "") then def else strings_TrimSpace s).

(** Editing a line: a key erases the last character or adds one. *)
Definition edit (p : list ascii) (v : Z) : list ascii :=
  if (v =? 127)%Z || (v =? 8)%Z then removelast p
  else if (v =? 0)%Z then p else p ++ [of_byte v].

(** A password was typed: the keys up to the end of the line, no more than [maxBytes]. *)
Definition typed (p : list ascii) (h h' : list ev) : Prop :=
  exists keys last, bytes_read h' = last :: rev keys ++ bytes_read h /\
    (last = 13 \/ last = 10)%Z /\ Forall (fun v => v <> 13 /\ v <> 10 /\ v <> 3)%Z keys /\
    (List.length keys <= maxBytes)%nat /\ p = foldl edit [] keys.

Section Dialogue.
Context `{UnicodeTables} (R : @rely call resp) (G : @guar call resp) (n : nat).
Context (HR : forall h c r, R h c r -> finite_input n h c r) (HG : forall h c, asks c -> G h c).

(** How a question ends: the history is longer, within the input, and no loop has run out of fuel. *)
Definition asked {A} (Q : A -> list ev -> Prop) (h : list ev) (o : outcome (result A)) (h' : list ev) : Prop :=
  match o with
  | Done r => extends h h' /\ (reads h' <= n)%nat /\
      match r with Ok a => Q a h' | Err _ => True end
  | Halted _ => False
  | Running => True
  end.

(** The same when it always reads. *)
Definition asked_read {A} (Q : A -> list ev -> Prop) (h : list ev) : outcome (result A) -> list ev -> Prop :=
  asked (fun a h' => (reads h < reads h')%nat /\ Q a h') h.

Lemma asked_bind {A B} (p : M A) (f : A -> M B) (P : A -> list ev -> Prop) Q h :
  wp R G p (asked P h) h ->
  (forall a h', extends h h' -> (reads h' <= n)%nat -> P a h' ->
     wp R G (f a) (asked Q h') h') ->
  wp R G (bindE p f) (asked Q h) h.
Proof using Type.
  intros Hp Hf. apply wp_bindE. eapply wp_mono; [|exact Hp].
  intros [[a|e]|s|] h1; cbn; try done. intros (He & Hn & HP).
  eapply wp_mono; [|by apply Hf]. intros [r|s|] h2; cbn; try done.
  intros (He2 & Hn2 & HQ). split; [by etrans|]. by split.
Qed.

Lemma asked_wrapf {A} fmt args (p : M A) P h :
  wp R G p (asked P h) h -> wp R G (wrapf fmt args p) (asked P h) h.
Proof using Type.
  intros Hp. apply wp_wrapf. eapply wp_mono; [|exact Hp]. intros [[a|e]|s|] h1; done.
Qed.

Lemma asked_ret {A} (a : A) (Q : A -> list ev -> Prop) h :
  (reads h <= n)%nat -> Q a h -> asked Q h (Done (Ok a)) h.
Proof using Type. intros Hn HQ. split; [done|]. by split. Qed.

Lemma asked_weaken {A} (Q Q' : A -> list ev -> Prop) h h0 o h' :
  extends h0 h -> (forall a h', extends h h' -> Q a h' -> Q' a h') -> asked Q h o h' -> asked Q' h0 o h'.
Proof using Type.
  intros H0 HQ. destruct o as [[a|e]|s|]; cbn; try done.
  - intros (He & Hn & Ha). split; [by etrans|]. split; [done|]. by apply HQ.
  - intros (He & Hn & _). split; [by etrans|done].
Qed.

(** The same seen from an earlier history. *)
Lemma asked_from {A} (p : M A) Q h0 h : extends h0 h -> wp R G p (asked Q h) h -> wp R G p (asked Q h0) h.
Proof using Type.
  intros H0 Hp. eapply wp_mono; [|exact Hp]. intros o h'. by apply asked_weaken.
Qed.

Lemma asked_impl {A} (p : M A) (Q Q' : A -> list ev -> Prop) h :
  (forall a h', Q a h' -> Q' a h') -> wp R G p (asked Q h) h -> wp R G p (asked Q' h) h.
Proof using Type.
  intros HQ Hp. eapply wp_mono; [|exact Hp]. intros o h'. apply asked_weaken; [done|]. intros a h2 _. apply HQ.
Qed.

(** Printing, then going on. *)
Lemma PrintToTerm_wp {A} text (k : unit -> io A) Q h :
  (forall t shown, shown = Ev (Print text) tt \/ shown = Ev (PrintErr text) tt ->
     wp R G (k tt) Q (shown :: Ev (TermIsTerminal 1) t :: h)) ->
  wp R G (bind (PrintToTerm text) k) Q h.
Proof using HG.
  intros Hk. unfold PrintToTerm. cbn [bind sys perform wp]. split; [by apply HG|]. intros t _.
  destruct (t : bool); cbn [bind sys perform wp]; (split; [by apply HG|]); intros [] _; apply Hk; auto.
Qed.

Lemma printed_reads t text shown h :
  shown = Ev (Print text) tt \/ shown = Ev (PrintErr text) tt ->
  reads (shown :: Ev (TermIsTerminal 1) t :: h) = reads h.
Proof using Type. intros [->| ->]; by rewrite !reads_other. Qed.

Lemma printed_extends t (shown : ev) h : extends h (shown :: Ev (TermIsTerminal 1) t :: h).
Proof using Type. by exists [shown; Ev (TermIsTerminal 1) t]. Qed.

Lemma read_line h s : R h StdinReadString (Ok s) -> (reads h < n)%nat.
Proof using HR. intros Hr%HR. by apply Hr. Qed.

Lemma read_byte h r v : R h StdinReadByte r -> character r = Ok v -> (reads h < n)%nat.
Proof using HR. intros Hr%HR Hv. apply Hr. by rewrite Hv. Qed.

Lemma Prompt_wp fuel text def h :
  (reads h <= n)%nat -> (n < fuel + reads h)%nat ->
  wp R G (Prompt fuel text def)
    (asked_read (fun a h' => a <> "" /\ answered text def a h') h) h.
Proof using HR HG.
  revert h. induction fuel as [|fuel IH]; intros h Hn Hf; [lia|]. cbn [Prompt].
  apply PrintToTerm_wp. intros t shown Hs. set (h1 := shown :: _).
  assert (reads h1 = reads h) as Hr1 by (by apply (printed_reads t text)).
  assert (extends h h1) as He1 by apply printed_extends.
  cbn [bindE bind sys perform wp]. split; [by apply HG|]. intros [s|e] Hr; cbn [wp fail].
  - apply read_line in Hr. set (h2 := Ev StdinReadString _ :: h1).
    assert (reads h2 = S (reads h)) as Hr2 by (unfold h2; rewrite reads_read by done; lia).
    assert (extends h h2) as He2 by (etrans; [exact He1|apply extends_cons]).
    case_bool_decide as Hdef.
    + eapply wp_mono; [|apply (IH h2); lia]. intros o h'. apply asked_weaken; [done|].
      intros a h3 _ [Hlt Ha]. split; [lia|done].
    + cbn [wp ret]. split; [done|]. split; [lia|]. split; [lia|]. split; [done|].
      by exists s, shown, t, h.
  - split; [etrans; [exact He1|apply extends_cons]|]. split; [rewrite reads_other by done; lia|done].
Qed.

Lemma PromptOptional_wp text def h :
  (reads h <= n)%nat ->
  wp R G (PromptOptional text def) (asked (answered text def) h) h.
Proof using HR HG.
  intros Hn. unfold PromptOptional. apply PrintToTerm_wp. intros t shown Hs. set (h1 := shown :: _).
  assert (reads h1 = reads h) as Hr1 by (by apply (printed_reads t text)).
  assert (extends h h1) as He1 by apply printed_extends.
  cbn [bindE bind sys perform wp]. split; [by apply HG|]. intros [s|e] Hr; cbn [wp fail].
  - apply read_line in Hr. split; [etrans; [exact He1|apply extends_cons]|].
    split; [rewrite reads_read by done; lia|]. by exists s, shown, t, h.
  - split; [etrans; [exact He1|apply extends_cons]|]. split; [rewrite reads_other by done; lia|done].
Qed.

(** A printed remark between two questions. *)
Lemma remark_wp {A} text (k : unit -> M A) Q h :
  (reads h <= n)%nat ->
  (forall h', extends h h' -> reads h' = reads h -> wp R G (k tt) (asked Q h') h') ->
  wp R G (bind (PrintToTerm text) k) (asked Q h) h.
Proof using HG.
  intros Hn Hk. apply PrintToTerm_wp. intros t shown Hs. eapply wp_mono; [|apply Hk].
  - intros o h'. apply asked_weaken; [apply printed_extends|done].
  - apply printed_extends.
  - by apply (printed_reads t text).
Qed.

(** The number chosen, from 0, with the answer that gave it. *)
Definition chose (defString : string) (i : Z) (h : list ev) : Prop :=
  exists a, answered ("Select Number [" +:+ defString +:+ "]: ") defString a h /\
    strconv_Atoi a = Ok (i + 1)%Z.

(** Going on after a remark, the question having read a line. *)
Lemma again_wp {A} text (p : M A) Q h h' :
  extends h h' -> (reads h < reads h')%nat -> (reads h' <= n)%nat ->
  (forall h2, extends h h2 -> (reads h < reads h2 <= n)%nat -> wp R G p (asked Q h2) h2) ->
  wp R G (bind (PrintToTerm text) (fun _ => p)) (asked Q h') h'.
Proof using HG.
  intros He Hlt Hn Hp. apply remark_wp; [done|]. intros h2 He2 Hr2. apply Hp; [by etrans|lia].
Qed.

Lemma ask_number_wp fuel defString count h :
  (reads h <= n)%nat -> (n < fuel + reads h)%nat ->
  wp R G (ask_number fuel defString count)
    (asked (fun i h' => (0 <= i < count)%Z /\ chose defString i h') h) h.
Proof using HR HG.
  revert h. induction fuel as [|k IH]; intros h Hn Hf; [lia|]. cbn [ask_number].
  eapply asked_bind; [by apply Prompt_wp|]. intros a h1 He Hn1 (Hlt & Hne & Ha).
  assert (forall text, wp R G (bind (PrintToTerm text) (fun _ => ask_number k defString count))
    (asked (fun i h' => (0 <= i < count)%Z /\ chose defString i h') h1) h1) as Hagain.
  { intros text. apply (again_wp _ _ _ h); try done. intros h2 He2 Hr2. apply IH; lia. }
  destruct (strconv_Atoi a) as [num|e] eqn:Hnum; [|apply Hagain]. cbn zeta.
  destruct (_ || _) eqn:Hrange; [apply Hagain|]. apply orb_false_iff in Hrange as [H0 Hc].
  apply Z.ltb_ge in H0. apply Z.leb_gt in Hc. cbn [wp ret].
  apply asked_ret; [done|]. split; [lia|]. exists a. split; [done|]. rewrite Hnum. f_equal. lia.
Qed.

Lemma number_options_length i options : List.length (number_options i options) = List.length options.
Proof using Type. revert i. induction options as [|o os IH]; intros i; [done|]. cbn. by rewrite IH. Qed.

(** A choice among the options: the only one, or the one whose number was given. *)
Lemma PromptFormattedOptions_wp fuel text def options h :
  (reads h <= n)%nat -> (n < fuel + reads h)%nat ->
  wp R G (PromptFormattedOptions fuel text def options)
    (asked (fun i h' => (0 <= i < Z.of_nat (List.length options))%Z /\
       (List.length options = 1%nat \/
        chose (if (0 <=? def)%Z then strconv_Itoa (def + 1) else "") i h')) h) h.
Proof using HR HG.
  intros Hn Hf. unfold PromptFormattedOptions, PromptOptions. rewrite number_options_length.
  destruct (Nat.eqb_spec (List.length options) 1) as [H1|_].
  { cbn [wp ret]. apply asked_ret; [done|]. rewrite H1. split; [lia|by left]. }
  apply remark_wp; [done|]. intros h1 He1 Hr1.
  apply wp_bind. eapply wp_mono; [|apply (wp_for_fold _ _ _ _ _
    (fun _ _ h' => extends h1 h' /\ reads h' = reads h1)
    (fun o h' => match o with Done _ => extends h1 h' /\ reads h' = reads h1 | _ => False end))];
    [|by split|done|].
  - intros [[]|s|] h2 H2; try done. destruct H2 as [He2 Hr2]. cbn [bind_post].
    eapply wp_mono; [|apply ask_number_wp; lia]. intros o h'. apply asked_weaken; [done|].
    intros i h3 _ [Hi Hc]. split; [done|by right].
  - intros o l [] h2 [He2 Hr2]. rewrite <- (bind_ret_r (PrintToTerm o)). apply PrintToTerm_wp.
    intros t shown Hs. cbn [wp]. split; [etrans; [exact He2|apply printed_extends]|].
    by rewrite (printed_reads t o).
Qed.

Lemma ask_yn_wp fuel msg defStr h :
  (reads h <= n)%nat -> (n < fuel + reads h)%nat ->
  wp R G (ask_yn fuel msg defStr)
    (asked_read (fun b h' => exists a, answered msg defStr a h' /\
       strings_ToLower a = (if b : bool then "y" else "n")) h) h.
Proof using HR HG.
  revert h. induction fuel as [|k IH]; intros h Hn Hf; [lia|]. cbn [ask_yn].
  eapply asked_bind; [by apply Prompt_wp|]. intros a h1 He Hn1 (Hlt & Hne & Ha). cbn zeta.
  case_bool_decide as Hy; [|case_bool_decide as Hno]; cbn [wp ret].
  - apply asked_ret; [done|]. split; [done|]. by exists a.
  - apply asked_ret; [done|]. split; [done|]. by exists a.
  - cbn [bind sys perform wp]. split; [by apply HG|]. intros [] _.
    eapply wp_mono; [|apply IH; rewrite reads_other by done; lia].
    intros o h'. apply asked_weaken; [apply extends_cons|]. intros b h2 He2 [Hlt2 Hb].
    split; [|done]. rewrite reads_other in Hlt2 by done. lia.
Qed.

(** The question [PromptBool] shows, with the default answer. *)
Definition bool_question (text : string) (def : bool) : string :=
  text +:+ (if def then " [Y/n]: " else " [y/N]: ").

Definition yes (text : string) (def b : bool) (h : list ev) : Prop :=
  exists a, answered (bool_question text def) (if def then "y" else "n") a h /\
    strings_ToLower a = (if b then "y" else "n").

Lemma PromptBool_wp fuel text def h :
  (reads h <= n)%nat -> (n < fuel + reads h)%nat ->
  wp R G (PromptBool fuel text def) (asked_read (yes text def) h) h.
Proof using HR HG. intros Hn Hf. unfold PromptBool, yes, bool_question. destruct def; by apply ask_yn_wp. Qed.

(** ** Passwords *)

(** From the text [p0] on. *)
Definition typed_from (p0 p : list ascii) (presses : nat) (h h' : list ev) : Prop :=
  exists keys last, bytes_read h' = last :: rev keys ++ bytes_read h /\
    (last = 13 \/ last = 10)%Z /\ Forall (fun v => v <> 13 /\ v <> 10 /\ v <> 3)%Z keys /\
    (List.length keys < presses)%nat /\ p = foldl edit p0 keys.

Definition mask_post (p0 : list ascii) (presses : nat) (h : list ev)
  (o : outcome (list ascii * option error)) (h' : list ev) : Prop :=
  match o with
  | Done (p, err) => extends h h' /\ (reads h' <= n)%nat /\
      (err = None -> typed_from p0 p presses h h' /\ (reads h < reads h')%nat)
  | Halted _ => False
  | Running => True
  end.

(** One key more before what was typed. *)
Lemma typed_key p0 p presses v h h1 h' :
  bytes_read h1 = v :: bytes_read h -> (v <> 13 /\ v <> 10 /\ v <> 3)%Z ->
  typed_from (edit p0 v) p presses h1 h' -> typed_from p0 p (S presses) h h'.
Proof using Type.
  intros Hb Hv (keys & last & Hk & Hl & Hks & Hlen & ->). exists (v :: keys), last.
  split_and!; [|done|by constructor|cbn; lia|done].
  rewrite Hk, Hb. cbn [rev]. by rewrite <- (assoc_L app).
Qed.

Lemma mask_loop_wp presses p0 h :
  (reads h <= n)%nat -> wp R G (mask_loop presses p0) (mask_post p0 presses h) h.
Proof using HR HG.
  revert p0 h. induction presses as [|presses IH]; intros p0 h Hn; cbn [mask_loop].
  { cbn [wp]. by split. }
  unfold getCharacter. cbn [bind sys perform wp]. split; [by apply HG|]. intros r Hr.
  destruct (character r) as [v|e] eqn:Hc; cbn [wp].
  2:{ split; [apply extends_cons|]. split; [by rewrite reads_other by (cbn; by rewrite Hc)|done]. }
  apply (read_byte _ _ v) in Hr; [|done]. set (h1 := Ev StdinReadByte r :: h).
  assert (reads h1 = S (reads h)) as Hr1 by (unfold h1; rewrite reads_read; [done|cbn; by rewrite Hc]).
  assert (bytes_read h1 = v :: bytes_read h) as Hb1 by (unfold bytes_read, h1; cbn; by rewrite Hc).
  assert (extends h h1) as He1 by apply extends_cons.
  assert (forall p h2, extends h1 h2 -> reads h2 = reads h1 -> bytes_read h2 = v :: bytes_read h ->
    p = edit p0 v -> (v <> 13 /\ v <> 10 /\ v <> 3)%Z ->
    wp R G (mask_loop presses p) (mask_post p0 (S presses) h) h2) as Hgo.
  { intros p h2 He2 Hr2 Hb -> Hv. eapply wp_mono; [|apply IH; lia].
    intros [[p' err]|s|] h'; cbn; try done. intros (He & Hn' & Ht).
    split; [etrans; [exact He1|by etrans]|]. split; [done|]. intros Herr. destruct (Ht Herr) as [Hty Hlt].
    split; [by eapply typed_key|lia]. }
  destruct ((v =? 127)%Z || (v =? 8)%Z) eqn:Hdel.
  { assert (v = 127 \/ v = 8)%Z as Hv by (apply orb_true_iff in Hdel as [?%Z.eqb_eq|?%Z.eqb_eq]; auto).
    assert (edit p0 v = removelast p0) as Hed by (unfold edit; by rewrite Hdel).
    destruct p0 as [|x p0']; [apply Hgo; try done; lia|].
    cbn [bind sys perform wp]. split; [by apply HG|]. intros [] _.
    apply Hgo; [apply extends_cons|by rewrite reads_other|done|done|lia]. }
  destruct ((v =? 13)%Z || (v =? 10)%Z) eqn:Hend; cbn [wp].
  { split; [done|]. split; [lia|]. intros _. split; [|lia]. exists [], v. split_and!; try done; [|cbn; lia].
    apply orb_true_iff in Hend as [?%Z.eqb_eq|?%Z.eqb_eq]; auto. }
  apply orb_false_iff in Hend as [H13%Z.eqb_neq H10%Z.eqb_neq].
  destruct (Z.eqb_spec v 3) as [|H3]; cbn [wp]; [by split_and!; [|lia|]|].
  destruct (Z.eqb_spec v 0) as [Hv0|H0].
  - apply Hgo; try done. unfold edit. rewrite Hdel. by subst v.
  - cbn [bind sys perform wp]. split; [by apply HG|]. intros [] _.
    apply Hgo; [apply extends_cons|by rewrite reads_other|done| |done].
    unfold edit. rewrite Hdel. by rewrite (proj2 (Z.eqb_neq v 0)).
Qed.

Lemma MaskPassword_wp h :
  (reads h <= n)%nat -> wp R G MaskPassword (asked_read (fun p h' => typed p h h') h) h.
Proof using HR HG.
  intros Hn. unfold MaskPassword. set (read := bind (mask_loop _ _) _).
  assert (forall h1, bytes_read h1 = bytes_read h -> reads h1 = reads h -> extends h h1 ->
    wp R G read (fun o h' => asked_read (fun p h' => typed p h h') h o h' ) h1) as Hread.
  { intros h1 Hb1 Hr1 He1. unfold read. apply wp_bind.
    eapply wp_mono; [|apply mask_loop_wp; lia]. intros [[p err]|s|] h2; cbn [mask_post bind_post wp]; try done.
    intros (He & Hn2 & Ht). split; [by etrans|]. split; [done|]. destruct err as [e|]; [done|].
    destruct (Ht eq_refl) as [(keys & last & Hk & Hl & Hks & Hlen & ->) Hlt]. split; [lia|].
    exists keys, last. rewrite <- Hb1. split_and!; try done. lia. }
  cbn [bind sys perform wp]. split; [by apply HG|]. intros tty _. destruct (tty : bool).
  2:{ by apply Hread; [|by rewrite reads_other|apply extends_cons]. }
  cbn [bindE bind sys perform wp]. split; [by apply HG|]. intros [[]|e] _; cbn [wp].
  2:{ split; [by eexists [_; _]|]. split; [by rewrite !reads_other|done]. }
  apply wp_bind. eapply wp_mono; [|apply Hread; [done|by rewrite !reads_other|by eexists [_; _]]].
  intros [r|s|] h2; cbn [bind_post]; try done. intros (He & Hn2 & Hres).
  cbn [bind ignore sys perform wp]. split; [by apply HG|]. intros x _. split; [by apply HG|]. intros [] _.
  split; [etrans; [exact He|by eexists [_; _]]|]. rewrite !reads_other by done. by split.
Qed.

(** The same password was typed twice, one after the other. *)
Definition typed_twice (p : list ascii) (h : list ev) : Prop :=
  exists h0 h1 h2, extends h1 h2 /\ extends h2 h /\ typed p h0 h1 /\ typed p h1 h2.

Lemma PromptPassword_wp h :
  (reads h <= n)%nat ->
  wp R G PromptPassword
    (asked_read (fun r h' => exists p q h1, extends h1 h' /\ typed p h h1 /\ typed q h1 h' /\
       r = (of_chars q, bool_decide (p = q))) h) h.
Proof using HR HG.
  intros Hn. unfold PromptPassword. cbn [bind sys perform wp]. split; [by apply HG|]. intros [] _.
  set (h0 := Ev (Print _) tt :: h). assert (reads h0 = reads h) as Hr0 by (by apply reads_other).
  eapply wp_mono; [intros o h'; apply (asked_weaken (fun r h' => (reads h < reads h')%nat /\ exists p q h1,
    extends h1 h' /\ typed p h h1 /\ typed q h1 h' /\ r = (of_chars q, bool_decide (p = q))) _ h0);
    [apply extends_cons|done]|].
  eapply asked_bind; [apply asked_wrapf, MaskPassword_wp; lia|].
  intros p h1 He1 Hn1 [Hlt1 Hp]. cbn [bind sys perform wp]. split; [by apply HG|]. intros [] _.
  set (h2 := Ev (Print _) tt :: h1). assert (reads h2 = reads h1) as Hr2 by (by apply reads_other).
  eapply wp_mono; [intros o h'; apply (asked_weaken (fun r h' => (reads h < reads h')%nat /\ exists p q h1,
    extends h1 h' /\ typed p h h1 /\ typed q h1 h' /\ r = (of_chars q, bool_decide (p = q))) _ h2);
    [apply extends_cons|done]|].
  eapply asked_bind; [apply asked_wrapf, MaskPassword_wp; lia|].
  intros q h3 He3 Hn3 [Hlt3 Hq]. cbn [wp ret]. apply asked_ret; [done|]. split; [lia|].
  exists p, q, h1. split_and!; [etrans; [apply extends_cons|exact He3]| | |done].
  - destruct Hp as (keys & last & Hk & Hrest). exists keys, last. split; [|done]. exact Hk.
  - destruct Hq as (keys & last & Hk & Hrest). exists keys, last. split; [|done]. exact Hk.
Qed.
End Dialogue.
