(* ===== verification/CliConfig.v ===== *)
(** * CliConfig: package [internal/cli/config], the config command, and [Write] of package
    [internal/config].

    The third-party packages the configuration goes through are gathered in one interface. *)

From S2P Require Import Prelude GoStrings GoPath Effects OS Config CC.
Open Scope string_scope.
Open Scope list_scope.
Open Scope go_scope.

(** The functions of packages outside the repository: yaml, mergo, mapstructure, encoding of JSON,
    gzip, url, the printing of an error, shacrypt; and the version set when the program is built. *)
Class ThirdParty := {
  tp_yaml_Unmarshal : string -> result data;
  tp_yaml_Marshal : CloudConfig -> result string;
  tp_yaml_Install : Install -> result string;
  tp_mergo : data -> data -> result data;
  tp_mapstructure : (string -> string -> bool) -> data -> CloudConfig -> result CloudConfig;
  tp_json : CloudConfig -> result string;
  tp_gzip_NewReader : string -> result unit;
  tp_gzip_ReadAll : string -> result string;
  tp_url_Parse : string -> result (string * string);
  tp_err_text : error -> string;
  tp_shacrypt_New : result unit;
  tp_shacrypt_Hash : string -> result string;
  tp_Version : string;
}.

Section CliConfig.
Context `{UnicodeTables} `{ThirdParty} (fuel : nat).

Definition read_config : M CloudConfig :=
  ReadConfig tp_yaml_Unmarshal tp_yaml_Marshal tp_mergo tp_mapstructure fuel.

(** [cc.NewDefaultApplier()] with its methods. *)
Definition default_InitApply (cfg : CloudConfig) : M unit :=
  InitApply tp_gzip_NewReader tp_gzip_ReadAll cfg.
Definition default_BootApply (cfg : CloudConfig) : M unit :=
  BootApply tp_gzip_NewReader tp_gzip_ReadAll tp_url_Parse tp_err_text tp_shacrypt_New
    tp_shacrypt_Hash tp_Version [] cfg.
Definition default_InstallApply (cfg : CloudConfig) : M unit := InstallApply tp_Version [] cfg.
Definition default_RunApply (cfg : CloudConfig) : M unit :=
  RunApply tp_gzip_NewReader tp_gzip_ReadAll tp_url_Parse tp_err_text tp_shacrypt_New
    tp_shacrypt_Hash tp_Version [] cfg.

Definition RunInitrd : M unit := let! cfg := read_config in default_InitApply cfg.
Definition RunBoot : M unit := let! cfg := read_config in default_BootApply cfg.
Definition RunInstall : M unit := let! cfg := read_config in default_InstallApply cfg.


(** [config.Write]. *)
Definition Write (cfg : CloudConfig) (writer : File) : M unit :=
  match ToBytes tp_yaml_Marshal cfg with
  | Err e => fail (Errorf_w "failed to marshal config: %w" [] e)
  | Ok bytes => sys (FileWrite writer bytes)
  end.

(** The flags of the command. *)
Record configFlags := {
  cf_initrd : bool; cf_bootPhase : bool; cf_installPhase : bool; cf_dump : bool; cf_dumpJSON : bool;
}.

Definition Main (flags : configFlags) : M unit :=
  if cf_initrd flags then RunInitrd
  else if cf_bootPhase flags then RunBoot
  else if cf_installPhase flags then RunInstall
  else if cf_dump flags then
    let! cfg := read_config in Write cfg Stdout
  else if cf_dumpJSON flags then
    let! cfg := read_config in
    match tp_json cfg with Err e => fail e | Ok text => sys (FileWrite Stdout text) end
  else
    let! cfg := read_config in default_RunApply cfg.

(** What is checked before the command, and before the install command, runs. *)
Definition must_be_root : M unit :=
  let* uid := sys Getuid in
  if (uid =? 0)%Z then ret tt else fail (ErrText "must be run as root").
End CliConfig.

(** Third-party packages of a world where all goes well, to run programs with. *)
Definition demo_third_party : ThirdParty := {|
  tp_yaml_Unmarshal text :=
    Ok (if strings_HasPrefix text "hostname: "
        then {[ "hostname" := VString (strings_Trim (strings_TrimPrefix text "hostname: ") "010") ]} else ∅);
  tp_yaml_Marshal c := Ok ("hostname: " +:+ cc_Hostname c +:+ nl);
  tp_yaml_Install i := Ok ("device: " +:+ in_Device i +:+ nl);
  tp_mergo d e := Ok (e ∪ d);
  tp_mapstructure _ _ c := Ok c;
  tp_json _ := Ok "{}";
  tp_gzip_NewReader _ := Ok tt;
  tp_gzip_ReadAll s := Ok s;
  tp_url_Parse u := Ok ("https", u);
  tp_err_text _ := "";
  tp_shacrypt_New := Ok tt;
  tp_shacrypt_Hash p := Ok ("$6$" +:+ p);
  tp_Version := "v1";
|}.
