(* ===== verification/Installer.v ===== *)
(** * Installer: package [internal/cliinstall], the interactive installation.

    The configuration the questions fill in is passed on; on an error the caller drops it. *)

From S2P Require Import Prelude GoStrings GoPath Effects OS System Config ModeDetect Shadow CC Questions CliConfig.
Open Scope string_scope.
Open Scope list_scope.
Open Scope go_scope.

(** ** Assignments to fields of the configuration *)

Definition set_K3OS (c : CloudConfig) (k : K3OS) : CloudConfig :=
  {| cc_SSHAuthorizedKeys := cc_SSHAuthorizedKeys c; cc_WriteFiles := cc_WriteFiles c;
     cc_Hostname := cc_Hostname c; cc_K3OS := k;
     cc_Runcmd := cc_Runcmd c; cc_Bootcmd := cc_Bootcmd c; cc_Initcmd := cc_Initcmd c |}.

Definition set_SSHKeys (c : CloudConfig) (keys : list string) : CloudConfig :=
  {| cc_SSHAuthorizedKeys := keys; cc_WriteFiles := cc_WriteFiles c;
     cc_Hostname := cc_Hostname c; cc_K3OS := cc_K3OS c;
     cc_Runcmd := cc_Runcmd c; cc_Bootcmd := cc_Bootcmd c; cc_Initcmd := cc_Initcmd c |}.

(** The fields of [K3OS] the questions are about. *)
Definition set_asked (k : K3OS) (wifi : list Wifi) (password serverURL token : string)
  (install : option Install) : K3OS :=
  {| k_DataSources := k_DataSources k; k_Modules := k_Modules k; k_Sysctls := k_Sysctls k;
     k_NTPServers := k_NTPServers k; k_DNSNameservers := k_DNSNameservers k; k_Wifi := wifi;
     k_Password := password; k_ServerURL := serverURL; k_Token := token; k_Labels := k_Labels k;
     k_K3sArgs := k_K3sArgs k; k_Environment := k_Environment k; k_Taints := k_Taints k;
     k_Install := install |}.

Definition set_Wifi (c : CloudConfig) (w : list Wifi) : CloudConfig :=
  let k := cc_K3OS c in
  set_K3OS c (set_asked k w (k_Password k) (k_ServerURL k) (k_Token k) (k_Install k)).
Definition set_Password (c : CloudConfig) (p : string) : CloudConfig :=
  let k := cc_K3OS c in
  set_K3OS c (set_asked k (k_Wifi k) p (k_ServerURL k) (k_Token k) (k_Install k)).
Definition set_ServerURL (c : CloudConfig) (u : string) : CloudConfig :=
  let k := cc_K3OS c in
  set_K3OS c (set_asked k (k_Wifi k) (k_Password k) u (k_Token k) (k_Install k)).
Definition set_Token (c : CloudConfig) (t : string) : CloudConfig :=
  let k := cc_K3OS c in
  set_K3OS c (set_asked k (k_Wifi k) (k_Password k) (k_ServerURL k) t (k_Install k)).
Definition set_Install (c : CloudConfig) (i : Install) : CloudConfig :=
  let k := cc_K3OS c in
  set_K3OS c (set_asked k (k_Wifi k) (k_Password k) (k_ServerURL k) (k_Token k) (Some i)).

Definition set_Device (i : Install) (d : string) : Install :=
  {| in_ForceEFI := in_ForceEFI i; in_Device := d; in_ConfigURL := in_ConfigURL i;
     in_Silent := in_Silent i; in_ISOURL := in_ISOURL i; in_PowerOff := in_PowerOff i;
     in_NoFormat := in_NoFormat i; in_Debug := in_Debug i; in_TTY := in_TTY i |}.
Definition set_ConfigURL (i : Install) (u : string) : Install :=
  {| in_ForceEFI := in_ForceEFI i; in_Device := in_Device i; in_ConfigURL := u;
     in_Silent := in_Silent i; in_ISOURL := in_ISOURL i; in_PowerOff := in_PowerOff i;
     in_NoFormat := in_NoFormat i; in_Debug := in_Debug i; in_TTY := in_TTY i |}.

(** [cfg.K3OS.Install], dereferenced. *)
Definition the_Install (cfg : CloudConfig) : io Install :=
  match k_Install (cc_K3OS cfg) with
  | Some i => Ret i
  | None => Halt (Panic "nil pointer dereference")
  end.

Section Installer.
Context `{UnicodeTables} `{ThirdParty} (fuel : nat).

(** ** ask.go *)

Definition AskInstallDevice (cfg : CloudConfig) : M CloudConfig :=
  let* install := the_Install cfg in
  if negb (bool_decide (in_Device install = "")) then ret cfg
  else
    let! fields := sys ListDisks in
    let! i := PromptFormattedOptions fuel "Installation target. Device will be formatted" (-1) fields in
    match fields !! Z.to_nat i with
    | Some d => ret (set_Install cfg (set_Device install ("/dev/" +:+ d)))
    | None => Halt (Panic "index out of range")
    end.

Definition AskConfigURL (cfg : CloudConfig) : M CloudConfig :=
  let* install := the_Install cfg in
  if negb (bool_decide (in_ConfigURL install = "")) then ret cfg
  else
    let! ok := PromptBool fuel "Config system with cloud-init file?" false in
    if negb ok then ret cfg
    else
      let! str := Prompt fuel "cloud-init file location (file path or http URL): " "" in
      ret (set_Install cfg (set_ConfigURL install str)).

Definition AskGithub (cfg : CloudConfig) : M CloudConfig :=
  if (0 <? List.length (cc_SSHAuthorizedKeys cfg))%nat || negb (bool_decide (k_Password (cc_K3OS cfg) = ""))
  then ret cfg
  else
    let! ok := PromptBool fuel "Authorize GitHub users to SSH?" false in
    if negb ok then ret cfg
    else
      let! str := Prompt fuel "Comma separated list of GitHub users to authorize: " "" in
      ret (set_SSHKeys cfg (cc_SSHAuthorizedKeys cfg ++
             map (fun s => "github:" +:+ strings_TrimSpace s) (strings_Split str ","))).

(** The loop of [AskPassword]: again until the two passwords typed are the same. *)
Fixpoint ask_password (fuel : nat) : M string :=
  match fuel with
  | O => Halt OutOfFuel
  | S fuel =>
      let! '(pass, ok) := PromptPassword in
      if ok : bool then ret pass else ask_password fuel
  end.

Definition AskPassword (cfg : CloudConfig) : M CloudConfig :=
  if (0 <? List.length (cc_SSHAuthorizedKeys cfg))%nat || negb (bool_decide (k_Password (cc_K3OS cfg) = ""))
  then ret cfg
  else
    let! pass := ask_password fuel in
    match HashPassword tp_shacrypt_New tp_shacrypt_Hash pass with
    | Err e => fail e
    | Ok hash => ret (set_Password cfg hash)
    end.

(** The loop of [AskWifi]: the networks, those before first. *)
Fixpoint ask_networks (k : nat) (networks : list Wifi) : M (list Wifi) :=
  match k with
  | O => Halt OutOfFuel
  | S k =>
      let! name := Prompt fuel "WiFi Name: " "" in
      let! pass := Prompt fuel "WiFi Passphrase: " "" in
      let networks := networks ++ [{| wf_Name := name; wf_Passphrase := pass |}] in
      let! ok := PromptBool fuel "Configure another WiFi network?" false in
      if ok : bool then ask_networks k networks else ret networks
  end.

Definition AskWifi (cfg : CloudConfig) : M CloudConfig :=
  if (0 <? List.length (k_Wifi (cc_K3OS cfg)))%nat then ret cfg
  else
    let! ok := PromptBool fuel "Configure WiFi?" false in
    if negb ok then ret cfg
    else
      let! networks := ask_networks fuel (k_Wifi (cc_K3OS cfg)) in
      ret (set_Wifi cfg networks).

Definition AskToken (cfg : CloudConfig) (server : bool) : M CloudConfig :=
  if negb (bool_decide (k_Token (cc_K3OS cfg) = "")) then ret cfg
  else
    let msg := "Token or cluster secret" +:+ (if server then " (optional)" else "") in
    let! token := if server then PromptOptional (msg +:+ ": ") "" else Prompt fuel (msg +:+ ": ") "" in
    ret (set_Token cfg token).

Definition isServer (cfg : CloudConfig) : M bool :=
  let! mode := mode_Get [] in
  if bool_decide (mode = "live-server") then ret true
  else if bool_decide (mode = "live-agent") ||
          (negb (bool_decide (k_ServerURL (cc_K3OS cfg) = "")) &&
           negb (bool_decide (k_Token (cc_K3OS cfg) = ""))) then ret false
  else
    let! i := PromptFormattedOptions fuel "Run as server or agent?" 0 ["server"; "agent"] in
    ret (i =? 0)%Z.

Definition AskServerAgent (cfg : CloudConfig) : M CloudConfig :=
  if negb (bool_decide (k_ServerURL (cc_K3OS cfg) = "")) then ret cfg
  else
    let! server := isServer cfg in
    if server : bool then AskToken cfg true
    else
      let! url := Prompt fuel "URL of server: " "" in
      AskToken (set_ServerURL cfg url) false.

Definition AskInstall (cfg : CloudConfig) : M CloudConfig :=
  let* install := the_Install cfg in
  if in_Silent install then ret cfg
  else
    let! cfg := AskInstallDevice cfg in
    let! cfg := AskConfigURL cfg in
    let* install := the_Install cfg in
    if bool_decide (in_ConfigURL install = "") then
      let! cfg := AskGithub cfg in
      let! cfg := AskPassword cfg in
      let! cfg := AskWifi cfg in
      AskServerAgent cfg
    else ret cfg.

Definition isInstall : M bool :=
  let! mode := mode_Get [] in
  if bool_decide (mode = "install") then ret true
  else if bool_decide (mode = "live-server") || bool_decide (mode = "live-agent") then ret false
  else
    let! i := PromptFormattedOptions fuel "Choose operation" 0
                ["Install to disk"; "Configure server or agent"] in
    ret (i =? 0)%Z.

(** Whether to install, and the configuration. *)
Definition Ask (cfg : CloudConfig) : M (bool * CloudConfig) :=
  let! ok := isInstall in
  if ok : bool then let! cfg := AskInstall cfg in ret (true, cfg)
  else let! cfg := AskServerAgent cfg in ret (false, cfg).

(** ** install.go *)

Definition confirm_text (install : string) : string :=
  nl +:+ "Configuration" +:+ nl +:+ "-------------" +:+ nl +:+ nl +:+ install +:+ nl +:+
  "Your disk will be formatted and k3OS will be installed with the above configuration." +:+ nl +:+
  "Continue?".

(** Writing the configuration to the temporary file, then the installer, then the removal. *)
Definition install_script : string := "/usr/libexec/k3os/install".

Definition exec_install (ev : list string) : M unit :=
  let* environ := sys Environ in
  sys (ExecRunEnv install_script [] (environ ++ ev)).

Definition install_with_file (f : File) (cfg : CloudConfig) (ev : list string) : M unit :=
  match tp_yaml_Marshal (without_install cfg) with
  | Err e => fail e
  | Ok bytes =>
      let! _ := sys (FileWrite f bytes) in
      let! _ := sys (FileClose f) in
      let* r := exec_install ev in
      let* _ := ignore (sys (Remove (file_name f))) in
      Ret r
  end.

(** What [ToEnv] makes of the configuration is handed to [k]. *)
Definition with_env (cfg : CloudConfig) (k : list string -> M unit) : M unit :=
  let! ev := ToEnv tp_yaml_Unmarshal tp_yaml_Marshal fuel cfg in k ev.

Definition runInstall (cfg : CloudConfig) : M unit :=
  match PrintInstall tp_yaml_Install cfg with
  | Err e => fail e
  | Ok installBytes =>
      let* install := the_Install cfg in
      let! val := if in_Silent install then ret true
                  else PromptBool fuel (confirm_text (default "" installBytes)) false in
      if negb val then ret tt
      else if bool_decide (in_ConfigURL install = "") then
        let! f := sys (CreateTemp "/tmp" "k3os.XXXXXXXX") in
        let cfg := set_Install cfg (set_ConfigURL install (file_name f)) in
        let* r := with_env cfg (install_with_file f cfg) in
        let* _ := ignore (sys (FileClose f)) in
        Ret r
      else with_env cfg exec_install
  end.

(** The configuration file, the one of the system or else the local one. *)
Definition create_config : M File :=
  let* f := sys (Create SystemConfig) in
  match f with Ok f => ret f | Err _ => sys (Create LocalConfig) end.

Definition Run : M unit :=
  let* _ := sys (Print (nl +:+ "Running k3OS configuration" +:+ nl)) in
  let! cfg := read_config fuel in
  let! '(isInstall, cfg) := Ask cfg in
  if isInstall : bool then runInstall cfg
  else
    match ToBytes tp_yaml_Marshal cfg with
    | Err e => fail e
    | Ok bytes =>
        let! f := create_config in
        let* r :=
          (let! _ := sys (FileWrite f bytes) in
           let! _ := sys (FileClose f) in
           RunInstall fuel) in
        let* _ := ignore (sys (FileClose f)) in
        Ret r
    end.
End Installer.
