(* ===== verification/InstallerSpec.v ===== *)
(** * InstallerSpec: what the installer's questions make of the configuration, and when the disk is
    formatted. *)

From S2P Require Import Prelude GoStrings GoPath Effects OS System Config ModeDetect Shadow CC Questions QuestionsSpec CliConfig Installer.
Open Scope string_scope.
Open Scope list_scope.
Open Scope go_scope.

(** ** What is configured is kept *)

(** What no question is about. *)
Definition unasked (c : CloudConfig) :=
  let k := cc_K3OS c in
  (cc_WriteFiles c, cc_Hostname c, cc_Runcmd c, cc_Bootcmd c, cc_Initcmd c,
   (k_DataSources k, k_Modules k, k_Sysctls k, k_NTPServers k, k_DNSNameservers k),
   (k_Labels k, k_K3sArgs k, k_Environment k, k_Taints k)).

Definition unasked_install (i : Install) :=
  (in_ForceEFI i, in_Silent i, in_ISOURL i, in_PowerOff i, in_NoFormat i, in_Debug i, in_TTY i).

(** A value that is set stays. *)
Definition keeps {A} (empty x y : A) : Prop := x <> empty -> y = x.

#[export] Instance keeps_preorder {A} (empty : A) : PreOrder (keeps empty).
Proof.
  split; [by intros x|]. intros x y z Hxy Hyz Hx. specialize (Hxy Hx). subst y. by apply Hyz.
Qed.

Record kept_install (i i' : Install) : Prop := {
  ki_unasked : unasked_install i' = unasked_install i;
  ki_device : keeps "" (in_Device i) (in_Device i');
  ki_url : keeps "" (in_ConfigURL i) (in_ConfigURL i');
}.

#[export] Instance kept_install_preorder : PreOrder kept_install.
Proof.
  split; [by intros i|]. intros i j k [H1 H2 H3] [H4 H5 H6].
  split; [by rewrite H4|by etrans|by etrans].
Qed.

Record kept (c c' : CloudConfig) : Prop := {
  kept_unasked : unasked c' = unasked c;
  kept_keys : keeps [] (cc_SSHAuthorizedKeys c) (cc_SSHAuthorizedKeys c');
  kept_wifi : keeps [] (k_Wifi (cc_K3OS c)) (k_Wifi (cc_K3OS c'));
  kept_password : keeps "" (k_Password (cc_K3OS c)) (k_Password (cc_K3OS c'));
  kept_url : keeps "" (k_ServerURL (cc_K3OS c)) (k_ServerURL (cc_K3OS c'));
  kept_token : keeps "" (k_Token (cc_K3OS c)) (k_Token (cc_K3OS c'));
  kept_inst : forall i, k_Install (cc_K3OS c) = Some i ->
                exists i', k_Install (cc_K3OS c') = Some i' /\ kept_install i i';
}.

#[export] Instance kept_preorder : PreOrder kept.
Proof.
  split; [intros x; split; try done; intros i Hi; by exists i|].
  intros x y z [H1 H2 H3 H4 H5 H6 H7] [K1 K2 K3 K4 K5 K6 K7].
  split; [by rewrite K1|by etrans|by etrans|by etrans|by etrans|by etrans|].
  intros i Hi. destruct (H7 i Hi) as (i1 & Hi1 & Hk1). destruct (K7 i1 Hi1) as (i2 & Hi2 & Hk2).
  exists i2. split; [done|by etrans].
Qed.

(** One field set that was empty. *)
Ltac kept_field := split; try done; [intros ?; congruence|intros i Hi; by exists i].


Lemma kept_set_keys c keys : cc_SSHAuthorizedKeys c = [] -> kept c (set_SSHKeys c keys).
Proof. intros H. kept_field. Qed.
Lemma kept_set_wifi c w : k_Wifi (cc_K3OS c) = [] -> kept c (set_Wifi c w).
Proof. intros H. kept_field. Qed.
Lemma kept_set_password c p : k_Password (cc_K3OS c) = "" -> kept c (set_Password c p).
Proof. intros H. kept_field. Qed.
Lemma kept_set_url c u : k_ServerURL (cc_K3OS c) = "" -> kept c (set_ServerURL c u).
Proof. intros H. kept_field. Qed.
Lemma kept_set_token c t : k_Token (cc_K3OS c) = "" -> kept c (set_Token c t).
Proof. intros H. kept_field. Qed.
Lemma kept_set_install c i i' :
  k_Install (cc_K3OS c) = Some i -> kept_install i i' -> kept c (set_Install c i').
Proof. intros H Hk. split; try done. intros j Hj. exists i'. split; [done|]. congruence. Qed.

#[export] Hint Resolve kept_set_keys kept_set_wifi kept_set_password kept_set_url kept_set_token : go.

(** ** The questions *)

(** The calls of the questions, with the disks and the mode. *)
Definition dialogue (c : call) : Prop :=
  match c with ListDisks | ReadFile _ => True | _ => asks c end.

Section Ask.
Context `{UnicodeTables} `{ThirdParty} (R : @rely call resp) (G : @guar call resp) (n fuel : nat).
Context (HR : forall h c r, R h c r -> finite_input n h c r) (HG : forall h c, dialogue c -> G h c).
Context (Hfuel : (n < fuel)%nat).

Lemma dialogue_asks h c : asks c -> G h c.
Proof using HG. intros Ha. apply HG. by destruct c. Qed.

(** A step that keeps what was there, and the password as it was. *)
Definition kept_pw (c c' : CloudConfig) : Prop :=
  kept c c' /\ k_Password (cc_K3OS c') = k_Password (cc_K3OS c).

#[export] Instance kept_pw_preorder : PreOrder kept_pw.
Proof using Type. split; [by intros c|]. intros a b c [H1 H2] [H3 H4]. split; [by etrans|congruence]. Qed.

(** The device configured, or a disk of the list. *)
Definition device_chosen (i i' : Install) (h : list ev) : Prop :=
  (in_Device i <> "" /\ in_Device i' = in_Device i) \/
  (in_Device i = "" /\ exists disks d, Ev ListDisks (Ok disks) ∈ h /\ d ∈ disks /\
     in_Device i' = "/dev/" +:+ d).

(** The password configured, or the hash of one typed twice. *)
Definition password_typed (c c' : CloudConfig) (h : list ev) : Prop :=
  k_Password (cc_K3OS c') = k_Password (cc_K3OS c) \/
  exists p, typed_twice p h /\
    HashPassword tp_shacrypt_New tp_shacrypt_Hash (of_chars p) = Ok (k_Password (cc_K3OS c')).

Lemma prompt_ok text def h :
  (reads h <= n)%nat ->
  wp R G (Prompt fuel text def)
    (asked_read n (fun a h' => a <> "" /\ answered text def a h') h) h.
Proof using All. intros Hn. apply Prompt_wp; [done|apply dialogue_asks|done|lia]. Qed.

Lemma bool_ok text def h :
  (reads h <= n)%nat -> wp R G (PromptBool fuel text def) (asked_read n (yes text def) h) h.
Proof using All. intros Hn. apply PromptBool_wp; [done|apply dialogue_asks|done|lia]. Qed.

Lemma options_ok text def options h :
  (reads h <= n)%nat ->
  wp R G (PromptFormattedOptions fuel text def options)
    (asked n (fun i h' => (0 <= i < Z.of_nat (List.length options))%Z /\
       (List.length options = 1%nat \/
        chose (if (0 <=? def)%Z then strconv_Itoa (def + 1) else "") i h')) h) h.
Proof using All. intros Hn. apply PromptFormattedOptions_wp; [done|apply dialogue_asks|done|lia]. Qed.

Lemma AskInstallDevice_wp c i h :
  k_Install (cc_K3OS c) = Some i -> (reads h <= n)%nat ->
  wp R G (AskInstallDevice fuel c)
    (asked n (fun c' h' => kept_pw c c' /\ exists i', k_Install (cc_K3OS c') = Some i' /\
       device_chosen i i' h') h) h.
Proof using All.
  intros Hi Hn. unfold AskInstallDevice, the_Install. rewrite Hi. cbn [bind].
  case_bool_decide as Hd; cbn [negb].
  2:{ cbn [wp ret]. apply asked_ret; [done|]. split; [done|]. exists i. split; [done|by left]. }
  cbn [bindE bind sys perform wp]. split; [by apply HG|]. intros [fields|e] _; cbn [wp].
  2:{ split; [apply extends_cons|]. split; [by rewrite reads_other|done]. }
  apply (asked_from R G n _ _ h (Ev ListDisks (Ok fields) :: h)); [apply extends_cons|].
  eapply asked_bind; [apply options_ok; by rewrite reads_other|].
  intros num h1 He1 Hn1 [Hnum _].
  destruct (lookup_lt_is_Some_2 fields (Z.to_nat num)) as [d Hdisk]; [lia|]. rewrite Hdisk. cbn [wp ret].
  apply asked_ret; [done|]. split.
  - split; [|done]. apply (kept_set_install c i); [done|]. split; [done| |done]. by intros ?.
  - exists (set_Device i ("/dev/" +:+ d)). split; [done|]. right. split; [done|].
    exists fields, d. split_and!; [|by eapply list_elem_of_lookup_2|done].
    apply (extends_elem _ _ _ He1). left.
Qed.

Lemma AskConfigURL_wp c i h :
  k_Install (cc_K3OS c) = Some i -> (reads h <= n)%nat ->
  wp R G (AskConfigURL fuel c) (asked n (fun c' _ => kept_pw c c') h) h.
Proof using All.
  intros Hi Hn. unfold AskConfigURL, the_Install. rewrite Hi. cbn [bind].
  case_bool_decide as Hd; cbn [negb]; [|by apply asked_ret].
  eapply asked_bind; [by apply bool_ok|]. intros ok h1 He1 Hn1 _.
  destruct ok; cbn [negb]; [|by apply asked_ret].
  eapply asked_bind; [by apply prompt_ok|]. intros u h2 He2 Hn2 _. cbn [wp ret]. apply asked_ret; [done|].
  split; [|done]. apply (kept_set_install c i); [done|]. split; [done|done|]. by intros ?.
Qed.

(** Neither keys nor a password are configured. *)
Lemma no_login c :
  (0 <? List.length (cc_SSHAuthorizedKeys c))%nat || negb (bool_decide (k_Password (cc_K3OS c) = "")) = false ->
  cc_SSHAuthorizedKeys c = [] /\ k_Password (cc_K3OS c) = "".
Proof using Type.
  intros [Hl Hp]%orb_false_iff. apply Nat.ltb_ge in Hl. case_bool_decide as Hpw; [|done].
  split; [|done]. by destruct (cc_SSHAuthorizedKeys c); [|cbn in Hl; clear -Hl; lia].
Qed.

Lemma AskGithub_wp c h :
  (reads h <= n)%nat -> wp R G (AskGithub fuel c) (asked n (fun c' _ => kept_pw c c') h) h.
Proof using All.
  intros Hn. unfold AskGithub. destruct (_ || _) eqn:Hc; [by apply asked_ret|].
  apply no_login in Hc as [Hk _].
  eapply asked_bind; [by apply bool_ok|]. intros ok h1 He1 Hn1 _.
  destruct ok; cbn [negb]; [|by apply asked_ret].
  eapply asked_bind; [by apply prompt_ok|]. intros u h2 He2 Hn2 _. cbn [wp ret]. apply asked_ret; [done|].
  split; [by apply kept_set_keys|done].
Qed.

Lemma ask_password_wp k h :
  (reads h <= n)%nat -> (n < k + reads h)%nat ->
  wp R G (ask_password k) (asked n (fun pass h' => exists p, pass = of_chars p /\ typed_twice p h') h) h.
Proof using All.
  revert h. induction k as [|k IH]; intros h Hn Hk; [lia|]. cbn [ask_password].
  eapply asked_bind; [apply PromptPassword_wp; [done|apply dialogue_asks|done]|].
  intros [pass ok] h1 He1 Hn1 [Hlt (p & q & h2 & He2 & Hp & Hq & Heq)]. injection Heq as -> ->.
  case_bool_decide as Hpq; [|apply IH; lia]. subst q. cbn [wp ret]. apply asked_ret; [done|].
  exists p. split; [done|]. by exists h, h2, h1.
Qed.

Lemma AskPassword_wp c h :
  (reads h <= n)%nat ->
  wp R G (AskPassword fuel c) (asked n (fun c' h' => kept c c' /\ password_typed c c' h') h) h.
Proof using All.
  intros Hn. unfold AskPassword.
  destruct (_ || _) eqn:Hc; [apply asked_ret; [done|split; [done|by left]]|].
  apply no_login in Hc as [_ Hpw].
  eapply asked_bind; [apply ask_password_wp; [done|lia]|]. intros pass h1 He1 Hn1 (p & -> & Ht).
  destruct (HashPassword _ _ _) as [hash|e] eqn:Hh; cbn [wp ret fail]; [|by split].
  apply asked_ret; [done|]. split; [by apply kept_set_password|]. right. exists p. by split.
Qed.

Lemma ask_networks_wp k ws h :
  (reads h <= n)%nat -> (n < k + reads h)%nat ->
  wp R G (ask_networks fuel k ws) (asked n (fun ws' _ => exists new, ws' = ws ++ new) h) h.
Proof using All.
  revert ws h. induction k as [|k IH]; intros ws h Hn Hk; [lia|]. cbn [ask_networks].
  eapply asked_bind; [by apply prompt_ok|]. intros name h1 He1 Hn1 [Hlt1 _].
  eapply asked_bind; [by apply prompt_ok|]. intros pass h2 He2 Hn2 [Hlt2 _].
  eapply asked_bind; [by apply bool_ok|]. intros ok h3 He3 Hn3 [Hlt3 _].
  destruct ok; [|cbn [wp ret]; apply asked_ret; [done|by eexists]].
  eapply asked_impl; [|apply IH; lia]. intros ws' h4 [new ->]. rewrite <- (assoc_L app). by eexists.
Qed.

Lemma AskWifi_wp c h :
  (reads h <= n)%nat -> wp R G (AskWifi fuel c) (asked n (fun c' _ => kept_pw c c') h) h.
Proof using All.
  intros Hn. unfold AskWifi. destruct (Nat.ltb_spec 0 (List.length (k_Wifi (cc_K3OS c)))) as [_|Hl];
    [by apply asked_ret|].
  assert (k_Wifi (cc_K3OS c) = []) as Hw by (by destruct (k_Wifi (cc_K3OS c)); [|cbn in Hl; lia]).
  eapply asked_bind; [by apply bool_ok|]. intros ok h1 He1 Hn1 _.
  destruct ok; cbn [negb]; [|by apply asked_ret].
  eapply asked_bind; [apply ask_networks_wp; [done|lia]|]. intros ws h2 He2 Hn2 _. cbn [wp ret].
  apply asked_ret; [done|]. split; [by apply kept_set_wifi|done].
Qed.

Lemma AskToken_wp c server h :
  (reads h <= n)%nat -> wp R G (AskToken fuel c server) (asked n (fun c' _ => kept_pw c c') h) h.
Proof using All.
  intros Hn. unfold AskToken. case_bool_decide as Ht; cbn [negb]; [|by apply asked_ret].
  eapply asked_bind with (P := fun _ _ => True).
  - destruct server.
    + eapply asked_impl; [by intros|]. apply PromptOptional_wp; [done|apply dialogue_asks|done].
    + eapply asked_impl; [by intros|]. by apply prompt_ok.
  - intros t h1 He1 Hn1 _. cbn [wp ret]. apply asked_ret; [done|]. split; [by apply kept_set_token|done].
Qed.

(** The mode was read as [m]. *)
Definition mode_read (m : string) (h : list ev) : Prop :=
  exists s, Ev (ReadFile (path_Join [path_Join []; StatePath ["mode"]])) (Ok s) ∈ h /\ strings_TrimSpace s = m.

Lemma mode_Get_wp h :
  (reads h <= n)%nat ->
  wp R G (mode_Get []) (asked n (fun m h' => m <> "" -> mode_read m h') h) h.
Proof using HG.
  intros Hn. unfold mode_Get. cbn [bind sys perform wp]. split; [by apply HG|].
  intros [s|e] _; cbn [wp ret].
  - split; [apply extends_cons|]. split; [by rewrite reads_other|]. intros _. exists s. split; [left|done].
  - destruct (os_IsNotExist e); cbn [wp ret fail]; (split; [apply extends_cons|]);
      (split; [by rewrite reads_other|done]).
Qed.

Lemma isServer_wp c h :
  (reads h <= n)%nat -> wp R G (isServer fuel c) (asked n (fun _ _ => True) h) h.
Proof using All.
  intros Hn. unfold isServer. eapply asked_bind; [by apply mode_Get_wp|]. intros m h1 He1 Hn1 _.
  case_bool_decide; [by apply asked_ret|]. destruct (_ || _); [by apply asked_ret|].
  eapply asked_bind; [by apply options_ok|]. intros i h2 He2 Hn2 _. by apply asked_ret.
Qed.

Lemma AskServerAgent_wp c h :
  (reads h <= n)%nat -> wp R G (AskServerAgent fuel c) (asked n (fun c' _ => kept_pw c c') h) h.
Proof using All.
  intros Hn. unfold AskServerAgent. case_bool_decide as Hu; cbn [negb]; [|by apply asked_ret].
  eapply asked_bind; [by apply isServer_wp|]. intros server h1 He1 Hn1 _.
  destruct server; [by apply AskToken_wp|].
  eapply asked_bind; [by apply prompt_ok|]. intros url h2 He2 Hn2 _.
  eapply asked_impl; [|by apply AskToken_wp]. intros c' h3 Hk. etrans; [|exact Hk].
  split; [by apply kept_set_url|done].
Qed.

(** What the questions of an installation come to. *)
Definition install_answers (c : CloudConfig) (i : Install) (c' : CloudConfig) (h : list ev) : Prop :=
  if in_Silent i then c' = c
  else kept c c' /\ password_typed c c' h /\
       exists i', k_Install (cc_K3OS c') = Some i' /\ device_chosen i i' h.

Lemma typed_twice_later p h h' : extends h h' -> typed_twice p h -> typed_twice p h'.
Proof using Type.
  intros He (h0 & h1 & h2 & H1 & H2 & Hp & Hq). exists h0, h1, h2. split_and!; [done|by etrans|done|done].
Qed.

Lemma device_chosen_later i i' j h h' :
  extends h h' -> kept_install i' j -> device_chosen i i' h -> device_chosen i j h'.
Proof using Type.
  intros He [_ Hk _] [[Hd Heq]|(Hd & disks & d & Hl & Hin & Heq)].
  - left. split; [done|]. rewrite Hk; [done|by rewrite Heq].
  - right. split; [done|]. exists disks, d. split_and!; [by eapply extends_elem|done|].
    rewrite Hk; [done|by rewrite Heq].
Qed.

Lemma AskInstall_wp c i h :
  k_Install (cc_K3OS c) = Some i -> (reads h <= n)%nat ->
  wp R G (AskInstall fuel c) (asked n (install_answers c i) h) h.
Proof using All.
  intros Hi Hn. unfold AskInstall, the_Install, install_answers. rewrite Hi. cbn [bind].
  destruct (in_Silent i); [by apply asked_ret|].
  eapply asked_bind; [by apply AskInstallDevice_wp|]. intros c1 h1 He1 Hn1 ([Hk1 Hp1] & i1 & Hi1 & Hd1).
  eapply asked_bind; [by eapply AskConfigURL_wp|]. intros c2 h2 He2 Hn2 [Hk2 Hp2].
  destruct (kept_inst _ _ Hk2 i1 Hi1) as (i2 & Hi2 & Hki2). rewrite Hi2. cbn [bind].
  assert (forall c' h', extends h2 h' -> kept c2 c' -> password_typed c2 c' h' -> kept c c' /\
    password_typed c c' h' /\ exists i', k_Install (cc_K3OS c') = Some i' /\ device_chosen i i' h') as Hend.
  { intros c' h' He' Hk' Hpw. split; [by etrans; [|etrans]|]. split.
    - destruct Hpw as [Heq|Hpw]; [left; congruence|by right].
    - destruct (kept_inst _ _ Hk' i2 Hi2) as (i' & Hi' & Hki'). exists i'. split; [done|].
      apply (device_chosen_later i i1 i' h1); [by etrans|by etrans|done]. }
  case_bool_decide as Hurl; [|apply asked_ret; [done|]; apply Hend; [done|done|by left]].
  eapply asked_bind; [by apply AskGithub_wp|]. intros c3 h3 He3 Hn3 [Hk3 Hp3].
  eapply asked_bind; [by apply AskPassword_wp|]. intros c4 h4 He4 Hn4 [Hk4 Hp4].
  eapply asked_bind; [by apply AskWifi_wp|]. intros c5 h5 He5 Hn5 [Hk5 Hp5].
  eapply wp_mono; [|by apply AskServerAgent_wp]. intros [[c6|e]|s|] h6; try done.
  intros (He6 & Hn6 & [Hk6 Hp6]). split; [done|]. split; [done|]. apply Hend.
  - by repeat (etrans; [eassumption|]).
  - by repeat (etrans; [eassumption|]).
  - destruct Hp4 as [Heq|(p & Ht & Hh)]; [left; congruence|]. right. exists p. split.
    + eapply typed_twice_later; [|exact Ht]. by etrans.
    + rewrite Hp6, Hp5. exact Hh.
Qed.

(** The mode is install, or the first option was chosen. *)
Definition install_chosen (h : list ev) : Prop :=
  mode_read "install" h \/ exists h1, extends h1 h /\ chose "1" 0 h1.

Lemma install_chosen_later h h' : extends h h' -> install_chosen h -> install_chosen h'.
Proof using Type.
  intros He [(s & Hs & Ht)|(h1 & He1 & Hc)].
  - left. exists s. split; [by eapply extends_elem|done].
  - right. exists h1. split; [by etrans|done].
Qed.

Lemma isInstall_wp h :
  (reads h <= n)%nat ->
  wp R G (isInstall fuel) (asked n (fun b h' => b = true -> install_chosen h') h) h.
Proof using All.
  intros Hn. unfold isInstall. eapply asked_bind; [by apply mode_Get_wp|]. intros m h1 He1 Hn1 Hm.
  case_bool_decide as Hi.
  { apply asked_ret; [done|]. intros _. left. subst m. by apply Hm. }
  destruct (_ || _); [by apply asked_ret|].
  eapply asked_bind; [by apply options_ok|]. intros k h2 He2 Hn2 [_ Hc]. cbn [wp ret].
  apply asked_ret; [done|]. intros ->%Z.eqb_eq. right. exists h2. split; [done|].
  destruct Hc as [Hc|Hc]; [done|exact Hc].
Qed.

Definition ask_answers (c : CloudConfig) (i : Install) (r : bool * CloudConfig) (h : list ev) : Prop :=
  let '(install, c') := r in
  kept c c' /\
  (if install : bool then install_chosen h /\ install_answers c i c' h
   else k_Password (cc_K3OS c') = k_Password (cc_K3OS c)).

Lemma Ask_wp c i h :
  k_Install (cc_K3OS c) = Some i -> (reads h <= n)%nat ->
  wp R G (Ask fuel c) (asked n (ask_answers c i) h) h.
Proof using All.
  intros Hi Hn. unfold Ask. eapply asked_bind; [by apply isInstall_wp|]. intros ok h1 He1 Hn1 Hok.
  destruct ok.
  - eapply asked_bind; [by apply AskInstall_wp|]. intros c' h2 He2 Hn2 Hc'. cbn [wp ret].
    apply asked_ret; [done|]. split.
    + unfold install_answers in Hc'. destruct (in_Silent i); [by subst c'|apply Hc'].
    + split; [|done]. eapply install_chosen_later; [exact He2|]. by apply Hok.
  - eapply asked_bind; [by apply AskServerAgent_wp|]. intros c' h2 He2 Hn2 [Hk Hp]. by apply asked_ret.
Qed.
End Ask.

(** ** Confirmation *)

Section Install.
Context `{UnicodeTables} `{ThirdParty} (fuel n : nat) (c : CloudConfig) (i : Install).

(** The settings shown. *)
Definition shown_install (text : string) : Prop :=
  exists b, PrintInstall tp_yaml_Install c = Ok b /\ text = default "" b.

(** The installation is silent, or the question that shows the settings was answered y. *)
Definition confirmed (h : list ev) : Prop :=
  in_Silent i = true \/
  exists text h1, shown_install text /\ extends h1 h /\ yes (confirm_text text) false true h1.

(** The environment comes from this configuration. *)
Definition env_of (c' : CloudConfig) (ev : list string) : Prop :=
  exists h1 h2, exec any_resp (ToEnv tp_yaml_Unmarshal tp_yaml_Marshal fuel c') h1 h2 (Done (Ok ev)).

(** The temporary file, made after the confirmation. *)
Definition temp_file (f : File) (h : list ev) : Prop :=
  in_ConfigURL i = "" /\ exists older, confirmed older /\
    extends (Ev (CreateTemp "/tmp" "k3os.XXXXXXXX") (Ok f) :: older) h.

(** The configuration the installer is told of. *)
Definition told (f : File) : CloudConfig := set_Install c (set_ConfigURL i (file_name f)).

Definition install_guard : @guar call resp := fun h c0 =>
  match c0 with
  | RangeOrder _ | Environ => confirmed h
  | FileClose f => temp_file f h
  | CreateTemp d p => d = "/tmp" /\ p = "k3os.XXXXXXXX" /\ in_ConfigURL i = "" /\ confirmed h
  | FileWrite f bytes => temp_file f h /\ tp_yaml_Marshal (without_install (told f)) = Ok bytes
  | ExecRunEnv name args env =>
      name = install_script /\ args = [] /\ confirmed h /\
      exists environ ev, env = environ ++ ev /\
        ((in_ConfigURL i <> "" /\ env_of c ev /\ exists older, h = Ev Environ environ :: older) \/
         (exists f bytes older, temp_file f older /\ env_of (told f) ev /\
            tp_yaml_Marshal (without_install (told f)) = Ok bytes /\
            h = Ev Environ environ :: Ev (FileClose f) (Ok tt) :: Ev (FileWrite f bytes) (Ok tt) :: older))
  | Remove p => exists f env r older, temp_file f older /\ p = file_name f /\
      h = Ev (ExecRunEnv install_script [] env) r :: older
  | c0 => asks c0
  end.

Definition executed (h : list ev) : Prop :=
  exists env older, extends (Ev (ExecRunEnv install_script [] env) (Ok tt) :: older) h.

(** Without an error, the answer was no or the installer returned none. *)
Definition install_post (o : outcome (result unit)) (h : list ev) : Prop :=
  match o with
  | Done (Ok _) =>
      (in_Silent i = false /\ exists text, shown_install text /\ yes (confirm_text text) false false h) \/
      executed h
  | _ => True
  end.

Lemma confirmed_later h h' : extends h h' -> confirmed h -> confirmed h'.
Proof using Type.
  intros He [Hs|(text & h1 & Hs & He1 & Hy)]; [by left|right]. exists text, h1. split_and!; [done|by etrans|done].
Qed.

Lemma temp_file_later f h h' : extends h h' -> temp_file f h -> temp_file f h'.
Proof using Type. intros He (Hu & older & Hc & He1). split; [done|]. exists older. split; [done|by etrans]. Qed.

Lemma temp_file_confirmed f h : temp_file f h -> confirmed h.
Proof using Type.
  intros (_ & older & Hc & He). eapply confirmed_later; [|exact Hc]. etrans; [apply extends_cons|exact He].
Qed.

Context (R : @rely call resp) (HR : forall h c r, R h c r -> finite_input n h c r) (Hfuel : (n < fuel)%nat).

(** Making the environment only visits maps. *)
Definition visits_map (c0 : call) : Prop := match c0 with RangeOrder _ => True | _ => False end.

Lemma mapToEnv_wp k prefix d h :
  wp R (fun _ => visits_map) (mapToEnv k prefix d) (fun _ _ => True) h.
Proof using Type.
  revert prefix d h. induction k as [|k IH]; intros prefix d h; [done|]. cbn [mapToEnv].
  unfold range_order. cbn [bind sys perform wp]. split; [done|]. intros o _.
  apply (wp_for_fold _ _ _ _ _ (fun _ _ _ => True) (fun _ _ => True)); [done|done|].
  intros key l res h1 _. destruct (d !! key) as [[]|]; try done.
  apply wp_bind. eapply wp_mono; [|apply IH]. by intros [] ? _.
Qed.

Lemma with_env_wp c' (k : list string -> M unit) Q h :
  confirmed h ->
  (forall ev h', extends h h' -> confirmed h' -> env_of c' ev -> wp R install_guard (k ev) Q h') ->
  (forall o h', match o with Done (Ok _) => False | _ => True end -> extends h h' -> Q o h') ->
  wp R install_guard (with_env fuel c' k) Q h.
Proof using Type.
  intros Hc Hk HQ. unfold with_env. apply wp_bindE.
  assert (wp R (fun _ => visits_map) (ToEnv tp_yaml_Unmarshal tp_yaml_Marshal fuel c') (fun _ _ => True) h) as Hw.
  { unfold ToEnv. destruct (encodeToMap _ _ c') as [d|e]; [|done].
    apply wp_bind. eapply wp_mono; [|apply mapToEnv_wp]. by intros [] ? _. }
  apply (wp_always _ _ _ _ (fun h' => extends h h')) in Hw;
    [|intros e h1 He; etrans; [exact He|apply extends_cons]|done].
  apply wp_exec in Hw. eapply wp_weaken; [| | |exact Hw]; [done| |].
  - intros h1 c0 [Hv He]. destruct c0; try done. by eapply confirmed_later.
  - intros [[ev|e]|s|] h1 [[_ He] Hex]; try done; try (by apply HQ).
    apply Hk; [done|by eapply confirmed_later|]. by exists h, h1.
Qed.

Lemma install_with_file_wp f ev h :
  temp_file f h -> env_of (told f) ev ->
  wp R install_guard (install_with_file f (told f) ev)
    (fun o h' => extends h h' /\ match o with Done (Ok _) => executed h' | _ => True end) h.
Proof using Type.
  intros Hf Hev. unfold install_with_file, exec_install.
  destruct (tp_yaml_Marshal _) as [bytes|e] eqn:Hb; [|done].
  wp_norm. split; [done|]. intros [[]|e] _; wp_norm; [|by split; [apply extends_cons|]].
  split; [by apply (temp_file_later f h); [apply extends_cons|]|].
  intros [[]|e] _; wp_norm; [|by split; [by eexists [_; _]|]].
  split; [apply (confirmed_later h); [by eexists [_; _]|by eapply temp_file_confirmed]|].
  intros environ _. wp_norm. split.
  { split; [done|]. split; [done|].
    split; [apply (confirmed_later h); [by eexists [_; _; _]|by eapply temp_file_confirmed]|].
    exists environ, ev. split; [done|]. right. by exists f, bytes, h. }
  intros r _. wp_norm. set (h1 := Ev Environ environ :: _).
  split; [by eexists f, _, r, h1; split_and!; [apply (temp_file_later f h); [by eexists [_; _; _]|]| |]|].
  intros x _. wp_norm. split; [by eexists [_; _; _; _; _]|].
  destruct r as [[]|e]; [|done]. eexists _, h1. by eexists [_].
Qed.

Lemma runInstall_wp h :
  k_Install (cc_K3OS c) = Some i -> (reads h <= n)%nat ->
  wp R install_guard (runInstall fuel c) install_post h.
Proof using HR Hfuel.
  intros Hi Hn. unfold runInstall, the_Install.
  destruct (PrintInstall _ c) as [b|e] eqn:Hb; [|done]. rewrite Hi. cbn [bind].
  assert (forall h1, confirmed h1 -> wp R install_guard
    (if bool_decide (in_ConfigURL i = "") then
       let! f := sys (CreateTemp "/tmp" "k3os.XXXXXXXX") in
       let cfg := set_Install c (set_ConfigURL i (file_name f)) in
       let* r := with_env fuel cfg (install_with_file f cfg) in
       let* _ := ignore (sys (FileClose f)) in Ret r
     else with_env fuel c exec_install) install_post h1) as Hgo.
  { intros h1 Hc. case_bool_decide as Hu.
    - wp_norm. split; [done|]. intros [f|e] _; wp_norm; [|done].
      set (h2 := Ev (CreateTemp _ _) _ :: h1).
      assert (temp_file f h2) as Hf by (split; [done|]; by exists h1).
      apply wp_bind. apply with_env_wp.
      + apply (confirmed_later h1); [apply extends_cons|done].
      + intros ev h3 He3 _ Hev. eapply wp_mono; [|apply install_with_file_wp; [by apply (temp_file_later f h2)|done]].
        intros [r|s|] h4 [He4 Hp]; cbn [bind_post]; try done. wp_norm.
        split; [apply (temp_file_later f h2); [by etrans|done]|]. intros x _. wp_norm.
        destruct r as [[]|e]; [|done]. right. destruct Hp as (env & older & Ho). exists env, older.
        etrans; [exact Ho|apply extends_cons].
      + intros [[[]|e]|s|] h3 Ho He3; try done; cbn [bind_post]. wp_norm.
        split; [by apply (temp_file_later f h2)|]. by intros x _.
    - apply with_env_wp; [done| |by intros [[[]|e]|s|] ? ? ?].
      intros ev h2 He2 Hc2 Hev. unfold exec_install. wp_norm. split; [done|]. intros environ _. wp_norm.
      split; [split_and!; [done|done|by apply (confirmed_later h2); [apply extends_cons|]|]|].
      { exists environ, ev. split; [done|]. left. split_and!; [done|done|by eexists]. }
      intros [[]|e] _; [|done]. right. by eexists _, _. }
  destruct (in_Silent i) eqn:Hs.
  - cbn [bindE bind ret negb]. apply Hgo. by left.
  - apply wp_bindE. eapply wp_mono; [|apply (PromptBool_wp R install_guard n HR)]; [|by intros h0 []|done|lia].
    intros [[v|e]|s|] h1; cbn [asked_read asked]; try done. intros (He & Hn1 & Hlt & Hy).
    destruct v; cbn [negb].
    + apply Hgo. right. exists (default "" b), h1. split_and!; [by exists b|done|done].
    + left. split; [done|]. exists (default "" b). split; [by exists b|done].
Qed.
End Install.

(** ** Properties *)



(** ** A scripted terminal *)

(** The third-party functions, as far as the scripts need them. *)
#[local] Existing Instance demo_third_party.

(** The lines and the keys still to be typed; two disks, no mode file. *)
Definition terminal (c : call) (w : list string * list Z) : resp c * (list string * list Z) :=
  match c return resp c * (list string * list Z) with
  | StdinReadString =>
      match fst w with
      | [] => (Err EOF, w)
      | l :: ls => (Ok l, (ls, snd w))
      end
  | StdinReadByte =>
      match snd w with
      | [] => ((None, None), w)
      | v :: vs => ((Some v, None), (fst w, vs))
      end
  | ListDisks => (Ok ["sda"; "sdb"], w)
  | ReadFile p => (Err (ErrSys "open" p ENOENT), w)
  | c => (all_ok c, w)
  end.

Lemma terminal_finite n w h c :
  (List.length (fst w) + List.length (snd w) + reads h = n)%nat ->
  finite_input n h c (fst (terminal c w)) /\
  (List.length (fst (snd (terminal c w))) + List.length (snd (snd (terminal c w))) +
   reads (Ev c (fst (terminal c w)) :: h) = n)%nat.
Proof.
  intros Hn. destruct w as [ls vs].
  destruct c; try (split; [done|]; by rewrite reads_other).
  - destruct ls as [|l ls]; cbn [terminal fst snd] in *.
    + split; [done|]. by rewrite reads_other.
    + rewrite reads_read by done. cbn [List.length] in *. split; [intros _; lia|lia].
  - destruct vs as [|v vs]; cbn [terminal fst snd] in *.
    + split; [done|]. by rewrite reads_other.
    + rewrite reads_read by done. cbn [List.length] in *. split; [intros _; lia|lia].
Qed.

Lemma terminal_exec {A} (p : io A) ls vs :
  exec (finite_input (List.length ls + List.length vs)) p [] (snd (run terminal p (ls, vs) []))
    (fst (fst (run terminal p (ls, vs) []))).
Proof.
  apply run_exec_rely with
    (Inv := fun w h => (List.length (fst w) + List.length (snd w) + reads h = List.length ls + List.length vs)%nat);
    [|by rewrite Nat.add_0_r].
  intros w h c. by apply terminal_finite.
Qed.

(** Install on the second disk; no cloud-init file, no keys from GitHub; the password ab, after a
    mistake that is erased and a first pair that differs; no wireless network; a server. *)
Definition demo_lines : list string :=
  map (fun l => l +:+ nl) ["1"; "2"; "n"; "n"; "n"; "7"; "1"; ""].
Definition demo_keys : list Z := [97; 13; 98; 13; 97; 99; 127; 98; 13; 97; 98; 13]%Z.
Definition demo_config : CloudConfig := emptyCloudConfig (Some emptyInstall).

Definition demo_run := run terminal (Ask 40 demo_config) (demo_lines, demo_keys) [].

Definition answered_config (o : outcome (result (bool * CloudConfig))) : option (bool * string * option string) :=
  match o with
  | Done (Ok (b, c)) => Some (b, k_Password (cc_K3OS c), in_Device <$> k_Install (cc_K3OS c))
  | _ => None
  end.


(** The same configuration without a file of its own is installed after a y. *)
Definition install_run := run terminal (runInstall 40 demo_config) (["Y" +:+ nl], []) [].

Definition ran_installer (e : ev) : bool :=
  match ev_call e with ExecRunEnv n _ _ => bool_decide (n = install_script) | _ => false end.

