(* ===== verification/BootCalls.v ===== *)
(** * BootCalls: no component of the boot replaces the process or reboots, but the disk mode. *)

From S2P Require Import Prelude GoStrings GoPath Effects OS Only System Bootstrap DiskMode LiveModes Finalize ModeDetect Config MountPkg Shadow WriteFiles Ssh CC CliConfig Modalias DevPopulate Rc.
Open Scope string_scope.
Open Scope list_scope.
Open Scope go_scope.

(** The call leaves the process what it is. *)
Definition stays (c : call) : Prop :=
  match c with
  | Exec _ _ _ | SysExec _ _ _ | ExecNamespaced _ _ _ | SysReboot => False
  | _ => True
  end.

(** ** Run control (rc) *)

Lemma GetKernelVersion_stays : only stays GetKernelVersion.
Proof. unfold GetKernelVersion. only_solve. Qed.
#[export] Hint Resolve GetKernelVersion_stays : calls.

Lemma alias_Init_stays : only stays Modalias.Init.
Proof. unfold Modalias.Init, getAliasesFile. only_solve. Qed.
#[export] Hint Resolve alias_Init_stays : calls.

Lemma Load_stays ma alias : only stays (Modalias.Load ma alias).
Proof. unfold Modalias.Load, Lookup. only_solve. Qed.
#[export] Hint Resolve Load_stays : calls.

Section Rc.
Context (Mkdev : Z -> Z -> Z).

Lemma PopulateDev_stays opts : only stays (PopulateDev Mkdev opts).
Proof.
  unfold PopulateDev, collect_names, populate_device, ensureDeviceNode, createSymlink. only_solve.
Qed.
#[local] Hint Resolve PopulateDev_stays : calls.

Lemma CreateNS_stays c : only stays (CreateNS Mkdev c).
Proof. destruct c; unfold CreateNS, Dir_Create, Mount_Create, Dev_Create, Symlink_Create, Write_Create; only_solve. Qed.
#[local] Hint Resolve CreateNS_stays : calls.

Lemma rc_Run_stays pool : only stays (Rc.Run Mkdev pool).
Proof.
  unfold Rc.Run, doMounts, doHotplug, doClock, doLoopback, doHostname, doResolvConf, modaliases,
    ApplyTracked, write, read, readdir, glob, exists_. only_solve.
Qed.
End Rc.
#[export] Hint Resolve rc_Run_stays : calls.

(** ** Configuration *)

Lemma mode_Get_stays prefix : only stays (mode_Get prefix).
Proof. unfold mode_Get. only_solve. Qed.
#[export] Hint Resolve mode_Get_stays : calls.

Section Config.
Context `{UnicodeTables} `{ThirdParty}.

Lemma normalizeData_stays fuel d : only stays (normalizeData fuel d).
Proof using Type.
  revert d. induction fuel as [|fuel IH]; intros d; [done|]. cbn [normalizeData]. only_solve.
Qed.
#[local] Hint Resolve normalizeData_stays : calls.

Lemma merge_go_stays fuel d rs : Forall (only stays) rs -> only stays (merge_go tp_mergo fuel d rs).
Proof using Type.
  intros Hrs. revert d. induction Hrs as [|r rs Hr _ IH]; intros d; [done|]. cbn [merge_go].
  only_solve; auto.
Qed.

Lemma readFile_stays path : only stays (readFile tp_yaml_Unmarshal path).
Proof using Type. unfold readFile. only_solve. Qed.

Lemma readers_stay : Forall (only stays) (readers tp_yaml_Unmarshal tp_yaml_Marshal).
Proof using Type.
  unfold readers, readSystemConfig, readLocalConfig.
  repeat apply Forall_cons_2; try apply Forall_nil_2; try apply readFile_stays.
  - unfold readCmdline. only_solve.
  - unfold readFlagsFile. only_solve.
  - unfold readCloudConfig. only_solve.
  - unfold readUserData. only_solve.
Qed.

Lemma read_config_stays fuel : only stays (read_config fuel).
Proof using Type.
  assert (forall rs, Forall (only stays) rs ->
    only stays (readersToObject tp_mergo tp_mapstructure fuel (readers tp_yaml_Unmarshal tp_yaml_Marshal ++ rs))) as Hrs.
  { intros rs Hrs. unfold readersToObject, merge. apply only_bindE; [|done].
    apply merge_go_stays, Forall_app. split; [apply readers_stay|done]. }
  unfold read_config, ReadConfig, readLocalConfigs. cbn [bind sys perform only]. split; [done|].
  intros [files|e].
  - apply Hrs, Forall_map, Forall_true. intros f. apply readFile_stays.
  - destruct (os_IsNotExist e); apply Hrs; by repeat constructor.
Qed.
#[local] Hint Resolve read_config_stays : calls.

(** ** Applying the configuration *)

Lemma WriteFiles_stays cfg : only stays (WriteFiles.WriteFiles tp_gzip_NewReader tp_gzip_ReadAll cfg).
Proof using Type.
  unfold WriteFiles.WriteFiles, write_entry, WriteFile_impl, fill_temp, ensureDirectoryExists. only_solve.
Qed.
#[local] Hint Resolve WriteFiles_stays : calls.

Lemma http_retry_stays n url last : only stays (http_retry tp_err_text n url last).
Proof using Type. revert last. induction n as [|n IH]; intros last; [done|]. cbn [http_retry]. only_solve. Qed.
#[local] Hint Resolve http_retry_stays : calls.

Lemma SetAuthorizedKeys_stays cfg net : only stays (SetAuthorizedKeys tp_url_Parse tp_err_text cfg net).
Proof using Type.
  unfold SetAuthorizedKeys, authorizeSSHKey, getKey, ensure_file, writeFileAtomic, replace_by. only_solve.
Qed.
#[local] Hint Resolve SetAuthorizedKeys_stays : calls.

Lemma SetPassword_stays user pw : only stays (SetPassword tp_shacrypt_New tp_shacrypt_Hash user pw).
Proof using Type. unfold SetPassword, abandon. only_solve. Qed.
#[local] Hint Resolve SetPassword_stays : calls.

Lemma runApplies_stays cfg l : Forall (fun app => only stays (app cfg)) l -> only stays (runApplies cfg l).
Proof using Type.
  intros Hl. unfold runApplies. apply only_bind; [|done]. apply only_for_fold. intros app errs Ha.
  apply only_bind; [|done]. by eapply Forall_forall in Hl.
Qed.

Lemma ApplyModules_stays cfg : only stays (ApplyModules cfg).
Proof using Type. unfold ApplyModules. only_solve. Qed.
Lemma ApplySysctls_stays cfg : only stays (ApplySysctls cfg).
Proof using Type. unfold ApplySysctls, range_map. only_solve. Qed.
Lemma ApplyHostname_stays cfg : only stays (ApplyHostname cfg).
Proof using Type. unfold ApplyHostname, SetHostname_cfg, syncHostname, readPersistedHostname. only_solve. Qed.
Lemma ApplyDNS_stays cfg : only stays (ApplyDNS cfg).
Proof using Type. unfold ApplyDNS. only_solve. Qed.
Lemma ApplyWifi_stays cfg : only stays (ApplyWifi cfg).
Proof using Type. unfold ApplyWifi. only_solve. Qed.
Lemma ApplyEnvironment_stays cfg : only stays (ApplyEnvironment cfg).
Proof using Type. unfold ApplyEnvironment, range_map. only_solve. Qed.
Lemma ApplyK3S_stays version prefix cfg restart install : only stays (ApplyK3S version prefix cfg restart install).
Proof using Type. unfold ApplyK3S, range_map. only_solve. Qed.
#[local] Hint Resolve ApplyModules_stays ApplySysctls_stays ApplyHostname_stays ApplyDNS_stays
  ApplyWifi_stays ApplyEnvironment_stays ApplyK3S_stays : calls.

Lemma RunInitrd_stays fuel : only stays (RunInitrd fuel).
Proof using Type.
  unfold RunInitrd, default_InitApply, InitApply. apply only_bindE; [apply read_config_stays|]. intros cfg.
  apply runApplies_stays. unfold InitApply_list, ApplyWriteFiles, ApplyInitcmd.
  repeat (apply Forall_cons_2; [only_solve|]); apply Forall_nil_2.
Qed.

Lemma RunBoot_stays fuel : only stays (RunBoot fuel).
Proof using Type.
  unfold RunBoot, default_BootApply, BootApply. apply only_bindE; [apply read_config_stays|]. intros cfg.
  apply runApplies_stays. unfold BootApply_list, ApplyDataSource, ApplyPassword, ApplySSHKeys,
    ApplyK3SNoRestart, ApplyWriteFiles, ApplyBootcmd.
  repeat (apply Forall_cons_2; [only_solve|]); apply Forall_nil_2.
Qed.
End Config.
#[export] Hint Resolve RunInitrd_stays RunBoot_stays : calls.

(** ** The phases *)

Lemma first_existing_stays l : only stays (first_existing l).
Proof. induction l as [|p l IH]; [done|]. cbn [first_existing]. only_solve. Qed.
#[export] Hint Resolve first_existing_stays : calls.

Lemma Bootstrap_Run_stays b :
  (forall s d, only stays (b_CopyDir b s d)) -> only stays (b_RCRunner b) -> only stays (b_ConfigRunner b) ->
  only stays (Bootstrap_Run b).
Proof.
  intros Hcopy Hrc Hcfg. unfold Bootstrap_Run, Bootstrap_steps. cbn [for_each fst snd].
  unfold SetupEtc, SetupModules, SetupUsers, SetupRC, SetupDirs, Bootstrap.SetupKernel,
    Bootstrap.SetupConfig, findKernelSquashfs, replaceInFile, appendLine. only_solve; auto.
Qed.

Lemma detectOnce_stays fb : only stays (detectOnce fb).
Proof. unfold detectOnce. only_solve. Qed.
#[export] Hint Resolve detectOnce_stays : calls.

Lemma Detect_stays d fuel : only stays (ModeDetect.Detect d fuel).
Proof.
  assert (forall m, only stays (ModeDetect.finalize d m)) as Hfin by (intros m; unfold ModeDetect.finalize; only_solve).
  assert (forall k fb dl, only stays (detect_loop d k fb dl)) as Hloop.
  { induction k as [|k IH]; intros fb dl; cbn [detect_loop]; only_solve; auto. }
  unfold ModeDetect.Detect. only_solve; auto.
Qed.

Lemma umount_base_stays fuel : only stays (umount_base fuel).
Proof. induction fuel as [|fuel IH]; cbn [umount_base]; only_solve; auto. Qed.
#[export] Hint Resolve umount_base_stays : calls.

Lemma Finalize_Run_stays f fuel :
  only stays (f_ConfigRunner f) -> (forall s d, only stays (f_ManifestCopier f s d)) ->
  only stays (Finalize_Run f fuel).
Proof.
  intros Hcfg Hcopy. unfold Finalize_Run, Finalize_steps. cbn [for_each fst snd].
  unfold Finalize.SetupMounts, GrowLive, SetupHostname, SetupHosts, SetupRoot, SetupTTYs, collect_ttys,
    standard_tty, serial_tty, append_to, SetupSudoers, SetupServices, enable_service, Finalize.SetupConfig,
    link_if_configured, SetupManifests, SetupStateDirs, Cleanup. only_solve; auto.
Qed.

(** The disk mode and the shell hand over to another program. *)
Definition hands_over (c : call) : Prop :=
  match c with
  | Exec p args _ => (p, args) = ("/sbin/init", ["/sbin/init"]) \/ (p, args) = ("/bin/bash", ["/bin/bash"])
  | SysExec _ _ _ | ExecNamespaced _ _ _ | SysReboot => False
  | _ => True
  end.

Lemma resolve_hands_over n : only hands_over (resolve_go n).
Proof. induction n as [|n IH]; cbn [resolve_go]; only_solve; auto. Qed.
#[export] Hint Resolve resolve_hands_over : calls.

Lemma try_disks_hands_over l : only hands_over (try_disks l).
Proof. induction l as [|n l IH]; cbn [try_disks]; only_solve; auto. Qed.
#[export] Hint Resolve try_disks_hands_over : calls.

Lemma probe_disks_hands_over n : only hands_over (probe_disks n).
Proof. induction n as [|n IH]; cbn [probe_disks]; only_solve; auto. Qed.
#[export] Hint Resolve probe_disks_hands_over : calls.

Lemma Live_Run_hands_over deps : only hands_over (Live_Run deps).
Proof. unfold Live_Run, SetupBase, LiveModes.SetupKernel, SetupPasswd, SetupMotd. only_solve. Qed.
#[export] Hint Resolve Live_Run_hands_over : calls.

Lemma Shell_hands_over deps : only hands_over (Shell_Execute deps).
Proof. unfold Shell_Execute. only_solve. apply only_sys. by right. Qed.

Lemma Local_hands_over : only hands_over Local_Execute.
Proof. unfold Local_Execute, SetupSSH, SetupRancherNode. only_solve. Qed.

Lemma Disk_hands_over deps : only hands_over (Disk_Execute deps).
Proof.
  unfold Disk_Execute, DiskMode.SetupMounts, grow_target, SetupK3OS, SetupKernelSquashfs, SetupInit, SetupK3s,
    Takeover, clean_dir, power_down, CleanupEphemeral, PivotAndExec, resolveStateDevice. only_solve.
  apply only_sys. by left.
Qed.

Lemma Registry_Get_hands_over deps m p : Registry_Get deps m = Ok p -> only hands_over p.
Proof.
  unfold Registry_Get, assoc_find, handlers. cbn [find fst].
  repeat (case_bool_decide; [cbn; intros [= <-]; first [apply Disk_hands_over | apply Local_hands_over
    | apply Live_Run_hands_over | apply Shell_hands_over]|]). done.
Qed.
