(* ===== verification/App.v ===== *)
(** * App: the command line, [internal/cli/app] with the declarations of its commands.

    A command is a record of what is declared for the library that parses the command line: its flags
    with their environment variables and defaults, what is checked before it and what it does.  The
    options a [Before] hands to its [Action] through shared variables are its result.  The library,
    urfave/cli, is the class [CliLibrary]. *)

From S2P Require Import Prelude GoStrings GoPath Effects OS Only System ModeDetect Component Upgrade Rc CC CliConfig Installer.
Open Scope string_scope.
Open Scope list_scope.
Open Scope go_scope.

(** ** Declarations *)

Inductive FlagKind := BoolFlag | StringFlag.

Record Flag := {
  fl_Kind : FlagKind;
  fl_Name : string;
  fl_EnvVars : list string;
  fl_Value : string;
  fl_Required : bool;
  fl_Hidden : bool;
}.

Definition bool_flag (name : string) (env : list string) (hidden : bool) : Flag :=
  {| fl_Kind := BoolFlag; fl_Name := name; fl_EnvVars := env; fl_Value := ""; fl_Required := false;
     fl_Hidden := hidden |}.
Definition string_flag (name env value : string) (required hidden : bool) : Flag :=
  {| fl_Kind := StringFlag; fl_Name := name; fl_EnvVars := [env]; fl_Value := value;
     fl_Required := required; fl_Hidden := hidden |}.

(** What the library leaves in the destinations of the flags. *)
Record Flags := { p_Bool : string -> bool; p_String : string -> string }.

Record Command := {
  c_Name : string;
  c_Aliases : list string;
  c_Flags : list Flag;
  c_Hidden : bool;
  c_Opts : Type;
  c_Before : Flags -> M c_Opts;
  c_Action : c_Opts -> M unit;
}.

(** The application, the root command. *)
Record App := {
  app_Name : string;
  app_Flags : list Flag;
  app_Before : Flags -> M unit;
  app_Commands : list Command;
}.

Section App.
Context `{UnicodeTables} `{ThirdParty} (Mkdev : Z -> Z -> Z) (fuel : nat).

(** ** The commands *)

Definition rc_Command : Command := {|
  c_Name := "rc"; c_Aliases := []; c_Flags := []; c_Hidden := false;
  c_Before := fun _ => must_be_root;
  c_Action := fun _ => let* '(r, _) := Rc.Run Mkdev [] in Ret r;
|}.

Definition config_flags : list Flag :=
  [bool_flag "initrd" [] false; bool_flag "boot" [] false; bool_flag "install" [] false;
   bool_flag "dump" [] false; bool_flag "dump-json" [] false].

Definition config_Command : Command := {|
  c_Name := "config"; c_Aliases := ["cfg"]; c_Flags := config_flags; c_Hidden := false;
  c_Before := fun p =>
    let! _ := must_be_root in
    ret {| cf_initrd := p_Bool p "initrd"; cf_bootPhase := p_Bool p "boot";
           cf_installPhase := p_Bool p "install"; cf_dump := p_Bool p "dump";
           cf_dumpJSON := p_Bool p "dump-json" |};
  c_Action := CliConfig.Main fuel;
|}.

(** The mode of the machine decides whether the command is shown. *)
Definition install_Command : io Command :=
  let* m := mode_Get [] in
  Ret {|
    c_Name := "install"; c_Aliases := []; c_Flags := [];
    c_Hidden := match m with Ok m => bool_decide (m = "local") | Err _ => false end;
    c_Before := fun _ => must_be_root;
    c_Action := fun _ => Installer.Run fuel;
  |}.

Definition upgrade_flags : list Flag :=
  [bool_flag "k3os" ["K3OS_UPGRADE_K3OS"] true; bool_flag "k3s" ["K3OS_UPGRADE_K3S"] true;
   bool_flag "kernel" ["K3OS_UPGRADE_KERNEL"] false; bool_flag "rootfs" ["K3OS_UPGRADE_ROOTFS"] false;
   bool_flag "remount" ["K3OS_UPGRADE_REMOUNT"] false; bool_flag "sync" ["K3OS_UPGRADE_SYNC"] false;
   bool_flag "reboot" ["K3OS_UPGRADE_REBOOT"] false;
   string_flag "source" "K3OS_UPGRADE_SOURCE" (RootPath []) true false;
   string_flag "destination" "K3OS_UPGRADE_DESTINATION" (RootPath []) true false;
   string_flag "lock-file" "K3OS_UPGRADE_LOCK_FILE" (StatePath ["upgrade.lock"]) false true].

Definition upgrade_opts (p : Flags) : upgradeOpts :=
  {| upgradeK3OS := p_Bool p "k3os"; upgradeK3S := p_Bool p "k3s"; upgradeKernel := p_Bool p "kernel";
     upgradeRootFS := p_Bool p "rootfs"; doRemount := p_Bool p "remount"; doSync := p_Bool p "sync";
     doReboot := p_Bool p "reboot"; sourceDir := p_String p "source";
     destinationDir := p_String p "destination"; lockFile := p_String p "lock-file" |}.

(** Options that are refused are answered with the help of the command first. *)
Definition upgrade_Command : Command := {|
  c_Name := "upgrade"; c_Aliases := []; c_Flags := upgrade_flags; c_Hidden := false;
  c_Before := fun p =>
    match Upgrade.Before (upgrade_opts p) with
    | Ok opts => ret opts
    | Err e => let* _ := ignore (sys ShowSubcommandHelp) in fail e
    end;
  c_Action := Upgrade.Run;
|}.

(** [app.New]; what its [Before] does is set the level of logging. *)
Definition New : io App :=
  let* install := install_Command in
  Ret {|
    app_Name := "k3os";
    app_Flags := [bool_flag "debug" ["K3OS_DEBUG"] false];
    app_Before := fun _ => ret tt;
    app_Commands := [rc_Command; config_Command; install; upgrade_Command];
  |}.
End App.

(** [findCommand] of main.go: the first command with this name or alias. *)
Fixpoint findCommand (commands : list Command) (name : string) : option Command :=
  match commands with
  | [] => None
  | c :: commands' =>
      if bool_decide (c_Name c = name) || bool_decide (name ∈ c_Aliases c) then Some c
      else findCommand commands' name
  end.

(** ** The library *)

(** What parsing comes to: the help or an error instead of a command, or a command with the flags of
    the application and its own. *)
Inductive choice := NoCommand (r : result unit) | Chosen (i : nat) (global flags : Flags).

(** The documented order: [Before] of the application, [Before] of the command, its [Action], each
    only after the one before it returned no error. *)
Definition run_chosen (a : App) (ch : choice) : M unit :=
  match ch with
  | NoCommand r => Ret r
  | Chosen i global flags =>
      match app_Commands a !! i with
      | None => ret tt
      | Some c =>
          let! _ := app_Before a global in
          let! opts := c_Before c flags in
          c_Action c opts
      end
  end.

(** What the library does by itself: it reads environment variables and prints. *)
Definition library_call (c : call) : Prop :=
  match c with
  | Getenv _ | LookupEnv _ | Environ | Print _ | PrintErr _ | ShowSubcommandHelp => True
  | _ => False
  end.

(** [Command.Run] of urfave/cli: it parses, runs the command chosen in the documented order, and may
    print the error. *)
Class CliLibrary := {
  cli_Run : App -> list string -> M unit;
  cli_parse : App -> list string -> io choice;
  cli_finish : result unit -> M unit;
  cli_Run_order a args :
    peq (cli_Run a args) (let* ch := cli_parse a args in let* r := run_chosen a ch in cli_finish r);
  cli_parse_calls a args : only library_call (cli_parse a args);
  cli_finish_calls r : only library_call (cli_finish r);
}.
