(* ===== verification/Main.v ===== *)
(** * Main: [main.go], the wiring of the boot, with the production implementations of the interfaces.

    [reexec.Self], [os.Args], [unix.Mkdev] and the marshalling of the test results are arguments;
    reexec and the library that runs the command line ([App]) are classes.  The components are
    programs over the interfaces' calls; [production] gives each of these calls the code the adapters
    run. *)

From S2P Require Import Prelude GoStrings GoPath Effects OS Cmdline System BootInit Bootstrap DiskMode LiveModes Finalize ModeDetect TestMode MountPkg LoopDev LoopSyscall DiskUtil DevPopulate TransferRoot EnterChroot Modalias Rc Virt Osimpl CliConfig App.
Open Scope string_scope.
Open Scope list_scope.
Open Scope go_scope.

(** ** Helpers *)

(** [fsTypeName]. *)
Definition fsTypeName (magic : Z) : string :=
  if (magic =? 16914836)%Z then "tmpfs"
  else if (magic =? 61267)%Z then "ext2/ext3/ext4"
  else if (magic =? 1481003842)%Z then "xfs"
  else if (magic =? 2435016766)%Z then "btrfs"
  else "unknown".

Definition statfsCheck (path : string) : M string :=
  let! type := sys (SysStatfs path) in ret (fsTypeName type).

(** The value of the first VERSION_ID line. *)
Fixpoint version_of (lines : list string) : string :=
  match lines with
  | [] => ""
  | line :: lines' =>
      if strings_HasPrefix line "VERSION_ID="
      then strings_Trim (strings_TrimPrefix line "VERSION_ID=") "034"
      else version_of lines'
  end.

Definition readVersionID : io string :=
  let* data := sys (ReadFile "/usr/lib/os-release") in
  Ret (match data with Err _ => "" | Ok data => version_of (strings_Split data "010") end).

(** [binary.LittleEndian.Uint32] of the four bytes read. *)
Definition little_endian (bytes : list Z) : Z := foldr (fun b n => (b + 256 * n)%Z) 0%Z (take 4 bytes).

Definition cryptoRandUint32 : M Z :=
  let! buf := sys RandRead in ret (little_endian buf).

(** [consoleRedirect]: the descriptors 0, 1 and 2. *)
Definition consoleRedirect : M unit :=
  let! f := sys (OpenFile "/dev/console" 2 0) in
  for_each [0; 1; 2]%Z (fun target =>
    let* r := sys (SysDup2 (file_fd f) target) in
    match r with
    | Ok _ => ret tt
    | Err e => let* _ := ignore (sys (FileClose f)) in fail e
    end).

(** ** The production implementations *)

Section Production.
Context `{UnicodeTables} `{CmdLineMethods}.

(** What runs behind each interface; a call that is none of an interface stays. *)
Definition production (c : call) : io (resp c) :=
  match c return io (resp c) with
  | OS.Run name args => ShellRunner_Run name args
  | RunOutput name args => ShellRunner_RunOutput name args
  | RunWithStdin stdin name args => ShellRunner_RunWithStdin stdin name args
  | RunShell command => ShellRunner_RunShell command
  | RunWithEnv env name args => ShellRunner_RunWithEnv env name args
  | OS.LoadedModules =>
      let* r := Osimpl.LoadedModules in
      Ret (match r with Ok l => Ok (elements l) | Err e => Err e end)
  | LoadModule name params => LoadModule_impl name params
  | OS.SysctlSet key value => Osimpl.SysctlSet "" key value
  | SetHostname name => LinuxHostnameSetter_SetHostname name
  | OS.SyncRTC => Osimpl.SyncRTC
  | OS.Mount device target mType options => LinuxMounter_Mount device target mType options
  | ForceMount device target mType options => LinuxMounter_ForceMount device target mType options
  | Mounted target => LinuxMounter_Mounted target
  | Unmount target flags => LinuxMounter_Unmount target flags
  | OS.FindByLabel label => Osimpl.FindByLabel label
  | OS.ListDisks => Osimpl.ListDisks
  | OS.ProbeFS device => Osimpl.ProbeFS device
  | BlkidProbe device => BlkidProber_Probe device
  | GrowPartition device partNum => PartitionGrower_GrowPartition device partNum
  | LoopAttach backingFile offset readOnly => real_Attach backingFile offset readOnly
  | DetachPath device => DetachPath_impl device
  | PivotRoot newRoot putOld => sys (SysPivotRoot newRoot putOld)
  | Exec path args env => sys (SysExec path args env)
  | RandUint32 => cryptoRandUint32
  | VirtDetect => Virt.Detect NewDMIDetector
  | Statfs path => statfsCheck path
  | (CmdlineFlag _ | CmdlineContains _ | CmdlineConsoles | CmdlineRaw) as c => procParser c
  | (IoctlLoopGetStatus64 _ | IoctlLoopSetStatus64 _ _) as c => realSyscaller c
  | c => OSFileSystem c
  end.
End Production.

(** ** The boot *)

(** Package reexec: [Init] runs the handler registered under the name the process was started with,
    and tells whether there was one. *)
Class Reexec := {
  reexec_Name : string;
  reexec_Init : list (string * io unit) -> io bool;
  reexec_Init_runs handlers :
    peq (reexec_Init handlers)
        (match assoc_find reexec_Name handlers with
         | Some p => let* _ := p in Ret true
         | None => Ret false
         end);
}.

Section Boot.
Context `{UnicodeTables} `{ThirdParty}.
Context (Self Args0 : string) (Args : list string) (Mkdev : Z -> Z -> Z).
Context (quote : string -> string) (marshal : Results -> result string) (fuel : nat).

Definition os_Args : list string := Args0 :: Args.

(** The dependencies of the phases. *)
Definition modeDeps (kver versionID : string) : Deps :=
  {| d_PartitionGrower := true; d_LoopDetacher := true; d_KernelVersion := kver; d_VersionID := versionID |}.

Definition bootstrapper (kver : string) : Bootstrapper :=
  {| b_LoopAttacher := true;
     b_CopyDir := fun src dst => sys (CopyPreserving src dst "");
     b_RCRunner := (let* '(r, _) := Rc.Run Mkdev [] in Ret r);
     b_ConfigRunner := RunInitrd fuel;
     b_KernelVersion := kver;
     b_Mode := "" |}.

(** The finalizer after [ModeSetterFunc] has stored the mode in it. *)
Definition finalizer (mode : string) : Finalizer :=
  {| f_PartitionGrower := true; f_SleepFunc := true; f_Mode := mode;
     f_ConfigRunner := RunBoot fuel;
     f_ManifestCopier := fun src dst => sys (CopyPreserving src dst ".example") |}.

Definition detector : Detector :=
  {| dt_Timeout := (30 * second)%Z; dt_SleepInterval := (1 * second)%Z;
     dt_StateDir := "" |}.

(** In test mode the verifier takes the place of the next init and of the rescue shell. *)
Definition test_mode : string := "k3os.test_mode".

Definition runVerifier : M unit :=
  let* serialOut := sys (OpenFile "/dev/ttyS0" 1 0) in
  Verifier_Run tp_err_text quote marshal {|
    v_RebootFunc := Some (let* _ := sys SysSyncAll in
                          let* _ := sys (Sleep 500000000) in
                          sys SysReboot);
    v_Output := Some (match serialOut with Ok f => f | Err _ => Stdout end);
  |}.

Definition execFunc (test : bool) (path : string) (args env : list string) : M unit :=
  if test then runVerifier else sys (SysExec path args env).

Definition rescueFunc (test : bool) : M unit :=
  if test then runVerifier
  else let* env := sys Environ in sys (SysExec "/bin/bash" ["bash"] env).

Definition initOrch (kver versionID : string) (test : bool) : BootInit.Init call resp := {|
  i_Bootstrap := Bootstrap_Run (bootstrapper kver);
  i_ModeDetector := ModeDetect.Detect detector fuel;
  i_ModeRegistry := Registry_Get (modeDeps kver versionID);
  i_Finalizer := fun mode => Finalize_Run (finalizer mode) fuel;
  i_Environ := sys Environ;
  i_ExecFunc := execFunc test;
  i_Cmdline := Some (fun name => sys (CmdlineContains name));
  i_RescueFunc := rescueFunc test;
  i_ConsoleRedirect := Some consoleRedirect;
  i_ModeSetter := true;
|}.

Definition PATH_value : string := "/bin:/sbin:/usr/bin:/usr/sbin:/usr/local/bin:/usr/local/sbin".

Definition postChroot : io unit :=
  let* _ := ignore (sys (Setenv "PATH" PATH_value)) in
  let* kver := GetKernelVersion in
  let kver := match kver with Ok v => v | Err _ => "unknown" end in
  let* versionID := readVersionID in
  let* _ := ignore (sys (SysMount "proc" "/proc" "proc" 0 "")) in
  let* test := sys (CmdlineContains test_mode) in
  let* _ := Init_Run (initOrch kver versionID test) os_Args in
  Halt (ExitWith 1).

Definition postChrootSentinel : string := "/.base".

(** Before the chroot: relocate the root, remount it and start enter-root. *)
Definition initrd : io unit :=
  let* st := sys (Stat postChrootSentinel) in
  if is_ok st then postChroot
  else
    let* _ := Relocate in
    let* _ := ignore (sys (OS.Mount "" "/" "none" "rw,remount")) in
    let* r := EnterChroot.Mount Self Args0 "k3os.debug" true fuel "./k3os/data" os_Args in
    match r with Ok _ => Ret tt | Err _ => Halt (ExitWith 1) end.

(** The handlers registered under the names the process may be started with. *)
Definition registered : list (string * io unit) :=
  [("/init", initrd); ("/sbin/init", initrd); ("enter-root", Enter Self)].

Definition main `{CliLibrary} `{Reexec} : io unit :=
  let* handled := reexec_Init registered in
  if handled : bool then Ret tt
  else
    let* cmd := New Mkdev fuel in
    let path := path_Base Args0 in
    let sub := if bool_decide (path <> app_Name cmd) && bool_decide (is_Some (findCommand (app_Commands cmd) path))
               then [path] else [] in
    let* r := cli_Run cmd ([app_Name cmd] ++ sub ++ Args) in
    match r with Ok _ => Ret tt | Err _ => Halt (ExitWith 1) end.

(** The boot as it runs on the machine. *)
Definition production_boot `{CmdLineMethods} : io unit := interp production postChroot.
End Boot.
