(* ===== verification/MainSpec.v ===== *)
(** * MainSpec: what the wired boot hands the machine over to. *)

From S2P Require Import Prelude GoStrings GoPath Effects OS Only Cmdline System BootInit Bootstrap DiskMode LiveModes Finalize ModeDetect ModeDetectSpec TestMode MountPkg LoopDev LoopSyscall DiskUtil DevPopulate Modalias Rc Virt Osimpl CliConfig BootCalls Main.
Open Scope string_scope.
Open Scope list_scope.
Open Scope go_scope.

(** The programs the boot may become, through the interface of the modes. *)
Definition successors : list (string * list string) :=
  [("/sbin/init", ["/sbin/init"]); ("/bin/bash", ["/bin/bash"])].

(** [p] ran from [h] to [h'] and succeeded with [a]. *)
Definition ran {A} (p : M A) (a : A) (h h' : list ev) : Prop := exec any_resp p h h' (Done (Ok a)).

Lemma stays_hands_over c : stays c -> hands_over c.
Proof. by destruct c. Qed.

Section Boot.
Context `{UnicodeTables} `{ThirdParty}.
Context (Args0 : string) (Args : list string) (Mkdev : Z -> Z -> Z).
Context (quote : string -> string) (marshal : Results -> result string) (fuel : nat).

(** All phases succeeded one after the other, from the bootstrap to the environment read for the
    next init, and the handler is the one of the mode that was detected and recorded. *)
Definition booted (env : list string) (h : list ev) : Prop :=
  exists kver versionID mode handler h0 h1 h2 h3 h4 h5,
    ran (Bootstrap_Run (bootstrapper Mkdev fuel kver)) tt h0 h1 /\
    (exists r debug, exec any_resp consoleRedirect (Ev (CmdlineContains "k3os.debug") debug :: h1) h2 (Done r)) /\
    ran (ModeDetect.Detect detector fuel) mode h2 h3 /\
    recorded detector (Done (Ok mode)) h3 /\
    Registry_Get (modeDeps kver versionID) mode = Ok handler /\
    ran handler tt h3 h4 /\
    ran (Finalize_Run (finalizer fuel mode) fuel) tt h4 h5 /\
    h = Ev Environ env :: h5.

(** What the command line answered when it was asked for the test mode. *)
Definition asked_test (test : bool) (h : list ev) : Prop := Ev (CmdlineContains test_mode) test ∈ h.

Definition boot_guard : @guar call resp := fun h c =>
  match c with
  | SysExec path args env =>
      asked_test false h /\
      ((path = "/sbin/init" /\ args = os_Args Args0 Args /\ booted env h) \/
       (path = "/bin/bash" /\ args = ["bash"] /\ exists older, h = Ev Environ env :: older))
  | Exec path args _ => (path, args) ∈ successors
  | SysReboot => asked_test true h
  | ExecNamespaced _ _ _ => False
  | _ => True
  end.

(** The same for the orchestrator, which was wired after the answer. *)
Definition wired_guard (test : bool) : @guar call resp := fun h c =>
  match c with
  | SysExec path args env =>
      test = false /\
      ((path = "/sbin/init" /\ args = os_Args Args0 Args /\ booted env h) \/
       (path = "/bin/bash" /\ args = ["bash"] /\ exists older, h = Ev Environ env :: older))
  | SysReboot => test = true
  | c => boot_guard h c
  end.

Lemma wired_boot test h c : wired_guard test h c /\ asked_test test h -> boot_guard h c.
Proof using Type. destruct c; intros [Hc Ha]; try exact Hc; [by destruct Hc as [-> Hc]|by simpl in Hc; subst]. Qed.

Lemma stays_boot h c : stays c -> boot_guard h c.
Proof using Type. by destruct c. Qed.

Lemma hands_over_guard test h c : hands_over c -> wired_guard test h c.
Proof using All.
  destruct c; try done. intros [[= -> ->]|[= -> ->]]; unfold wired_guard, boot_guard, successors; set_solver.
Qed.

Lemma stays_guard test h c : stays c -> wired_guard test h c.
Proof using All. intros ?. by apply hands_over_guard, stays_hands_over. Qed.

#[local] Abbreviation any_end := (fun (_ : outcome unit) (_ : list ev) => True).

(** A phase that hands over to nothing else leaves, when it succeeds, a run of itself. *)
Lemma boot_phase_wp {A} test (i : BootInit.Init call resp) (p : M A) (k : A -> io unit) I Q h :
  wp any_resp (wired_guard test) p I h ->
  (forall a h', I (Done (Ok a)) h' -> ran p a h h' -> wp any_resp (wired_guard test) (k a) Q h') ->
  (forall h', wp any_resp (wired_guard test) (rescue i) Q h') ->
  (forall s h', Q (Halted s) h') ->
  wp any_resp (wired_guard test) (or_rescue i p k) Q h.
Proof using All.
  intros Hp Hk Hr Hq. apply wp_exec in Hp. apply wp_bind. eapply wp_mono; [|exact Hp].
  intros [[a|e]|s|] h' [HI Hx]; [by eapply Hk|by apply Hr|by apply Hq|done].
Qed.

Lemma only_phase {A} test (p : M A) h :
  only hands_over p -> wp any_resp (wired_guard test) p (fun _ _ => True) h.
Proof using All. apply only_wp. apply hands_over_guard. Qed.

Lemma stays_phase {A} test (p : M A) h : only stays p -> wp any_resp (wired_guard test) p (fun _ _ => True) h.
Proof using All. apply only_wp. apply stays_guard. Qed.

(** ** What starts the next program *)

Lemma runVerifier_only (P : call -> Prop) :
  (forall c, stays c -> P c) -> P SysReboot -> only P (runVerifier quote marshal).
Proof using Type.
  intros Hs Hr. unfold runVerifier, Verifier_Run, Fprintln, verify, checkBootstrap, checkModeDetection,
    checkModeExecution, checkFinalization, phase. cbn [run_checks].
  unfold checkProcMounted, checkEtcPopulated, checkRunK3osExists, checkModeFile, checkExpectedMode,
    checkModeTarget, checkPivotRoot, checkHostname. cbn [v_RebootFunc v_Output from_option id].
  only_solve; auto.
  all: apply only_sys, Hs; exact I.
Qed.

Lemma rescueFunc_wp test h :
  wp any_resp (wired_guard test) (rescueFunc quote marshal test) (fun _ _ => True) h.
Proof using All.
  unfold rescueFunc. destruct test eqn:Ht.
  - apply (only_wp (fun c => stays c \/ c = SysReboot)).
    + intros h' c [Hc| ->]; [by apply stays_guard|done].
    + apply runVerifier_only; auto.
  - wp_norm. split; [done|]. intros env _. wp_norm. split; [|done].
    split; [done|]. right. split_and!; eauto.
Qed.

Lemma execFunc_wp test env h :
  booted env h ->
  wp any_resp (wired_guard test) (execFunc quote marshal test "/sbin/init" (os_Args Args0 Args) env)
    (fun _ _ => True) h.
Proof using All.
  intros Hb. unfold execFunc. destruct test eqn:Ht.
  - apply (only_wp (fun c => stays c \/ c = SysReboot)).
    + intros h' c [Hc| ->]; [by apply stays_guard|done].
    + apply runVerifier_only; auto.
  - wp_norm. split; [|done]. split; [done|]. by left.
Qed.

Lemma consoleRedirect_stays : only stays consoleRedirect.
Proof using Type. unfold consoleRedirect. only_solve. Qed.

Lemma Detect_phase test h :
  wp any_resp (wired_guard test) (ModeDetect.Detect detector fuel) (recorded detector) h.
Proof using All.
  eapply (wp_weaken any_resp any_resp); [done| |done|apply Detect_wp].
  intros h' c Hc. apply stays_guard. by destruct c.
Qed.

Lemma boot_wp test kver versionID h :
  wp any_resp (wired_guard test)
    (Init_Run (initOrch Mkdev quote marshal fuel kver versionID test) (os_Args Args0 Args))
    (fun _ _ => True) h.
Proof using All.
  set (i := initOrch Mkdev quote marshal fuel kver versionID test).
  assert (Hrescue : forall h', wp any_resp (wired_guard test) (rescue i) (fun _ _ => True) h').
  { intros h'. apply wp_bind. eapply wp_mono; [|apply rescueFunc_wp]. by intros [a|s|]. }
  unfold Init_Run. eapply boot_phase_wp; auto.
  { apply stays_phase, Bootstrap_Run_stays; [done| |apply RunInitrd_stays].
    cbn [b_RCRunner bootstrapper]. apply only_bind; [apply rc_Run_stays|]. by intros [r s]. }
  intros [] h1 _ Hboot. unfold setupDebug. cbn [i i_Cmdline i_ConsoleRedirect initOrch].
  wp_norm. split; [done|]. intros debug _. wp_norm.
  apply wp_bind, wp_bind. eapply wp_mono; [|apply wp_exec, stays_phase, consoleRedirect_stays].
  intros [rc|s|] h2 [_ Hcon]; try done.
  eapply boot_phase_wp; auto; [apply Detect_phase|]. intros mode h3 Hmode Hdet. cbn [i i_ModeSetter i_ModeRegistry initOrch].
  destruct (Registry_Get _ mode) as [handler|e] eqn:Hreg; [|apply Hrescue].
  eapply boot_phase_wp; auto; [by eapply only_phase, Registry_Get_hands_over|]. intros [] h4 _ Hhandler.
  eapply boot_phase_wp; auto.
  { apply stays_phase, Finalize_Run_stays; [apply RunBoot_stays|done]. }
  intros [] h5 _ Hfin. cbn [i i_Environ i_ExecFunc initOrch]. wp_norm. split; [done|]. intros env _.
  apply wp_bind. eapply wp_mono; [|apply execFunc_wp].
  - intros [[[]|e]|s|] h' _; [done|apply Hrescue|done|done].
  - exists kver, versionID, mode, handler, h, h1, h2, h3, h4, h5. split_and!; try done. by exists rc, debug.
Qed.


Lemma postChroot_wp h :
  wp any_resp boot_guard (postChroot Args0 Args Mkdev quote marshal fuel)
    (fun o _ => o <> Done tt) h.
Proof using All.
  unfold postChroot, readVersionID. wp_norm. split; [done|]. intros r _. wp_norm.
  apply wp_bind. eapply wp_mono; [|eapply only_wp; [apply stays_boot|apply GetKernelVersion_stays]].
  intros [kver|s|] h1 _; try done. wp_norm. split; [done|]. intros data _. wp_norm.
  split; [done|]. intros m _. wp_norm. split; [done|]. intros test _. wp_norm.
  apply wp_bind. eapply wp_weaken; [done|by apply wired_boot| |].
  2: { apply wp_always; [by right|by left|apply boot_wp]. }
  by intros [[]|s|] h2 _.
Qed.
End Boot.

(** ** The boot over the production implementations *)

(** A call of an interface that [production] implements. *)
Definition interface (c : call) : bool :=
  match c with
  | OS.Run _ _ | RunOutput _ _ | RunWithStdin _ _ _ | RunShell _ | RunWithEnv _ _ _ | OS.LoadedModules | LoadModule _ _ | OS.SysctlSet _ _
  | SetHostname _ | OS.SyncRTC | OS.Mount _ _ _ _ | ForceMount _ _ _ _ | Mounted _ | Unmount _ _
  | OS.FindByLabel _ | OS.ListDisks | OS.ProbeFS _ | BlkidProbe _ | GrowPartition _ _ | LoopAttach _ _ _ | DetachPath _
  | PivotRoot _ _ | Exec _ _ _ | RandUint32 | VirtDetect | Statfs _
  | CmdlineFlag _ | CmdlineContains _ | CmdlineConsoles | CmdlineRaw
  | IoctlLoopGetStatus64 _ | IoctlLoopSetStatus64 _ _ => true
  | _ => false
  end.

(** A system or library call after which the process is what it was. *)
Definition plain (c : call) : Prop := interface c = false /\ stays c.

Ltac plain_solve := only_solve; try (apply only_sys; split; [reflexivity|exact I]).

Lemma mount_plain device target mType options : only plain (doForceMount device target mType options).
Proof. unfold doForceMount, mount, resolveDevice, resolve_link. plain_solve. Qed.
#[local] Hint Resolve mount_plain : calls.

Lemma mounted_plain target : only plain (isMounted target).
Proof. unfold isMounted, parseMountTable. plain_solve. Qed.
#[local] Hint Resolve mounted_plain : calls.

Lemma grow_plain device partNum : only plain (PartitionGrower_GrowPartition device partNum).
Proof.
  unfold PartitionGrower_GrowPartition, ProbePartitionTableType, growGPT, grow_table, growMBR, grow_opened,
    write_table, getBlockDeviceSize. plain_solve.
Qed.

(** The calls of attaching. *)
Definition attaching (c : call) : Prop :=
  match c with
  | FindLoopDevice | SysOpen _ _ | SysClose _ | IoctlSetInt _ _ _ | IoctlLoopSetStatus64 _ _ => True
  | _ => False
  end.

Lemma attach_plain backingFile offset readOnly : only plain (real_Attach backingFile offset readOnly).
Proof.
  apply (only_interp attaching); [|unfold Attach, attach_opened; only_solve].
  intros c Hc. destruct c; try done; unfold realSyscaller, IoctlLoopSetStatus64_impl; plain_solve.
Qed.
#[local] Hint Resolve grow_plain attach_plain : calls.

(** The implementation of a call after which the process is what it was. *)
Lemma production_plain `{UnicodeTables} `{CmdLineMethods} c : stays c -> only plain (production c).
Proof.
  intros Hc. destruct c; unfold production;
    try (apply only_sys; split; [reflexivity|first [exact I | exact Hc]]); try done.
  all: unfold ShellRunner_Run, ShellRunner_RunOutput, ShellRunner_RunWithStdin, ShellRunner_RunShell, ShellRunner_RunWithEnv, Osimpl.LoadedModules, Osimpl.SysctlSet,
    Osimpl.SyncRTC, LoadModule_impl, LinuxHostnameSetter_SetHostname, LinuxMounter_Mount,
    LinuxMounter_ForceMount, LinuxMounter_Mounted, LinuxMounter_Unmount, doUnmount, OSFileSystem, OSFileSystem_ReadDir,
    procParser, proc_Flag, proc_Contains, proc_Consoles, proc_Raw, doMount, Osimpl.FindByLabel, Osimpl.ListDisks, Osimpl.ProbeFS, BlkidProber_Probe,
    DetachPath_impl, realSyscaller, IoctlLoopGetStatus64_impl, IoctlLoopSetStatus64_impl, cryptoRandUint32, Virt.Detect, readDMIFile, statfsCheck; plain_solve.
Qed.

Section Production.
Context `{UnicodeTables} `{ThirdParty} `{CmdLineMethods}.
Context (Args0 : string) (Args : list string) (Mkdev : Z -> Z -> Z) (fuel : nat).

(** The promise of the machine: no interface's call is left, and the process is replaced or the
    machine switched off only as the boot promised, from a history of the boot that what happened on
    the machine implements. *)
Definition production_guard : @guar call resp := fun h c =>
  interface c = false /\
  match c with
  | SysExec path args env =>
      exists boot, implements production boot h /\
        (boot_guard Args0 Args Mkdev fuel boot (SysExec path args env) \/ (path, args) ∈ successors)
  | Exec _ _ _ | ExecNamespaced _ _ _ => False
  | SysReboot => exists boot, implements production boot h /\ asked_test true boot
  | _ => True
  end.

Lemma plain_guard h c : plain c -> production_guard h c.
Proof using Type. intros [Hi Hs]. split; [exact Hi|]. by destruct c. Qed.

Lemma production_keeps c boot h :
  boot_guard Args0 Args Mkdev fuel boot c -> implements production boot h ->
  wp any_resp production_guard (production c) (fun _ _ => True) h.
Proof using Type.
  intros Hc Hh. destruct c;
    try (eapply only_wp; [by intros ? ?; apply plain_guard|by apply production_plain]); try done.
  - simpl. split; [|done]. split; [done|]. exists boot. split; [done|]. by right.
  - simpl. split; [|done]. split; [done|]. exists boot. split; [done|]. by left.
  - simpl. split; [|done]. split; [done|]. by exists boot.
Qed.

Lemma production_wp quote marshal :
  wp any_resp production_guard (production_boot Args0 Args Mkdev quote marshal fuel)
    (fun o _ => o <> Done tt) [].
Proof using Type.
  eapply wp_mono; [|eapply interp_wp; [|apply (postChroot_wp Args0 Args)|constructor]].
  - intros [[]|s|] h'; [|done|done]. by intros (boot & _ & []).
  - intros c boot h Hc Hb. by apply (production_keeps _ boot).
Qed.
End Production.



(** ** A boot into the local mode *)

#[local] Existing Instance demo_third_party.

(** A command line that asks for the local mode; u-root's methods by their maps. *)
#[local] Instance demo_methods : CmdLineMethods := {|
  uroot_Flag cl k := cl_AsMap cl !! k;
  uroot_ContainsFlag cl k := bool_decide (is_Some (cl_AsMap cl !! k));
  uroot_Consoles _ := [];
|}.

Definition local_machine (c : call) : option (resp c) :=
  match c with
  | Environ => Some ["HOME=/"]
  | CmdlineFlag k => if bool_decide (k = "k3os.mode") then Some (Some "local") else None
  | NewCmdLine => Some {| cl_Raw := "k3os.mode=local"; cl_AsMap := {["k3os.mode" := "local"]} |}
  | FindLoopDevice => Some (Ok "/dev/loop0")
  | ReadFile p => if bool_decide (p = "/k3os/system/growpart") then Some (Err (ErrSys "open" p ENOENT)) else None
  | _ => None
  end.

#[local] Abbreviation local_boot :=
  (postChroot "/init" ["single"] (fun a b => a * 256 + b)%Z (fun s => s) (fun _ => Ok "") 40).


Lemma single_no_successor : ("/sbin/init", ["/init"; "single"]) ∉ successors.
Proof. unfold successors. intros [[=]|[[=]|[]%elem_of_nil]%elem_of_cons]%elem_of_cons. Qed.

#[local] Abbreviation machine_boot :=
  (production_boot "/init" ["single"] (fun a b => a * 256 + b)%Z (fun s => s) (fun _ => Ok "") 40).

