(* ===== verification/AppSpec.v ===== *)
(** * AppSpec: what the process does under each of its names. *)

From S2P Require Import Prelude GoStrings GoPath Effects OS Only Cmdline System ModeDetect TestMode LiveModes EnterChroot Component Upgrade Rc CliConfig Installer App Main.
Open Scope string_scope.
Open Scope list_scope.
Open Scope go_scope.

Section Main.
Context `{UnicodeTables} `{ThirdParty} `{CliLibrary} `{Reexec}.
Context (Self Args0 : string) (Args : list string) (Mkdev : Z -> Z -> Z).
Context (quote : string -> string) (marshal : Results -> result string) (fuel : nat).

(** The programs of the commands, each from where it may start: the first three right after the
    process was found to be root's, the upgrade with options that were checked. *)
Inductive authorised : list ev -> M unit -> Prop :=
| authorised_rc older :
    authorised (Ev Getuid 0%Z :: older) (let* '(r, _) := Rc.Run Mkdev [] in Ret r)
| authorised_config flags older : authorised (Ev Getuid 0%Z :: older) (CliConfig.Main fuel flags)
| authorised_install older : authorised (Ev Getuid 0%Z :: older) (Installer.Run fuel)
| authorised_upgrade chosen opts older :
    Upgrade.Before chosen = Ok opts -> authorised older (Upgrade.Run opts).

Definition handlers : list (string * io unit) :=
  registered Self Args0 Args Mkdev quote marshal fuel.

Definition mode_file : string := path_Join [path_Join []; StatePath ["mode"]].

Definition main_guard : @guar call resp := fun h c =>
  match assoc_find reexec_Name handlers with
  | Some handler => makes handler [] h c
  | None =>
      library_call c \/ c = ReadFile mode_file \/ c = Getuid \/
      exists started program, authorised started program /\ makes program started h c
  end.

Hypothesis no_handler : assoc_find reexec_Name handlers = None.

Lemma program_wp program h :
  authorised h program -> wp any_resp main_guard program (fun _ _ => True) h.
Proof using no_handler.
  intros Ha. eapply wp_weaken; [done| |done|apply makes_wp]. intros h' c Hc.
  unfold main_guard. rewrite no_handler. eauto 10.
Qed.

Lemma library_wp {A} (p : io A) h : only library_call p -> wp any_resp main_guard p (fun _ _ => True) h.
Proof using no_handler. apply only_wp. intros h' c Hc. unfold main_guard. rewrite no_handler. by left. Qed.

(** The check leaves its answer as the last event. *)
Definition is_root (o : outcome (result unit)) (h : list ev) : Prop :=
  match o with
  | Done (Ok _) => exists older, h = Ev Getuid 0%Z :: older
  | Halted _ => False
  | _ => True
  end.

Lemma root_wp h : wp any_resp main_guard must_be_root is_root h.
Proof using no_handler.
  unfold must_be_root. wp_norm. split.
  { unfold main_guard. rewrite no_handler. auto. }
  intros uid _. wp_norm. destruct (Z.eqb_spec uid 0) as [->|_]; [by exists h|done].
Qed.

Lemma after_root_wp {A} (k : unit -> M A) h :
  (forall older, wp any_resp main_guard (k tt) (fun _ _ => True) (Ev Getuid 0%Z :: older)) ->
  wp any_resp main_guard (bindE must_be_root k) (fun _ _ => True) h.
Proof using no_handler.
  intros Hk. apply wp_bindE. eapply wp_mono; [|apply root_wp].
  intros [[[]|e]|s|] h' Hr; try done. destruct Hr as [older ->]. apply Hk.
Qed.

(** A command whose program runs only from where it may start. *)
Definition command_ok (c : Command) : Prop :=
  forall flags h, wp any_resp main_guard (let! opts := c_Before c flags in c_Action c opts) (fun _ _ => True) h.

Lemma rc_ok : command_ok (rc_Command Mkdev).
Proof using no_handler. intros flags h. apply after_root_wp. intros older. apply program_wp. constructor. Qed.

Lemma config_ok : command_ok (config_Command fuel).
Proof using no_handler.
  intros flags h. cbn [c_Before c_Action config_Command]. apply wp_bindE, wp_bindE.
  eapply wp_mono; [|apply root_wp]. intros [[[]|e]|s|] h' Hr; try done.
  destruct Hr as [older ->]. wp_norm. apply program_wp. constructor.
Qed.

Lemma upgrade_ok : command_ok upgrade_Command.
Proof using no_handler.
  intros flags h. cbn [c_Before c_Action upgrade_Command].
  destruct (Upgrade.Before (upgrade_opts flags)) as [opts|e] eqn:Hb; wp_norm.
  - apply program_wp. by econstructor.
  - unfold main_guard at 1. rewrite no_handler. split; [by left|]. intros r _. by wp_norm.
Qed.

Lemma New_wp h :
  wp any_resp main_guard (New Mkdev fuel)
    (fun o _ => exists a, o = Done a /\ app_Name a = "k3os" /\ app_Before a = (fun _ => ret tt) /\
       Forall command_ok (app_Commands a)) h.
Proof using no_handler.
  unfold New, install_Command, mode_Get. wp_norm. split.
  { unfold main_guard. rewrite no_handler. auto. }
  intros r _. destruct r as [bytes|e]; [|destruct (os_IsNotExist e)]; wp_norm; eexists; split_and!; try done;
    repeat (apply Forall_cons_2; [|]); try apply Forall_nil_2;
    first [apply rc_ok | apply config_ok | apply upgrade_ok | idtac].
  all: intros flags h'; apply after_root_wp; intros older; apply program_wp; constructor.
Qed.

Lemma run_chosen_wp a ch h :
  app_Before a = (fun _ => ret tt) -> Forall command_ok (app_Commands a) ->
  wp any_resp main_guard (run_chosen a ch) (fun _ _ => True) h.
Proof using no_handler.
  intros Hb Hc. destruct ch as [r|i global flags]; [done|]. simpl.
  destruct (app_Commands a !! i) as [c|] eqn:Hi; [|done]. rewrite Hb. wp_norm.
  by apply (Forall_lookup_1 _ _ _ _ Hc Hi).
Qed.

Lemma command_line_wp h :
  wp any_resp main_guard
    (let* cmd := New Mkdev fuel in
     let path := path_Base Args0 in
     let sub := if bool_decide (path <> app_Name cmd) && bool_decide (is_Some (findCommand (app_Commands cmd) path))
                then [path] else [] in
     let* r := cli_Run cmd ([app_Name cmd] ++ sub ++ Args) in
     match r with Ok _ => Ret tt | Err _ => Halt (ExitWith 1) end) (fun _ _ => True) h.
Proof using no_handler.
  apply wp_bind. eapply wp_mono; [|apply New_wp]. intros o h1 (a & -> & _ & Hb & Hc). cbn [bind_post].
  apply wp_bind. rewrite cli_Run_order.
  apply wp_bind. eapply wp_mono; [|apply library_wp, cli_parse_calls]. intros [ch|s|] h2 _; try done.
  apply wp_bind. eapply wp_mono; [|by apply run_chosen_wp]. intros [r|s|] h3 _; try done.
  eapply wp_mono; [|apply library_wp, cli_finish_calls]. by intros [[[]|e]|s|] h4 _.
Qed.
End Main.

(** C6: what the process does under each of its names.  Under the name of a registered handler it
    does what that handler does and nothing else.  Under any other name only the program of a
    command acts: rc, the application of the configuration and the installation run only right after
    the process was found to be root's, an upgrade only with options that were checked and completed;
    besides, the mode file is read, the user asked for, and the library reads the environment and
    prints. *)
Theorem main_acts_as `{UnicodeTables} `{ThirdParty} `{CliLibrary} `{Reexec}
  Self Args0 Args Mkdev quote marshal fuel h o :
  exec any_resp (main Self Args0 Args Mkdev quote marshal fuel) [] h o ->
  guaranteed (main_guard Self Args0 Args Mkdev quote marshal fuel) [] h.
Proof.
  intros Hex. apply (fun w => proj1 (wp_sound any_resp _ _ (fun _ _ => True) _ _ _ w Hex)).
  unfold main. apply wp_bind. rewrite reexec_Init_runs.
  destruct (assoc_find reexec_Name _) as [handler|] eqn:Hf.
  - apply wp_bind. eapply wp_weaken; [done| | |apply makes_wp].
    + intros h' c Hc. unfold main_guard, handlers. by rewrite Hf.
    + by intros [[]|s|] h' _.
  - by apply command_line_wp.
Qed.

(** ** A command line *)

(** A library that takes the first argument for the command, whose flags it leaves at their defaults. *)
Definition first_argument (a : App) (args : list string) : choice :=
  match args with
  | _ :: name :: _ =>
      match list_find (fun c => c_Name c = name \/ name ∈ c_Aliases c) (app_Commands a) with
      | Some (i, c) =>
          let none := {| p_Bool _ := false; p_String _ := "" |} in Chosen i none none
      | None => NoCommand (Err (ErrText ("No help topic for '" +:+ name +:+ "'")))
      end
  | _ => NoCommand (Ok tt)
  end.

#[local] Instance demo_library : CliLibrary.
Proof.
  refine {|
    cli_Run a args := run_chosen a (first_argument a args);
    cli_parse a args := Ret (first_argument a args);
    cli_finish r := Ret r |}.
  - intros a args. simpl. by rewrite bind_ret_r.
  - done.
  - done.
Defined.

#[local] Instance demo_reexec : Reexec.
Proof.
  refine {|
    reexec_Name := "/usr/sbin/k3os";
    reexec_Init handlers :=
      match assoc_find "/usr/sbin/k3os" handlers with
      | Some p => let* _ := p in Ret true
      | None => Ret false
      end |}.
  done.
Defined.

#[local] Existing Instance demo_third_party.

Definition user (uid : Z) (c : call) : option (resp c) :=
  match c with Getuid => Some uid | _ => None end.

#[local] Abbreviation k3os_rc :=
  (main "/proc/self/exe" "/usr/sbin/k3os" ["rc"] (fun a b => a * 256 + b)%Z (fun s => s) (fun _ => Ok "") 40).

(** For root rc starts right after the check; for another user it is over with the check. *)
Lemma main_acts_as_witness :
  guaranteed (main_guard "/proc/self/exe" "/usr/sbin/k3os" ["rc"] (fun a b => a * 256 + b)%Z (fun s => s)
    (fun _ => Ok "") 40) [] (history (user 0) k3os_rc) /\
  map ev_call (take 4 (rev (history (user 0) k3os_rc))) =
    [ReadFile "/run/k3os/mode"; Getuid; MkdirAll "/proc" (oct 755); SysMount "proc" "/proc" "proc" 2097166 ""] /\
  map ev_call (history (user 1000) k3os_rc) = [Getuid; ReadFile "/run/k3os/mode"] /\
  final (user 1000) k3os_rc = Halted (ExitWith 1).
Proof.
  split; [exact (main_acts_as _ _ _ _ _ _ _ _ _ (world_exec (user 0) k3os_rc))|].
  vm_compute. split_and!; reflexivity.
Defined.
