(* ===== verification/InitrdSpec.v ===== *)
(** * InitrdSpec: the init of the initramfs, up to the start of enter-root. *)

From S2P Require Import Prelude GoStrings GoPath Effects OS Only System ModeDetect TestMode Walk TransferRoot TransferRootSpec EnterChroot EnterChrootSpec CliConfig Main MainSpec.
Open Scope string_scope.
Open Scope list_scope.
Open Scope go_scope.

(** execve returns only when it failed. *)
Definition exec_returns (c : call) : resp c -> Prop :=
  match c return resp c -> Prop with
  | SysExec _ _ _ => fun r => exists e, r = Err e
  | _ => fun _ => True
  end.

(** The file system of Linux, the binary with this content, and execve. *)
Definition initrd_rely (content : list ascii) : @rely call resp := fun h c r =>
  walk_rely h c r /\ file_reads content h c r /\ exec_returns c r.

(** The root is not moved: it was moved before, or it is of another kind. *)
Definition root_stays (h : list ev) : Prop :=
  (exists r, h = [Ev (Unsetenv relocated) r; Ev (Getenv relocated) "true"]) \/
  (exists v t, h = [Ev (SysStatfs ".") (Ok t); Ev (Getenv relocated) v] /\ v <> "true" /\
     t <> ramfsMagic /\ t <> tmpfsMagic).

Lemma root_stays_reads h : root_stays h -> consumed h = 0%nat.
Proof. by intros [(r & ->)|(v & t & -> & _)]. Qed.

Lemma consumed_app h1 h2 : consumed (h1 ++ h2) = (consumed h1 + consumed h2)%nat.
Proof. induction h1 as [|e h1 IH]; simpl; [done|]. rewrite IH. lia. Qed.

Section Initrd.
Context `{UnicodeTables} `{ThirdParty}.
Context (Self Args0 : string) (Args : list string) (Mkdev : Z -> Z -> Z).
Context (quote : string -> string) (marshal : Results -> result string) (fuel : nat) (content : list ascii).

Definition remount : call := OS.Mount "" "/" "none" "rw,remount".

(** The stages, each with its own part of the history. *)
Definition initrd_guard : @guar call resp := fun h c =>
  (h = [] /\ c = Stat postChrootSentinel) \/
  (exists i own, h = own ++ [Ev (Stat postChrootSentinel) (Ok i)] /\
     boot_guard Args0 Args Mkdev fuel own c) \/
  (exists e own, h = own ++ [Ev (Stat postChrootSentinel) (Err e)] /\
     (relocate_guard own c \/ (root_stays own /\ c = remount))) \/
  (exists e r moved own, h = own ++ Ev remount r :: moved ++ [Ev (Stat postChrootSentinel) (Err e)] /\
     root_stays moved /\ mount_guard Self Args0 Args content own c).

(** It returns only from the last stage, where enter-root was started and ended well. *)
Definition initrd_post (o : outcome unit) (h : list ev) : Prop :=
  o = Done tt -> exists e r moved own,
    h = own ++ Ev remount r :: moved ++ [Ev (Stat postChrootSentinel) (Err e)] /\
    root_stays moved /\ mount_post (Done (Ok tt)) own.

Lemma relocate_stage e :
  wp (initrd_rely content) initrd_guard Relocate
    (fun o h => match o with
                | Done _ => exists moved, h = moved ++ [Ev (Stat postChrootSentinel) (Err e)] /\ root_stays moved
                | _ => True
                end) [Ev (Stat postChrootSentinel) (Err e)].
Proof using Type.
  eapply wp_weaken with (R := initrd_rely content); [done| | |].
  3: { apply (wp_answers exec_returns); [by intros h c r (_ & _ & Hr)|].
       apply (wp_after walk_rely _ relocate_guard _ relocate_post [] [Ev (Stat postChrootSentinel) (Err e)]);
         [|apply Relocate_wp].
       by intros h c r (Hw & _). }
  - intros h c (own & -> & Hc). right. right. left. by exists e, own; eauto.
  - intros [[]|s|] h ((own & -> & Hp) & new & Heq & Ha); try done. exists own. split; [done|].
    apply app_inj_tail in Heq as [<- _]. destruct Hp as [Hp|[Hp|(env & older & ->)]]; [by left|by right|].
    apply Forall_cons in Ha as [[e' [=]] _].
Qed.

Lemma mount_stage e r moved :
  (Z.of_nat (List.length content) < 2 ^ 64)%Z -> (List.length content < fuel)%nat -> root_stays moved ->
  let older := Ev remount r :: moved ++ [Ev (Stat postChrootSentinel) (Err e)] in
  wp (initrd_rely content) initrd_guard
    (EnterChroot.Mount Self Args0 "k3os.debug" true fuel "./k3os/data" (os_Args Args0 Args))
    (fun o h => exists own, h = own ++ older /\ mount_post o own) older.
Proof using Type.
  intros Hlen Hfuel Hm older. eapply wp_weaken with (R := initrd_rely content); [done| | |].
  3: { apply (wp_after (file_reads content) _ (mount_guard Self Args0 Args content) _ mount_post [] older);
         [|by apply Mount_wp].
       intros h c x (_ & Hr & _). destruct c; try exact Hr. cbn in Hr |- *.
       rewrite consumed_app in Hr.
       assert (consumed older = 0%nat) as Hz by (cbn; rewrite consumed_app; by rewrite root_stays_reads).
       by rewrite Hz, Nat.add_0_r in Hr. }
  - intros h c (own & -> & Hc). do 3 right. by exists e, r, moved, own.
  - done.
Qed.

Lemma initrd_wp :
  (Z.of_nat (List.length content) < 2 ^ 64)%Z -> (List.length content < fuel)%nat ->
  wp (initrd_rely content) initrd_guard (initrd Self Args0 Args Mkdev quote marshal fuel) initrd_post [].
Proof using Type.
  intros Hlen Hfuel. unfold initrd. wp_norm. split; [by left|]. intros [i|e] _; wp_norm.
  - eapply wp_weaken with (R := any_resp); [| | |apply (wp_after any_resp any_resp (boot_guard Args0 Args Mkdev fuel) _ (fun o _ => o <> Done tt)
      [] [Ev (Stat postChrootSentinel) (Ok i)]); [done|apply postChroot_wp]].
    + done.
    + intros h c (own & -> & Hc). right. left. by exists i, own.
    + intros o h (own & -> & Ho) Hd. done.
  - apply wp_bind. eapply wp_mono; [|apply relocate_stage]. intros [[]|s|] h1; try done.
    intros (moved & -> & Hm). wp_norm. split.
    { right. right. left. exists e, moved. auto. }
    intros r _. wp_norm. apply wp_bind. eapply wp_mono; [|by apply mount_stage].
    intros [[[]|err]|s|] h2 (own & -> & Hp); try done. intros _. by exists e, r, moved, own.
Qed.
End Initrd.

(** C7: the init of the initramfs goes through its stages in order.  When /.base is there the boot
    follows, with the promise of C4; else the root is moved first, as C21 promises.  Only when it is
    not to be moved, or was, is it remounted once, and then enter-root is started, as C30 promises,
    each stage keeping its promise on its own part of the history.  It returns only when enter-root
    was started and its device detached. *)
Theorem initrd_in_stages `{UnicodeTables} `{ThirdParty} Self Args0 Args Mkdev quote marshal fuel content h o :
  (Z.of_nat (List.length content) < 2 ^ 64)%Z -> (List.length content < fuel)%nat ->
  exec (initrd_rely content) (initrd Self Args0 Args Mkdev quote marshal fuel) [] h o ->
  guaranteed (initrd_guard Self Args0 Args Mkdev fuel content) [] h /\ (o <> Running -> initrd_post o h).
Proof. intros Hlen Hfuel. by apply wp_sound, initrd_wp. Qed.

(** ** A machine whose root was moved before, with the image in a file beside the binary *)

#[local] Existing Instance demo_third_party.

Definition moved_root (c : call) : option (resp c) :=
  match c return option (resp c) with
  | Stat p => if bool_decide (p = postChrootSentinel) then Some (Err (ErrSys "stat" p ENOENT)) else None
  | Getenv k => if bool_decide (k = relocated) then Some "true" else None
  | ReadDir p => Some (Err (ErrSys "open" p ENOENT))
  | FileRead _ _ => Some ("", Some EOF)
  | SysExec p _ _ => Some (Err (ErrSys "exec" p ENOENT))
  | LstatSys p => Some (Err (ErrSys "lstat" p ENOENT))
  | Getpid => Some 2%Z
  | _ => None
  end.

Lemma moved_root_relies h c : initrd_rely [] h c (default (all_ok c) (moved_root c)).
Proof.
  unfold initrd_rely. destruct c; try done; repeat split; try by eauto.
  - intros _. apply drop_nil.
  - by eexists.
  - constructor.
Qed.

#[local] Abbreviation demo_initrd :=
  (initrd "/proc/self/exe" "/init" ["single"] (fun a b => a * 256 + b)%Z (fun s => s) (fun _ => Ok "") 1).

Lemma initrd_in_stages_witness :
  let h := history moved_root demo_initrd in
  guaranteed (initrd_guard "/proc/self/exe" "/init" ["single"] (fun a b => a * 256 + b)%Z 1 []) [] h /\
  initrd_post (final moved_root demo_initrd) h /\ final moved_root demo_initrd = Done tt /\
  Ev (ExecNamespaced "/init" ["enter-root"; "single"] []) (Ok tt) ∈ h.
Proof.
  destruct (initrd_in_stages "/proc/self/exe" "/init" ["single"] (fun a b => a * 256 + b)%Z (fun s => s) (fun _ => Ok "") 1
    [] _ _ ltac:(reflexivity) ltac:(apply Nat.ltb_lt; reflexivity)
    (world_exec_rely _ moved_root demo_initrd moved_root_relies)) as [Hg Hp].
  split; [exact Hg|]. split; [by apply Hp|]. vm_compute. split; [done|]. repeat first [by left|right].
Defined.
